(* ===== verification/_CoqProject ===== *)
-Q . S2P
Prelude.v
GoStrings.v
Access.v
Secrets.v
Auth.v
RateLimiter.v
Session.v
ForwardPolicy.v
Metrics.v
Tunnels.v
MemoryStore.v
GoTime.v
TimeText.v
SQL.v
PostgresStore.v
PostgresSpec.v
PostgresProps.v
GoParse.v
GoFloat.v
JSON.v
JSONParse.v
JSONValue.v
PathGuard.v
Disk.v
Certificates.v
HostKeys.v
KnownHosts.v
Client.v
ClientMain.v
Telemetry.v
Validator.v
Config.v
PolicyService.v
AuditService.v
Commands.v
JSONDecode.v
StoreJSON.v
Redis.v
RedisStore.v
RedisProps.v
Stores.v
Conn.v
TCPServer.v
AuthorizedKeys.v
SSHServer.v
SSHConnection.v
Persistence.v
Restore.v
HTTPAPI.v
ControlAPI.v
Runtime.v
MetricCalls.v
Lifecycle.v
Program.v
