(* ===== verification/Prelude.v ===== *)
(** * SentinelOps: a verification development

    SentinelOps is a server for remote access: clients log in over TCP or SSH, run a
    fixed set of commands and, over SSH, forward ports; an HTTPS control API lists
    sessions and tunnels and closes tunnels; a client logs in over SSH.  This library
    models the Go code under
    [src/] as Rocq functions and proves what makes it correct.  Every file opens with a
    comment on what it holds; every definition that models code has the name of the
    source where the two languages allow it.

    ** The program and the files

    - [Prelude]: results with errors, machine integers, instants and durations, the
      order in which Go ranges over a map (the interface [MapRange]: any order without
      repetition), sorting, list lemmas.  [GoStrings], [GoTime], [GoParse],
      [GoFloat], [TimeText], [JSON], [JSONParse], [JSONValue], [JSONDecode]: what the code uses of
      [strings], [strconv], [unicode], [net], [time], [bufio], [os] and [encoding/json],
      on bytes, with their lemmas; the JSON files hold a printer, a parser of texts into
      values, decoders into records, and that what is printed is read back.
    - [Access], [Secrets], [Auth], [RateLimiter]: who may do what, generated secrets,
      logins, and the limiter of failed logins
      ([internal/access], [internal/secrets], [internal/auth]).
    - [Session]: sessions and their registry ([internal/session]); the registry holds
      references, so sessions live in a heap.
    - [ForwardPolicy], [Tunnels]: which ports may be forwarded, and the manager of the
      tunnels that are open ([internal/forwarding]); [Metrics] the counters
      ([internal/metrics]).
    - The three implementations of the store of sessions, tunnels, attempts and audit
      entries ([internal/store]).  [MemoryStore] is the one in memory.  [SQL] has the
      statements that [PostgresStore] sends, their documented meaning and the class of
      servers that keep to it; [PostgresSpec] is a specification on maps with a refinement
      lemma per operation and [PostgresProps] the theorems.  [Redis] is the same for the
      commands that [RedisStore] sends, [StoreJSON] the records as JSON text, [RedisProps]
      the theorems.  In both, an
      operation is a program of requests, between which other clients act and whose
      answers may be lost.  [Stores] is the choice among the three.
    - [PathGuard], [Validator]: checks on file names and on input lines
      ([internal/security]).
    - [Config]: the environment, the environment file and the defaults
      ([internal/config]).
    - [PolicyService], [AuditService], [Commands]: policy checks, audits and the eight
      commands ([internal/policy], [internal/audit], [internal/commands]).
    - [Conn]: a state monad for one connection, with the log of what it does, and a
      logic of triples for it; other connections interfere with the shared state at
      every access.  [TCPServer] ([internal/server]) and [SSHServer]
      ([internal/transport/sshserver]) are written in it; [AuthorizedKeys] is
      [internal/crypto/authorizedkeys].  [SSHConnection] puts the handlers of one SSH
      connection together: its loop, its goroutines and what they share, as a
      transition system whose schedules are lists of choices; a goroutine waits for the
      lines of its client and for the copies of its tunnel.
    - [Persistence]: snapshots on disk ([internal/persistence]), as threads of system
      calls over a file system with names and inodes; [Restore]: how they are read back.
    - [Disk], [HostKeys], [KnownHosts], [Client], [ClientMain]: files by name, the host
      key of the server ([internal/crypto/hostkeys]), and the SSH client with its
      command line and its known hosts ([cmd/client], [internal/client]).
    - [Telemetry]: tracing, correlation ids and the log level ([internal/telemetry],
      [internal/observability]).
    - [HTTPAPI], [ControlAPI], [Certificates]: the handlers of the control API, the API
      as it is started with its middleware and what it documents of itself, and its pair
      of certificate files ([internal/controlplane/httpapi]).
    - [Runtime]: how [cmd/server/main.go] puts the parts together; [Program]: [run] and
      [main] from the environment to the started services; [MetricCalls]: every call the
      program makes to its metrics.  [Lifecycle]: how its
      services run and end, as a step relation over the context, the channel of errors
      and the goroutines.

    A command or an API request reaches the tunnels through the class
    [Tunnels.Controller], which the manager implements; a transport reaches the users
    through the class [Auth.Authenticator], which the service implements.

    ** What the theorems show

    - Logins.  The limiter refines a specification that remembers every failure; a
      lockout holds; guesses are bounded per window and per connection, also when an
      attacker guesses over several connections at once, up to how far a reading of the
      clock may lag when its call takes the lock; a login succeeds
      exactly with the exact password; the identity of a session was earned by one of its
      attempts, whatever the SSH library does within what it documents; a key is accepted
      exactly when the file of the user lists it; the program started with an environment
      that does not switch the login off requires one, with the password that the
      environment gives the account or that was generated for it.
    - Authority.  A command runs only on a validated line and after a login; a command
      closes a tunnel only for its owner or an administrator; what an unprivileged user
      is shown does not depend on others; ports are forwarded only as the policy allows;
      the control API changes and reveals nothing without the credentials, and closes
      exactly the tunnel a request names.
    - State.  Sessions and tunnels are accounted for exactly once; snapshots and metrics
      agree with the state; the stores keep their invariants, page their listings and
      delete in cascade; a save to disk is atomic, and what is saved is read back.
    - Stores.  The PostgreSQL store refines a specification on maps and its reads agree
      with the store in memory, listings up to their order; the session of every tunnel
      exists; attempts of concurrent clients are all counted, each once in its window; no
      value becomes part of a query; a session in Redis is read back until its day is over.
    - Client.  Credentials are offered only after a key was accepted that the known hosts
      file has for the host, or that an unknown host was allowed to bring; the
      key of a first contact is the only one trusted later; checking is off only when
      the command line says so; the host key of the server does not change between
      starts; a correlation id travels from server to server.
    - SSH connections.  A schedule of the goroutines of a connection is bounded; at its
      end the session is accounted for, and what remains is named: accept loops on a
      listener that is still open, and tunnels whose far end never ends.  The listeners of
      its forwards are closed, but for those of a request that was being answered at the
      end.
    - Process.  No report of a service is ever blocked; the program ends well only after
      a signal and badly only with the error with which a service ended; a certificate
      pair that does not load is replaced; the metrics library accepts every call of the
      program; the API serves every operation that it documents, as it documents it.
    - Configuration and input.  Protections are off only on purpose; the environment
      takes precedence over the file; names stay inside a base directory; validators
      fail closed.

    Some theorems and lemmas state a defect exactly, where the code has one: pages whose
    bounds overflow, a lock dropped with its window, saves made at the same time, the
    names of one and two dots as user names, the empty later pages and the empty listings
    of the Redis store, locks that are not seen while the database is away, a torn host
    key, an entry appended to an incomplete line of known hosts, a listener registered
    after its connection ended, a tunnel that waits for an idle far end after its client
    left, guesses that are admitted before others are counted, a lockout cut short by a
    clock read before the lock was taken.

    ** Conventions and bounds

    Integers are [Z] with the wrap-around of their width written out where it can occur.
    An instant is the number of nanoseconds since year 1, UTC; the clock is an input.  A
    mutex makes a critical section one step, with a clock reading from before it where the
    code reads before; what happens between two operations is an
    argument or the interference of [Conn].  Recursion that is not structural takes
    fuel, the length of the text or of the input plus one (twice the length plus two for
    JSON values, enough by [JSONValue.parse_fuel_enough]), and the lemmas show it is
    enough: a loop of a connection consumes a line per round, a scan consumes text at
    every entry, the login loop is bounded by the configured attempts.  Code outside
    [src/] is an input of the definitions that use it: the SSH library, the gRPC client,
    OPA, the external validator and auditor, [crypto/rand], the file system where only
    its contents matter.  The two database servers are classes ([SQL.Postgres],
    [Redis.Redis]): what a server does with a statement or a command is a parameter, and
    the law is that one which fits the schema, with arguments in range, has the meaning
    that the language of the statement documents, which [SQL.exec], [SQL.query] and
    [Redis.exec] write out; what a server may choose (rounding, the form of documents, the
    order of a scan, identifiers) stays open.  The libraries of known hosts, of keys, of
    certificates and of tracing are classes with their documented laws and an instance
    each.  The SSH handshakes of the server and of the client are any programs that call
    the callbacks and offer credentials as documented: a connection carries the
    permissions of a callback that accepted, and the host key is checked before a
    credential is offered.

    ** Not modelled

    The setup of the integration tests.  The calls of spans and log lines inside the
    transports and the policy runners, which do not change what they do.  What the
    libraries do behind their interfaces: the SSH, TLS and HTTP protocols, OPA and gRPC,
    the exporters of metrics and traces, the scheduler.  The bytes copied through a
    tunnel; of the copies it is an input when they end: at any time, once the client has
    left, or never.  Deadlines of connections; how long the shutdown waits.  Of the file
    [openapi.json] only the operations; its descriptions are text for readers. *)

From Stdlib Require Export ZArith Lia.
From Stdlib Require Ascii.
From stdpp Require Export base gmap strings list fin_maps sorting.
Export Stdlib.Strings.Ascii (ascii(..)).
Export (notations) Stdlib.Strings.Ascii.

#[export] Set Warnings "-clear-no-such-hyp,-register-all".

(** ** Results of fallible operations

    A Go function that returns [(T, error)] returns a [result E T]: [Ok v] is
    [(v, nil)] and [Err e] is [(zero, e)].  The type of errors [E] is chosen by
    each component (a message, or an enumeration of the sentinel errors). *)

Inductive result (E A : Type) : Type :=
| Ok (a : A)
| Err (e : E).
Arguments Ok {E A} a.
Arguments Err {E A} e.

Declare Scope go_scope.
Delimit Scope go_scope with go.
Open Scope go_scope.

Notation "'let*' x ':=' m 'in' k" :=
  (match m with Ok x => k | Err e => Err e end)
  (at level 10, x binder, m at level 100, k at level 200) : go_scope.

Definition is_ok {E A} (r : result E A) : bool :=
  match r with Ok _ => true | Err _ => false end.

#[export] Instance result_eq_dec {E A} `{EqDecision E, EqDecision A} :
  EqDecision (result E A).
Proof. solve_decision. Defined.

(** ** Machine integers

    [int] is 64 bits wide on the platforms the program is built for. *)

Definition max_int64 : Z := 2 ^ 63 - 1.
Definition min_int64 : Z := - 2 ^ 63.

Definition int64_wrap (z : Z) : Z := (z + 2 ^ 63) mod 2 ^ 64 - 2 ^ 63.
Definition uint64_wrap (z : Z) : Z := z mod 2 ^ 64.

Definition in_int64 (z : Z) : Prop := (min_int64 <= z <= max_int64)%Z.
Definition in_uint32 (z : Z) : Prop := (0 <= z < 2 ^ 32)%Z.

#[export] Instance in_int64_dec z : Decision (in_int64 z).
Proof. unfold in_int64. apply _. Defined.
#[export] Instance in_uint32_dec z : Decision (in_uint32 z).
Proof. unfold in_uint32. apply _. Defined.

Lemma int64_wrap_id z : in_int64 z → int64_wrap z = z.
Proof.
  unfold in_int64, int64_wrap, min_int64, max_int64. intros Hz.
  rewrite Z.mod_small; lia.
Qed.

Lemma int64_wrap_range z : in_int64 (int64_wrap z).
Proof.
  unfold in_int64, int64_wrap, min_int64, max_int64.
  pose proof (Z.mod_pos_bound (z + 2 ^ 63) (2 ^ 64)). lia.
Qed.

Lemma uint64_wrap_id z : (0 <= z < 2 ^ 64)%Z → uint64_wrap z = z.
Proof. apply Z.mod_small. Qed.

(** ** Time

    A [time.Time] is its number of nanoseconds since the zero time (January 1
    of year 1, UTC), so [IsZero] is equality with 0; a [time.Duration] is a
    number of nanoseconds of 64 bits.  Readings of the clock are inputs of the
    model: one argument per call of [time.Now] in the source. *)

Abbreviation Time := Z (only parsing).
Abbreviation Duration := Z (only parsing).

Definition zero_time : Time := 0%Z.
Definition Second : Duration := 1000000000%Z.
Definition Minute : Duration := (60 * Second)%Z.

Definition IsZero (t : Time) : bool := (t =? 0)%Z.
Definition Before (t u : Time) : bool := (t <? u)%Z.
Definition After (t u : Time) : bool := (u <? t)%Z.
Definition Add (t : Time) (d : Duration) : Time := (t + d)%Z.

(** [Time.Sub] saturates at the extreme durations. *)
Definition Sub (t u : Time) : Duration := Z.max min_int64 (Z.min max_int64 (t - u)).

Lemma Sub_exact t u : in_int64 (t - u) → Sub t u = (t - u)%Z.
Proof. unfold in_int64, Sub. lia. Qed.

(** ** Iteration over a map, and sorting

    Go leaves the order of [range] over a map unspecified.  The order is an
    interface: every theorem holds for whichever permutation of the entries a
    run produces.  [sort.Slice] is not stable; because the order of its input
    is already arbitrary here, a stable sort of an arbitrary order has the same
    possible outcomes. *)

Class MapRange := {
  range {V : Type} (m : gmap string V) : list (string * V);
  range_perm {V : Type} (m : gmap string V) : range m ≡ₚ map_to_list m;
}.

#[export] Instance map_range_sorted_keys : MapRange | 100 := {|
  range V m := map_to_list m;
  range_perm V m := Permutation_refl (map_to_list m);
|}.

Section Range.
Context `{MR : MapRange} {V : Type}.
Implicit Types (m : gmap string V).

Lemma elem_of_range m k v : (k, v) ∈ range m ↔ m !! k = Some v.
Proof. rewrite range_perm. apply elem_of_map_to_list. Qed.

Lemma NoDup_range_keys m : NoDup (range m).*1.
Proof. rewrite range_perm. apply NoDup_fst_map_to_list. Qed.

Lemma length_range m : length (range m) = size m.
Proof. by rewrite range_perm, length_map_to_list. Qed.

End Range.

(** Sorting by a key in [Z], as [sort.Slice(out, Before)] does. *)
Section SortBy.
Context {A : Type} (key : A → Z).

Definition key_le (a b : A) : Prop := (key a <= key b)%Z.

#[export] Instance key_le_dec a b : Decision (key_le a b).
Proof. unfold key_le. apply _. Defined.
#[export] Instance key_le_trans : Transitive key_le.
Proof. intros a b c. unfold key_le. lia. Qed.
#[export] Instance key_le_total : Total key_le.
Proof. intros a b. unfold key_le. lia. Qed.

Definition sort_by (l : list A) : list A := merge_sort key_le l.

Lemma sort_by_perm l : sort_by l ≡ₚ l.
Proof. apply merge_sort_Permutation. Qed.

Lemma sort_by_sorted l : StronglySorted key_le (sort_by l).
Proof. apply StronglySorted_merge_sort; apply _. Qed.

End SortBy.

(** ** Lists and maps *)

Lemma filter_filter_list {A} (P Q : A → Prop)
    `{∀ x, Decision (P x), ∀ x, Decision (Q x)} (l : list A) :
  (∀ x, P x → Q x) → filter P (filter Q l) = filter P l.
Proof.
  intros HPQ. induction l as [|x l IH]; [done|].
  rewrite !filter_cons. case_decide as HQ; [|].
  - rewrite filter_cons. by case_decide; rewrite IH.
  - rewrite decide_False by auto. done.
Qed.

Lemma filter_all {A} (P : A → Prop) `{∀ x, Decision (P x)} (l : list A) :
  Forall P l → filter P l = l.
Proof.
  induction 1 as [|x l Hx _ IH]; [done|]. rewrite filter_cons, decide_True by done.
  by rewrite IH.
Qed.

Lemma filter_none {A} (P : A → Prop) `{∀ x, Decision (P x)} (l : list A) :
  (∀ x, x ∈ l → ¬ P x) → filter P l = [].
Proof.
  induction l as [|x l IH]; intros Hl; [done|].
  rewrite filter_cons, decide_False by (apply Hl; left). apply IH. intros y Hy. apply Hl. by right.
Qed.

(** ** Automation *)

Create HintDb sops.

#[export] Hint Resolve int64_wrap_range : sops.
#[export] Hint Resolve sort_by_perm sort_by_sorted : sops.

(** Split a hypothesis on booleans the way the source's guards read. *)
Ltac bool_to_prop :=
  repeat match goal with
  | H : (_ && _)%bool = true |- _ => apply andb_true_iff in H as [? ?]
  | H : (_ || _)%bool = false |- _ => apply orb_false_iff in H as [? ?]
  | H : negb _ = true |- _ => apply negb_true_iff in H
  | H : negb _ = false |- _ => apply negb_false_iff in H
  | H : (_ =? _)%Z = true |- _ => apply Z.eqb_eq in H
  | H : (_ =? _)%Z = false |- _ => apply Z.eqb_neq in H
  | H : (_ <? _)%Z = true |- _ => apply Z.ltb_lt in H
  | H : (_ <? _)%Z = false |- _ => apply Z.ltb_ge in H
  | H : (_ <=? _)%Z = true |- _ => apply Z.leb_le in H
  | H : (_ <=? _)%Z = false |- _ => apply Z.leb_gt in H
  | H : bool_decide _ = true |- _ => apply bool_decide_eq_true in H
  | H : bool_decide _ = false |- _ => apply bool_decide_eq_false in H
  end.

(** Case analysis on the condition of the outermost [if] or [match]. *)
Ltac case_if :=
  match goal with
  | |- context [if ?b then _ else _] => destruct b eqn:?
  | H : context [if ?b then _ else _] |- _ => destruct b eqn:?
  end.
