(* ===== verification/GoStrings.v ===== *)
(** * The Go [strings], [unicode], [strconv] and [net] functions the program uses

    A Go string is a sequence of bytes, here stdpp's [string] (a sequence of
    [ascii] bytes).  The functions are the library's algorithms at the level of
    bytes and of UTF-8 runes, exact for every byte sequence, including the
    Unicode spaces trimmed by [TrimSpace] and the Unicode letters lowered by
    [ToLower].  Nothing here maps to a file of the repository: it is the part
    of the Go standard library the components call. *)

From stdpp Require Import pretty.
From S2P Require Import Prelude.

#[local] Open Scope Z_scope.

Definition byte_val (a : ascii) : Z := Z.of_N (Ascii.N_of_ascii a).
Definition byte_of (z : Z) : ascii := Ascii.ascii_of_N (Z.to_N z).

Lemma byte_val_range a : 0 <= byte_val a < 256.
Proof. unfold byte_val. pose proof (Ascii.N_ascii_bounded a). lia. Qed.

Lemma byte_of_val z : 0 <= z < 256 → byte_val (byte_of z) = z.
Proof.
  intros Hz. unfold byte_val, byte_of.
  rewrite Ascii.N_ascii_embedding by lia. lia.
Qed.

Lemma byte_val_of a : byte_of (byte_val a) = a.
Proof. unfold byte_val, byte_of. by rewrite N2Z.id, Ascii.ascii_N_embedding. Qed.

(** [len(s)] *)
Definition len (s : string) : Z := Z.of_nat (String.length s).

(** ** Concatenation *)

Lemma string_app_nil_r (s : string) : (s +:+ "")%stdpp = s.
Proof. induction s as [|a s IH]; [done|]. change (String a (s +:+ "") = String a s). by rewrite IH. Qed.

Lemma string_app_assoc (s t u : string) : s +:+ (t +:+ u) = (s +:+ t) +:+ u.
Proof.
  induction s as [|a s IH]; [done|].
  change (String a (s +:+ (t +:+ u)) = String a ((s +:+ t) +:+ u)). by rewrite IH.
Qed.

Lemma string_app_cons a (s t : string) : String a s +:+ t = String a (s +:+ t).
Proof. done. Qed.

Lemma string_length_app (s t : string) :
  String.length (s +:+ t) = (String.length s + String.length t)%nat.
Proof. induction s as [|a s IH]; [done|]. rewrite string_app_cons. simpl. by rewrite IH. Qed.

Lemma string_app_inj_length (s1 s2 t1 t2 : string) :
  String.length s1 = String.length s2 → s1 +:+ t1 = s2 +:+ t2 → s1 = s2 ∧ t1 = t2.
Proof.
  revert s2. induction s1 as [|a s1 IH]; intros [|b s2] Hlen Heq; try done.
  rewrite !string_app_cons in Heq. simpl in Hlen. injection Heq as -> Heq.
  destruct (IH s2) as [-> ->]; [lia|done|done].
Qed.

Lemma string_app_inj_r (s1 s2 t : string) : s1 +:+ t = s2 +:+ t → s1 = s2.
Proof.
  intros Heq. eapply (proj1 (A:=s1 = s2)), (string_app_inj_length s1 s2 t t); [|exact Heq].
  apply (f_equal String.length) in Heq. rewrite !string_length_app in Heq. lia.
Qed.

(** Does the byte occur in the string?  ([strings.IndexByte(s, c) >= 0]) *)
Fixpoint contains_byte (c : ascii) (s : string) : bool :=
  match s with
  | "" => false
  | String a s => bool_decide (a = c) || contains_byte c s
  end.

Lemma contains_byte_app c s t :
  contains_byte c (s +:+ t) = contains_byte c s || contains_byte c t.
Proof.
  induction s as [|a s IH]; [done|]. rewrite string_app_cons. simpl.
  rewrite IH. by rewrite orb_assoc.
Qed.

(** ** Prefixes, substrings and splitting *)

Fixpoint strip_prefix (p s : string) : option string :=
  match p, s with
  | "", _ => Some s
  | String a p, String b s => if bool_decide (a = b) then strip_prefix p s else None
  | _, _ => None
  end.

(** [strings.HasPrefix] *)
Definition HasPrefix (s p : string) : bool :=
  match strip_prefix p s with Some _ => true | None => false end.

(** [strings.TrimPrefix] *)
Definition TrimPrefix (s p : string) : string :=
  match strip_prefix p s with Some t => t | None => s end.

(** [strings.Contains] *)
Fixpoint Contains (s sub : string) : bool :=
  HasPrefix s sub ||
  match s with "" => false | String _ s => Contains s sub end.

(** [strings.Cut] with a separator of one byte. *)
Fixpoint CutByte (s : string) (c : ascii) : string * string * bool :=
  match s with
  | "" => ("", "", false)
  | String a s =>
     if bool_decide (a = c) then ("", s, true)
     else let '(b, r, ok) := CutByte s c in (String a b, r, ok)
  end.

(** [strings.Split] with a separator of one byte: always at least one part. *)
Fixpoint SplitByte (s : string) (c : ascii) : list string :=
  match s with
  | "" => [""]
  | String a s =>
     if bool_decide (a = c) then "" :: SplitByte s c
     else match SplitByte s c with
          | [] => [String a ""]
          | p :: ps => String a p :: ps
          end
  end.

(** [strings.TrimRight(s, "\n")] and the like, for a cutset of one byte. *)
Fixpoint TrimRightByte (s : string) (c : ascii) : string :=
  match s with
  | "" => ""
  | String a s =>
     match TrimRightByte s c with
     | "" => if bool_decide (a = c) then "" else String a ""
     | t => String a t
     end
  end.

Lemma strip_prefix_spec p s t : strip_prefix p s = Some t ↔ s = p +:+ t.
Proof.
  revert s. induction p as [|a p IH]; intros s; simpl.
  { split; [by intros [= ->]|by intros ->]. }
  destruct s as [|b s]; [by split|]. rewrite string_app_cons.
  case_bool_decide as Hab; [subst; rewrite IH; split; [by intros ->|by intros [= ->]]|].
  split; [done|]. intros [= ? ?]; congruence.
Qed.

Lemma HasPrefix_spec s p : HasPrefix s p = true ↔ ∃ t, s = p +:+ t.
Proof.
  unfold HasPrefix. destruct (strip_prefix p s) as [t|] eqn:E.
  - apply strip_prefix_spec in E. naive_solver.
  - split; [done|]. intros [t Ht]. apply strip_prefix_spec in Ht. congruence.
Qed.

Lemma Contains_spec s sub : Contains s sub = true ↔ ∃ l r, s = l +:+ sub +:+ r.
Proof.
  induction s as [|a s IH]; simpl; rewrite orb_true_iff, HasPrefix_spec.
  - split; [intros [[t Ht]|?]; [|done]; by exists "", t|].
    intros (l & r & H). destruct l; [|done]. left. by exists r.
  - rewrite IH. split.
    + intros [[t Ht]|(l & r & ->)]; [by exists "", t|by exists (String a l), r].
    + intros ([|b l] & r & H); [left; by exists r|].
      rewrite string_app_cons in H. injection H as -> ->. right. by exists l, r.
Qed.

(** ** Unicode spaces

    The UTF-8 encodings of the runes for which [unicode.IsSpace] holds. *)

Definition space_encodings : list string :=
  let enc := λ l : list Z, foldr (λ z s, String (byte_of z) s) "" l in
  enc <$>
  [[9]; [10]; [11]; [12]; [13]; [32]; [194; 133]; [194; 160]; [225; 154; 128];
   [226; 128; 128]; [226; 128; 129]; [226; 128; 130]; [226; 128; 131];
   [226; 128; 132]; [226; 128; 133]; [226; 128; 134]; [226; 128; 135];
   [226; 128; 136]; [226; 128; 137]; [226; 128; 138]; [226; 128; 168];
   [226; 128; 169]; [226; 128; 175]; [226; 129; 159]; [227; 128; 128]].

(** The rest of [s] after the first encoding of [es] that starts it. *)
Fixpoint strip_any (es : list string) (s : string) : option string :=
  match es with
  | [] => None
  | e :: es =>
     match strip_prefix e s with Some t => Some t | None => strip_any es s end
  end.

Fixpoint string_rev_app (s acc : string) : string :=
  match s with "" => acc | String a s => string_rev_app s (String a acc) end.
Definition string_rev (s : string) : string := string_rev_app s "".

(** Drop leading encodings of [es]; a step removes at least one byte, so
    [String.length s] steps are enough. *)
Fixpoint trim_left_fuel (es : list string) (fuel : nat) (s : string) : string :=
  match fuel with
  | O => s
  | S fuel =>
     match strip_any es s with Some t => trim_left_fuel es fuel t | None => s end
  end.
Definition trim_left_with (es : list string) (s : string) : string :=
  trim_left_fuel es (String.length s) s.

(** [strings.TrimSpace].  Every byte of a space encoding after its first is a
    continuation byte, so decoding a rune backwards from the end of the string,
    as the library does, is matching a reversed encoding. *)
Definition TrimSpace (s : string) : string :=
  let t := trim_left_with space_encodings s in
  string_rev (trim_left_with (string_rev <$> space_encodings) (string_rev t)).

(** [strings.Fields]: the maximal runs of bytes that hold no space.  [skip] is
    the number of bytes of the current space encoding still to be passed. *)
Fixpoint fields_go (cur : string) (skip : nat) (s : string) : list string :=
  let flush := if bool_decide (cur = "") then [] else [string_rev cur] in
  match s with
  | "" => flush
  | String a s' =>
     match skip with
     | S k => fields_go cur k s'
     | O =>
        match strip_any space_encodings s with
        | Some t => flush ++ fields_go "" (String.length s' - String.length t) s'
        | None => fields_go (String a cur) 0 s'
        end
     end
  end.
Definition Fields (s : string) : list string := fields_go "" 0 s.

(** ** UTF-8 and letter case *)

Definition RuneError : Z := 65533.

Definition is_cont (a : ascii) : bool := (128 <=? byte_val a) && (byte_val a <=? 191).

(** The runes [for _, r := range s] produces: an invalid byte gives
    [RuneError] and is passed alone. *)
Fixpoint decode_runes (s : string) : list Z :=
  match s with
  | "" => []
  | String a s1 =>
     let x := byte_val a in
     if x <? 128 then x :: decode_runes s1
     else match s1 with
     | "" => [RuneError]
     | String b s2 =>
        let y := byte_val b in
        if (194 <=? x) && (x <=? 223) && is_cont b
        then ((x - 192) * 64 + (y - 128)) :: decode_runes s2
        else match s2 with
        | "" => RuneError :: decode_runes s1
        | String c s3 =>
           let z := byte_val c in
           if (224 <=? x) && (x <=? 239) && is_cont b && is_cont c
              && implb (x =? 224) (160 <=? y) && implb (x =? 237) (y <=? 159)
           then ((x - 224) * 4096 + (y - 128) * 64 + (z - 128)) :: decode_runes s3
           else match s3 with
           | "" => RuneError :: decode_runes s1
           | String d s4 =>
              let w := byte_val d in
              if (240 <=? x) && (x <=? 244) && is_cont b && is_cont c && is_cont d
                 && implb (x =? 240) (144 <=? y) && implb (x =? 244) (y <=? 143)
              then ((x - 240) * 262144 + (y - 128) * 4096 + (z - 128) * 64 + (w - 128))
                   :: decode_runes s4
              else RuneError :: decode_runes s1
           end
        end
     end
  end.

(** [utf8.AppendRune] on a Unicode scalar value. *)
Definition encode_rune (r : Z) : string :=
  if r <? 128 then String (byte_of r) ""
  else if r <? 2048 then
    String (byte_of (192 + r / 64)) (String (byte_of (128 + r mod 64)) "")
  else if r <? 65536 then
    String (byte_of (224 + r / 4096))
      (String (byte_of (128 + (r / 64) mod 64)) (String (byte_of (128 + r mod 64)) ""))
  else
    String (byte_of (240 + r / 262144))
      (String (byte_of (128 + (r / 4096) mod 64))
        (String (byte_of (128 + (r / 64) mod 64)) (String (byte_of (128 + r mod 64)) ""))).

(** The simple lower-case mappings of Unicode outside ASCII, as ranges: the
    code points [lo], [lo + stride], ... up to [hi] map to themselves plus
    [delta]. *)
Definition lower_ranges : list (Z * Z * Z * Z) :=
  [
   (192, 214, 1, 32); (216, 222, 1, 32); (256, 302, 2, 1); (304, 304, 1, -199);
   (306, 310, 2, 1); (313, 327, 2, 1); (330, 374, 2, 1); (376, 376, 1, -121);
   (377, 381, 2, 1); (385, 385, 1, 210); (386, 388, 2, 1); (390, 390, 1, 206);
   (391, 391, 1, 1); (393, 394, 1, 205); (395, 395, 1, 1); (398, 398, 1, 79);
   (399, 399, 1, 202); (400, 400, 1, 203); (401, 401, 1, 1); (403, 403, 1, 205);
   (404, 404, 1, 207); (406, 406, 1, 211); (407, 407, 1, 209); (408, 408, 1, 1);
   (412, 412, 1, 211); (413, 413, 1, 213); (415, 415, 1, 214); (416, 420, 2, 1);
   (422, 422, 1, 218); (423, 423, 1, 1); (425, 425, 1, 218); (428, 428, 1, 1);
   (430, 430, 1, 218); (431, 431, 1, 1); (433, 434, 1, 217); (435, 437, 2, 1);
   (439, 439, 1, 219); (440, 440, 1, 1); (444, 444, 1, 1); (452, 452, 1, 2);
   (453, 453, 1, 1); (455, 455, 1, 2); (456, 456, 1, 1); (458, 458, 1, 2); (459,
   475, 2, 1); (478, 494, 2, 1); (497, 497, 1, 2); (498, 500, 2, 1); (502, 502,
   1, -97); (503, 503, 1, -56); (504, 542, 2, 1); (544, 544, 1, -130); (546, 562,
   2, 1); (570, 570, 1, 10795); (571, 571, 1, 1); (573, 573, 1, -163); (574, 574,
   1, 10792); (577, 577, 1, 1); (579, 579, 1, -195); (580, 580, 1, 69); (581,
   581, 1, 71); (582, 590, 2, 1); (880, 882, 2, 1); (886, 886, 1, 1); (895, 895,
   1, 116); (902, 902, 1, 38); (904, 906, 1, 37); (908, 908, 1, 64); (910, 911,
   1, 63); (913, 929, 1, 32); (931, 939, 1, 32); (975, 975, 1, 8); (984, 1006, 2,
   1); (1012, 1012, 1, -60); (1015, 1015, 1, 1); (1017, 1017, 1, -7); (1018,
   1018, 1, 1); (1021, 1023, 1, -130); (1024, 1039, 1, 80); (1040, 1071, 1, 32);
   (1120, 1152, 2, 1); (1162, 1214, 2, 1); (1216, 1216, 1, 15); (1217, 1229, 2,
   1); (1232, 1326, 2, 1); (1329, 1366, 1, 48); (4256, 4293, 1, 7264); (4295,
   4295, 1, 7264); (4301, 4301, 1, 7264); (5024, 5103, 1, 38864); (5104, 5109, 1,
   8); (7312, 7354, 1, -3008); (7357, 7359, 1, -3008); (7680, 7828, 2, 1); (7838,
   7838, 1, -7615); (7840, 7934, 2, 1); (7944, 7951, 1, -8); (7960, 7965, 1, -8);
   (7976, 7983, 1, -8); (7992, 7999, 1, -8); (8008, 8013, 1, -8); (8025, 8031, 2,
   -8); (8040, 8047, 1, -8); (8072, 8079, 1, -8); (8088, 8095, 1, -8); (8104,
   8111, 1, -8); (8120, 8121, 1, -8); (8122, 8123, 1, -74); (8124, 8124, 1, -9);
   (8136, 8139, 1, -86); (8140, 8140, 1, -9); (8152, 8153, 1, -8); (8154, 8155,
   1, -100); (8168, 8169, 1, -8); (8170, 8171, 1, -112); (8172, 8172, 1, -7);
   (8184, 8185, 1, -128); (8186, 8187, 1, -126); (8188, 8188, 1, -9); (8486,
   8486, 1, -7517); (8490, 8490, 1, -8383); (8491, 8491, 1, -8262); (8498, 8498,
   1, 28); (8544, 8559, 1, 16); (8579, 8579, 1, 1); (9398, 9423, 1, 26); (11264,
   11311, 1, 48); (11360, 11360, 1, 1); (11362, 11362, 1, -10743); (11363, 11363,
   1, -3814); (11364, 11364, 1, -10727); (11367, 11371, 2, 1); (11373, 11373, 1,
   -10780); (11374, 11374, 1, -10749); (11375, 11375, 1, -10783); (11376, 11376,
   1, -10782); (11378, 11378, 1, 1); (11381, 11381, 1, 1); (11390, 11391, 1,
   -10815); (11392, 11490, 2, 1); (11499, 11501, 2, 1); (11506, 11506, 1, 1);
   (42560, 42604, 2, 1); (42624, 42650, 2, 1); (42786, 42798, 2, 1); (42802,
   42862, 2, 1); (42873, 42875, 2, 1); (42877, 42877, 1, -35332); (42878, 42886,
   2, 1); (42891, 42891, 1, 1); (42893, 42893, 1, -42280); (42896, 42898, 2, 1);
   (42902, 42920, 2, 1); (42922, 42922, 1, -42308); (42923, 42923, 1, -42319);
   (42924, 42924, 1, -42315); (42925, 42925, 1, -42305); (42926, 42926, 1,
   -42308); (42928, 42928, 1, -42258); (42929, 42929, 1, -42282); (42930, 42930,
   1, -42261); (42931, 42931, 1, 928); (42932, 42946, 2, 1); (42948, 42948, 1,
   -48); (42949, 42949, 1, -42307); (42950, 42950, 1, -35384); (42951, 42953, 2,
   1); (42960, 42960, 1, 1); (42966, 42968, 2, 1); (42997, 42997, 1, 1); (65313,
   65338, 1, 32); (66560, 66599, 1, 40); (66736, 66771, 1, 40); (66928, 66938, 1,
   39); (66940, 66954, 1, 39); (66956, 66962, 1, 39); (66964, 66965, 1, 39);
   (68736, 68786, 1, 64); (71840, 71871, 1, 32); (93760, 93791, 1, 32); (125184,
   125217, 1, 34)].

Fixpoint lower_lookup (t : list (Z * Z * Z * Z)) (r : Z) : Z :=
  match t with
  | [] => r
  | (lo, hi, stride, delta) :: t =>
     if r <? lo then lower_lookup t r
     else if hi <? r then lower_lookup t r
     else if (r - lo) mod stride =? 0 then r + delta
     else lower_lookup t r
  end.

(** [unicode.ToLower] *)
Definition rune_lower (r : Z) : Z :=
  if r <? 128 then (if (65 <=? r) && (r <=? 90) then r + 32 else r)
  else lower_lookup lower_ranges r.

Definition is_ascii (a : ascii) : bool := byte_val a <? 128.

Fixpoint all_ascii (s : string) : bool :=
  match s with "" => true | String a s => is_ascii a && all_ascii s end.

Fixpoint map_bytes (f : ascii → ascii) (s : string) : string :=
  match s with "" => "" | String a s => String (f a) (map_bytes f s) end.

Definition byte_lower (a : ascii) : ascii := byte_of (rune_lower (byte_val a)).

(** [strings.Map(unicode.ToLower, s)] *)
Definition map_runes_lower (s : string) : string :=
  foldr (λ r acc, encode_rune (rune_lower r) +:+ acc) "" (decode_runes s).

(** [strings.ToLower]: bytewise on an ASCII string, by runes otherwise. *)
Definition ToLower (s : string) : string :=
  if all_ascii s then map_bytes byte_lower s else map_runes_lower s.

(** ** Lemmas: trimming *)

Lemma string_rev_app_spec s t u :
  string_rev_app s (t +:+ u) = string_rev_app s t +:+ u.
Proof.
  revert t. induction s as [|a s IH]; intros t; [done|]. simpl.
  rewrite <-string_app_cons. apply IH.
Qed.

Lemma string_rev_cons a s : string_rev (String a s) = string_rev s +:+ String a "".
Proof. unfold string_rev. simpl. by rewrite <-string_rev_app_spec. Qed.

Lemma string_rev_app_distr s t : string_rev (s +:+ t) = string_rev t +:+ string_rev s.
Proof.
  induction s as [|a s IH]; [symmetry; apply string_app_nil_r|].
  rewrite string_app_cons, !string_rev_cons, IH. by rewrite string_app_assoc.
Qed.

Lemma string_rev_involutive s : string_rev (string_rev s) = s.
Proof.
  induction s as [|a s IH]; [done|].
  by rewrite string_rev_cons, string_rev_app_distr, IH.
Qed.

Lemma string_length_rev s : String.length (string_rev s) = String.length s.
Proof.
  induction s as [|a s IH]; [done|].
  rewrite string_rev_cons, string_length_app, IH. simpl. lia.
Qed.

Lemma strip_any_spec es s t :
  strip_any es s = Some t → ∃ e, e ∈ es ∧ s = e +:+ t.
Proof.
  induction es as [|e es IH]; simpl; [done|].
  destruct (strip_prefix e s) as [u|] eqn:E.
  - intros [= ->]. apply strip_prefix_spec in E. exists e. split; [left|done].
  - intros (e' & ? & ?)%IH. exists e'. split; [by right|done].
Qed.

Lemma strip_any_None es s :
  strip_any es s = None ↔ ∀ e, e ∈ es → HasPrefix s e = false.
Proof.
  induction es as [|e es IH]; simpl.
  { split; [by intros _ e ?%elem_of_nil|done]. }
  destruct (strip_prefix e s) eqn:E.
  - split; [done|]. intros H. specialize (H e (list_elem_of_here _ _)).
    unfold HasPrefix in H. by rewrite E in H.
  - rewrite IH. split.
    + intros H e' [->|?]%elem_of_cons; [unfold HasPrefix; by rewrite E|auto].
    + intros H e' ?. apply H. by right.
Qed.

Section TrimLeft.
Context (es : list string) (Hes : Forall (λ e, e ≠ "") es).

Lemma strip_any_shorter s t :
  strip_any es s = Some t → (String.length t < String.length s)%nat.
Proof using Hes.
  intros (e & He & ->)%strip_any_spec. rewrite string_length_app.
  rewrite Forall_forall in Hes. destruct e; [by apply Hes in He|simpl; lia].
Qed.

Lemma trim_left_fuel_spec n s :
  (String.length s <= n)%nat →
  strip_any es (trim_left_fuel es n s) = None
  ∧ ∃ l, s = l +:+ trim_left_fuel es n s.
Proof using Hes.
  revert s. induction n as [|n IH]; intros s Hn; simpl.
  - destruct s; [|simpl in Hn; lia]. split; [|by exists ""].
    destruct (strip_any es "") as [t|] eqn:E; [|done].
    apply strip_any_shorter in E. simpl in E. lia.
  - destruct (strip_any es s) as [t|] eqn:E; [|split; [done|by exists ""]].
    destruct (IH t) as [H1 [l H2]].
    { apply strip_any_shorter in E. lia. }
    split; [done|]. apply strip_any_spec in E as (e & _ & ->).
    exists (e +:+ l). by rewrite <-string_app_assoc, <-H2.
Qed.

Lemma trim_left_with_spec s :
  strip_any es (trim_left_with es s) = None ∧ ∃ l, s = l +:+ trim_left_with es s.
Proof using Hes. by apply trim_left_fuel_spec. Qed.

Lemma trim_left_with_id s : strip_any es s = None → trim_left_with es s = s.
Proof using Type.
  unfold trim_left_with. destruct s as [|a s]; [done|]. intros H.
  change (match strip_any es (String a s) with
    Some t => trim_left_fuel es (String.length s) t | None => String a s end
    = String a s). by rewrite H.
Qed.
End TrimLeft.

Lemma space_encodings_nonempty : Forall (λ e, e ≠ "") space_encodings.
Proof. apply (bool_decide_unpack _). by vm_compute. Qed.
Lemma space_encodings_rev_nonempty :
  Forall (λ e, e ≠ "") (string_rev <$> space_encodings).
Proof. apply (bool_decide_unpack _). by vm_compute. Qed.

(** The trimmed string is a factor of the original. *)
Lemma TrimSpace_factor s : ∃ l r, s = l +:+ TrimSpace s +:+ r.
Proof.
  unfold TrimSpace.
  destruct (trim_left_with_spec _ space_encodings_nonempty s) as [_ [l Hl]].
  set (t := trim_left_with space_encodings s) in *.
  destruct (trim_left_with_spec _ space_encodings_rev_nonempty (string_rev t))
    as [_ [r Hr]].
  set (u := trim_left_with _ (string_rev t)) in *.
  exists l, (string_rev r). rewrite <-string_rev_app_distr, <-Hr, string_rev_involutive.
  done.
Qed.

Lemma TrimSpace_length s : (len (TrimSpace s) <= len s)%Z.
Proof.
  destruct (TrimSpace_factor s) as (l & r & H). unfold len.
  rewrite H at 2. rewrite !string_length_app. lia.
Qed.

(** ** Lemmas: letter case *)

Lemma map_bytes_length f s : String.length (map_bytes f s) = String.length s.
Proof. induction s as [|a s IH]; [done|]. simpl. by rewrite IH. Qed.

(** A Unicode scalar value: what [decode_runes] produces and [encode_rune]
    accepts. *)
Definition scalar (r : Z) : Prop := 0 <= r < 55296 ∨ 57344 <= r < 1114112.

Lemma decode_runes_1 a s :
  byte_val a < 128 → decode_runes (String a s) = byte_val a :: decode_runes s.
Proof. intros H. simpl. by replace (byte_val a <? 128) with true by lia. Qed.

Lemma decode_runes_2 a b s :
  194 <= byte_val a <= 223 → is_cont b = true →
  decode_runes (String a (String b s))
  = ((byte_val a - 192) * 64 + (byte_val b - 128)) :: decode_runes s.
Proof.
  intros Ha Hb. cbn -[Z.mul Z.add Z.sub].
  replace (byte_val a <? 128) with false by lia. rewrite Hb.
  by replace ((194 <=? byte_val a) && (byte_val a <=? 223)) with true by lia.
Qed.

Lemma decode_runes_3 a b c s :
  224 <= byte_val a <= 239 → is_cont b = true → is_cont c = true →
  (byte_val a = 224 → 160 <= byte_val b) → (byte_val a = 237 → byte_val b <= 159) →
  decode_runes (String a (String b (String c s)))
  = ((byte_val a - 224) * 4096 + (byte_val b - 128) * 64 + (byte_val c - 128))
    :: decode_runes s.
Proof.
  intros Ha Hb Hc H1 H2. cbn -[Z.mul Z.add Z.sub].
  replace (byte_val a <? 128) with false by lia. rewrite Hb, Hc.
  replace ((194 <=? byte_val a) && (byte_val a <=? 223)) with false by lia.
  replace ((224 <=? byte_val a) && (byte_val a <=? 239)) with true by lia.
  replace (implb (byte_val a =? 224) (160 <=? byte_val b)) with true by lia.
  by replace (implb (byte_val a =? 237) (byte_val b <=? 159)) with true by lia.
Qed.

Lemma decode_runes_4 a b c d s :
  240 <= byte_val a <= 244 → is_cont b = true → is_cont c = true → is_cont d = true →
  (byte_val a = 240 → 144 <= byte_val b) → (byte_val a = 244 → byte_val b <= 143) →
  decode_runes (String a (String b (String c (String d s))))
  = ((byte_val a - 240) * 262144 + (byte_val b - 128) * 4096
     + (byte_val c - 128) * 64 + (byte_val d - 128)) :: decode_runes s.
Proof.
  intros Ha Hb Hc Hd H1 H2. cbn -[Z.mul Z.add Z.sub].
  replace (byte_val a <? 128) with false by lia. rewrite Hb, Hc, Hd.
  replace ((194 <=? byte_val a) && (byte_val a <=? 223)) with false by lia.
  replace ((224 <=? byte_val a) && (byte_val a <=? 239)) with false by lia.
  replace ((240 <=? byte_val a) && (byte_val a <=? 244)) with true by lia.
  replace (implb (byte_val a =? 240) (144 <=? byte_val b)) with true by lia.
  by replace (implb (byte_val a =? 244) (byte_val b <=? 143)) with true by lia.
Qed.

Lemma is_cont_byte_of z : 128 <= z <= 191 → is_cont (byte_of z) = true.
Proof. intros Hz. unfold is_cont. rewrite byte_of_val by lia. lia. Qed.

Lemma decode_encode_rune r s :
  scalar r → decode_runes (encode_rune r +:+ s) = r :: decode_runes s.
Proof.
  intros Hr. unfold scalar in Hr. unfold encode_rune.
  assert (∀ z, 128 <= 128 + z mod 64 <= 191) as Hc.
  { intros z. pose proof (Z.mod_pos_bound z 64). lia. }
  assert (∀ z, byte_val (byte_of (128 + z mod 64)) = 128 + z mod 64) as Hv.
  { intros z. apply byte_of_val. specialize (Hc z). lia. }
  destruct (r <? 128) eqn:H1; [|destruct (r <? 2048) eqn:H2;
    [|destruct (r <? 65536) eqn:H3]]; bool_to_prop; rewrite !string_app_cons.
  - rewrite decode_runes_1; rewrite byte_of_val by lia; [done|lia].
  - assert (2 <= r / 64 < 32) by (split; [apply Z.div_le_lower_bound|apply Z.div_lt_upper_bound]; lia).
    rewrite decode_runes_2; [|rewrite byte_of_val by lia; lia|by apply is_cont_byte_of, Hc].
    rewrite Hv, byte_of_val by lia. f_equal. pose proof (Z.div_mod r 64). lia.
  - assert (0 <= r / 4096 < 16) by (split; [apply Z.div_pos|apply Z.div_lt_upper_bound]; lia).
    pose proof (Z.div_mod r 64) as E1. pose proof (Z.div_mod (r / 64) 64) as E2.
    rewrite Z.div_div in E2 by lia. change (64 * 64) with 4096 in E2.
    pose proof (Hc (r / 64)). pose proof (Hc r).
    rewrite decode_runes_3; rewrite ?Hv, ?byte_of_val by lia;
      try (by apply is_cont_byte_of, Hc); [|lia..]. f_equal. lia.
  - assert (0 <= r / 262144 < 5) by (split; [apply Z.div_pos|apply Z.div_lt_upper_bound]; lia).
    pose proof (Z.div_mod r 64) as E1. pose proof (Z.div_mod (r / 64) 64) as E2.
    pose proof (Z.div_mod (r / 4096) 64) as E3.
    rewrite Z.div_div in E2, E3 by lia. change (64 * 64) with 4096 in E2.
    change (4096 * 64) with 262144 in E3.
    pose proof (Hc (r / 4096)). pose proof (Hc (r / 64)). pose proof (Hc r).
    rewrite decode_runes_4; rewrite ?Hv, ?byte_of_val by lia;
      try (by apply is_cont_byte_of, Hc); [|lia..]. f_equal. lia.
Qed.

Lemma decode_runes_scalar_len n s :
  (String.length s <= n)%nat → Forall scalar (decode_runes s).
Proof.
  assert (scalar RuneError) as He by (unfold scalar, RuneError; lia).
  revert s. induction n as [|n IH]; intros [|a s1] Hn; try done; simpl in Hn; [lia|].
  assert (Forall scalar (decode_runes s1)) as H1 by (apply IH; lia).
  pose proof (byte_val_range a).
  cbn -[Z.mul Z.add Z.sub]. destruct (byte_val a <? 128) eqn:Ea; bool_to_prop.
  { constructor; [unfold scalar; lia|done]. }
  destruct s1 as [|b s2]; [by repeat constructor|]. simpl in Hn.
  case_if; bool_to_prop; unfold is_cont in *; bool_to_prop.
  { constructor; [unfold scalar; lia|apply IH; lia]. }
  destruct s2 as [|c s3]; [by constructor|]. simpl in Hn.
  case_if; bool_to_prop.
  { constructor; [|apply IH; lia].
    unfold scalar; destruct (byte_val a =? 237) eqn:E1, (byte_val a =? 224) eqn:E2;
      bool_to_prop; simpl in *; bool_to_prop; lia. }
  destruct s3 as [|d s4]; [by constructor|]. simpl in Hn.
  case_if; bool_to_prop.
  { constructor; [|apply IH; lia].
    unfold scalar; destruct (byte_val a =? 244) eqn:E1, (byte_val a =? 240) eqn:E2;
      bool_to_prop; simpl in *; bool_to_prop; lia. }
  by constructor.
Qed.

Lemma decode_runes_scalar s : Forall scalar (decode_runes s).
Proof. by eapply decode_runes_scalar_len. Qed.

(** The code points of one range of the table. *)
Definition range_points (e : Z * Z * Z * Z) : list Z :=
  let '(lo, hi, stride, _) := e in
  (λ k, lo + stride * k) <$> seqZ 0 ((hi - lo) / stride + 1).

Lemma lower_lookup_cases t r :
  Forall (λ e : Z * Z * Z * Z, 0 < e.1.2) t →
  lower_lookup t r = r ∨ r ∈ concat (range_points <$> t).
Proof.
  induction 1 as [|[[[lo hi] st] d] t Hst _ IH]; [by left|]. cbn [lower_lookup].
  cbn [fmap list_fmap concat]. rewrite elem_of_app.
  destruct (r <? lo) eqn:?; [tauto|]. destruct (hi <? r) eqn:?; [tauto|].
  case_if; [|tauto]; bool_to_prop.
  right. left. cbn in Hst. unfold range_points.
  apply list_elem_of_fmap. exists ((r - lo) / st).
  pose proof (Z.div_mod (r - lo) st). split; [lia|].
  apply elem_of_seqZ. split; [apply Z.div_pos; lia|].
  assert ((r - lo) / st <= (hi - lo) / st) by (apply Z.div_le_mono; lia). lia.
Qed.

Definition lower_ok (r : Z) : bool :=
  (rune_lower (rune_lower r) =? rune_lower r) &&
  ((0 <=? rune_lower r) && (rune_lower r <? 55296)
   || (57344 <=? rune_lower r) && (rune_lower r <? 1114112)).

Lemma lower_table_ok :
  Forall (λ e : Z * Z * Z * Z, 0 < e.1.2) lower_ranges
  ∧ forallb lower_ok (concat (range_points <$> lower_ranges)) = true.
Proof. split; [apply (bool_decide_unpack _)|]; by vm_compute. Qed.

Lemma rune_lower_ok r : scalar r → lower_ok r = true.
Proof.
  intros Hr. destruct (r <? 128) eqn:E.
  { unfold lower_ok, rune_lower. rewrite E.
    destruct ((65 <=? r) && (r <=? 90)) eqn:E2; bool_to_prop; unfold scalar in Hr.
    - replace (r + 32 <? 128) with true by lia.
      replace ((65 <=? r + 32) && (r + 32 <=? 90)) with false by lia. lia.
    - rewrite E2. replace (r <? 128) with true by lia. lia. }
  destruct lower_table_ok as [H1 H2].
  destruct (lower_lookup_cases lower_ranges r H1) as [Hid|Hin].
  - unfold lower_ok. assert (rune_lower r = r) as -> by (unfold rune_lower; by rewrite E).
    unfold rune_lower at 1. rewrite E, Hid. unfold scalar in Hr. lia.
  - rewrite forallb_forall in H2. by apply H2, list_elem_of_In.
Qed.

Lemma rune_lower_scalar r : scalar r → scalar (rune_lower r).
Proof. intros H%rune_lower_ok. unfold lower_ok in H. unfold scalar. lia. Qed.

Lemma rune_lower_idemp r : scalar r → rune_lower (rune_lower r) = rune_lower r.
Proof. intros H%rune_lower_ok. unfold lower_ok in H. lia. Qed.

Definition encode_runes (rs : list Z) : string :=
  foldr (λ r acc, encode_rune r +:+ acc) "" rs.

Lemma decode_encode_runes rs : Forall scalar rs → decode_runes (encode_runes rs) = rs.
Proof.
  induction 1 as [|r rs Hr _ IH]; [done|]. simpl. by rewrite decode_encode_rune, IH.
Qed.

Lemma map_runes_lower_spec s :
  map_runes_lower s = encode_runes (rune_lower <$> decode_runes s).
Proof. unfold map_runes_lower. induction (decode_runes s); [done|]. simpl. by f_equal. Qed.

(** On an ASCII string the two branches of [ToLower] agree. *)
Lemma map_runes_lower_ascii s :
  all_ascii s = true → map_runes_lower s = map_bytes byte_lower s.
Proof.
  rewrite map_runes_lower_spec. induction s as [|a s IH]; [done|].
  intros [Ha Hs]%andb_true_iff. unfold is_ascii in Ha. bool_to_prop.
  rewrite decode_runes_1 by done. cbn [map_bytes fmap list_fmap encode_runes foldr].
  fold (encode_runes (rune_lower <$> decode_runes s)). rewrite IH by done.
  pose proof (byte_val_range a). unfold byte_lower, encode_rune, rune_lower.
  replace (byte_val a <? 128) with true by lia.
  destruct ((65 <=? byte_val a) && (byte_val a <=? 90)) eqn:E;
    case_if; try done; bool_to_prop; lia.
Qed.

Lemma ToLower_runes s : ToLower s = encode_runes (rune_lower <$> decode_runes s).
Proof.
  rewrite <-map_runes_lower_spec. unfold ToLower. case_if; [|done].
  by rewrite map_runes_lower_ascii.
Qed.

(** [utf8.ValidString]: the runes of the string, encoded, are the string. *)
Definition ValidString (s : string) : bool :=
  bool_decide (encode_runes (decode_runes s) = s).

Lemma ToLower_valid s : ValidString (ToLower s) = true.
Proof.
  unfold ValidString. rewrite ToLower_runes, decode_encode_runes; [by apply bool_decide_eq_true|].
  apply Forall_fmap, (Forall_impl _ _ _ (decode_runes_scalar s)). apply rune_lower_scalar.
Qed.

Lemma ToLower_idemp s : ToLower (ToLower s) = ToLower s.
Proof.
  rewrite !ToLower_runes. pose proof (decode_runes_scalar s) as Hs.
  rewrite decode_encode_runes.
  - f_equal. rewrite <-list_fmap_compose. apply list_fmap_ext.
    intros i r Hr. simpl. apply rune_lower_idemp. by eapply Forall_lookup_1.
  - apply Forall_fmap. eapply Forall_impl; [done|]. apply rune_lower_scalar.
Qed.

(** ** Numbers *)

(** [strconv.Itoa], and [fmt] with the verb [%d]. *)
Definition Itoa (n : Z) : string := pretty n.

Fixpoint zeros (n : nat) : string :=
  match n with O => "" | S n => String "0"%char (zeros n) end.

(** [fmt] with the verb [%06d], for a non-negative number. *)
Definition pad6 (n : Z) : string := zeros (6 - String.length (Itoa n)) +:+ Itoa n.

Definition digit (a : ascii) : option Z :=
  let x := byte_val a in
  if (48 <=? x) && (x <=? 57) then Some (x - 48) else None.

Fixpoint digits_value (acc : Z) (s : string) : option Z :=
  match s with
  | "" => Some acc
  | String a s =>
     match digit a with Some d => digits_value (acc * 10 + d) s | None => None end
  end.

(** [strconv.Atoi]: an optional sign, at least one digit, a value that fits. *)
Definition Atoi (s : string) : option Z :=
  let go (sign : Z) (ds : string) :=
    if bool_decide (ds = "") then None
    else match digits_value 0 ds with
         | Some v => if bool_decide (in_int64 (sign * v)) then Some (sign * v) else None
         | None => None
         end in
  match s with
  | String a ds =>
     if bool_decide (a = "+"%char) then go 1 ds
     else if bool_decide (a = "-"%char) then go (-1) ds
     else go 1 s
  | "" => None
  end.

Lemma digit_pretty x : (x < 10)%N → digit (pretty_N_char x) = Some (Z.of_N x).
Proof.
  intros Hx.
  assert (x = 0 ∨ x = 1 ∨ x = 2 ∨ x = 3 ∨ x = 4 ∨ x = 5 ∨ x = 6 ∨ x = 7 ∨ x = 8 ∨ x = 9)%N
    as Hcases by lia.
  by destruct_or! Hcases; subst.
Qed.

Lemma digits_value_pretty_go x s :
  digits_value 0 (pretty_N_go x s) = digits_value (Z.of_N x) s.
Proof.
  revert s. induction (N.lt_wf_0 x) as [x _ IH]; intros s.
  assert (x = 0 ∨ 0 < x)%N as [->|Hx] by lia; [by rewrite pretty_N_go_0|].
  rewrite pretty_N_go_step by done. rewrite IH by (by apply N.div_lt).
  simpl. rewrite digit_pretty by (by apply N.mod_lt). f_equal.
  rewrite N2Z.inj_div, N2Z.inj_mod. pose proof (Z.div_mod (Z.of_N x) 10). lia.
Qed.

Lemma digits_value_zeros n s : digits_value 0 (zeros n +:+ s) = digits_value 0 s.
Proof. induction n as [|n IH]; [done|exact IH]. Qed.

Lemma digits_value_Itoa n : 0 <= n → digits_value 0 (Itoa n) = Some n.
Proof.
  intros Hn. unfold Itoa, pretty, pretty_Z. destruct n as [|p|p]; [done| |lia].
  unfold pretty, pretty_positive, pretty, pretty_N. rewrite decide_False by done.
  by rewrite digits_value_pretty_go.
Qed.

(** Identifiers built with [%06d] are injective in the number. *)
Lemma pad6_inj n m : 0 <= n → 0 <= m → pad6 n = pad6 m → n = m.
Proof.
  intros Hn Hm Heq. apply (f_equal (digits_value 0)) in Heq. revert Heq.
  unfold pad6. rewrite !digits_value_zeros, !digits_value_Itoa by done. congruence.
Qed.

Fixpoint all_digits (s : string) : bool :=
  match s with "" => true | String a s => bool_decide (is_Some (digit a)) && all_digits s end.

Lemma digits_value_all_digits acc s v : digits_value acc s = Some v → all_digits s = true.
Proof.
  revert acc. induction s as [|a s IH]; intros acc; [done|]. simpl.
  destruct (digit a) eqn:E; [|done]. intros H%IH. rewrite H.
  by rewrite bool_decide_eq_true_2.
Qed.

Lemma all_digits_not_byte c s :
  digit c = None → all_digits s = true → contains_byte c s = false.
Proof.
  intros Hc. induction s as [|a s IH]; [done|]. intros [Ha Hs]%andb_true_iff.
  bool_to_prop. simpl. rewrite IH by done. rewrite orb_false_r.
  apply bool_decide_eq_false. intros ->. rewrite Hc in Ha. by destruct Ha.
Qed.

Lemma Itoa_not_byte c n : 0 <= n → digit c = None → contains_byte c (Itoa n) = false.
Proof.
  intros Hn Hc. apply all_digits_not_byte; [done|].
  by eapply digits_value_all_digits, digits_value_Itoa.
Qed.

Lemma Itoa_inj n m : Itoa n = Itoa m → n = m.
Proof. apply pretty_Z_inj. Qed.

(** ** Addresses of the [net] package *)

(** [net.JoinHostPort] *)
Definition JoinHostPort (host port : string) : string :=
  if contains_byte ":" host then "[" +:+ host +:+ "]:" +:+ port
  else host +:+ ":" +:+ port.

(** The two sides of the last occurrence of a byte. *)
Fixpoint cut_last (s : string) (c : ascii) : option (string * string) :=
  match s with
  | "" => None
  | String a s =>
     match cut_last s c with
     | Some (l, r) => Some (String a l, r)
     | None => if bool_decide (a = c) then Some ("", s) else None
     end
  end.

(** [net.SplitHostPort]; the errors are the messages of its [AddrError].  In
    the source [i] is the position of the last colon, the length of [pre], and
    [end + 1] is the length of [host] plus 2. *)
Definition SplitHostPort (hostport : string) : result string (string * string) :=
  match cut_last hostport ":" with
  | None => Err "missing port in address"
  | Some (pre, port) =>
     if HasPrefix hostport "[" then
       let rest := TrimPrefix hostport "[" in
       let '(host, after, ok) := CutByte rest "]" in
       if negb ok then Err "missing ']' in address"
       else if bool_decide (after = "") then Err "missing port in address"
       else if bool_decide (String.length pre = String.length host + 2)%nat then
         if contains_byte "[" rest then Err "unexpected '[' in address"
         else if contains_byte "]" after then Err "unexpected ']' in address"
         else Ok (host, port)
       else if HasPrefix after ":" then Err "too many colons in address"
       else Err "missing port in address"
     else if contains_byte ":" pre then Err "too many colons in address"
     else if contains_byte "[" hostport then Err "unexpected '[' in address"
     else if contains_byte "]" hostport then Err "unexpected ']' in address"
     else Ok (pre, port)
  end.

Lemma cut_last_app_none s t c : contains_byte c t = false → cut_last (s +:+ String c t) c = Some (s, t).
Proof.
  intros Ht. assert (cut_last t c = None) as Hn.
  { induction t as [|a t IH]; [done|]. apply orb_false_iff in Ht as [Ha Ht].
    simpl. rewrite IH by done. by rewrite Ha. }
  induction s as [|a s IH]; simpl.
  - rewrite Hn. by rewrite bool_decide_eq_true_2.
  - by rewrite IH.
Qed.

Lemma CutByte_app s t c : contains_byte c s = false → CutByte (s +:+ String c t) c = (s, t, true).
Proof.
  induction s as [|a s IH]; simpl.
  - intros _. by rewrite bool_decide_eq_true_2.
  - intros [Ha Hs]%orb_false_iff. rewrite Ha. by rewrite IH.
Qed.

(** Splitting what [JoinHostPort] built gives the two parts back, for a host
    without brackets and a decimal port. *)
Lemma SplitHostPort_JoinHostPort host port :
  contains_byte "[" host = false → contains_byte "]" host = false →
  all_digits port = true →
  SplitHostPort (JoinHostPort host port) = Ok (host, port).
Proof.
  intros Hl Hr Hp.
  pose proof (all_digits_not_byte ":" _ eq_refl Hp) as P1.
  pose proof (all_digits_not_byte "[" _ eq_refl Hp) as P2.
  pose proof (all_digits_not_byte "]" _ eq_refl Hp) as P3.
  unfold JoinHostPort. destruct (contains_byte ":" host) eqn:Hc.
  - assert (("[" +:+ host +:+ "]:" +:+ port)
            = String "["%char (host +:+ "]") +:+ String ":"%char port) as ->.
    { change (String "["%char (host +:+ "]:" +:+ port)
        = String "["%char ((host +:+ "]") +:+ String ":"%char port)).
      by rewrite <-string_app_assoc. }
    unfold SplitHostPort. rewrite cut_last_app_none by done.
    rewrite string_app_cons, <-string_app_assoc.
    set (rest := host +:+ ("]" +:+ String ":"%char port)).
    change (HasPrefix (String "["%char rest) "[") with true.
    change (TrimPrefix (String "["%char rest) "[") with rest. cbn zeta.
    change (CutByte rest "]") with (CutByte (host +:+ String "]"%char (String ":"%char port)) "]").
    rewrite CutByte_app by done. simpl.
    rewrite string_length_app. simpl. rewrite bool_decide_eq_true_2 by lia.
    unfold rest. rewrite contains_byte_app, Hl. simpl. by rewrite P2, P3.
  - unfold SplitHostPort. change (host +:+ ":" +:+ port) with (host +:+ String ":"%char port).
    rewrite cut_last_app_none by done.
    assert (HasPrefix (host +:+ String ":"%char port) "[" = false) as ->.
    { destruct host as [|a host]; [done|]. simpl in Hl.
      apply orb_false_iff in Hl as [Ha _]. rewrite string_app_cons.
      unfold HasPrefix. simpl. rewrite bool_decide_eq_false_2; [done|].
      bool_to_prop. congruence. }
    rewrite Hc, !contains_byte_app, Hl, Hr. simpl. by rewrite P2, P3.
Qed.

Lemma string_app_inj_byte s1 s2 t1 t2 c :
  contains_byte c t1 = false → contains_byte c t2 = false →
  s1 +:+ String c t1 = s2 +:+ String c t2 → s1 = s2 ∧ t1 = t2.
Proof.
  intros H1 H2 Heq. apply (f_equal (λ s, cut_last s c)) in Heq.
  rewrite !cut_last_app_none in Heq by done. by injection Heq.
Qed.

Lemma contains_byte_wrap c (h : string) :
  contains_byte c ("[" +:+ h +:+ "]") = false → contains_byte c h = false.
Proof. rewrite !contains_byte_app. intros [_ [H _]%orb_false_iff]%orb_false_iff. done. Qed.

(** [JoinHostPort] with a decimal port is injective: a bracketed address and a
    plain one never collide. *)
Lemma JoinHostPort_inj h1 h2 p1 p2 :
  contains_byte ":" p1 = false → contains_byte ":" p2 = false →
  JoinHostPort h1 p1 = JoinHostPort h2 p2 → h1 = h2 ∧ p1 = p2.
Proof.
  intros Hp1 Hp2 Heq.
  assert (∀ h p, JoinHostPort h p
    = (if contains_byte ":" h then "[" +:+ h +:+ "]" else h) +:+ String ":"%char p) as Hj.
  { intros h p. unfold JoinHostPort. destruct (contains_byte ":" h); [|done].
    symmetry. rewrite <-(string_app_assoc "["), <-(string_app_assoc h). done. }
  rewrite !Hj in Heq. apply string_app_inj_byte in Heq as [Hh ->]; [|done..].
  split; [|done].
  destruct (contains_byte ":" h1) eqn:E1, (contains_byte ":" h2) eqn:E2; try done.
  - apply (inj (String.append "[")) in Hh. by apply string_app_inj_r in Hh.
  - rewrite <-Hh in E2. apply contains_byte_wrap in E2. congruence.
  - rewrite Hh in E1. apply contains_byte_wrap in E1. congruence.
Qed.

(** ** Decoding and ASCII bytes

    One step of decoding: a rune is one ASCII byte, or comes from bytes that
    are all above the ASCII range; an ASCII byte that follows the string does
    not change how the string is decoded. *)

Fixpoint no_ascii (s : string) : bool :=
  match s with "" => true | String a s => negb (is_ascii a) && no_ascii s end.

Definition decode_step (s : string) : Prop :=
  ∃ r pre rest,
    s = pre +:+ rest ∧ pre ≠ ""
    ∧ decode_runes s = r :: decode_runes rest
    ∧ ((∃ a, pre = String a "" ∧ is_ascii a = true ∧ r = byte_val a)
       ∨ no_ascii pre = true ∧ 128 <= r)
    ∧ ∀ a t, is_ascii a = true →
        decode_runes (s +:+ String a t) = r :: decode_runes (rest +:+ String a t).

Lemma decode_runes_cons a s1 :
  decode_runes (String a s1) =
  let x := byte_val a in
  if x <? 128 then x :: decode_runes s1
  else match s1 with
  | "" => [RuneError]
  | String b s2 =>
     if (194 <=? x) && (x <=? 223) && is_cont b
     then ((x - 192) * 64 + (byte_val b - 128)) :: decode_runes s2
     else match s2 with
     | "" => RuneError :: decode_runes s1
     | String c s3 =>
        if (224 <=? x) && (x <=? 239) && is_cont b && is_cont c
           && implb (x =? 224) (160 <=? byte_val b) && implb (x =? 237) (byte_val b <=? 159)
        then ((x - 224) * 4096 + (byte_val b - 128) * 64 + (byte_val c - 128))
             :: decode_runes s3
        else match s3 with
        | "" => RuneError :: decode_runes s1
        | String d s4 =>
           if (240 <=? x) && (x <=? 244) && is_cont b && is_cont c && is_cont d
              && implb (x =? 240) (144 <=? byte_val b) && implb (x =? 244) (byte_val b <=? 143)
           then ((x - 240) * 262144 + (byte_val b - 128) * 4096
                 + (byte_val c - 128) * 64 + (byte_val d - 128)) :: decode_runes s4
           else RuneError :: decode_runes s1
        end
     end
  end.
Proof. done. Qed.

Lemma ascii_not_cont c : is_ascii c = true → is_cont c = false.
Proof. unfold is_ascii, is_cont. lia. Qed.

Lemma cont_not_ascii b : is_cont b = true → is_ascii b = false ∧ 128 <= byte_val b <= 191.
Proof. unfold is_ascii, is_cont. lia. Qed.

(** The common end of the cases where the first byte starts no rune. *)
Lemma decode_step_invalid a s :
  is_ascii a = false →
  decode_runes (String a s) = RuneError :: decode_runes s →
  (∀ c t, is_ascii c = true →
     decode_runes (String a (s +:+ String c t)) = RuneError :: decode_runes (s +:+ String c t)) →
  decode_step (String a s).
Proof.
  intros Ha H1 H2. exists RuneError, (String a ""), s. split_and!; try done.
  right. simpl. by rewrite Ha.
Qed.

#[local] Arguments decode_runes : simpl never.

Lemma decode_runes_view a s : decode_step (String a s).
Proof.
  pose proof (byte_val_range a) as Ra.
  destruct (byte_val a <? 128) eqn:Ea.
  { exists (byte_val a), (String a ""), s. bool_to_prop. split_and!; try done.
    - by rewrite decode_runes_1.
    - left. exists a. unfold is_ascii. split_and!; [done|lia|done].
    - intros c t _. by rewrite string_app_cons, decode_runes_1. }
  assert (is_ascii a = false) as Haa by exact Ea.
  destruct s as [|b s2].
  { apply decode_step_invalid; [done| |intros c t Hc]; rewrite decode_runes_cons; cbn zeta;
      rewrite Ea; [done|].
    change ("" +:+ String c t) with (String c t). cbn beta iota.
    rewrite (ascii_not_cont c Hc), ?andb_false_r.
    by destruct t as [|c2 [|c3 t]]; rewrite ?andb_false_r. }
  destruct ((194 <=? byte_val a) && (byte_val a <=? 223) && is_cont b) eqn:E2.
  { exists ((byte_val a - 192) * 64 + (byte_val b - 128)), (String a (String b "")), s2.
    apply andb_true_iff in E2 as [E2 Hb]. pose proof (cont_not_ascii b Hb) as [Hb1 Hb2].
    bool_to_prop. split_and!; try done.
    - by rewrite decode_runes_2.
    - right. simpl. rewrite Haa, Hb1. split; [done|lia].
    - intros c t _. by rewrite !string_app_cons, decode_runes_2. }
  destruct s2 as [|c s3].
  { apply decode_step_invalid; [done| |intros c t Hc]; rewrite ?string_app_cons;
      rewrite decode_runes_cons; cbn zeta; rewrite Ea; cbn beta iota; rewrite E2; [done|].
    change ("" +:+ String c t) with (String c t). cbn beta iota.
    rewrite (ascii_not_cont c Hc), ?andb_false_r.
    by destruct t as [|c3 t]; rewrite ?andb_false_r. }
  destruct ((224 <=? byte_val a) && (byte_val a <=? 239) && is_cont b && is_cont c
            && implb (byte_val a =? 224) (160 <=? byte_val b)
            && implb (byte_val a =? 237) (byte_val b <=? 159)) eqn:E3.
  { exists ((byte_val a - 224) * 4096 + (byte_val b - 128) * 64 + (byte_val c - 128)),
      (String a (String b (String c ""))), s3.
    bool_to_prop. pose proof (cont_not_ascii b ltac:(done)) as [Hb1 Hb2].
    pose proof (cont_not_ascii c ltac:(done)) as [Hc1 Hc2].
    split_and!; try done.
    - apply decode_runes_3; try done; lia.
    - right. simpl. rewrite Haa, Hb1, Hc1. split; [done|lia].
    - intros d t _. rewrite !string_app_cons. apply decode_runes_3; try done; lia. }
  destruct s3 as [|d s4].
  { apply decode_step_invalid; [done| |intros d t Hd]; rewrite ?string_app_cons;
      rewrite decode_runes_cons; cbn zeta; rewrite Ea; cbn beta iota;
      rewrite E2; cbn beta iota; rewrite E3; [done|].
    change ("" +:+ String d t) with (String d t). cbn beta iota.
    by rewrite (ascii_not_cont d Hd), ?andb_false_r. }
  destruct ((240 <=? byte_val a) && (byte_val a <=? 244) && is_cont b && is_cont c
            && is_cont d && implb (byte_val a =? 240) (144 <=? byte_val b)
            && implb (byte_val a =? 244) (byte_val b <=? 143)) eqn:E4.
  { exists ((byte_val a - 240) * 262144 + (byte_val b - 128) * 4096
            + (byte_val c - 128) * 64 + (byte_val d - 128)),
      (String a (String b (String c (String d "")))), s4.
    bool_to_prop. pose proof (cont_not_ascii b ltac:(done)) as [Hb1 Hb2].
    pose proof (cont_not_ascii c ltac:(done)) as [Hc1 Hc2].
    pose proof (cont_not_ascii d ltac:(done)) as [Hd1 Hd2].
    split_and!; try done.
    - apply decode_runes_4; try done; lia.
    - right. simpl. rewrite Haa, Hb1, Hc1, Hd1. split; [done|lia].
    - intros e t _. rewrite !string_app_cons. apply decode_runes_4; try done; lia. }
  apply decode_step_invalid; [done| |intros e t He]; rewrite ?string_app_cons;
    rewrite decode_runes_cons; cbn zeta; rewrite Ea; cbn beta iota;
    rewrite E2; cbn beta iota; rewrite E3; cbn beta iota; by rewrite E4.
Qed.

Lemma decode_ind (P : string → Prop) :
  P "" →
  (∀ r pre rest, pre ≠ "" → P rest →
     decode_runes (pre +:+ rest) = r :: decode_runes rest →
     ((∃ a, pre = String a "" ∧ is_ascii a = true ∧ r = byte_val a)
      ∨ no_ascii pre = true ∧ 128 <= r) →
     (∀ a t, is_ascii a = true →
        decode_runes ((pre +:+ rest) +:+ String a t)
        = r :: decode_runes (rest +:+ String a t)) →
     P (pre +:+ rest)) →
  ∀ s, P s.
Proof.
  intros H0 H1 s. remember (String.length s) as n eqn:Hn. revert s Hn.
  induction (Nat.lt_wf_0 n) as [n _ IH]; intros s ->. destruct s as [|a s]; [done|].
  destruct (decode_runes_view a s) as (r & pre & rest & E & Hne & Hd & Hc & Ha).
  rewrite E in *. apply (H1 r); try done. eapply IH; [|done].
  rewrite string_length_app. destruct pre; [done|simpl; lia].
Qed.

Lemma decode_runes_app_ascii s a t :
  is_ascii a = true →
  decode_runes (s +:+ String a t) = decode_runes s ++ byte_val a :: decode_runes t.
Proof.
  intros Ha. induction s as [|r pre rest _ IH Hd _ Hs] using decode_ind.
  - change ("" +:+ String a t) with (String a t). rewrite decode_runes_1; [done|].
    unfold is_ascii in Ha. lia.
  - by rewrite Hs, IH, Hd.
Qed.

Lemma no_ascii_contains c s : is_ascii c = true → no_ascii s = true → contains_byte c s = false.
Proof.
  intros Hc. induction s as [|a s IH]; [done|]. intros [Ha Hs]%andb_true_iff. simpl.
  rewrite IH by done. rewrite orb_false_r. apply bool_decide_eq_false. intros ->.
  by rewrite Hc in Ha.
Qed.

Lemma contains_byte_decode c s :
  is_ascii c = true → contains_byte c s = true ↔ byte_val c ∈ decode_runes s.
Proof.
  intros Hc. induction s as [|r pre rest _ IH Hd Hcase _] using decode_ind.
  { split; [done|]. by intros ?%elem_of_nil. }
  rewrite contains_byte_app, orb_true_iff, Hd, elem_of_cons, IH.
  destruct Hcase as [(a & -> & Ha & ->)|[Hpre Hr]].
  - simpl. rewrite orb_false_r, bool_decide_eq_true. split; (intros [H|H]; [left|by right]).
    + congruence.
    + apply (f_equal byte_of) in H. rewrite !byte_val_of in H. done.
  - rewrite no_ascii_contains by done. unfold is_ascii in Hc. intuition lia.
Qed.

(** ** [ToLower] and punctuation *)

Lemma encode_runes_app l1 l2 : encode_runes (l1 ++ l2) = encode_runes l1 +:+ encode_runes l2.
Proof.
  induction l1 as [|r l1 IH]; [done|]. simpl. by rewrite IH, string_app_assoc.
Qed.

Lemma ToLower_app_ascii s a t :
  is_ascii a = true →
  ToLower (s +:+ String a t) = ToLower s +:+ String (byte_lower a) (ToLower t).
Proof.
  intros Ha. rewrite !ToLower_runes, decode_runes_app_ascii by done.
  rewrite fmap_app, encode_runes_app. f_equal. cbn [fmap list_fmap encode_runes foldr].
  unfold is_ascii in Ha. pose proof (byte_val_range a).
  unfold byte_lower, encode_rune, rune_lower.
  replace (byte_val a <? 128) with true by lia.
  destruct ((65 <=? byte_val a) && (byte_val a <=? 90)) eqn:E;
    case_if; try done; bool_to_prop; lia.
Qed.

(** An ASCII byte that is not a letter. *)
Definition is_punct (c : ascii) : bool :=
  is_ascii c && negb ((65 <=? byte_val c) && (byte_val c <=? 90))
  && negb ((97 <=? byte_val c) && (byte_val c <=? 122)).

Lemma lower_table_letters :
  forallb (λ r, (128 <=? rune_lower r) || (97 <=? rune_lower r) && (rune_lower r <=? 122))
    (concat (range_points <$> lower_ranges)) = true.
Proof. by vm_compute. Qed.

Lemma rune_lower_punct c r :
  is_punct c = true → scalar r → rune_lower r = byte_val c ↔ r = byte_val c.
Proof.
  intros Hc Hr. unfold is_punct, is_ascii in Hc. pose proof (byte_val_range c).
  destruct (r <? 128) eqn:E.
  { unfold rune_lower. rewrite E. case_if; lia. }
  destruct (lower_lookup_cases lower_ranges r (proj1 lower_table_ok)) as [Hid|Hin].
  - unfold rune_lower. by rewrite E, Hid.
  - pose proof lower_table_letters as Ht. rewrite forallb_forall in Ht.
    apply list_elem_of_In, Ht in Hin. lia.
Qed.

Lemma contains_byte_ToLower c s :
  is_punct c = true → contains_byte c (ToLower s) = contains_byte c s.
Proof.
  intros Hc. assert (is_ascii c = true) as Ha by (unfold is_punct in Hc; by bool_to_prop).
  apply eq_true_iff_eq. rewrite !contains_byte_decode by done. rewrite ToLower_runes.
  pose proof (decode_runes_scalar s) as Hs. rewrite decode_encode_runes.
  2: { apply Forall_fmap. eapply Forall_impl; [done|]. apply rune_lower_scalar. }
  rewrite Forall_forall in Hs. rewrite list_elem_of_fmap. split.
  - intros (r & Hr & Hin). pose proof (Hs r Hin) as Hsc. symmetry in Hr.
    apply (rune_lower_punct c r Hc) in Hr; [by subst|done].
  - intros Hin. exists (byte_val c). split; [|done].
    symmetry. by apply rune_lower_punct; [|apply Hs|].
Qed.

Lemma ToLower_digits s : all_digits s = true → ToLower s = s.
Proof.
  induction s as [|a s IH]; [done|]. intros [Ha Hs]%andb_true_iff. bool_to_prop.
  unfold digit in Ha. destruct ((48 <=? byte_val a) && (byte_val a <=? 57)) eqn:E;
    [|by destruct Ha]. bool_to_prop.
  change (ToLower ("" +:+ String a s) = String a s).
  rewrite ToLower_app_ascii by (unfold is_ascii; lia). rewrite IH by done.
  change (String (byte_lower a) s = String a s). f_equal.
  unfold byte_lower, rune_lower. replace (byte_val a <? 128) with true by lia.
  replace ((65 <=? byte_val a) && (byte_val a <=? 90)) with false by lia. apply byte_val_of.
Qed.

(** Lower-casing an address lowers its host only. *)
Lemma ToLower_JoinHostPort host port :
  all_digits port = true → ToLower (JoinHostPort host port) = JoinHostPort (ToLower host) port.
Proof.
  intros Hp. unfold JoinHostPort. rewrite contains_byte_ToLower by done.
  destruct (contains_byte ":" host).
  - change ("[" +:+ host +:+ "]:" +:+ port)
      with ("" +:+ String "["%char (host +:+ String "]"%char ("" +:+ String ":"%char port))).
    rewrite !ToLower_app_ascii by done. rewrite (ToLower_digits port) by done.
    change (byte_lower "[") with "["%char. change (byte_lower "]") with "]"%char.
    change (byte_lower ":") with ":"%char. reflexivity.
  - change (host +:+ ":" +:+ port) with (host +:+ String ":"%char port).
    rewrite ToLower_app_ascii by done. rewrite (ToLower_digits port) by done. reflexivity.
Qed.

(** ** Visible ASCII text *)

Definition visible (a : ascii) : bool := (33 <=? byte_val a) && (byte_val a <=? 126).

Fixpoint all_visible (s : string) : bool :=
  match s with "" => true | String a s => visible a && all_visible s end.

Lemma all_visible_app s t : all_visible (s +:+ t) = all_visible s && all_visible t.
Proof.
  induction s as [|a s IH]; [done|]. rewrite string_app_cons. simpl.
  by rewrite IH, andb_assoc.
Qed.

Lemma all_visible_rev s : all_visible (string_rev s) = all_visible s.
Proof.
  induction s as [|a s IH]; [done|]. rewrite string_rev_cons, all_visible_app, IH. simpl.
  by rewrite andb_true_r, andb_comm.
Qed.

(** No encoding of a space starts or ends with a visible byte. *)
Definition starts_hidden (e : string) : bool :=
  match e with String b _ => negb (visible b) | "" => false end.

Lemma space_encodings_hidden :
  Forall (λ e, starts_hidden e = true) (space_encodings ++ (string_rev <$> space_encodings)).
Proof. apply (bool_decide_unpack _). by vm_compute. Qed.

Lemma trim_left_visible es s :
  Forall (λ e, starts_hidden e = true) es → all_visible s = true → trim_left_with es s = s.
Proof.
  intros Hes Hs. destruct s as [|a s]; [done|]. apply trim_left_with_id, strip_any_None.
  intros e He. rewrite Forall_forall in Hes. apply Hes in He.
  destruct e as [|b e]; [done|]. simpl in *. apply negb_true_iff in He.
  apply andb_true_iff in Hs as [Ha _]. unfold HasPrefix. simpl.
  by rewrite bool_decide_eq_false_2 by (intros ->; congruence).
Qed.

Lemma TrimSpace_visible s : all_visible s = true → TrimSpace s = s.
Proof.
  intros Hs. pose proof space_encodings_hidden as [H1 H2]%Forall_app. unfold TrimSpace.
  rewrite (trim_left_visible _ s), trim_left_visible by (try done; by rewrite all_visible_rev).
  apply string_rev_involutive.
Qed.

(** ** The first bytes of a string *)

Fixpoint str_take (n : nat) (s : string) : string :=
  match n, s with S n, String a s => String a (str_take n s) | _, _ => "" end.

Lemma str_take_length n s : String.length (str_take n s) = Nat.min n (String.length s).
Proof. revert s. induction n as [|n IH]; intros [|a s]; simpl; auto. Qed.

Lemma str_take_all n s : (String.length s <= n)%nat → str_take n s = s.
Proof.
  revert s. induction n as [|n IH]; intros [|a s] H; simpl in *; try done; [lia|].
  by rewrite IH by lia.
Qed.
