(* ===== verification/Access.v ===== *)
(** * Role based access to tunnels ([internal/access/roles.go]) *)

From S2P Require Import Prelude GoStrings.

Module Access.

(** [normalize] *)
Definition normalize (value : string) : string := ToLower (TrimSpace value).

(** [CanViewAllTunnels] *)
Definition CanViewAllTunnels (role : string) : bool :=
  let r := normalize role in
  bool_decide (r = "teacher") || bool_decide (r = "auditor") || bool_decide (r = "admin").

(** [CanCloseTunnel] *)
Definition CanCloseTunnel (role requester owner : string) : bool :=
  if bool_decide (normalize role = "admin") then true
  else negb (bool_decide (normalize requester = ""))
       && bool_decide (normalize requester = normalize owner).

Lemma CanCloseTunnel_spec role requester owner :
  CanCloseTunnel role requester owner = true ↔
  normalize role = "admin"
  ∨ normalize requester ≠ "" ∧ normalize requester = normalize owner.
Proof.
  unfold CanCloseTunnel. case_bool_decide; [tauto|].
  rewrite andb_true_iff, negb_true_iff, bool_decide_eq_false, bool_decide_eq_true. tauto.
Qed.

(** The right to close is monotone in the role: whoever may close another
    user's tunnel may also list every tunnel. *)
Lemma close_foreign_implies_view_all role requester owner :
  CanCloseTunnel role requester owner = true →
  normalize requester ≠ normalize owner →
  CanViewAllTunnels role = true.
Proof.
  rewrite CanCloseTunnel_spec. intros [H|[_ H]] Hne; [|done].
  unfold CanViewAllTunnels. by rewrite H.
Qed.

(** Tunnels without an owner can be closed by an administrator only. *)
Lemma close_ownerless role requester owner :
  normalize owner = "" →
  CanCloseTunnel role requester owner = true → normalize role = "admin".
Proof. rewrite CanCloseTunnel_spec. intros Ho [H|[H1 H2]]; congruence. Qed.

End Access.
