(* ===== verification/Secrets.v ===== *)
(** * Generated secrets ([internal/secrets/secrets.go])

    The bytes of [crypto/rand] are an input; a failing [rand.Read] is a panic,
    here the error of the result. *)

From S2P Require Import Prelude GoStrings.

Module Secrets.

Definition alphabet : string :=
  "ABCDEFGHIJKLMNOPQRSTUVWXYZabcdefghijklmnopqrstuvwxyz0123456789".

(** The outcome of [rand.Read(buffer)] for a buffer of [length] bytes. *)
Definition rand_read : Type := nat → result string (list ascii).

(** [alphabet[i]], in range for every index the code computes. *)
Definition alphabet_at (i : Z) : ascii :=
  default "A"%char (String.get (Z.to_nat i) alphabet).

Fixpoint string_of_bytes (bs : list ascii) : string :=
  match bs with [] => "" | b :: bs => String b (string_of_bytes bs) end.

(** [GeneratePassword] *)
Definition GeneratePassword (rand : rand_read) (length : nat) : result string string :=
  let* buffer := rand length in
  Ok (string_of_bytes ((λ b, alphabet_at (byte_val b mod len alphabet)) <$> buffer)).

(** The last four bytes, [trimmed[len(trimmed)-4:]]. *)
Definition last4 (s : string) : string := String.substring (String.length s - 4) 4 s.

(** [RedactSecret] *)
Definition RedactSecret (value : string) : string :=
  let trimmed := TrimSpace value in
  if bool_decide (trimmed = "") then "<vacío>"
  else if (len trimmed <=? 4)%Z then "<redactado>"
  else "<redactado longitud=" +:+ Itoa (len trimmed) +:+ " sufijo=" +:+ last4 trimmed +:+ ">".

Definition newline : string := String (byte_of 10) "".
Definition separator : string := String.concat "" (replicate 60 "-").

(** [LogGeneratedCredential]: the text handed to [log.Printf]. *)
Definition LogGeneratedCredential (context user secretValue : string) : string :=
  newline +:+ separator +:+ newline
  +:+ "Credencial temporal generada para " +:+ context +:+ newline
  +:+ "Usuario: " +:+ user +:+ newline
  +:+ "Secreto: " +:+ RedactSecret secretValue +:+ newline +:+ separator +:+ newline.

Lemma length_string_of_bytes bs : String.length (string_of_bytes bs) = length bs.
Proof. induction bs as [|b bs IH]; [done|]. simpl. by rewrite IH. Qed.

Lemma GeneratePassword_length rand n s :
  (∀ bs, rand n = Ok bs → length bs = n) →
  GeneratePassword rand n = Ok s → String.length s = n.
Proof.
  intros Hr. unfold GeneratePassword. destruct (rand n) as [bs|e] eqn:E; [|done].
  intros [= <-]. rewrite length_string_of_bytes, length_fmap. by apply Hr.
Qed.

(** The log text is a function of the redacted secret only: secrets with the
    same trimmed length and the same last four bytes are logged alike, and a
    secret of at most four bytes is not shown at all. *)
Lemma RedactSecret_noninterference v w :
  len (TrimSpace v) = len (TrimSpace w) →
  (4 < len (TrimSpace v) → last4 (TrimSpace v) = last4 (TrimSpace w))%Z →
  RedactSecret v = RedactSecret w.
Proof.
  intros Hl H4. unfold RedactSecret.
  assert (∀ s : string, s = "" ↔ len s = 0%Z) as He.
  { intros s. unfold len. destruct s; simpl; split; intros; try done; lia. }
  rewrite (bool_decide_ext _ _ (He (TrimSpace v))), (bool_decide_ext _ _ (He (TrimSpace w))).
  rewrite Hl. case_bool_decide; [done|].
  destruct (len (TrimSpace w) <=? 4)%Z eqn:E; [done|]. bool_to_prop.
  by rewrite H4 by lia.
Qed.

End Secrets.
