(* ===== verification/Auth.v ===== *)
(** * The authentication service ([internal/auth/service.go]) *)

From S2P Require Import Prelude GoStrings Secrets.

Module Auth.

(** ** Data *)

Definition Role : Type := string.
Definition RoleStudent : Role := "student".
Definition RoleTeacher : Role := "teacher".
Definition RoleAuditor : Role := "auditor".
Definition RoleAdmin : Role := "admin".

Record Identity := mkIdentity { Username : string; IRole : Role }.

Record userRecord := mkUser { password : string; role : Role }.

Record Service := mkService { users : gmap string userRecord }.

#[export] Instance Identity_eq_dec : EqDecision Identity.
Proof. solve_decision. Defined.

(** ** The interface the transports use *)

(** [Authenticator]: the operation, and what the transports rely on: a
    successful login names a user. *)
Class Authenticator (A : Type) := {
  authenticate : A → string → string → result string Identity;
  authenticate_named a u p i : authenticate a u p = Ok i → Username i ≠ "";
}.

(** ** Operations *)

(** [subtle.ConstantTimeCompare] on equal lengths, with the accumulator
    [v |= x[i] ^ y[i]] and [ConstantTimeByteEq(v, 0)]. *)
Fixpoint ct_accumulate (v : Z) (x y : string) : Z :=
  match x, y with
  | String a x, String b y => ct_accumulate (Z.lor v (Z.lxor (byte_val a) (byte_val b))) x y
  | _, _ => v
  end.

Definition ConstantTimeByteEq (x y : Z) : Z :=
  Z.shiftr ((Z.lxor x y - 1) mod 2 ^ 32) 31.

Definition ConstantTimeCompare (x y : string) : Z :=
  if negb (len x =? len y)%Z then 0 else ConstantTimeByteEq (ct_accumulate 0 x y) 0.

(** [securePasswordEqual] *)
Definition securePasswordEqual (actual expected : string) : bool :=
  if bool_decide (expected = "") then false
  else if negb (len actual =? len expected)%Z then false
  else (ConstantTimeCompare actual expected =? 1)%Z.

(** [Service.Authenticate] *)
Definition Authenticate (s : Service) (username pass : string) : result string Identity :=
  let user := TrimSpace (ToLower username) in
  match users s !! user with
  | None => Err "invalid credentials"
  | Some record =>
     if negb (securePasswordEqual pass (password record)) then Err "invalid credentials"
     else Ok (mkIdentity user (role record))
  end.

(** [newUserRecord]: the first of the environment variables that is set and not
    empty, else a generated password; with the texts logged. *)
Fixpoint newUserRecord (env : gmap string string) (rand : Secrets.rand_read)
    (username : string) (role : Role) (envKeys : list string)
    : result string (userRecord * list string) :=
  let generate :=
    let* secret := Secrets.GeneratePassword rand 20 in
    Ok (mkUser secret role,
        [Secrets.LogGeneratedCredential ("usuario de laboratorio " +:+ username)
           username secret]) in
  match envKeys with
  | [] => generate
  | envKey :: envKeys =>
     match env !! envKey with
     | Some secret =>
        if negb (bool_decide (secret = "")) then Ok (mkUser secret role, [])
        else newUserRecord env rand username role envKeys
     | None => newUserRecord env rand username role envKeys
     end
  end.

(** [NewDefaultService]: the four laboratory users, in the order of the source;
    each has its own reading of the random source. *)
Definition NewDefaultService (env : gmap string string)
    (rand1 rand2 rand3 rand4 : Secrets.rand_read)
    : result string (Service * list string) :=
  let* s := newUserRecord env rand1 "student" RoleStudent
              ["LAB_PASSWORD_STUDENT"; "APP_AUTH_STUDENT_PASSWORD"] in
  let* t := newUserRecord env rand2 "teacher" RoleTeacher
              ["LAB_PASSWORD_TEACHER"; "APP_AUTH_TEACHER_PASSWORD"] in
  let* a := newUserRecord env rand3 "auditor" RoleAuditor
              ["LAB_PASSWORD_AUDITOR"; "APP_AUTH_AUDITOR_PASSWORD"] in
  let* d := newUserRecord env rand4 "admin" RoleAdmin
              ["LAB_PASSWORD_ADMIN"; "APP_AUTH_ADMIN_PASSWORD"] in
  Ok (mkService (<["student" := s.1]> (<["teacher" := t.1]>
        (<["auditor" := a.1]> (<["admin" := d.1]> ∅)))),
      s.2 ++ t.2 ++ a.2 ++ d.2).

(** ** Comparison of passwords *)

Lemma byte_bits a l : (0 <= a < 256 → 8 <= l → Z.testbit a l = false)%Z.
Proof. intros Ha Hl. apply (Z.bounded_iff_bits_nonneg 8 a); lia. Qed.

Lemma lor_byte a b : (0 <= a < 256 → 0 <= b < 256 → 0 <= Z.lor a b < 256)%Z.
Proof.
  intros Ha Hb. assert (0 <= Z.lor a b)%Z by (apply Z.lor_nonneg; lia). split; [done|].
  apply (Z.bounded_iff_bits_nonneg 8); [lia..|].
  intros l Hl. by rewrite Z.lor_spec, !byte_bits by lia.
Qed.

Lemma lxor_byte a b : (0 <= a < 256 → 0 <= b < 256 → 0 <= Z.lxor a b < 256)%Z.
Proof.
  intros Ha Hb. assert (0 <= Z.lxor a b)%Z by (apply Z.lxor_nonneg; lia). split; [done|].
  apply (Z.bounded_iff_bits_nonneg 8); [lia..|].
  intros l Hl. by rewrite Z.lxor_spec, !byte_bits by lia.
Qed.

Lemma ct_accumulate_spec v x y :
  (0 <= v < 256)%Z → String.length x = String.length y →
  (0 <= ct_accumulate v x y < 256)%Z
  ∧ (ct_accumulate v x y = 0%Z ↔ v = 0%Z ∧ x = y).
Proof.
  revert v y. induction x as [|a x IH]; intros v [|b y] Hv Hl; try done; simpl.
  { split; [done|tauto]. }
  pose proof (byte_val_range a). pose proof (byte_val_range b).
  assert (0 <= Z.lxor (byte_val a) (byte_val b) < 256)%Z by (by apply lxor_byte).
  simpl in Hl. destruct (IH (Z.lor v (Z.lxor (byte_val a) (byte_val b))) y) as [HA HB];
    [by apply lor_byte|lia|]. split; [done|]. rewrite HB, Z.lor_eq_0_iff, Z.lxor_eq_0_iff.
  split; [|intros [-> [= -> ->]]; done].
  intros [[-> E] ->]. apply (f_equal byte_of) in E. rewrite !byte_val_of in E. by subst.
Qed.

Lemma ConstantTimeCompare_spec x y :
  ConstantTimeCompare x y = (if bool_decide (x = y) then 1 else 0)%Z.
Proof.
  unfold ConstantTimeCompare, len. destruct (_ =? _)%Z eqn:E; simpl; bool_to_prop.
  - destruct (ct_accumulate_spec 0 x y) as [H1 H2]; [lia|lia|].
    unfold ConstantTimeByteEq. rewrite Z.lxor_0_r. case_bool_decide as Hxy.
    + by rewrite (proj2 H2).
    + assert (ct_accumulate 0 x y ≠ 0%Z) by tauto.
      rewrite Z.mod_small by lia. rewrite Z.shiftr_div_pow2 by lia. apply Z.div_small. lia.
  - rewrite bool_decide_eq_false_2; [done|]. by intros ->.
Qed.

Lemma securePasswordEqual_spec actual expected :
  securePasswordEqual actual expected = true ↔ expected ≠ "" ∧ actual = expected.
Proof.
  unfold securePasswordEqual. rewrite ConstantTimeCompare_spec.
  case_bool_decide; [naive_solver|]. unfold len.
  destruct (_ =? _)%Z eqn:E; simpl; bool_to_prop.
  - case_bool_decide; naive_solver.
  - split; [done|]. intros [_ ->]. lia.
Qed.

(** ** Authentication *)

Lemma Authenticate_ok s u p i :
  Authenticate s u p = Ok i ↔
  ∃ r, users s !! TrimSpace (ToLower u) = Some r ∧ password r = p ∧ p ≠ ""
       ∧ i = mkIdentity (TrimSpace (ToLower u)) (role r).
Proof.
  unfold Authenticate. destruct (users s !! _) as [r|]; [|naive_solver].
  destruct (securePasswordEqual p (password r)) eqn:E; simpl.
  - apply securePasswordEqual_spec in E as [? ->]. naive_solver.
  - split; [done|]. intros (? & [= <-] & <- & ? & _).
    by rewrite (proj2 (securePasswordEqual_spec _ _)) in E.
Qed.

Lemma Authenticate_err s u p e :
  Authenticate s u p = Err e → e = "invalid credentials".
Proof.
  unfold Authenticate. destruct (users s !! _); [|congruence].
  case_if; congruence.
Qed.

Lemma newUserRecord_spec env rand username r keys rec logs :
  (∀ bs, rand 20%nat = Ok bs → length bs = 20%nat) →
  newUserRecord env rand username r keys = Ok (rec, logs) →
  role rec = r ∧ password rec ≠ "".
Proof.
  intros Hr. induction keys as [|k keys IH]; cbn [newUserRecord].
  - destruct (Secrets.GeneratePassword rand 20) as [secret|] eqn:E; [|done].
    apply Secrets.GeneratePassword_length in E; [|done].
    intros [= <- <-]. split; [done|]. simpl. intros ->. done.
  - destruct (env !! k) as [v|]; [|done]. case_if; [|done].
    intros [= <- <-]. bool_to_prop. done.
Qed.

Lemma newUserRecord_env env rand username r k keys v :
  env !! k = Some v → v ≠ "" →
  newUserRecord env rand username r (k :: keys) = Ok (mkUser v r, []).
Proof. intros Hk Hv. cbn [newUserRecord]. rewrite Hk. by rewrite bool_decide_eq_false_2. Qed.

(** The state of the default service: four users, each with the role of its
    name and a password that is not empty. *)
Definition default_users_wf (s : Service) : Prop :=
  (∀ name r, users s !! name = Some r →
     role r = name ∧ password r ≠ ""
     ∧ name ∈ ["student"; "teacher"; "auditor"; "admin"])
  ∧ ∀ name, name ∈ ["student"; "teacher"; "auditor"; "admin"] → is_Some (users s !! name).

Definition reads_full (rand : Secrets.rand_read) : Prop :=
  ∀ n bs, rand n = Ok bs → length bs = n.

Lemma NewDefaultService_wf env r1 r2 r3 r4 s logs :
  reads_full r1 → reads_full r2 → reads_full r3 → reads_full r4 →
  NewDefaultService env r1 r2 r3 r4 = Ok (s, logs) → default_users_wf s.
Proof.
  intros F1 F2 F3 F4 H. unfold NewDefaultService in H.
  destruct (newUserRecord env r1 _ _ _) as [[u1 l1]|] eqn:E1; [|discriminate H].
  destruct (newUserRecord env r2 _ _ _) as [[u2 l2]|] eqn:E2; [|discriminate H].
  destruct (newUserRecord env r3 _ _ _) as [[u3 l3]|] eqn:E3; [|discriminate H].
  destruct (newUserRecord env r4 _ _ _) as [[u4 l4]|] eqn:E4; [|discriminate H].
  injection H as <- _.
  apply newUserRecord_spec in E1 as [? ?]; [|exact (F1 20)].
  apply newUserRecord_spec in E2 as [? ?]; [|exact (F2 20)].
  apply newUserRecord_spec in E3 as [? ?]; [|exact (F3 20)].
  apply newUserRecord_spec in E4 as [? ?]; [|exact (F4 20)].
  split; cbn [users].
  - intros name r Hu. rewrite !lookup_insert, lookup_empty in Hu.
    repeat case_decide; try discriminate Hu; injection Hu as <-; subst; set_solver.
  - intros name Hn. rewrite !lookup_insert. repeat case_decide; try by eexists. set_solver.
Qed.

#[global] Instance Service_Authenticator : Authenticator {s | default_users_wf s}.
Proof.
  refine {| authenticate s := Authenticate (proj1_sig s) |}.
  intros [s Hwf] u p i Hi. pose proof (proj1 Hwf) as Hs. cbn [proj1_sig] in Hi. apply Authenticate_ok in Hi as (r & Hu & _ & _ & ->).
  cbn [Username].
  apply Hs in Hu as (_ & _ & Hin). intros E. rewrite E in Hin. set_solver.
Defined.

(** ** Properties *)

(** A login succeeds exactly when the lower-cased, trimmed name is a known
    user and the password is that user's password and not empty; it yields that
    name with that user's role.  Every failure has the same message, so an
    unknown user and a wrong password cannot be told apart. *)
Lemma login_sound_complete (s : Service) (u p : string) :
  (∀ i, Authenticate s u p = Ok i ↔
     ∃ r, users s !! TrimSpace (ToLower u) = Some r ∧ password r = p ∧ p ≠ ""
          ∧ i = mkIdentity (TrimSpace (ToLower u)) (role r))
  ∧ ∀ e, Authenticate s u p = Err e → e = "invalid credentials".
Proof. split; [apply Authenticate_ok|apply Authenticate_err]. Qed.

(** The default service has exactly the four laboratory users, each with the
    role of its own name and a password that is not empty: a login names one of
    them with its own role, every one of them can log in, and a password set in
    the environment is the one that works. *)
Lemma default_service_logins env r1 r2 r3 r4 s logs :
  reads_full r1 → reads_full r2 → reads_full r3 → reads_full r4 →
  NewDefaultService env r1 r2 r3 r4 = Ok (s, logs) →
  (∀ u p i, Authenticate s u p = Ok i →
     IRole i = Username i ∧ p ≠ ""
     ∧ Username i ∈ ["student"; "teacher"; "auditor"; "admin"])
  ∧ (∀ name, name ∈ ["student"; "teacher"; "auditor"; "admin"] →
       ∃ p, Authenticate s name p = Ok (mkIdentity name name))
  ∧ (∀ p, env !! "LAB_PASSWORD_ADMIN" = Some p → p ≠ "" →
       Authenticate s "admin" p = Ok (mkIdentity "admin" "admin")).
Proof.
  intros F1 F2 F3 F4 H.
  pose proof (NewDefaultService_wf _ _ _ _ _ _ _ F1 F2 F3 F4 H) as [W1 W2].
  assert (∀ name, name ∈ ["student"; "teacher"; "auditor"; "admin"] →
    TrimSpace (ToLower name) = name) as Hn.
  { apply Forall_forall. repeat (constructor; [by vm_compute|]). constructor. }
  split_and!.
  - intros u p i (r & Hu & _ & Hp & ->)%Authenticate_ok.
    apply W1 in Hu as (? & _ & ?). by split_and!.
  - intros name Hin. destruct (W2 name Hin) as [r Hr].
    destruct (W1 name r Hr) as (Hrole & Hp & _). exists (password r).
    apply Authenticate_ok. exists r. rewrite Hn by done. by rewrite Hrole.
  - intros p He Hp. unfold NewDefaultService in H.
    rewrite (newUserRecord_env _ r4 _ _ _ _ p He Hp) in H.
    destruct (newUserRecord env r1 _ _ _) as [[u1 l1]|]; [|discriminate H].
    destruct (newUserRecord env r2 _ _ _) as [[u2 l2]|]; [|discriminate H].
    destruct (newUserRecord env r3 _ _ _) as [[u3 l3]|]; [|discriminate H].
    injection H as <- _. apply Authenticate_ok. exists (mkUser p RoleAdmin).
    rewrite Hn by set_solver. split_and!; [by simplify_map_eq|done..].
Qed.

Definition demo_rand : Secrets.rand_read := λ n, Ok (replicate n "x"%char).

Lemma default_service_logins_witness :
  ∃ s logs, NewDefaultService {["LAB_PASSWORD_ADMIN" := "s3cret"]}
              demo_rand demo_rand demo_rand demo_rand = Ok (s, logs)
    ∧ Authenticate s "admin" "s3cret" = Ok (mkIdentity "admin" "admin").
Proof.
  assert (reads_full demo_rand) as F.
  { intros n bs [= <-]. apply length_replicate. }
  destruct (NewDefaultService {["LAB_PASSWORD_ADMIN" := "s3cret"]}
              demo_rand demo_rand demo_rand demo_rand) as [[s logs]|e] eqn:E;
    [|by vm_compute in E].
  exists s, logs. split; [done|].
  destruct (default_service_logins _ _ _ _ _ _ _ F F F F E) as (_ & _ & H).
  by apply H.
Defined.

End Auth.
