(* ===== verification/RateLimiter.v ===== *)
(** * The login rate limiter ([internal/auth/ratelimiter.go])

    The limiter keeps, per key, the recent failures and the end of a lockout.
    A call reads the clock [r.now()] once, before it takes the lock, and the reading is
    an argument here.  The mutex makes the rest of each call atomic, so a run is a
    sequence of calls in the order in which they took the lock, with readings that may
    come in another order.  A guess of a
    password is two calls, between which those of other connections happen. *)

From S2P Require Import Prelude GoStrings.

Module RateLimiter.

(** ** Data *)

Record RateLimitConfig := mkConfig {
  Enabled : bool;
  MaxFailures : Z;
  Window : Duration;
  Lockout : Duration;
}.

Record RateLimitDecision := mkDecision {
  Allowed : bool;
  RetryAfter : Duration;
  Failures : Z;
}.

Record rateEntry := mkEntry {
  failures : list Time;
  blockedUntil : Time;
}.

Record t := mkLimiter {
  entries : gmap string rateEntry;
  cfg : RateLimitConfig;
}.

#[export] Instance RateLimitDecision_eq_dec : EqDecision RateLimitDecision.
Proof. solve_decision. Defined.

(** ** Operations *)

(** [NewRateLimiter] *)
Definition NewRateLimiter (c : RateLimitConfig) : t :=
  mkLimiter ∅ {|
    Enabled := Enabled c;
    MaxFailures := if (MaxFailures c <=? 0)%Z then 5%Z else MaxFailures c;
    Window := if (Window c <=? 0)%Z then Minute else Window c;
    Lockout := if (Lockout c <=? 0)%Z then Minute else Lockout c;
  |}.

(** [Key] *)
Definition Key (remoteAddr username : string) : string :=
  let host := match SplitHostPort remoteAddr with Ok (h, _) => h | Err _ => remoteAddr end in
  ToLower (TrimSpace host) +:+ "|" +:+ ToLower (TrimSpace username).

(** [keepRecent] *)
Fixpoint keepRecent (values : list Time) (cutoff : Time) : list Time :=
  match values with
  | [] => []
  | v :: values =>
     if negb (Before v cutoff) then v :: keepRecent values cutoff
     else keepRecent values cutoff
  end.

Definition allowed (n : Z) : RateLimitDecision := mkDecision true 0 n.

Definition nlen {A} (l : list A) : Z := Z.of_nat (length l).

(** [Allow].  The receiver may be nil ([None]); [now] was read before the lock was
    taken. *)
Definition Allow (r : option t) (now : Time) (key : string)
    : RateLimitDecision * option t :=
  match r with
  | None => (allowed 0, r)
  | Some rl =>
     if negb (Enabled (cfg rl)) then (allowed 0, r)
     else match entries rl !! key with
     | None => (allowed 0, r)
     | Some entry =>
        let fs := keepRecent (failures entry) (Add now (- Window (cfg rl))) in
        let entry' := mkEntry fs (blockedUntil entry) in
        if negb (IsZero (blockedUntil entry)) && Before now (blockedUntil entry) then
          (mkDecision false (Sub (blockedUntil entry) now) (nlen fs),
           Some (mkLimiter (<[key := entry']> (entries rl)) (cfg rl)))
        else if (nlen fs =? 0)%Z then
          (allowed (nlen fs), Some (mkLimiter (delete key (entries rl)) (cfg rl)))
        else
          (allowed (nlen fs), Some (mkLimiter (<[key := entry']> (entries rl)) (cfg rl)))
     end
  end.

(** [RecordFailure]; [now] was read before the lock was taken. *)
Definition RecordFailure (r : option t) (now : Time) (key : string)
    : RateLimitDecision * option t :=
  match r with
  | None => (allowed 0, r)
  | Some rl =>
     if negb (Enabled (cfg rl)) then (allowed 0, r)
     else
       let entry := default (mkEntry [] zero_time) (entries rl !! key) in
       let fs := keepRecent (failures entry) (Add now (- Window (cfg rl))) ++ [now] in
       if (MaxFailures (cfg rl) <=? nlen fs)%Z then
         (mkDecision false (Lockout (cfg rl)) (nlen fs),
          Some (mkLimiter (<[key := mkEntry fs (Add now (Lockout (cfg rl)))]> (entries rl))
                  (cfg rl)))
       else
         (allowed (nlen fs),
          Some (mkLimiter (<[key := mkEntry fs (blockedUntil entry)]> (entries rl)) (cfg rl)))
  end.

(** [RecordSuccess] *)
Definition RecordSuccess (r : option t) (key : string) : option t :=
  match r with
  | None => r
  | Some rl =>
     if negb (Enabled (cfg rl)) then r
     else Some (mkLimiter (delete key (entries rl)) (cfg rl))
  end.

(** ** Runs *)

Inductive event :=
| EAllow (key : string) (now : Time)
| EFailure (key : string) (now : Time)
| ESuccess (key : string).

#[export] Instance event_eq_dec : EqDecision event.
Proof. solve_decision. Defined.

(** One call, with the decision it returns ([RecordSuccess] returns none). *)
Definition step (r : option t) (e : event) : option RateLimitDecision * option t :=
  match e with
  | EAllow k now => let '(d, r') := Allow r now k in (Some d, r')
  | EFailure k now => let '(d, r') := RecordFailure r now k in (Some d, r')
  | ESuccess k => (None, RecordSuccess r k)
  end.

Fixpoint run (r : option t) (es : list event) : list (option RateLimitDecision) * option t :=
  match es with
  | [] => ([], r)
  | e :: es =>
     let '(d, r') := step r e in
     let '(ds, r'') := run r' es in (d :: ds, r'')
  end.

(** The clock never goes back from [last] on. *)
Fixpoint clock_from (last : Time) (es : list event) : Prop :=
  match es with
  | [] => True
  | EAllow _ now :: es | EFailure _ now :: es => (last <= now)%Z ∧ clock_from now es
  | ESuccess _ :: es => clock_from last es
  end.

(** ** Specification: a sliding window over the whole history

    The abstract limiter forgets nothing: it keeps every failure since the last
    success of a key and the end of its latest lockout, and counts the failures
    inside the window at each call. *)

Record history := mkHistory { all_failures : list Time; lockout_end : Time }.
Definition no_history : history := mkHistory [] zero_time.

Definition in_window (c : RateLimitConfig) (now : Time) (h : history) : list Time :=
  keepRecent (all_failures h) (Add now (- Window c)).

Definition locked (h : history) (now : Time) : bool :=
  negb (IsZero (lockout_end h)) && Before now (lockout_end h).

Definition spec_allow (c : RateLimitConfig) (now : Time) (h : history) : RateLimitDecision :=
  if locked h now
  then mkDecision false (Sub (lockout_end h) now) (nlen (in_window c now h))
  else allowed (nlen (in_window c now h)).

Definition spec_failure (c : RateLimitConfig) (now : Time) (h : history)
    : RateLimitDecision * history :=
  let n := (nlen (in_window c now h) + 1)%Z in
  if (MaxFailures c <=? n)%Z
  then (mkDecision false (Lockout c) n,
        mkHistory (all_failures h ++ [now]) (Add now (Lockout c)))
  else (allowed n, mkHistory (all_failures h ++ [now]) (lockout_end h)).

Definition spec_state : Type := string → history.
Definition spec_init : spec_state := λ _, no_history.
Definition upd (s : spec_state) (k : string) (h : history) : spec_state :=
  λ k', if decide (k' = k) then h else s k'.

Definition spec_step (c : RateLimitConfig) (s : spec_state) (e : event)
    : option RateLimitDecision * spec_state :=
  match e with
  | EAllow k now => (Some (spec_allow c now (s k)), s)
  | EFailure k now =>
     let '(d, h) := spec_failure c now (s k) in (Some d, upd s k h)
  | ESuccess k => (None, upd s k no_history)
  end.

Fixpoint spec_run (c : RateLimitConfig) (s : spec_state) (es : list event)
    : list (option RateLimitDecision) :=
  match es with
  | [] => []
  | e :: es => let '(d, s') := spec_step c s e in d :: spec_run c s' es
  end.

(** ** The window *)

Lemma keepRecent_app l1 l2 c : keepRecent (l1 ++ l2) c = keepRecent l1 c ++ keepRecent l2 c.
Proof. induction l1 as [|v l1 IH]; [done|]. simpl. by destruct (negb _); rewrite IH. Qed.

Lemma keepRecent_single now c : (c <= now)%Z → keepRecent [now] c = [now].
Proof. intros H. simpl. unfold Before. by replace (now <? c)%Z with false by lia. Qed.

Lemma keepRecent_twice l c1 c2 :
  (c1 <= c2)%Z → keepRecent (keepRecent l c1) c2 = keepRecent l c2.
Proof.
  intros Hc. induction l as [|v l IH]; [done|]. simpl. unfold Before in *.
  destruct (v <? c1)%Z eqn:E1; simpl.
  - replace (v <? c2)%Z with true by lia. done.
  - unfold Before. destruct (v <? c2)%Z; simpl; by rewrite IH.
Qed.

Lemma elem_of_keepRecent x l c : x ∈ keepRecent l c ↔ x ∈ l ∧ (c <= x)%Z.
Proof.
  induction l as [|v l IH]; simpl; [rewrite elem_of_nil; naive_solver|].
  unfold Before. destruct (v <? c)%Z eqn:E; simpl; bool_to_prop;
    rewrite ?elem_of_cons, IH; intuition (subst; auto; lia).
Qed.

Lemma keepRecent_mono_nil l c1 c2 : (c1 <= c2)%Z → keepRecent l c1 = [] → keepRecent l c2 = [].
Proof. intros Hc H. by rewrite <-(keepRecent_twice l c1 c2), H. Qed.

Lemma nlen_app {A} (l : list A) x : nlen (l ++ [x]) = (nlen l + 1)%Z.
Proof. unfold nlen. rewrite length_app. simpl. lia. Qed.

Lemma nlen_zero {A} (l : list A) : (nlen l =? 0)%Z = true ↔ l = [].
Proof. unfold nlen. rewrite Z.eqb_eq. destruct l; simpl; split; intros; try done; lia. Qed.

(** ** The simulation *)

Definition expired (b : Time) (now : Time) : Prop := b = 0%Z ∨ (b <= now)%Z.

Lemma expired_not_locked b now :
  expired b now ↔ negb (IsZero b) && Before now b = false.
Proof.
  unfold expired, IsZero, Before.
  destruct (b =? 0)%Z eqn:E1, (now <? b)%Z eqn:E2; simpl; bool_to_prop;
    intuition (try done; lia).
Qed.

Lemma expired_mono b t1 t2 : (t1 <= t2)%Z → expired b t1 → expired b t2.
Proof. unfold expired. lia. Qed.

(** What the limiter holds for a key, against its full history, at a time no
    later than any call to come. *)
Definition entry_rel (c : RateLimitConfig) (last : Time) (e : option rateEntry) (h : history)
    : Prop :=
  match e with
  | None => in_window c last h = [] ∧ expired (lockout_end h) last
  | Some e =>
     keepRecent (failures e) (Add last (- Window c)) = in_window c last h
     ∧ (blockedUntil e = lockout_end h
        ∨ expired (blockedUntil e) last ∧ expired (lockout_end h) last)
  end.

Lemma entry_rel_mono c t1 t2 e h :
  (t1 <= t2)%Z → entry_rel c t1 e h → entry_rel c t2 e h.
Proof.
  intros Ht. unfold entry_rel, in_window, Add. destruct e as [e|].
  - intros [H1 H2]. split.
    + rewrite <-(keepRecent_twice (failures e) (t1 + - Window c)) by lia.
      by rewrite H1, keepRecent_twice by lia.
    + destruct H2 as [|[? ?]]; [by left|right]. split; by eapply expired_mono.
  - intros [H1 H2]. split; [|by eapply expired_mono].
    eapply keepRecent_mono_nil; [|exact H1]. lia.
Qed.

Lemma entry_rel_locked c now e h :
  entry_rel c now (Some e) h →
  negb (IsZero (blockedUntil e)) && Before now (blockedUntil e) = locked h now
  ∧ (locked h now = true → blockedUntil e = lockout_end h).
Proof.
  intros [_ [Heq|[H1 H2]]]; unfold locked.
  - by rewrite Heq.
  - apply expired_not_locked in H1, H2. by rewrite H1, H2.
Qed.

Section Simulation.
Context (c : RateLimitConfig) (Hen : Enabled c = true) (Hw : (0 < Window c)%Z).

Definition sim (last : Time) (r : option t) (s : spec_state) : Prop :=
  ∃ m, r = Some (mkLimiter m c) ∧ ∀ k, entry_rel c last (m !! k) (s k).

Lemma sim_mono t1 t2 r s : (t1 <= t2)%Z → sim t1 r s → sim t2 r s.
Proof using Type.
  intros Ht (m & -> & H). exists m. split; [done|]. intros k.
  by eapply entry_rel_mono.
Qed.

Lemma sim_allow last r s k now :
  (last <= now)%Z → sim last r s →
  (Allow r now k).1 = spec_allow c now (s k) ∧ sim now (Allow r now k).2 s.
Proof using Hen.
  intros Ht Hs%(sim_mono _ now); [|done]. destruct Hs as (m & -> & Hs).
  unfold Allow. cbn [cfg entries]. rewrite Hen. cbn [negb].
  pose proof (Hs k) as Hk. destruct (m !! k) as [e|] eqn:Em.
  - destruct (entry_rel_locked _ _ _ _ Hk) as [Hl Hb]. destruct Hk as [Hf Hbu].
    rewrite Hf, Hl. unfold spec_allow. destruct (locked (s k) now) eqn:El.
    + cbn [fst snd]. rewrite Hb by done. split; [done|]. eexists. split; [done|].
      intros k'. destruct (decide (k = k')) as [<-|Hne]; simplify_map_eq; [|done].
      split; [|by left]. unfold in_window. by rewrite keepRecent_twice by lia.
    + destruct (nlen _ =? 0)%Z eqn:En; cbn [fst snd]; (split; [done|]); eexists;
        (split; [done|]); intros k';
        (destruct (decide (k = k')) as [<-|Hne]; simplify_map_eq; [|done]).
      * apply nlen_zero in En. split; [done|]. by apply expired_not_locked.
      * split; [|done]. unfold in_window. by rewrite keepRecent_twice by lia.
  - destruct Hk as [Hf Hx]. cbn [fst snd]. split; [|by exists m].
    unfold spec_allow, locked. apply expired_not_locked in Hx. by rewrite Hx, Hf.
Qed.

Lemma in_window_snoc now h b :
  in_window c now (mkHistory (all_failures h ++ [now]) b) = in_window c now h ++ [now].
Proof using Hw.
  unfold in_window. simpl. rewrite keepRecent_app, keepRecent_single; [done|].
  unfold Add. lia.
Qed.

Lemma sim_failure last r s k now :
  (last <= now)%Z → sim last r s →
  (RecordFailure r now k).1 = (spec_failure c now (s k)).1
  ∧ sim now (RecordFailure r now k).2 (upd s k (spec_failure c now (s k)).2).
Proof using Hen Hw.
  intros Ht Hs%(sim_mono _ now); [|done]. destruct Hs as (m & -> & Hs).
  unfold RecordFailure. cbn [cfg entries]. rewrite Hen. cbn [negb].
  set (e := default (mkEntry [] zero_time) (m !! k)).
  assert (entry_rel c now (Some e) (s k)) as [Hf Hb].
  { unfold e. pose proof (Hs k) as Hk. destruct (m !! k); [done|].
    destruct Hk as [Hf Hx]. split; [done|]. right. split; [by left|done]. }
  rewrite Hf, nlen_app. unfold spec_failure.
  destruct (MaxFailures c <=? _)%Z; cbn [fst snd]; (split; [done|]); eexists;
    (split; [done|]); intros k'; unfold upd;
    (case_decide as Hk; [subst k'; rewrite lookup_insert_eq|rewrite lookup_insert_ne by done; apply Hs]);
    (split; [cbn [failures]; rewrite in_window_snoc, keepRecent_app, keepRecent_single by (unfold Add; lia);
             unfold in_window; by rewrite keepRecent_twice by lia|]).
  - by left.
  - exact Hb.
Qed.

Lemma sim_success last r s k :
  sim last r s → sim last (RecordSuccess r k) (upd s k no_history).
Proof using Hen.
  intros (m & -> & Hs). unfold RecordSuccess. cbn [cfg entries]. rewrite Hen. cbn [negb].
  eexists. split; [done|]. intros k'. unfold upd. case_decide as Hk.
  - subst k'. rewrite lookup_delete_eq. split; [done|by left].
  - by rewrite lookup_delete_ne.
Qed.

Lemma run_sim last r s es :
  clock_from last es → sim last r s → (run r es).1 = spec_run c s es.
Proof using Hen Hw.
  revert last r s. induction es as [|e es IH]; intros last r s Hc Hs; [done|].
  destruct e as [k now|k now|k]; simpl in Hc |- *.
  - destruct Hc as [Ht Hc]. destruct (sim_allow _ _ _ k _ Ht Hs) as [Hd Hs'].
    destruct (Allow r now k) as [d r']. cbn [fst snd] in *.
    specialize (IH _ _ _ Hc Hs'). destruct (run r' es). simpl in *. by rewrite Hd, IH.
  - destruct Hc as [Ht Hc]. destruct (sim_failure _ _ _ k _ Ht Hs) as [Hd Hs'].
    destruct (RecordFailure r now k) as [d r'], (spec_failure c now (s k)) as [d' h'].
    cbn [fst snd] in *.
    specialize (IH _ _ _ Hc Hs'). destruct (run r' es). simpl in *. by rewrite Hd, IH.
  - specialize (IH _ _ _ Hc (sim_success _ _ _ k Hs)).
    destruct (run (RecordSuccess r k) es). simpl in *. by rewrite IH.
Qed.

End Simulation.

Lemma NewRateLimiter_cfg c :
  (0 < MaxFailures (cfg (NewRateLimiter c)))%Z
  ∧ (0 < Window (cfg (NewRateLimiter c)))%Z
  ∧ (0 < Lockout (cfg (NewRateLimiter c)))%Z.
Proof. simpl. unfold Minute, Second. repeat case_if; bool_to_prop; lia. Qed.

Lemma sim_init c last :
  sim (cfg (NewRateLimiter c)) last (Some (NewRateLimiter c)) spec_init.
Proof.
  exists ∅. split; [done|]. intros k. rewrite lookup_empty. split; [done|by left].
Qed.

(** ** The clock and the lock

    A call reads the clock before it takes the lock, so the readings of concurrent calls
    need not come in the order of their critical sections.  [readings_from δ top es]: in
    the order of the critical sections no reading is more than [δ] behind the latest
    reading before it, [top] being the latest so far.  With a clock that does not go
    back this holds when no call waits longer than [δ] between its reading and the lock;
    with [δ = 0] the two orders agree. *)
Fixpoint readings_from (δ : Duration) (top : Time) (es : list event) : Prop :=
  match es with
  | [] => True
  | EAllow _ now :: es | EFailure _ now :: es =>
     (top - δ <= now)%Z ∧ readings_from δ (Z.max top now) es
  | ESuccess _ :: es => readings_from δ top es
  end.

#[export] Instance readings_from_dec δ top es : Decision (readings_from δ top es).
Proof.
  revert top. induction es as [|[] es IH]; intros top; simpl; apply _.
Defined.

(** The latest reading after one call more. *)
Definition latest (e : event) (top : Time) : Time :=
  match e with EAllow _ now | EFailure _ now => Z.max top now | ESuccess _ => top end.

Lemma readings_from_cons δ top e es :
  readings_from δ top (e :: es) ↔ readings_from δ top [e] ∧ readings_from δ (latest e top) es.
Proof. destruct e; simpl; tauto. Qed.

Lemma readings_from_last δ top es k now :
  readings_from δ top (es ++ [EAllow k now]) → (top <= now + δ)%Z.
Proof.
  revert top. induction es as [|e es IH]; intros top; [simpl; lia|].
  rewrite <-app_comm_cons, readings_from_cons. intros [_ H%IH]. destruct e; simpl in H; lia.
Qed.

(** ** Lockout *)

(** An entry that is blocked up to [until] at least. *)
Definition blocks (until : Time) (k : string) (r : option t) : Prop :=
  ∃ rl e, r = Some rl ∧ Enabled (cfg rl) = true
          ∧ entries rl !! k = Some e ∧ (until <= blockedUntil e)%Z.

Lemma allow_blocked until k r now :
  (0 <= now < until)%Z → blocks until k r →
  Allowed (Allow r now k).1 = false
  ∧ (Sub until now <= RetryAfter (Allow r now k).1)%Z.
Proof.
  intros Hn (rl & e & -> & Hen & He & Hu). unfold Allow. rewrite Hen, He. cbn [negb].
  unfold IsZero, Before. replace (blockedUntil e =? 0)%Z with false by lia.
  replace (now <? blockedUntil e)%Z with true by lia. simpl. unfold Sub. lia.
Qed.

Lemma blocks_intro until k m c e :
  Enabled c = true → m !! k = Some e → (until <= blockedUntil e)%Z →
  blocks until k (Some (mkLimiter m c)).
Proof. intros ???. by eexists _, _. Qed.

(** A reading before [until], whose lockout would not end before [until]. *)
Definition early (until : Time) (e : event) (rl : t) : Prop :=
  match e with
  | EAllow _ now => (now < until)%Z
  | EFailure _ now => (until <= now + Lockout (cfg rl))%Z
  | ESuccess _ => True
  end.

(** Until the lockout ends, no call but a success of the same key lifts it. *)
Lemma step_blocks until k rl e :
  (0 < until)%Z → early until e rl → e ≠ ESuccess k →
  blocks until k (Some rl) → blocks until k (step (Some rl) e).2.
Proof.
  intros H0 Ht Hne (rl' & en & [= <-] & Hen & He & Hu).
  destruct e as [k' now|k' now|k']; simpl in Ht |- *; rewrite Hen; cbn [negb].
  - destruct (decide (k' = k)) as [->|Hk].
    + rewrite He. unfold IsZero, Before.
      replace (blockedUntil en =? 0)%Z with false by lia.
      replace (now <? blockedUntil en)%Z with true by lia. cbn [negb andb snd].
      eapply blocks_intro; [done|apply lookup_insert_eq|done].
    + destruct (entries rl !! k') as [e'|] eqn:Ek'; cbn [snd]; [|by eexists _, _].
      repeat case_if; cbn [snd]; (eapply blocks_intro; [done| |done]); by simplify_map_eq.
  - destruct (_ <=? _)%Z eqn:Em; cbn [snd];
      (destruct (decide (k' = k)) as [->|Hk];
       [rewrite He; eapply blocks_intro; [done|apply lookup_insert_eq|done]
       |eapply blocks_intro; [done|by rewrite lookup_insert_ne|done]]).
  - eapply blocks_intro; [done| |done]. rewrite lookup_delete_ne; congruence.
Qed.

Lemma step_cfg r e rl rl' : r = Some rl → (step r e).2 = Some rl' → cfg rl' = cfg rl.
Proof.
  intros ->. destruct e as [k now|k now|k]; simpl.
  - destruct (negb _); [naive_solver|]. destruct (entries rl !! k); [|naive_solver].
    repeat case_if; naive_solver.
  - destruct (negb _); [naive_solver|]. case_if; naive_solver.
  - destruct (negb _); naive_solver.
Qed.

Lemma run_blocks δ t0 k es top rl now :
  let until := (t0 + Lockout (cfg rl) - δ)%Z in
  (0 <= δ < t0)%Z → (t0 <= top)%Z → readings_from δ top (es ++ [EAllow k now]) →
  (now < until - δ)%Z → ESuccess k ∉ es →
  blocks until k (Some rl) → blocks until k (run (Some rl) es).2.
Proof.
  cbv zeta. revert top rl. induction es as [|e es IH]; intros top rl H0 Htop Hc Hn Hin Hb; [done|].
  rewrite <-app_comm_cons, readings_from_cons in Hc. destruct Hc as [Hr Hc].
  pose proof (readings_from_last _ _ _ _ _ Hc) as Hl.
  set (until := (t0 + Lockout (cfg rl) - δ)%Z) in *.
  assert (blocks until k (step (Some rl) e).2) as Hb'.
  { apply step_blocks; [unfold until|..|set_solver|done].
    - destruct e; simpl in *; lia.
    - unfold early, until. destruct e; simpl in *; try done; lia. }
  simpl. destruct (step (Some rl) e) as [d r'] eqn:Es. cbn [snd] in Hb'.
  pose proof Hb' as (rl' & _ & -> & _).
  assert (cfg rl' = cfg rl) as Hcfg by (eapply step_cfg; [done|by rewrite Es]).
  assert (blocks until k (run (Some rl') es).2) as H.
  { unfold until in *. rewrite <-Hcfg in *. eapply (IH (latest e top)); try done; [|set_solver].
    destruct e; simpl; lia. }
  by destruct (run (Some rl') es).
Qed.

(** ** Brute force

    The password callback guards a check with [Allow] and reports a wrong
    password with [RecordFailure]; between the two calls the password is
    checked, and the callbacks of other connections run.  An attacker has
    connections numbered from zero; all guess passwords of one key [k], and
    every password is wrong.  [Begin] is the critical section of [Allow], after
    which an admitted guess is [pending], and [Finish] that of [RecordFailure]
    for a pending one, each with the reading of its call; [Other] is any call
    for another key. *)
Inductive move :=
| Begin (conn : nat) (now : Time)
| Finish (conn : nat) (now : Time)
| Other (e : event).

Record attack := mkAttack {
  limiter : option t;
  pending : gset nat;
  failed : list Time;
}.

Definition event_key (e : event) : string :=
  match e with EAllow k _ | EFailure k _ | ESuccess k => k end.

Definition attack_step (k : string) (a : attack) (m : move) : attack :=
  match m with
  | Begin i now =>
     if decide (i ∈ pending a) then a
     else
       let '(d, r) := Allow (limiter a) now k in
       mkAttack r (if Allowed d then {[i]} ∪ pending a else pending a) (failed a)
  | Finish i now =>
     if decide (i ∈ pending a) then
       mkAttack (RecordFailure (limiter a) now k).2 (pending a ∖ {[i]}) (failed a ++ [now])
     else a
  | Other e =>
     if decide (event_key e = k) then a
     else mkAttack (step (limiter a) e).2 (pending a) (failed a)
  end.

Definition attack_run (k : string) (r : option t) (ms : list move) : attack :=
  foldl (attack_step k) (mkAttack r ∅ []) ms.

(** The moves of [n] connections, whose readings are at most [δ] behind. *)
Fixpoint moves_from (δ : Duration) (n : nat) (top : Time) (ms : list move) : Prop :=
  match ms with
  | [] => True
  | Begin i now :: ms | Finish i now :: ms =>
     (i < n)%nat ∧ (top - δ <= now)%Z ∧ moves_from δ n (Z.max top now) ms
  | Other e :: ms => moves_from δ n (latest e top) ms
  end.

#[export] Instance moves_from_dec δ n top ms : Decision (moves_from δ n top ms).
Proof.
  revert top. induction ms as [|[] ms IH]; intros top; cbn [moves_from]; apply _.
Defined.

(** The failures [i] and [i + n] are at least [gap] apart. *)
Definition spaced (n : nat) (gap : Z) (fs : list Time) : Prop :=
  ∀ i a b, fs !! i = Some a → fs !! (i + n)%nat = Some b → (a + gap <= b)%Z.

Lemma keepRecent_all l cutoff : Forall (λ x, cutoff <= x)%Z l → keepRecent l cutoff = l.
Proof.
  induction 1 as [|x l Hx _ IH]; [done|]. simpl. unfold Before.
  replace (x <? cutoff)%Z with false by lia. by rewrite IH.
Qed.

Section BruteForce.
Context (c : RateLimitConfig) (Hen : Enabled c = true).
Context (Hm : (0 < MaxFailures c)%Z).
Context (δ : Duration) (Hδ : (0 <= δ)%Z) (k : string) (n : nat).

#[local] Abbreviation gap := (Z.min (Window c) (Lockout c)).
#[local] Abbreviation maxf := (Z.to_nat (MaxFailures c)).

(** The failure [a] is recent: the failures since then are in the window, and the
    lockouts they start last. *)
Definition recent (top a : Time) : Prop := (top < a + gap - δ)%Z.

(** While the failure [i] is recent its entry holds the failures from it on; once these
    are [maxf] the key is blocked, and no guess is admitted: those still to be recorded
    were pending at the lockout. *)
Record holds (top : Time) (fs : list Time) (ps : nat) (i : nat) (a : Time) (e : rateEntry)
    : Prop := {
  holds_failures : ∃ l, failures e = l ++ drop i fs;
  holds_block : (i + maxf <= length fs)%nat → (a - δ + Lockout c <= blockedUntil e)%Z;
  holds_pending : (i + maxf <= length fs)%nat → (length fs + ps < i + maxf + n)%nat;
}.

(** What is known of the failures, the pending guesses and the entry of the key. *)
Record guesses (top : Time) (fs : list Time) (ps : nat) (oe : option rateEntry) : Prop := {
  g_range : Forall (λ x, x <= top)%Z fs;
  g_order i j a b : (i <= j)%nat → fs !! i = Some a → fs !! j = Some b → (a - δ <= b)%Z;
  g_spaced : spaced (maxf + n - 1) (gap - 2 * δ) fs;
  g_recent i a : fs !! i = Some a → recent top a →
    ∃ e, oe = Some e ∧ holds top fs ps i a e;
}.

Lemma guesses_mono t1 t2 fs ps oe : (t1 <= t2)%Z → guesses t1 fs ps oe → guesses t2 fs ps oe.
Proof using Type.
  intros Ht [H1 H2 H3 H4]. split; try done.
  - eapply Forall_impl; [exact H1|]. simpl. intros x Hx. by etrans.
  - intros i a Ha Hr. destruct (H4 i a Ha) as (e & He & [Hf Hb Hp]).
    { unfold recent in *. eapply Z.le_lt_trans; [exact Ht|exact Hr]. }
    exists e. by split.
Qed.

(** The failures from a recent one on are kept. *)
Lemma keep_recent top now fs ps oe i a l :
  guesses top fs ps oe → (now <= top)%Z → fs !! i = Some a → recent top a →
  keepRecent (l ++ drop i fs) (Add now (- Window c))
  = keepRecent l (Add now (- Window c)) ++ drop i fs.
Proof using Hm Hδ.
  intros [_ Ho _ _] Ht Ha Hr. rewrite keepRecent_app. f_equal. apply keepRecent_all.
  apply Forall_lookup. intros j x Hx. rewrite lookup_drop in Hx.
  pose proof (Ho i (i + j)%nat a x ltac:(lia) Ha Hx). unfold recent, Add in *. lia.
Qed.

(** [Allow] keeps this, and admits no guess while a full window is recent. *)
Lemma guesses_allow top m fs ps now :
  (0 <= top)%Z → (now <= top)%Z → guesses top fs ps (m !! k) →
  let '(d, r) := Allow (Some (mkLimiter m c)) now k in
  ∃ m', r = Some (mkLimiter m' c)
    ∧ guesses top fs (if Allowed d then S ps else ps) (m' !! k).
Proof using Hen Hm Hδ.
  intros H0 Ht Hg. unfold Allow. cbn [cfg entries]. rewrite Hen. cbn [negb].
  pose proof Hg as [H1 H2 H3 H4]. destruct (m !! k) as [e|] eqn:Em.
  2: { exists m. split; [done|]. rewrite Em. split; try done. intros i a Ha Hr.
       by destruct (H4 i a Ha Hr) as (e & He & _). }
  set (fs' := keepRecent (failures e) _).
  assert (Hkeep : ∀ i a, fs !! i = Some a → recent top a →
    holds top fs ps i a (mkEntry fs' (blockedUntil e))).
  { intros i a Ha Hr. destruct (H4 i a Ha Hr) as (e' & [= <-] & [[l Hl] Hb Hp]).
    split; [|done..]. unfold fs'. rewrite Hl, (keep_recent top now fs ps (Some e) i a) by done.
    by eexists. }
  assert (Hnone : negb (IsZero (blockedUntil e)) && Before now (blockedUntil e) = false →
    ∀ i a, fs !! i = Some a → recent top a → (length fs < i + maxf)%nat).
  { intros Hb i a Ha Hr. destruct (H4 i a Ha Hr) as (e' & [= <-] & [_ Hbl _]).
    destruct (decide (i + maxf <= length fs)%nat) as [Hle|]; [|lia]. specialize (Hbl Hle).
    unfold recent, IsZero, Before in *.
    destruct (blockedUntil e =? 0)%Z eqn:E1, (now <? blockedUntil e)%Z eqn:E2; simpl in Hb;
      bool_to_prop; try done; lia. }
  assert (Hadm : negb (IsZero (blockedUntil e)) && Before now (blockedUntil e) = false →
    ∀ i a, fs !! i = Some a → recent top a →
      holds top fs (S ps) i a (mkEntry fs' (blockedUntil e))).
  { intros Hb i a Ha Hr. pose proof (Hnone Hb i a Ha Hr). destruct (Hkeep i a Ha Hr) as [Hf _ _].
    split; [done|lia|lia]. }
  destruct (negb (IsZero _) && _) eqn:Eb; [|destruct (nlen fs' =? 0)%Z eqn:En]; cbn [Allowed allowed].
  - eexists. split; [done|]. rewrite lookup_insert_eq. split; try done. intros i a Ha Hr.
    eexists. split; [done|]. by apply Hkeep.
  - eexists. split; [done|]. split; try done. intros i a Ha Hr.
    destruct (Hkeep i a Ha Hr) as [[l Hl] _ _]. apply nlen_zero in En. simpl in Hl.
    rewrite En, (drop_S _ _ _ Ha) in Hl. by destruct l.
  - eexists. split; [done|]. rewrite lookup_insert_eq. split; try done. intros i a Ha Hr.
    eexists. split; [done|]. by apply Hadm.
Qed.

Lemma order_snoc (fs : list Time) now :
  (∀ i j a b, (i <= j)%nat → fs !! i = Some a → fs !! j = Some b → a - δ <= b)%Z →
  Forall (λ x, x - δ <= now)%Z fs →
  ∀ i j a b, (i <= j)%nat → (fs ++ [now]) !! i = Some a → (fs ++ [now]) !! j = Some b →
    (a - δ <= b)%Z.
Proof using Hδ.
  intros Ho Hf i j a b Hij Ha Hb. apply lookup_app_Some in Hb as [Hb|[Hge Hb]].
  - rewrite lookup_app_l in Ha by (apply lookup_lt_Some in Hb; lia). by eapply Ho.
  - apply list_lookup_singleton_Some in Hb as [Hz <-].
    apply lookup_app_Some in Ha as [Ha|[_ Ha]].
    + rewrite Forall_lookup in Hf. by apply (Hf i).
    + apply list_lookup_singleton_Some in Ha as [_ <-]. lia.
Qed.

(** [RecordFailure] of a pending guess keeps this. *)
Lemma guesses_failure t0 top m fs ps now :
  (0 <= t0)%Z → (t0 - δ <= now)%Z → top = Z.max t0 now → (S ps <= n)%nat →
  guesses t0 fs (S ps) (m !! k) →
  ∃ m', (RecordFailure (Some (mkLimiter m c)) now k).2 = Some (mkLimiter m' c)
    ∧ guesses top (fs ++ [now]) ps (m' !! k).
Proof using Hen Hm Hδ.
  intros H0 Hnow Htop Hps Hg0.
  assert (Hg : guesses top fs (S ps) (m !! k)) by (eapply guesses_mono, Hg0; lia).
  pose proof Hg as [H1 H2 H3 H4]. pose proof (g_range _ _ _ _ Hg0) as Hr0.
  unfold RecordFailure. cbn [cfg entries]. rewrite Hen. cbn [negb].
  set (e := default (mkEntry [] zero_time) (m !! k)).
  set (fs' := keepRecent (failures e) (Add now (- Window c)) ++ [now]).
  assert (Hord : Forall (λ x, x - δ <= now)%Z fs).
  { eapply Forall_impl; [exact Hr0|]. simpl. lia. }
  assert (Hsuf : ∀ i a, (fs ++ [now]) !! i = Some a → recent top a →
    ∃ l, fs' = l ++ drop i (fs ++ [now])).
  { intros i a Ha Hr. unfold fs'. apply lookup_app_Some in Ha as [Ha|[Hge Ha]].
    - destruct (H4 i a Ha Hr) as (e' & He & [[l Hl] _ _]). unfold e. rewrite He. simpl.
      rewrite Hl, (keep_recent top now fs (S ps) (m !! k) i a) by (done || lia).
      rewrite drop_app_le by (apply lookup_lt_Some in Ha; lia). rewrite <-app_assoc. by eexists.
    - apply list_lookup_singleton_Some in Ha as [Hz _]. rewrite drop_app_ge by lia.
      replace (i - length fs)%nat with 0%nat by lia. by eexists. }
  assert (Hb : ∀ i a, (fs ++ [now]) !! i = Some a → recent top a →
    (i + maxf <= length (fs ++ [now]))%nat →
    (MaxFailures c <= nlen fs')%Z ∧ (a - δ + Lockout c <= now + Lockout c)%Z
    ∧ (length (fs ++ [now]) + ps < i + maxf + n)%nat).
  { intros i a Ha Hr Hi. destruct (Hsuf i a Ha Hr) as [l Hl]. split_and!.
    - rewrite Hl. unfold nlen. rewrite length_app, length_drop. lia.
    - enough (a - δ <= now)%Z by lia.
      eapply (order_snoc fs now H2 Hord i (length fs)); [|exact Ha|].
      + apply lookup_lt_Some in Ha. rewrite length_app in Ha. simpl in Ha. lia.
      + by rewrite lookup_app_r, Nat.sub_diag by lia.
    - rewrite length_app in *. simpl in *. destruct (decide (i + maxf <= length fs)%nat) as [Hle|]; [|lia].
      rewrite lookup_app_l in Ha by lia. destruct (H4 i a Ha Hr) as (e' & _ & [_ _ Hp]).
      specialize (Hp Hle). lia. }
  assert (Hsp : spaced (maxf + n - 1) (gap - 2 * δ) (fs ++ [now])).
  { intros i a b Ha Hbj. apply lookup_app_Some in Hbj as [Hbj|[Hge Hbj]].
    - rewrite lookup_app_l in Ha by (apply lookup_lt_Some in Hbj; lia). by eapply H3.
    - apply list_lookup_singleton_Some in Hbj as [Hz <-]. rewrite lookup_app_l in Ha by lia.
      destruct (Z.le_gt_cases (a + gap - δ) top) as [Hle|Hlt]; [lia|].
      destruct (H4 i a Ha Hlt) as (e' & _ & [_ _ Hp]). specialize (Hp ltac:(lia)). lia. }
  assert (Hrange : Forall (λ x, x <= top)%Z (fs ++ [now])).
  { apply Forall_app. split; [done|]. repeat constructor. lia. }
  destruct (MaxFailures c <=? nlen fs')%Z eqn:Em; cbn [snd]; (eexists; split; [done|]);
    rewrite lookup_insert_eq; (split; [done|by apply order_snoc|done|]);
    intros i a Ha Hr; (eexists; split; [done|]); (split; [by apply (Hsuf i a)|..]);
    intros Hi; destruct (Hb i a Ha Hr Hi) as (Hb1 & Hb2 & Hb3); bool_to_prop; try done; lia.
Qed.

(** A call for another key does not touch the entry. *)
Lemma step_other m e :
  event_key e ≠ k →
  ∃ m', (step (Some (mkLimiter m c)) e).2 = Some (mkLimiter m' c) ∧ m' !! k = m !! k.
Proof using Hen.
  intros Hk. destruct e as [k' now|k' now|k']; simpl in *; rewrite Hen; cbn [negb].
  - destruct (m !! k') as [e|] eqn:Em; [|by exists m].
    repeat case_if; eexists; (split; [done|]); by simplify_map_eq.
  - case_if; eexists; (split; [done|]); by simplify_map_eq.
  - eexists. split; [done|]. by rewrite lookup_delete_ne.
Qed.

Definition attack_inv (top : Time) (a : attack) : Prop :=
  ∃ m, limiter a = Some (mkLimiter m c) ∧ (0 <= top)%Z ∧ pending a ⊆ set_seq 0 n
    ∧ guesses top (failed a) (size (pending a)) (m !! k).

Lemma begin_inv top i now a :
  (i < n)%nat → attack_inv top a →
  attack_inv (Z.max top now) (attack_step k a (Begin i now)).
Proof using Hen Hm Hδ.
  intros Hi (m & Hr & H0 & Hp & Hg). unfold attack_step.
  assert (Hg' : guesses (Z.max top now) (failed a) (size (pending a)) (m !! k))
    by (eapply guesses_mono, Hg; lia).
  case_decide as Hip; [exists m; split_and!; try done; lia|].
  pose proof (guesses_allow (Z.max top now) m _ _ now ltac:(lia) ltac:(lia) Hg') as H. rewrite Hr.
  destruct (Allow _ now k) as [d r]. destruct H as (m' & -> & H).
  exists m'. cbn [limiter pending failed]. split; [done|]. split; [lia|].
  destruct (Allowed d); [|done]. split.
  - apply union_subseteq. split; [|done]. apply singleton_subseteq_l, elem_of_set_seq. lia.
  - by rewrite size_union, size_singleton by set_solver.
Qed.

Lemma finish_inv top i now a :
  (top - δ <= now)%Z → attack_inv top a →
  attack_inv (Z.max top now) (attack_step k a (Finish i now)).
Proof using Hen Hm Hδ.
  intros Ht (m & Hr & H0 & Hp & Hg). unfold attack_step. case_decide as Hip.
  2: { exists m. split_and!; try done; [lia|]. eapply guesses_mono, Hg. lia. }
  assert (size (pending a) = S (size (pending a ∖ {[i]}))) as Hsz.
  { rewrite (union_difference_singleton_L i (pending a)) at 1 by done.
    rewrite size_union, size_singleton by set_solver. done. }
  assert (S (size (pending a ∖ {[i]})) <= n)%nat.
  { rewrite <-Hsz. etrans; [by apply subseteq_size|]. by rewrite size_set_seq. }
  rewrite Hsz in Hg. rewrite Hr.
  destruct (guesses_failure top (Z.max top now) m _ _ now H0 Ht eq_refl ltac:(done) Hg)
    as (m' & Hm' & Hg').
  exists m'. cbn [limiter pending failed]. split_and!; [done|lia|set_solver|done].
Qed.

Lemma attack_inv_run ms top a :
  moves_from δ n top ms → attack_inv top a →
  spaced (maxf + n - 1) (gap - 2 * δ) (failed (foldl (attack_step k) a ms)).
Proof using Hen Hm Hδ.
  revert top a. induction ms as [|mv ms IH]; intros top a Hms Ha.
  { destruct Ha as (m & _ & _ & _ & Hg). apply Hg. }
  cbn [foldl]. destruct mv as [i now|i now|e]; cbn [moves_from] in Hms.
  - destruct Hms as (Hi & Ht & Hms). apply (IH _ _ Hms). by apply begin_inv.
  - destruct Hms as (_ & Ht & Hms). apply (IH _ _ Hms). by apply finish_inv.
  - apply (IH _ _ Hms). destruct Ha as (m & Hr & H0 & Hp & Hg). unfold attack_step.
    assert (top <= latest e top)%Z by (destruct e; simpl; lia).
    case_decide as Hk; [exists m; split_and!; try done; [lia|by eapply guesses_mono]|].
    rewrite Hr. destruct (step_other m e Hk) as (m' & -> & He). exists m'.
    cbn [limiter pending failed]. rewrite He. split_and!; try done; [lia|by eapply guesses_mono].
Qed.

End BruteForce.

(** ** Properties *)

(** C1: the limiter refines the sliding-window specification.  From a new
    limiter, every sequence of calls on any keys, whose readings of the clock do not go
    back in the order of their critical sections, gets exactly the decisions of the abstract limiter that remembers the
    whole history, although the code prunes and deletes entries. *)
Theorem limiter_refines_sliding_window (c : RateLimitConfig) (last : Time) (es : list event) :
  Enabled c = true → clock_from last es →
  (run (Some (NewRateLimiter c)) es).1 = spec_run (cfg (NewRateLimiter c)) spec_init es.
Proof.
  intros Hen Hc. eapply run_sim; [done|apply NewRateLimiter_cfg|exact Hc|apply sim_init].
Qed.

Definition demo_cfg : RateLimitConfig := mkConfig true 2 (60 * Second) (30 * Second).
Definition demo_events : list event :=
  [EFailure "a" (1 * Second); EFailure "b" (2 * Second); EFailure "a" (3 * Second);
   EAllow "a" (10 * Second); EAllow "b" (11 * Second); EAllow "a" (40 * Second);
   ESuccess "a"; EAllow "a" (41 * Second)].

Lemma limiter_refines_sliding_window_witness :
  (run (Some (NewRateLimiter demo_cfg)) demo_events).1
  = spec_run (cfg (NewRateLimiter demo_cfg)) spec_init demo_events
  ∧ (run (Some (NewRateLimiter demo_cfg)) demo_events).1 !! 3%nat
    = Some (Some (mkDecision false (23 * Second) 2)).
Proof.
  split; [apply (limiter_refines_sliding_window demo_cfg 0)|]; by vm_compute.
Defined.

(** C13: a lockout cannot be escaped.  Let no reading of the clock be more than [δ]
    behind the latest one when its call enters the critical section.  Once
    [RecordFailure] denies a key at a reading [t0], [Allow] denies it at every reading
    before [t0 + Lockout - 2 δ], whatever calls happen in between on any key, as long as
    the key has no successful login; and it reports a wait that ends at
    [t0 + Lockout - δ] or later.  With [δ = 0], when the calls enter in the order of
    their readings, the lockout lasts in full. *)
Theorem lockout_holds (rl : t) (k : string) (δ : Duration) (t0 now : Time) (es : list event) :
  Allowed (RecordFailure (Some rl) t0 k).1 = false →
  (0 <= δ < t0)%Z → readings_from δ t0 (es ++ [EAllow k now]) → ESuccess k ∉ es →
  (now < t0 + Lockout (cfg rl) - 2 * δ)%Z →
  let r := (run (RecordFailure (Some rl) t0 k).2 es).2 in
  Allowed (Allow r now k).1 = false
  ∧ (Sub (t0 + Lockout (cfg rl) - δ) now <= RetryAfter (Allow r now k).1)%Z.
Proof.
  intros Hd H0 Hc Hin Hn. cbn zeta. pose proof (readings_from_last _ _ _ _ _ Hc).
  revert Hd. cbn [RecordFailure]. destruct (Enabled (cfg rl)) eqn:Hen; [|done].
  cbn [negb]. case_if; [|done]. intros _. cbn [fst snd].
  apply allow_blocked; [lia|].
  eapply (run_blocks δ t0 k es t0 (mkLimiter _ (cfg rl)) now); try done; cbn [cfg]; try lia.
  eapply blocks_intro; [done|apply lookup_insert_eq|]. cbn [blockedUntil]. unfold Add. lia.
Qed.

Lemma lockout_holds_witness :
  let rl := mkLimiter {["a" := mkEntry [Second] 0]} demo_cfg in
  let es := [EAllow "a" (4 * Second); EFailure "b" (5 * Second); EFailure "a" (4 * Second);
             ESuccess "b"]%Z in
  let r := (run (RecordFailure (Some rl) (5 * Second) "a").2 es).2 in
  Allowed (Allow r (32 * Second) "a").1 = false
  ∧ (Sub (5 * Second + Lockout demo_cfg - Second) (32 * Second)
     <= RetryAfter (Allow r (32 * Second) "a").1)%Z.
Proof.
  apply (lockout_holds (mkLimiter {["a" := mkEntry [Second] 0]} demo_cfg)
           "a" Second (5 * Second) (32 * Second)
           [EAllow "a" (4 * Second); EFailure "b" (5 * Second); EFailure "a" (4 * Second);
            ESuccess "b"]%Z).
  - by vm_compute.
  - cbv. intuition discriminate.
  - apply (bool_decide_unpack _). by vm_compute.
  - apply (bool_decide_unpack _). by vm_compute.
  - by vm_compute.
Defined.

(** C14: brute force is bounded, also in parallel.  Let an attacker guess passwords of
    one key over [n] connections at a time, in any interleaving of their calls and of
    calls for other keys, and let no reading of the clock be more than [δ] behind the
    latest one when its call enters the critical section.  Any two recorded failures
    that are [MaxFailures + n - 1] apart in the sequence are at least the smaller of
    [Window] and [Lockout], less [2 δ], apart in time.  With one connection and
    [δ = 0] these are [MaxFailures] guesses. *)
Theorem brute_force_bounded (c : RateLimitConfig) (k : string) (δ : Duration) (n : nat)
    (ms : list move) :
  Enabled c = true → (0 <= δ)%Z → moves_from δ n 0 ms →
  let rl := NewRateLimiter c in
  spaced (Z.to_nat (MaxFailures (cfg rl)) + n - 1)
    (Z.min (Window (cfg rl)) (Lockout (cfg rl)) - 2 * δ)
    (failed (attack_run k (Some rl) ms)).
Proof.
  intros Hen Hδ Hms. cbn zeta. destruct (NewRateLimiter_cfg c) as (Hm & _ & _).
  apply (attack_inv_run (cfg (NewRateLimiter c)) Hen Hm δ Hδ k n ms 0); [done|].
  exists ∅. split_and!; [done|done|set_solver|].
  cbn [failed]. split; [by apply Forall_nil|by intros i j a b _ H|by intros i a b H|by intros i a H].
Qed.

(** Three connections guess at once, one of them late; the next guess is refused until
    the lockout ends. *)
Definition demo_moves : list move :=
  [Begin 0 (1 * Second); Begin 1 (1 * Second); Other (EFailure "b" (2 * Second));
   Begin 2 (2 * Second); Finish 1 (4 * Second); Finish 0 (3 * Second); Finish 2 (5 * Second);
   Begin 0 (6 * Second); Finish 0 (6 * Second); Begin 1 (40 * Second); Finish 1 (41 * Second)]%Z.

Lemma brute_force_bounded_witness :
  failed (attack_run "a" (Some (NewRateLimiter demo_cfg)) demo_moves)
  = (λ n, n * Second)%Z <$> [4; 3; 5; 41]%Z
  ∧ spaced 4 (28 * Second)
      (failed (attack_run "a" (Some (NewRateLimiter demo_cfg)) demo_moves)).
Proof.
  split; [by vm_compute|].
  apply (brute_force_bounded demo_cfg "a" Second 3 demo_moves);
    [done|done|apply (bool_decide_unpack _); by vm_compute].
Defined.

(** The maximum can be exceeded: the check and the count are separate calls, so
    with two failures allowed five connections record six failures, one of them
    before the other five begin, within three seconds. *)
Lemma parallel_guesses_exceed_maximum :
  let ms := [Begin 0 Second; Finish 0 Second]%Z
            ++ ((λ i, Begin i (2 * Second)) <$> seq 0 5)
            ++ ((λ i, Finish i (3 * Second)) <$> seq 0 5) in
  moves_from 0 5 0 ms
  ∧ MaxFailures (cfg (NewRateLimiter demo_cfg)) = 2%Z
  ∧ length (failed (attack_run "a" (Some (NewRateLimiter demo_cfg)) ms)) = 6%nat.
Proof. split; [apply (bool_decide_unpack _)|split]; by vm_compute. Qed.

(** A lockout can be cut short: the clock is read before the lock is taken.  A failure
    read at nine seconds locks the key for ten; one read at five that enters after it
    moves the end of the lockout back, and a guess at fifteen is admitted. *)
Lemma stale_reading_shortens_lockout :
  let c := mkConfig true 1 (10 * Second) (10 * Second) in
  let ms := [Begin 0 Second; Begin 1 Second; Finish 0 (9 * Second); Finish 1 (5 * Second);
             Begin 0 (15 * Second); Finish 0 (15 * Second)]%Z in
  moves_from (4 * Second) 2 0 ms
  ∧ failed (attack_run "a" (Some (NewRateLimiter c)) ms)
    = [9 * Second; 5 * Second; 15 * Second]%Z.
Proof. split; [apply (bool_decide_unpack _)|]; by vm_compute. Qed.

End RateLimiter.
