(* ===== verification/Session.v ===== *)
(** * Sessions and the session registry

    [internal/session/session.go] and [internal/session/registry.go].  The
    registry stores pointers: the transport that owns a session goes on writing
    to it after it is registered.  So the sessions live in a heap, the registry
    maps an identifier to a location, and a snapshot reads the heap when it is
    taken. *)

From S2P Require Import Prelude GoStrings.

Module Session.

(** ** Data *)

Record t := mkSession {
  ID : string;
  RemoteAddr : string;
  Transport : string;
  Authn : string;
  ConnectedAt : Time;
  AuthenticatedAt : Time;
  Username : string;
  Role : string;
  CommandCount : Z;
}.

#[export] Instance t_eq_dec : EqDecision t.
Proof. solve_decision. Defined.

(** [Snapshot] *)
Record Snapshot := mkSnapshot {
  SnapID : string;
  SnapRemoteAddr : string;
  SnapTransport : string;
  SnapAuthn : string;
  SnapConnectedAt : Time;
  SnapAuthenticatedAt : Time;
  SnapUsername : string;
  SnapRole : string;
  SnapCommandCount : Z;
}.

#[export] Instance Snapshot_eq_dec : EqDecision Snapshot.
Proof. solve_decision. Defined.

(** ** Operations on one session *)

(** The identifier built from the value of the counter. *)
Definition session_id (n : Z) : string := "sess-" +:+ pad6 n.

(** [New]: [sequence] is the process-wide counter. *)
Definition New (sequence : Z) (now : Time) (remoteAddr : string) : t * Z :=
  let n := uint64_wrap (sequence + 1) in
  ({| ID := session_id n; RemoteAddr := remoteAddr; Transport := ""; Authn := "";
      ConnectedAt := now; AuthenticatedAt := zero_time; Username := ""; Role := "";
      CommandCount := 0 |}, n).

(** [SetIdentity] *)
Definition SetIdentity (now : Time) (username role : string) (s : t) : t :=
  {| ID := ID s; RemoteAddr := RemoteAddr s; Transport := Transport s; Authn := Authn s;
     ConnectedAt := ConnectedAt s; AuthenticatedAt := now; Username := username;
     Role := role; CommandCount := CommandCount s |}.

(** [SetTransport] *)
Definition SetTransport (transport : string) (s : t) : t :=
  {| ID := ID s; RemoteAddr := RemoteAddr s; Transport := transport; Authn := Authn s;
     ConnectedAt := ConnectedAt s; AuthenticatedAt := AuthenticatedAt s;
     Username := Username s; Role := Role s; CommandCount := CommandCount s |}.

(** [SetAuthn] *)
Definition SetAuthn (method : string) (s : t) : t :=
  {| ID := ID s; RemoteAddr := RemoteAddr s; Transport := Transport s; Authn := method;
     ConnectedAt := ConnectedAt s; AuthenticatedAt := AuthenticatedAt s;
     Username := Username s; Role := Role s; CommandCount := CommandCount s |}.

(** [IncrementCommands] *)
Definition IncrementCommands (s : t) : t :=
  {| ID := ID s; RemoteAddr := RemoteAddr s; Transport := Transport s; Authn := Authn s;
     ConnectedAt := ConnectedAt s; AuthenticatedAt := AuthenticatedAt s;
     Username := Username s; Role := Role s;
     CommandCount := int64_wrap (CommandCount s + 1) |}.

(** [Uptime] *)
Definition Uptime (now : Time) (s : t) : Duration := Sub now (ConnectedAt s).

(** [IsAuthenticated] *)
Definition IsAuthenticated (s : t) : bool := negb (bool_decide (Username s = "")).

(** ** The registry *)

Definition loc : Type := positive.
Abbreviation heap := (gmap loc t) (only parsing).

(** [Registry]; the hook is whether [onChange] is set, and the operations
    return the argument of the call they make to it, if any. *)
Record Registry := mkRegistry {
  sessions : gmap string loc;
  onChange : bool;
}.

Definition NewRegistry : Registry := mkRegistry ∅ false.

(** [SetOnChange] with a hook that is not nil. *)
Definition SetOnChange (r : Registry) : Registry := mkRegistry (sessions r) true.

Definition snapshot_of (s : t) : Snapshot :=
  {| SnapID := ID s; SnapRemoteAddr := RemoteAddr s; SnapTransport := Transport s;
     SnapAuthn := Authn s; SnapConnectedAt := ConnectedAt s;
     SnapAuthenticatedAt := AuthenticatedAt s; SnapUsername := Username s;
     SnapRole := Role s; SnapCommandCount := CommandCount s |}.

(** [sortSnapshots] *)
Definition sortSnapshots (out : list Snapshot) : list Snapshot := sort_by SnapConnectedAt out.

Section Registry.
Context `{MR : MapRange}.

(** [Registry.Snapshot] *)
Definition takeSnapshot (h : heap) (r : Registry) : list Snapshot :=
  sortSnapshots (omap (λ kl : string * loc, snapshot_of <$> h !! kl.2) (range (sessions r))).

(** [notify] *)
Definition notify (h : heap) (r : Registry) : option (list Snapshot) :=
  if onChange r then Some (takeSnapshot h r) else None.

(** [Add]; [None] is the nil session. *)
Definition Add (h : heap) (r : Registry) (sess : option loc)
    : Registry * option (list Snapshot) :=
  match sess with
  | None => (r, None)
  | Some l =>
     match h !! l with
     | None => (r, None)
     | Some s =>
        let r' := mkRegistry (<[ID s := l]> (sessions r)) (onChange r) in
        (r', notify h r')
     end
  end.

(** [Remove] *)
Definition Remove (h : heap) (r : Registry) (id : string)
    : Registry * option (list Snapshot) :=
  let r' := mkRegistry (delete id (sessions r)) (onChange r) in
  (r', notify h r').

(** [Count] *)
Definition Count (r : Registry) : Z := Z.of_nat (size (sessions r)).

(** ** The sessions of a running server

    The transports open a session, write to it through its pointer and remove
    it; the steps interleave freely. *)

Record system := mkSystem { sequence : Z; store : heap; reg : Registry }.

Definition init_system : system := mkSystem 0 ∅ NewRegistry.

Inductive write : (t → t) → Prop :=
| write_identity now u r : write (SetIdentity now u r)
| write_transport tr : write (SetTransport tr)
| write_authn m : write (SetAuthn m)
| write_commands : write IncrementCommands.

Inductive step : system → system → Prop :=
| step_open σ now addr l s n :
    store σ !! l = None → New (sequence σ) now addr = (s, n) →
    step σ (mkSystem n (<[l := s]> (store σ)) (reg σ))
| step_add σ l r n :
    is_Some (store σ !! l) → Add (store σ) (reg σ) (Some l) = (r, n) →
    step σ (mkSystem (sequence σ) (store σ) r)
| step_write σ l f s :
    write f → store σ !! l = Some s →
    step σ (mkSystem (sequence σ) (<[l := f s]> (store σ)) (reg σ))
| step_remove σ id r n :
    Remove (store σ) (reg σ) id = (r, n) →
    step σ (mkSystem (sequence σ) (store σ) r)
| step_hook σ :
    step σ (mkSystem (sequence σ) (store σ) (SetOnChange (reg σ))).

(** A step in which the 64-bit counter does not wrap around. *)
Definition step_nowrap (σ σ' : system) : Prop := step σ σ' ∧ (sequence σ <= sequence σ')%Z.

(** ** The invariant *)

Record inv (σ : system) : Prop := {
  inv_seq : (0 <= sequence σ)%Z;
  inv_ids : ∀ l s, store σ !! l = Some s →
    ∃ n, (1 <= n <= sequence σ)%Z ∧ ID s = session_id n;
  inv_unique : ∀ l1 l2 s1 s2, store σ !! l1 = Some s1 → store σ !! l2 = Some s2 →
    ID s1 = ID s2 → l1 = l2;
  inv_keys : ∀ id l, sessions (reg σ) !! id = Some l →
    ∃ s, store σ !! l = Some s ∧ ID s = id;
}.

Lemma session_id_inj n m : (0 <= n)%Z → (0 <= m)%Z → session_id n = session_id m → n = m.
Proof using Type.
  intros Hn Hm H. apply (inj (String.append "sess-")) in H. by apply pad6_inj.
Qed.

Lemma write_ID f s : write f → ID (f s) = ID s.
Proof using Type. by destruct 1. Qed.

Lemma inv_init : inv init_system.
Proof using Type.
  split; simpl; [done|..]; intros *; try rewrite !lookup_empty; done.
Qed.

Lemma inv_open σ now addr l s n :
  inv σ → store σ !! l = None → New (sequence σ) now addr = (s, n) →
  (sequence σ <= n)%Z → inv (mkSystem n (<[l := s]> (store σ)) (reg σ)).
Proof using Type.
  intros [Hs Hi Hu Hk] Hl Hn Hle. unfold New in Hn. injection Hn as <- <-.
  assert (uint64_wrap (sequence σ + 1) = sequence σ + 1)%Z as E.
  { unfold uint64_wrap in *.
    pose proof (Z.mod_pos_bound (sequence σ + 1) (2 ^ 64)) as Hb.
    assert (sequence σ + 1 < 2 ^ 64 ∨ 2 ^ 64 <= sequence σ + 1)%Z as [?|Hge] by lia;
      [apply Z.mod_small; lia|].
    assert (sequence σ + 1 = 2 ^ 64)%Z as E by lia.
    rewrite E, Z.mod_same in Hle by lia. lia. }
  rewrite E in *. split; cbn [sequence store reg].
  - lia.
  - intros l' s'. rewrite lookup_insert. case_decide.
    + intros [= <-]. exists (sequence σ + 1)%Z. split; [lia|done].
    + intros (n & Hn & ->)%Hi. exists n. split; [lia|done].
  - assert (∀ l' s', store σ !! l' = Some s' → ID s' ≠ session_id (sequence σ + 1)) as Hf.
    { intros l' s' (m & Hm & ->)%Hi E'. apply session_id_inj in E'; lia. }
    intros l1 l2 s1 s2. rewrite !lookup_insert. repeat case_decide; subst; try done.
    + intros [= <-] H2 E'. by destruct (Hf _ _ H2).
    + intros H1 [= <-] E'. by destruct (Hf _ _ H1).
    + apply Hu.
  - intros id l' (s' & H1 & H2)%Hk. exists s'. split; [|done].
    rewrite lookup_insert_ne; [done|]. intros <-. congruence.
Qed.

Lemma inv_step σ σ' : inv σ → step_nowrap σ σ' → inv σ'.
Proof using Type.
  intros Hinv [Hstep Hle].
  destruct Hstep as [σ now addr l s n Hl Hn|σ l r n Hl Ha|σ l f s Hw Hl|σ id r n Hr|σ].
  - by eapply inv_open.
  - destruct Hl as [s Hs]. simpl in Ha. rewrite Hs in Ha. injection Ha as <- _.
    destruct Hinv as [? ? ? Hk]. split; cbn [sequence store reg]; try done.
    intros id l'. cbn [sessions]. rewrite lookup_insert. case_decide; [|apply Hk].
    intros [= <-]. subst. by exists s.
  - destruct Hinv as [? Hi Hu Hk]. pose proof (write_ID f s Hw) as Hid.
    assert (∀ l' s', <[l := f s]> (store σ) !! l' = Some s' →
      ∃ s0, store σ !! l' = Some s0 ∧ ID s' = ID s0) as Hback.
    { intros l' s'. rewrite lookup_insert. case_decide; [|by eexists].
      intros [= <-]. subst. by exists s. }
    split; cbn [sequence store reg]; try done.
    + intros l' s' (s0 & H1 & ->)%Hback. by eapply Hi.
    + intros l1 l2 s1 s2 (s3 & H1 & ->)%Hback (s4 & H2 & ->)%Hback. by eapply Hu.
    + intros id l' (s' & H1 & H2)%Hk. rewrite lookup_insert. case_decide; [|by exists s'].
      exists (f s). split; [done|]. congruence.
  - unfold Remove in Hr. injection Hr as <- _.
    destruct Hinv as [? ? ? Hk]. split; cbn [sequence store reg]; try done.
    cbn [sessions]. intros id' l' [_ H]%lookup_delete_Some. by apply Hk.
  - by destruct Hinv.
Qed.

Lemma inv_reachable σ : rtc step_nowrap init_system σ → inv σ.
Proof using Type.
  intros H. remember init_system as σ0 eqn:E. assert (inv σ0) as H0.
  { subst. apply inv_init. }
  clear E. induction H as [|σ1 σ2 σ3 Hs _ IH]; [done|]. by apply IH, (inv_step σ1).
Qed.

(** ** Snapshots *)

Lemma elem_of_takeSnapshot h r snap :
  snap ∈ takeSnapshot h r ↔
  ∃ id l s, sessions r !! id = Some l ∧ h !! l = Some s ∧ snap = snapshot_of s.
Proof using Type.
  unfold takeSnapshot, sortSnapshots. rewrite sort_by_perm, list_elem_of_omap. split.
  - intros ([id l] & Hin & Hs). apply elem_of_range in Hin. simpl in Hs.
    apply fmap_Some in Hs as (s & ? & ->). by exists id, l, s.
  - intros (id & l & s & H1 & H2 & ->). exists (id, l). split; [by apply elem_of_range|].
    simpl. by rewrite H2.
Qed.

Lemma takeSnapshot_ids h r :
  (∀ id l, sessions r !! id = Some l → ∃ s, h !! l = Some s ∧ ID s = id) →
  SnapID <$> takeSnapshot h r ≡ₚ (range (sessions r)).*1.
Proof using Type.
  intros Hk. unfold takeSnapshot, sortSnapshots. rewrite sort_by_perm.
  assert (∀ kls : list (string * loc), Forall (λ kl, sessions r !! kl.1 = Some kl.2) kls →
    SnapID <$> omap (λ kl, snapshot_of <$> h !! kl.2) kls = kls.*1) as Hm.
  { induction 1 as [|[id l] kls H _ IH]; [done|]. simpl in *.
    destruct (Hk _ _ H) as (s & Hs & Hid). rewrite Hs. csimpl. rewrite <-Hid. f_equal. exact IH. }
  rewrite Hm; [done|]. apply Forall_forall. intros [id l] H. by apply elem_of_range in H.
Qed.

(** ** Properties *)

(** C36: a snapshot of the registry is faithful.  In every reachable state, with
    any interleaving of opens, registrations, writes through the session
    pointers and removals, it holds exactly one entry per registered session,
    with the values the session has when the snapshot is taken, oldest first;
    its length is [Count]. *)
Theorem snapshot_faithful (σ : system) :
  rtc step_nowrap init_system σ →
  let out := takeSnapshot (store σ) (reg σ) in
  StronglySorted (key_le SnapConnectedAt) out
  ∧ NoDup (SnapID <$> out)
  ∧ Z.of_nat (length out) = Count (reg σ)
  ∧ ∀ snap, snap ∈ out ↔
      ∃ id l s, sessions (reg σ) !! id = Some l ∧ store σ !! l = Some s
                ∧ snap = snapshot_of s ∧ SnapID snap = id.
Proof using Type.
  intros [_ _ _ Hk]%inv_reachable. cbn zeta.
  pose proof (takeSnapshot_ids _ _ Hk) as Hids. split_and!.
  - apply sort_by_sorted.
  - rewrite Hids. apply NoDup_range_keys.
  - apply Permutation_length in Hids. rewrite !length_fmap, length_range in Hids.
    unfold Count. by rewrite Hids.
  - intros snap. rewrite elem_of_takeSnapshot. split; [|naive_solver].
    intros (id & l & s & H1 & H2 & ->). exists id, l, s. split_and!; try done.
    destruct (Hk _ _ H1) as (s' & ? & <-). by simplify_eq.
Qed.

End Registry.

Definition demo_session : t := (New 0 (5 * Second) "10.0.0.7:5000").1.
Definition demo_system : system :=
  mkSystem 1 (<[1%positive := SetIdentity (6 * Second) "admin" "admin" demo_session]>
               (<[1%positive := demo_session]> ∅))
    (mkRegistry (<["sess-000001" := 1%positive]> ∅) false).

Lemma demo_reachable : rtc step_nowrap init_system demo_system.
Proof.
  eapply rtc_l.
  { split; [eapply (step_open _ (5 * Second) "10.0.0.7:5000" 1%positive); [done|reflexivity]|done]. }
  eapply rtc_l.
  { split; [eapply (step_add _ 1%positive); [by eexists|reflexivity]|done]. }
  eapply rtc_l; [|apply rtc_refl].
  split; [eapply step_write; [apply write_identity|reflexivity]|done].
Qed.

Lemma snapshot_faithful_witness :
  let out := takeSnapshot (store demo_system) (reg demo_system) in
  NoDup (SnapID <$> out) ∧ SnapUsername <$> out = ["admin"].
Proof.
  split; [|by vm_compute]. by apply (snapshot_faithful demo_system), demo_reachable.
Defined.

End Session.
