(* ===== verification/ForwardPolicy.v ===== *)
(** * The forwarding policy ([internal/forwarding/policy.go])

    Allow lists of targets and of roles, parsed from comma separated values. *)

From S2P Require Import Prelude GoStrings.

Module ForwardPolicy.

(** ** Data *)

Record t := mkPolicy {
  localEnabled : bool;
  localAllowlist : gset string;
  localAllowedRoles : gset string;
  remoteEnabled : bool;
  remoteBindAllow : gset string;
  remoteAllowedRoles : gset string;
}.

(** ** Operations *)

(** [normalize] *)
Definition normalize (value : string) : string := ToLower (TrimSpace value).

(** [NormalizeTarget] for a port of type [uint32] *)
Definition NormalizeTarget (host : string) (port : Z) : string :=
  ToLower (JoinHostPort (TrimSpace host) (Itoa port)).

(** [parseCSVSet] *)
Definition parseCSVSet (value : string) : gset string :=
  foldl (λ out item,
           let v := normalize item in
           if bool_decide (v = "") then out else {[v]} ∪ out)
    ∅ (SplitByte value ",").

(** [NewPolicy] *)
Definition NewPolicy (localEnabled : bool) (localAllowlistCSV localRolesCSV : string)
    (remoteEnabled : bool) (remoteBindAllowlistCSV remoteRolesCSV : string) : t := {|
  localEnabled := localEnabled;
  localAllowlist := parseCSVSet localAllowlistCSV;
  localAllowedRoles := parseCSVSet localRolesCSV;
  remoteEnabled := remoteEnabled;
  remoteBindAllow := parseCSVSet remoteBindAllowlistCSV;
  remoteAllowedRoles := parseCSVSet remoteRolesCSV;
|}.

(** [LocalEnabled] and [RemoteEnabled]; the receiver may be nil. *)
Definition LocalEnabled (p : option t) : bool :=
  match p with None => false | Some p => localEnabled p end.
Definition RemoteEnabled (p : option t) : bool :=
  match p with None => false | Some p => remoteEnabled p end.

(** [AllowLocalTarget] *)
Definition AllowLocalTarget (p : option t) (role host : string) (port : Z) : bool :=
  match p with
  | None => false
  | Some p =>
     if negb (localEnabled p) then false
     else if (0 <? Z.of_nat (size (localAllowedRoles p)))%Z
             && negb (bool_decide (normalize role ∈ localAllowedRoles p)) then false
     else bool_decide (NormalizeTarget host port ∈ localAllowlist p)
  end.

(** [AllowRemoteBind] *)
Definition AllowRemoteBind (p : option t) (role host : string) (port : Z) : bool :=
  match p with
  | None => false
  | Some p =>
     if negb (remoteEnabled p) then false
     else if (0 <? Z.of_nat (size (remoteAllowedRoles p)))%Z
             && negb (bool_decide (normalize role ∈ remoteAllowedRoles p)) then false
     else bool_decide (NormalizeTarget host port ∈ remoteBindAllow p)
  end.

(** [sortedKeys]: [sort.Strings] of the keys; the order in which [range] meets
    them does not matter, since equal keys are the same key. *)
Definition sortedKeys (input : gset string) : list string :=
  merge_sort String.le (elements input).

(** [AllowedLocalTargets], [AllowedRemoteBinds], [AllowedLocalRoles] and
    [AllowedRemoteRoles] *)
Definition AllowedLocalTargets (p : option t) : list string :=
  match p with None => [] | Some p => sortedKeys (localAllowlist p) end.
Definition AllowedRemoteBinds (p : option t) : list string :=
  match p with None => [] | Some p => sortedKeys (remoteBindAllow p) end.
Definition AllowedLocalRoles (p : option t) : list string :=
  match p with None => [] | Some p => sortedKeys (localAllowedRoles p) end.
Definition AllowedRemoteRoles (p : option t) : list string :=
  match p with None => [] | Some p => sortedKeys (remoteAllowedRoles p) end.

(** ** Lemmas *)

Lemma elem_of_parseCSVSet v value :
  v ∈ parseCSVSet value ↔ v ≠ "" ∧ ∃ item, item ∈ SplitByte value "," ∧ v = normalize item.
Proof.
  unfold parseCSVSet.
  assert (∀ items (acc : gset string),
    v ∈ foldl (λ out item, if bool_decide (normalize item = "") then out
                           else {[normalize item]} ∪ out) acc items
    ↔ v ∈ acc ∨ v ≠ "" ∧ ∃ item, item ∈ items ∧ v = normalize item) as H.
  { induction items as [|item items IH]; intros acc; simpl; [set_solver|].
    rewrite IH. case_bool_decide as E; set_solver. }
  rewrite H. set_solver.
Qed.

Lemma roles_guard (roles : gset string) role :
  (0 <? Z.of_nat (size roles))%Z && negb (bool_decide (normalize role ∈ roles)) = false ↔
  roles = ∅ ∨ normalize role ∈ roles.
Proof.
  rewrite andb_false_iff, negb_false_iff, bool_decide_eq_true, Z.ltb_ge.
  rewrite <-(leibniz_equiv_iff roles ∅), <-size_empty_iff. intuition lia.
Qed.

Lemma allow_spec (enabled : bool) (roles targets : gset string) role host port :
  (if negb enabled then false
   else if (0 <? Z.of_nat (size roles))%Z
           && negb (bool_decide (normalize role ∈ roles)) then false
   else bool_decide (NormalizeTarget host port ∈ targets)) = true ↔
  enabled = true ∧ (roles = ∅ ∨ normalize role ∈ roles)
  ∧ NormalizeTarget host port ∈ targets.
Proof.
  destruct enabled; simpl; [|naive_solver]. rewrite <-roles_guard.
  destruct (_ && _); [naive_solver|]. rewrite bool_decide_eq_true. tauto.
Qed.

Lemma Itoa_digits n : (0 <= n)%Z → all_digits (Itoa n) = true.
Proof. intros Hn. by eapply digits_value_all_digits, digits_value_Itoa. Qed.

Lemma NormalizeTarget_join host port :
  (0 <= port)%Z → NormalizeTarget host port = JoinHostPort (normalize host) (Itoa port).
Proof. intros Hp. apply ToLower_JoinHostPort. by apply Itoa_digits. Qed.

Lemma NormalizeTarget_inj h1 h2 p1 p2 :
  (0 <= p1)%Z → (0 <= p2)%Z →
  NormalizeTarget h1 p1 = NormalizeTarget h2 p2 ↔ normalize h1 = normalize h2 ∧ p1 = p2.
Proof.
  intros H1 H2. rewrite !NormalizeTarget_join by done. split; [|by intros [-> ->]].
  intros [? ?]%JoinHostPort_inj; try (by apply Itoa_not_byte). split; [done|].
  by apply Itoa_inj.
Qed.

(** ** Properties *)

(** Forwarding is denied by default.  A local target or a remote bind is
    allowed exactly when its direction is enabled, the role is in the role list
    or that list is empty, and the allow list has an item whose normalized text
    is the normalized address; an item left empty allows nothing. *)
Lemma forwarding_default_deny (le re : bool) (la lr rb rr role host : string) (port : Z) :
  let p := Some (NewPolicy le la lr re rb rr) in
  let listed csv v := v ≠ "" ∧ ∃ item, item ∈ SplitByte csv "," ∧ normalize item = v in
  let role_ok csv := (∀ v, ¬ listed csv v) ∨ listed csv (normalize role) in
  (AllowLocalTarget p role host port = true ↔
     le = true ∧ role_ok lr ∧ listed la (NormalizeTarget host port))
  ∧ (AllowRemoteBind p role host port = true ↔
     re = true ∧ role_ok rr ∧ listed rb (NormalizeTarget host port))
  ∧ AllowLocalTarget None role host port = false
  ∧ AllowRemoteBind None role host port = false.
Proof.
  cbn zeta. cbn [AllowLocalTarget AllowRemoteBind NewPolicy localEnabled localAllowlist
    localAllowedRoles remoteEnabled remoteBindAllow remoteAllowedRoles].
  assert (∀ csv v, v ∈ parseCSVSet csv ↔
    v ≠ "" ∧ ∃ item, item ∈ SplitByte csv "," ∧ normalize item = v) as Hl.
  { intros csv v. rewrite elem_of_parseCSVSet. naive_solver. }
  assert (∀ csv, parseCSVSet csv = ∅ ↔
    ∀ v, ¬ (v ≠ "" ∧ ∃ item, item ∈ SplitByte csv "," ∧ normalize item = v)) as He.
  { intros csv. rewrite <-(leibniz_equiv_iff _ ∅), elem_of_equiv_empty.
    by setoid_rewrite Hl. }
  rewrite !allow_spec, !He, !Hl. tauto.
Qed.

(** The comparison of addresses is exact.  Two addresses have the same
    normalized form exactly when their hosts agree after trimming and lowering
    and their ports are equal, for every host, with or without colons or
    brackets: an allowed entry admits no other address. *)
Lemma target_identity (h1 h2 : string) (p1 p2 : Z) :
  in_uint32 p1 → in_uint32 p2 →
  NormalizeTarget h1 p1 = NormalizeTarget h2 p2 ↔ normalize h1 = normalize h2 ∧ p1 = p2.
Proof. unfold in_uint32. intros ? ?. apply NormalizeTarget_inj; lia. Qed.

Lemma target_identity_witness :
  NormalizeTarget " LocalHost" 9000 = NormalizeTarget "localhost" 9000
  ∧ NormalizeTarget "::1" 22 ≠ NormalizeTarget "[::1]" 22.
Proof.
  split; [by apply (target_identity _ _ 9000 9000); vm_compute|].
  intros H. apply (target_identity _ _ 22 22) in H as [H _]; [|by vm_compute..].
  by vm_compute in H.
Defined.

(** The lists reported to an operator are the policy's sets: without
    repetition, in the byte order of [sort.Strings], and complete. *)
Lemma sortedKeys_spec (s : gset string) :
  StronglySorted String.le (sortedKeys s) ∧ NoDup (sortedKeys s)
  ∧ ∀ k, k ∈ sortedKeys s ↔ k ∈ s.
Proof.
  unfold sortedKeys. pose proof (merge_sort_Permutation String.le (elements s)) as Hp.
  split_and!.
  - apply StronglySorted_merge_sort; apply _.
  - rewrite Hp. apply NoDup_elements.
  - intros k. by rewrite Hp, elem_of_elements.
Qed.

End ForwardPolicy.
