(* ===== verification/Metrics.v ===== *)
(** * The metrics of the server ([internal/metrics/metrics.go])

    The collectors belong to the Prometheus client library.  The model keeps the
    calls the program makes to them, in order; the value of a gauge or counter
    is the balance of these calls, which is what the library documents for
    [Inc] and [Dec] of a collector that starts at zero.  The library panics when a
    collector is registered twice, when a vector is given the wrong number of label
    values, and when one of them is not UTF-8: [register] and [accepts] say when it
    does not. *)

From S2P Require Import Prelude GoStrings.

Module Metrics.

Inductive metric :=
| sessionsTotal
| activeSessions
| commandsTotal (name res : string)
| rejectedInputs
| sessionCloseBy (reason : string)
| activeTunnels (direction : string)
| tunnelEvents (direction event : string)
| rejectedTunnel (direction reason : string).

#[export] Instance metric_eq_dec : EqDecision metric.
Proof. solve_decision. Defined.

Inductive op := Inc (m : metric) | Dec (m : metric).

#[export] Instance op_eq_dec : EqDecision op.
Proof. solve_decision. Defined.

(** ** Operations *)

Definition ObserveSessionOpened : list op := [Inc sessionsTotal; Inc activeSessions].

Definition ObserveSessionClosed (reason : string) : list op :=
  [Dec activeSessions; Inc (sessionCloseBy reason)].

Definition ObserveCommand (name res : string) : list op := [Inc (commandsTotal name res)].

Definition ObserveRejectedInput : list op := [Inc rejectedInputs].

Definition ObserveTunnelOpened (direction : string) : list op :=
  [Inc (activeTunnels direction); Inc (tunnelEvents direction "abierto")].

Definition ObserveTunnelClosed (direction : string) : list op :=
  [Dec (activeTunnels direction); Inc (tunnelEvents direction "cerrado")].

Definition ObserveTunnelRejected (direction reason : string) : list op :=
  [Inc (rejectedTunnel direction reason)].

(** ** The collectors *)

Inductive collector_kind := Counter | Gauge.

#[export] Instance collector_kind_eq_dec : EqDecision collector_kind.
Proof. solve_decision. Defined.

(** The options of a collector and the names of its labels. *)
Record Desc := mkDesc {
  Kind : collector_kind;
  MName : string;
  Help : string;
  variableLabels : list string;
}.

Record MetricServer := mkMetricServer {
  addr : string;
  sessionsTotal_ : Desc;
  activeSessions_ : Desc;
  commandsTotal_ : Desc;
  rejectedInputs_ : Desc;
  sessionCloseBy_ : Desc;
  activeTunnels_ : Desc;
  tunnelEvents_ : Desc;
  rejectedTunnel_ : Desc;
}.

(** The characters of a metric or label name. *)
Definition name_char (first : bool) (a : ascii) : bool :=
  let x := byte_val a in
  ((65 <=? x) && (x <=? 90) || (97 <=? x) && (x <=? 122) || (x =? 95)
   || negb first && (48 <=? x) && (x <=? 57))%Z.
Definition valid_name (s : string) : bool :=
  match String.list_ascii_of_string s with
  | [] => false
  | a :: l => name_char true a && forallb (name_char false) l
  end.

(** [promauto]: a collector is registered with the default registry, here the names it
    has; [None] is a panic. *)
Definition register (d : Desc) (reg : gset string) : option (gset string) :=
  if valid_name (MName d) && forallb valid_name (variableLabels d)
     && bool_decide (NoDup (variableLabels d)) && bool_decide (MName d ∉ reg)
  then Some ({[MName d]} ∪ reg) else None.

Definition NewCounter (name help : string) : Desc := mkDesc Counter name help [].
Definition NewGauge (name help : string) : Desc := mkDesc Gauge name help [].
Definition NewCounterVec (name help : string) (labels : list string) : Desc :=
  mkDesc Counter name help labels.
Definition NewGaugeVec (name help : string) (labels : list string) : Desc :=
  mkDesc Gauge name help labels.

Definition collectors (addr : string) : MetricServer :=
  {| addr := addr;
     sessionsTotal_ := NewCounter "sentinelops_sessions_total"
       "Número total de sesiones interactivas aceptadas";
     activeSessions_ := NewGauge "sentinelops_active_sessions"
       "Número actual de sesiones interactivas activas";
     commandsTotal_ := NewCounterVec "sentinelops_commands_total"
       "Total de comandos ejecutados por nombre y resultado" ["command"; "result"];
     rejectedInputs_ := NewCounter "sentinelops_rejected_input_total"
       "Total de entradas de usuario rechazadas";
     sessionCloseBy_ := NewCounterVec "sentinelops_session_close_total"
       "Total de cierres de sesión por motivo" ["reason"];
     activeTunnels_ := NewGaugeVec "sentinelops_active_tunnels"
       "Número actual de túneles activos por dirección" ["direction"];
     tunnelEvents_ := NewCounterVec "sentinelops_tunnel_events_total"
       "Total de eventos del ciclo de vida de túneles por dirección y evento"
       ["direction"; "event"];
     rejectedTunnel_ := NewCounterVec "sentinelops_rejected_tunnels_total"
       "Total de intentos de túnel rechazados por dirección y motivo"
       ["direction"; "reason"] |}.

(** The collectors in the order of their registration. *)
Definition registered (ms : MetricServer) : list Desc :=
  [sessionsTotal_ ms; activeSessions_ ms; commandsTotal_ ms; rejectedInputs_ ms;
   sessionCloseBy_ ms; activeTunnels_ ms; tunnelEvents_ ms; rejectedTunnel_ ms].

(** [New] *)
Definition New (addr : string) (reg : gset string) : option (MetricServer * gset string) :=
  let ms := collectors addr in
  reg' ← foldl (λ r d, r ≫= register d) (Some reg) (registered ms);
  Some (ms, reg').

(** The collector of a call, and the values given to [WithLabelValues]. *)
Definition collector (ms : MetricServer) (m : metric) : Desc * list string :=
  match m with
  | sessionsTotal => (sessionsTotal_ ms, [])
  | activeSessions => (activeSessions_ ms, [])
  | commandsTotal name res => (commandsTotal_ ms, [name; res])
  | rejectedInputs => (rejectedInputs_ ms, [])
  | sessionCloseBy reason => (sessionCloseBy_ ms, [reason])
  | activeTunnels direction => (activeTunnels_ ms, [direction])
  | tunnelEvents direction event => (tunnelEvents_ ms, [direction; event])
  | rejectedTunnel direction reason => (rejectedTunnel_ ms, [direction; reason])
  end.

(** The library accepts the call: the values are as many as the labels and are UTF-8,
    and only a gauge is decreased. *)
Definition accepts (ms : MetricServer) (o : op) : bool :=
  let '(m, dec) := match o with Inc m => (m, false) | Dec m => (m, true) end in
  let '(d, values) := collector ms m in
  bool_decide (length values = length (variableLabels d)) && forallb ValidString values
  && (negb dec || bool_decide (Kind d = Gauge)).

(** ** Registration *)

Definition valid_desc (d : Desc) : bool :=
  valid_name (MName d) && forallb valid_name (variableLabels d)
  && bool_decide (NoDup (variableLabels d)).

Definition register_all (reg : option (gset string)) (ds : list Desc) : option (gset string) :=
  foldl (λ r d, r ≫= register d) reg ds.

Lemma register_all_panic ds : register_all None ds = None.
Proof. by induction ds. Qed.

Lemma register_all_ok ds reg :
  forallb valid_desc ds = true → NoDup (MName <$> ds) → (∀ d, d ∈ ds → MName d ∉ reg) →
  ∃ reg', register_all (Some reg) ds = Some reg' ∧ ∀ x, x ∈ reg' ↔ x ∈ MName <$> ds ∨ x ∈ reg.
Proof.
  revert reg. induction ds as [|d ds IH]; intros reg Hv Hn Hr; csimpl in *.
  { exists reg. set_solver. }
  apply andb_prop in Hv as [Hd Hv]. apply NoDup_cons in Hn as [Hnd Hn].
  unfold register. unfold valid_desc in Hd. rewrite Hd, bool_decide_eq_true_2 by (apply Hr; by left).
  simpl. destruct (IH ({[MName d]} ∪ reg)) as (reg' & -> & Hx); [done..| |].
  - intros d' Hd'. assert (MName d' ∈ MName <$> ds) by by apply list_elem_of_fmap_2.
    assert (MName d' ∉ reg) by (apply Hr; by right). set_solver.
  - exists reg'. split; [done|]. intros x. rewrite Hx, elem_of_cons. set_solver.
Qed.

Lemma register_all_taken ds reg d : d ∈ ds → MName d ∈ reg → register_all (Some reg) ds = None.
Proof.
  revert reg. induction ds as [|d' ds IH]; intros reg Hd Hr; [by apply elem_of_nil in Hd|].
  simpl. unfold register. destruct (_ && _ && _ && _) eqn:E; [|apply register_all_panic].
  apply andb_prop in E as [_ E%bool_decide_eq_true]. apply elem_of_cons in Hd as [->|Hd]; [done|].
  apply IH; [done|]. set_solver.
Qed.

(** [New] succeeds where the names are free, and panics when it is called again. *)
Lemma New_ok addr reg :
  (∀ d, d ∈ registered (collectors addr) → MName d ∉ reg) →
  ∃ reg', New addr reg = Some (collectors addr, reg')
    ∧ ∀ addr', New addr' reg' = None.
Proof.
  intros Hr. destruct (register_all_ok (registered (collectors addr)) reg) as (reg' & E & Hx);
    [by vm_compute|by apply (bool_decide_unpack _); vm_compute|done|].
  exists reg'. unfold New. unfold register_all in E. rewrite E. split; [done|].
  intros addr'. change (foldl _ _ _) with (register_all (Some reg') (registered (collectors addr'))).
  by rewrite (register_all_taken _ _ (sessionsTotal_ (collectors addr'))); [|left|apply Hx; left; left].
Qed.

(** ** Values *)

Definition op_delta (m : metric) (o : op) : Z :=
  match o with
  | Inc m' => if bool_decide (m' = m) then 1 else 0
  | Dec m' => if bool_decide (m' = m) then -1 else 0
  end.

Definition value (m : metric) (ops : list op) : Z :=
  foldr (λ o v, op_delta m o + v)%Z 0%Z ops.

Lemma value_app m ops1 ops2 : value m (ops1 ++ ops2) = (value m ops1 + value m ops2)%Z.
Proof. induction ops1 as [|o ops1 IH]; [done|]. simpl. rewrite IH. lia. Qed.

End Metrics.
