(* ===== verification/Tunnels.v ===== *)
(** * The tunnel manager ([internal/forwarding/manager.go])

    A tunnel keeps the function that stops it; calling it, and calling the two
    hooks, are effects listed in the order in which they happen.  Each operation
    is atomic under the manager's mutex; the hooks and the stop function run
    after it is released. *)

From S2P Require Import Prelude GoStrings.

Module Tunnels.

(** ** Data *)

Record Tunnel := mkTunnel {
  ID : string;
  SessionID : string;
  Username : string;
  Direction : string;
  Target : string;
  Bind : string;
  Origin : string;
  StartedAt : Time;
}.

#[export] Instance Tunnel_eq_dec : EqDecision Tunnel.
Proof. solve_decision. Defined.

(** The stop function of a tunnel, named by the resource it closes; [None] is a
    nil function. *)
Definition stopper : Type := option nat.

Record managedTunnel := mkManaged { tunnel : Tunnel; stop : stopper }.

Record Hooks := mkHooks { OnOpen : bool; OnClose : bool }.

Record t := mkManager {
  seq : Z;
  tunnels : gmap string managedTunnel;
  hooks : Hooks;
}.

Inductive effect :=
| CallStop (resource : nat)
| CallOnOpen (tun : Tunnel)
| CallOnClose (tun : Tunnel).

#[export] Instance effect_eq_dec : EqDecision effect.
Proof. solve_decision. Defined.

(** ** Operations *)

Definition tunnel_id (n : Z) : string := "tun-" +:+ pad6 n.

(** [NewManager] *)
Definition NewManager (h : Hooks) : t := mkManager 0 ∅ h.

(** [open] *)
Definition open (m : t) (now : Time)
    (direction sessionID username target bind origin : string) (stop : stopper)
    : Tunnel * t * list effect :=
  let s := uint64_wrap (seq m + 1) in
  let id := tunnel_id s in
  let tun := {| ID := id; SessionID := sessionID; Username := username;
                Direction := direction; Target := target; Bind := bind;
                Origin := origin; StartedAt := now |} in
  (tun, mkManager s (<[id := mkManaged tun stop]> (tunnels m)) (hooks m),
   if OnOpen (hooks m) then [CallOnOpen tun] else []).

(** [OpenLocal] and [OpenRemote] *)
Definition OpenLocal (m : t) (now : Time) (sessionID username target origin : string)
    (stop : stopper) : Tunnel * t * list effect :=
  open m now "local" sessionID username target "" origin stop.
Definition OpenRemote (m : t) (now : Time) (sessionID username bind origin : string)
    (stop : stopper) : Tunnel * t * list effect :=
  open m now "remote" sessionID username "" bind origin stop.

(** [Get] *)
Definition Get (m : t) (id : string) : option Tunnel := tunnel <$> tunnels m !! id.

(** [Close] *)
Definition Close (m : t) (id : string) : bool * t * list effect :=
  match tunnels m !! id with
  | None => (false, m, [])
  | Some item =>
     (true, mkManager (seq m) (delete id (tunnels m)) (hooks m),
      (match stop item with Some f => [CallStop f] | None => [] end)
      ++ (if OnClose (hooks m) then [CallOnClose (tunnel item)] else []))
  end.

(** [Count] *)
Definition Count (m : t) : Z := Z.of_nat (size (tunnels m)).

Section Snapshot.
Context `{MR : MapRange}.

(** [Snapshot] *)
Definition Snapshot (m : t) : list Tunnel :=
  sort_by StartedAt ((λ kv : string * managedTunnel, tunnel kv.2) <$> range (tunnels m)).

(** [SnapshotByUsername] *)
Definition SnapshotByUsername (m : t) (username : string) : list Tunnel :=
  let user := ToLower (TrimSpace username) in
  filter (λ tun, ToLower (TrimSpace (Username tun)) = user) (Snapshot m).

End Snapshot.

(** ** The interface the commands and the control API use

    [Controller], with what its clients rely on. *)
Class Controller (M : Type) := {
  ctl_snapshot : M → list Tunnel;
  ctl_snapshot_by : M → string → list Tunnel;
  ctl_get : M → string → option Tunnel;
  ctl_close : M → string → bool * M * list effect;
  ctl_count : M → Z;
  ctl_close_found m id :
    (ctl_close m id).1.1 = true ↔ is_Some (ctl_get m id);
  ctl_close_missing m id :
    ctl_get m id = None → ctl_close m id = (false, m, []);
  ctl_close_get m id id' :
    ctl_get (ctl_close m id).1.2 id'
    = if decide (id = id') then None else ctl_get m id';
  ctl_snapshot_by_sub m u tun :
    tun ∈ ctl_snapshot_by m u ↔
    tun ∈ ctl_snapshot m ∧ ToLower (TrimSpace (Username tun)) = ToLower (TrimSpace u);
  ctl_count_snapshot m : ctl_count m = Z.of_nat (length (ctl_snapshot m));
}.

#[global] Instance manager_Controller `{MR : MapRange} : Controller t.
Proof.
  refine {| ctl_snapshot := Snapshot; ctl_snapshot_by := SnapshotByUsername;
            ctl_get := Get; ctl_close := Close; ctl_count := Count |}.
  - intros m id. unfold Close, Get. destruct (tunnels m !! id) as [item|]; simpl.
    + split; [by eexists|done].
    + split; [done|]. by intros [? ?].
  - intros m id. unfold Close, Get. by destruct (tunnels m !! id).
  - intros m id id'. unfold Close, Get. destruct (tunnels m !! id) as [item|] eqn:E; simpl.
    + rewrite lookup_delete. by case_decide.
    + case_decide; [subst; by rewrite E|done].
  - intros m u tun. unfold SnapshotByUsername. rewrite list_elem_of_filter. tauto.
  - intros m. unfold Count, Snapshot. by rewrite sort_by_perm, length_fmap, length_range.
Defined.

(** ** Runs *)

Inductive call :=
| COpen (now : Time) (direction sessionID username target bind origin : string) (stop : stopper)
| CClose (id : string).

Definition exec (m : t) (c : call) : t * list effect :=
  match c with
  | COpen now d s u tg b o st => let '(_, m', e) := open m now d s u tg b o st in (m', e)
  | CClose id => let '(_, m', e) := Close m id in (m', e)
  end.

Fixpoint exec_all (m : t) (cs : list call) : t * list effect :=
  match cs with
  | [] => (m, [])
  | c :: cs =>
     let '(m1, e1) := exec m c in
     let '(m2, e2) := exec_all m1 cs in (m2, e1 ++ e2)
  end.

Definition is_open (c : call) : bool := match c with COpen _ _ _ _ _ _ _ _ => true | _ => false end.

(** ** The invariant *)

Record inv (m : t) : Prop := {
  inv_seq : (0 <= seq m)%Z;
  inv_ids : ∀ id item, tunnels m !! id = Some item →
    ID (tunnel item) = id ∧ ∃ n, (1 <= n <= seq m)%Z ∧ id = tunnel_id n;
}.

Lemma tunnel_id_inj n m : (0 <= n)%Z → (0 <= m)%Z → tunnel_id n = tunnel_id m → n = m.
Proof. intros Hn Hm H. apply (inj (String.append "tun-")) in H. by apply pad6_inj. Qed.

Lemma inv_new h : inv (NewManager h).
Proof. split; simpl; [done|]. intros id item. by rewrite lookup_empty. Qed.

Lemma inv_fresh m n : inv m → (seq m < n)%Z → tunnels m !! tunnel_id n = None.
Proof.
  intros [Hs Hi] Hn. destruct (tunnels m !! tunnel_id n) as [item|] eqn:E; [|done].
  apply Hi in E as (_ & k & Hk & E'). apply tunnel_id_inj in E'; lia.
Qed.

Lemma inv_exec m c :
  inv m → (seq m + 1 < 2 ^ 64)%Z → inv (exec m c).1 ∧ (seq m <= seq (exec m c).1 <= seq m + 1)%Z.
Proof.
  intros [Hs Hi] Hb. destruct c as [now d s u tg b o st|id]; simpl.
  - rewrite uint64_wrap_id by lia. split; [|simpl; lia]. split; simpl; [lia|].
    intros id item. rewrite lookup_insert. case_decide as E.
    + intros [= <-]. simpl. split; [done|]. exists (seq m + 1)%Z. split; [lia|done].
    + intros (H1 & n & Hn & H2)%Hi. split; [done|]. exists n. split; [lia|done].
  - unfold Close. destruct (tunnels m !! id); simpl; [|by split; [split|lia]].
    split; [|lia]. split; simpl; [done|]. intros id' item' [_ H]%lookup_delete_Some. by apply Hi.
Qed.

Lemma exec_all_inv m cs :
  inv m → (seq m + Z.of_nat (length cs) < 2 ^ 64)%Z → inv (exec_all m cs).1.
Proof.
  revert m. induction cs as [|c cs IH]; intros m Hm Hb; [done|]. simpl in Hb |- *.
  destruct (inv_exec m c Hm) as [Hm' Hs]; [lia|].
  destruct (exec m c) as [m1 e1]. simpl in *. specialize (IH m1 Hm').
  destruct (exec_all m1 cs). simpl in *. apply IH. lia.
Qed.

(** ** Conservation: what was opened is either closed or still live *)

Definition opened_stops (cs : list call) : list nat :=
  omap (λ c, match c with COpen _ _ _ _ _ _ _ st => st | CClose _ => None end) cs.
Definition called_stops (es : list effect) : list nat :=
  omap (λ e, match e with CallStop f => Some f | _ => None end) es.
Definition opened_tunnels (es : list effect) : list Tunnel :=
  omap (λ e, match e with CallOnOpen tun => Some tun | _ => None end) es.
Definition closed_tunnels (es : list effect) : list Tunnel :=
  omap (λ e, match e with CallOnClose tun => Some tun | _ => None end) es.

Definition live (m : t) : list managedTunnel := (map_to_list (tunnels m)).*2.

Lemma live_insert m id item s h :
  tunnels m !! id = None →
  live (mkManager s (<[id := item]> (tunnels m)) h) ≡ₚ item :: live m.
Proof. intros H. unfold live. simpl. by rewrite map_to_list_insert. Qed.

Lemma live_delete m id item s h :
  tunnels m !! id = Some item →
  live m ≡ₚ item :: live (mkManager s (delete id (tunnels m)) h).
Proof.
  intros H. unfold live. simpl. rewrite <-(insert_delete_id (tunnels m) id item) at 1 by done.
  rewrite map_to_list_insert by apply lookup_delete_eq. done.
Qed.

Lemma exec_conserves_stops m c :
  inv m → (seq m + 1 < 2 ^ 64)%Z →
  omap stop (live m) ++ opened_stops [c]
  ≡ₚ called_stops (exec m c).2 ++ omap stop (live (exec m c).1).
Proof.
  intros Hm Hb. destruct c as [now d s u tg b o st|id]; simpl.
  - rewrite live_insert.
    2: { apply inv_fresh; [done|]. rewrite uint64_wrap_id; destruct Hm; lia. }
    case_if; simpl; destruct st; simpl; by rewrite ?app_nil_r, <-?Permutation_cons_append.
  - rewrite app_nil_r. unfold Close. destruct (tunnels m !! id) as [item|] eqn:E; [|done].
    rewrite (live_delete _ _ _ (seq m) (hooks m) E). simpl.
    destruct (stop item), (OnClose (hooks m)); done.
Qed.

Lemma exec_conserves_tunnels m c :
  inv m → (seq m + 1 < 2 ^ 64)%Z → hooks m = mkHooks true true →
  (tunnel <$> live m) ++ opened_tunnels (exec m c).2
  ≡ₚ closed_tunnels (exec m c).2 ++ (tunnel <$> live (exec m c).1).
Proof.
  intros Hm Hb Hh. destruct c as [now d s u tg b o st|id]; simpl.
  - rewrite live_insert, Hh; simpl; [by rewrite <-Permutation_cons_append|].
    apply inv_fresh; [done|]. rewrite uint64_wrap_id; destruct Hm; lia.
  - unfold Close. destruct (tunnels m !! id) as [item|] eqn:E; [|by rewrite app_nil_r].
    rewrite (live_delete _ _ _ (seq m) (hooks m) E), Hh. simpl.
    destruct (stop item); simpl; by rewrite app_nil_r.
Qed.

Lemma exec_hooks m c : hooks (exec m c).1 = hooks m.
Proof.
  destruct c; simpl; [done|]. unfold Close. by destruct (tunnels m !! _).
Qed.

Lemma exec_all_conserves m cs :
  inv m → (seq m + Z.of_nat (length cs) < 2 ^ 64)%Z →
  omap stop (live m) ++ opened_stops cs
  ≡ₚ called_stops (exec_all m cs).2 ++ omap stop (live (exec_all m cs).1)
  ∧ (hooks m = mkHooks true true →
     (tunnel <$> live m) ++ opened_tunnels (exec_all m cs).2
     ≡ₚ closed_tunnels (exec_all m cs).2 ++ (tunnel <$> live (exec_all m cs).1)).
Proof.
  revert m. induction cs as [|c cs IH]; intros m Hm Hb.
  { simpl. rewrite !app_nil_r. done. }
  simpl in Hb. destruct (inv_exec m c Hm) as [Hm' Hs]; [lia|].
  pose proof (exec_conserves_stops m c Hm) as H1.
  pose proof (exec_conserves_tunnels m c Hm) as H2.
  pose proof (exec_hooks m c) as Hh.
  specialize (IH (exec m c).1 Hm') as [IH1 IH2]; [lia|].
  change (opened_stops (c :: cs)) with (opened_stops ([c] ++ cs)). cbn [exec_all].
  destruct (exec m c) as [m1 e1]. cbn [fst snd] in *.
  destruct (exec_all m1 cs) as [m2 e2]. cbn [fst snd] in *.
  unfold opened_stops, called_stops, opened_tunnels, closed_tunnels in *.
  rewrite !omap_app. split.
  - rewrite app_assoc, H1 by lia. by rewrite <-!app_assoc, IH1.
  - intros Hhk. rewrite app_assoc, H2 by (done || lia). rewrite <-!app_assoc, IH2; [done|].
    by rewrite Hh.
Qed.

(** ** Properties *)

(** C22: every opened tunnel is stopped and reported exactly once.  In a run of
    fewer than [2^64] opens and closes in any order, closes of unknown or
    already closed identifiers included, the stop functions handed to the
    manager are, with multiplicity, those it has called together with those of
    the tunnels still open; with both hooks set, the tunnels reported open are
    those reported closed together with those still open. *)
Theorem tunnels_conserved (h : Hooks) (cs : list call) :
  (Z.of_nat (length cs) < 2 ^ 64)%Z →
  let '(m, es) := exec_all (NewManager h) cs in
  opened_stops cs ≡ₚ called_stops es ++ omap stop (live m)
  ∧ (h = mkHooks true true →
     opened_tunnels es ≡ₚ closed_tunnels es ++ (tunnel <$> live m)).
Proof.
  intros Hb. destruct (exec_all_conserves (NewManager h) cs (inv_new h) Hb) as [H1 H2].
  by destruct (exec_all (NewManager h) cs) as [m es].
Qed.

Definition demo_calls : list call :=
  [COpen 1 "local" "sess-000001" "admin" "127.0.0.1:9000" "" "o" (Some 7%nat);
   COpen 2 "remote" "sess-000001" "admin" "" "127.0.0.1:10080" "o" (Some 8%nat);
   CClose "tun-000001"; CClose "tun-000001"; CClose "tun-000009"].

Lemma tunnels_conserved_witness :
  called_stops (exec_all (NewManager (mkHooks true true)) demo_calls).2 = [7%nat]
  ∧ opened_stops demo_calls
    ≡ₚ called_stops (exec_all (NewManager (mkHooks true true)) demo_calls).2
       ++ omap stop (live (exec_all (NewManager (mkHooks true true)) demo_calls).1).
Proof.
  split; [by vm_compute|].
  pose proof (tunnels_conserved (mkHooks true true) demo_calls) as H.
  destruct (exec_all (NewManager (mkHooks true true)) demo_calls) as [m es].
  apply H. by vm_compute.
Defined.

(** Identifiers are never reused while the 64-bit counter does not wrap.
    In a state reached by fewer than [2^64 - 1] calls, opening a tunnel gives it
    an identifier that no live tunnel has, [Get] returns it, and every other
    tunnel is left as it was. *)
Lemma open_is_fresh (h : Hooks) (cs : list call) now d s u tg b o st :
  (Z.of_nat (length cs) + 1 < 2 ^ 64)%Z →
  let m := (exec_all (NewManager h) cs).1 in
  let '(tun, m', _) := open m now d s u tg b o st in
  Get m (ID tun) = None ∧ Get m' (ID tun) = Some tun
  ∧ Count m' = (Count m + 1)%Z
  ∧ ∀ id, id ≠ ID tun → Get m' id = Get m id.
Proof.
  intros Hb. cbn zeta. set (m := (exec_all (NewManager h) cs).1).
  assert (inv m ∧ (seq m <= Z.of_nat (length cs))%Z) as [Hm Hs].
  { split; [apply exec_all_inv; [apply inv_new|simpl; lia]|]. unfold m. clear m.
    assert (∀ m, inv m → seq m + Z.of_nat (length cs) < 2 ^ 64 →
      seq (exec_all m cs).1 <= seq m + Z.of_nat (length cs))%Z as H.
    { clear. induction cs as [|c cs IH]; intros m Hm Hb; simpl in *; [lia|].
      destruct (inv_exec m c Hm) as [Hm' Hs]; [lia|]. destruct (exec m c) as [m1 e1].
      simpl in *. specialize (IH m1 Hm'). destruct (exec_all m1 cs). simpl in *. lia. }
    apply (H (NewManager h)); [apply inv_new|simpl; lia]. }
  unfold open. rewrite uint64_wrap_id by (destruct Hm; lia). cbn [ID].
  assert (tunnels m !! tunnel_id (seq m + 1) = None) as Hf by (apply inv_fresh; [done|lia]).
  unfold Get, Count. cbn [tunnels]. split_and!.
  - by rewrite Hf.
  - by rewrite lookup_insert_eq.
  - rewrite map_size_insert_None by done. lia.
  - intros id Hne. by rewrite lookup_insert_ne.
Qed.

Lemma open_is_fresh_witness :
  let m := (exec_all (NewManager (mkHooks true true)) demo_calls).1 in
  let '(tun, m', _) := open m 9 "local" "sess-000002" "student" "x:1" "" "y:2" None in
  Get m (ID tun) = None ∧ Get m' (ID tun) = Some tun
  ∧ Count m' = (Count m + 1)%Z
  ∧ ∀ id, id ≠ ID tun → Get m' id = Get m id.
Proof. apply (open_is_fresh (mkHooks true true) demo_calls). by vm_compute. Defined.

(** What a user is shown.  [Snapshot] lists every live tunnel exactly once,
    oldest first; [SnapshotByUsername] is its part with an owner of the same
    normalized name, in the same order, so it shows no other user's tunnel. *)
Lemma snapshots_faithful `{MR : MapRange} (m : t) (user : string) :
  Snapshot m ≡ₚ (tunnel <$> live m)
  ∧ StronglySorted (key_le StartedAt) (Snapshot m)
  ∧ StronglySorted (key_le StartedAt) (SnapshotByUsername m user)
  ∧ (∀ tun, tun ∈ SnapshotByUsername m user ↔
       tun ∈ Snapshot m
       ∧ ToLower (TrimSpace (Username tun)) = ToLower (TrimSpace user)).
Proof.
  split_and!.
  - unfold Snapshot, live. rewrite sort_by_perm, range_perm. by rewrite <-list_fmap_compose.
  - apply sort_by_sorted.
  - unfold SnapshotByUsername. pose proof (sort_by_sorted StartedAt
      ((λ kv : string * managedTunnel, tunnel kv.2) <$> range (tunnels m))) as Hs.
    fold (Snapshot m) in Hs. induction Hs as [|tun l Hs IH Hall]; [constructor|].
    rewrite filter_cons. case_decide; [|done]. constructor; [done|].
    apply Forall_forall. intros x [_ Hx]%list_elem_of_filter.
    by eapply Forall_forall in Hx; [|done].
  - intros tun. unfold SnapshotByUsername. rewrite list_elem_of_filter. tauto.
Qed.

End Tunnels.
