(* ===== verification/MemoryStore.v ===== *)
(** * The store ([internal/store/store.go], [internal/store/memory.go])

    The in-memory implementation of the [Store] interface.  The objects it keeps
    never escape: [cloneSession], [cloneTunnel] and [cloneAuditEntry] copy on the
    way in and on the way out, so a stored object is a value here and an
    operation that assigns to the fields of its argument returns the updated
    argument.  The values inside a [JSONMap] are opaque: the copy shares them, as
    the code's does.  Each operation holds the mutex from start to end. *)

From S2P Require Import Prelude GoStrings.

Module MemoryStore.

(** ** Data *)

Inductive store_error := ErrNotFound | ErrAlreadyExists | ErrInvalidState.

#[export] Instance store_error_eq_dec : EqDecision store_error.
Proof. solve_decision. Defined.

(** [JSONMap]: nil or a map to opaque values. *)
Definition JSONMap : Type := option (gmap string nat).

Record Session := mkSession {
  SessID : string;
  Username : string;
  Role : string;
  RemoteAddr : string;
  CreatedAt : Time;
  LastActive : Time;
  ClosedAt : option Time;
  Status : string;
  Metadata : JSONMap;
}.

Record Tunnel := mkTunnel {
  TunID : string;
  TunSessionID : string;
  TunType : string;
  TunLocalAddr : string;
  TunRemoteAddr : string;
  TunCreatedAt : Time;
  TunClosedAt : option Time;
  BytesSent : Z;
  BytesRecv : Z;
  TunStatus : string;
  TunMetadata : JSONMap;
}.

Record AuditEntry := mkAudit {
  AuditID : string;
  Timestamp : Time;
  CorrelationID : string;
  TraceID : string;
  Action : string;
  AuditUsername : string;
  AuditRole : string;
  Resource : string;
  Result : string;
  Details : JSONMap;
  SourceIP : string;
}.

#[export] Instance Session_eq_dec : EqDecision Session.
Proof. solve_decision. Defined.
#[export] Instance Tunnel_eq_dec : EqDecision Tunnel.
Proof. solve_decision. Defined.
#[export] Instance AuditEntry_eq_dec : EqDecision AuditEntry.
Proof. solve_decision. Defined.

Record SessionFilter := mkSessionFilter {
  SFUsername : string;
  SFStatus : string;
  SFSince : option Time;
  SFRemoteAddr : string;
  SFLimit : Z;
  SFOffset : Z;
}.

Record TunnelFilter := mkTunnelFilter {
  TFSessionID : string;
  TFType : string;
  TFStatus : string;
  TFLimit : Z;
  TFOffset : Z;
}.

Record AuditFilter := mkAuditFilter {
  AFUsername : string;
  AFAction : string;
  AFResult : string;
  AFSince : option Time;
  AFUntil : option Time;
  AFLimit : Z;
  AFOffset : Z;
}.

Record attemptEntry := mkAttempt {
  count : Z;
  firstAt : Time;
  lockedUntil : option Time;
}.

#[export] Instance attemptEntry_eq_dec : EqDecision attemptEntry.
Proof. solve_decision. Defined.

Record t := mkStore {
  sessions : gmap string Session;
  tunnels : gmap string Tunnel;
  auditLog : list AuditEntry;
  attempts : gmap string attemptEntry;
}.

#[export] Instance t_eq_dec : EqDecision t.
Proof. solve_decision. Defined.

(** The assignments to one field. *)
Definition set_sessions (m : t) (x : gmap string Session) : t :=
  mkStore x (tunnels m) (auditLog m) (attempts m).
Definition set_tunnels (m : t) (x : gmap string Tunnel) : t :=
  mkStore (sessions m) x (auditLog m) (attempts m).
Definition set_auditLog (m : t) (x : list AuditEntry) : t :=
  mkStore (sessions m) (tunnels m) x (attempts m).
Definition set_attempts (m : t) (x : gmap string attemptEntry) : t :=
  mkStore (sessions m) (tunnels m) (auditLog m) x.

(** ** Copies *)

Section Copies.
Context `{MR : MapRange}.

(** [cloneJSONMap]: a new map, filled in the order of [range]. *)
Definition cloneJSONMap (input : JSONMap) : JSONMap :=
  match input with
  | None => None
  | Some m => Some (foldl (λ out kv, <[kv.1 := kv.2]> out) ∅ (range m))
  end.

(** [cloneSession], [cloneTunnel] and [cloneAuditEntry] *)
Definition cloneSession (s : Session) : Session :=
  mkSession (SessID s) (Username s) (Role s) (RemoteAddr s) (CreatedAt s) (LastActive s)
    (ClosedAt s) (Status s) (cloneJSONMap (Metadata s)).
Definition cloneTunnel (s : Tunnel) : Tunnel :=
  mkTunnel (TunID s) (TunSessionID s) (TunType s) (TunLocalAddr s) (TunRemoteAddr s)
    (TunCreatedAt s) (TunClosedAt s) (BytesSent s) (BytesRecv s) (TunStatus s)
    (cloneJSONMap (TunMetadata s)).
Definition cloneAuditEntry (e : AuditEntry) : AuditEntry :=
  mkAudit (AuditID e) (Timestamp e) (CorrelationID e) (TraceID e) (Action e)
    (AuditUsername e) (AuditRole e) (Resource e) (Result e) (cloneJSONMap (Details e))
    (SourceIP e).

End Copies.

(** ** Windows

    [input[offset:end]] panics ([None]) unless 0 <= offset <= end <= len. *)

Definition slice {A} (input : list A) (i j : Z) : option (list A) :=
  if (0 <=? i)%Z && (i <=? j)%Z && (j <=? Z.of_nat (length input))%Z
  then Some (take (Z.to_nat (j - i)) (drop (Z.to_nat i) input))
  else None.

Definition applyWindow {A} (input : list A) (limit offset : Z) : option (list A) :=
  let n := Z.of_nat (length input) in
  if (n <=? offset)%Z then Some []
  else
    let offset := if (offset <? 0)%Z then 0%Z else offset in
    let end_ := n in
    let end_ := if (0 <? limit)%Z && (int64_wrap (offset + limit) <? end_)%Z
                then int64_wrap (offset + limit) else end_ in
    slice input offset end_.

(** [applySessionWindow], [applyTunnelWindow] and [applyAuditWindow] *)
Definition applySessionWindow (input : list Session) (limit offset : Z) : option (list Session) :=
  applyWindow input limit offset.
Definition applyTunnelWindow (input : list Tunnel) (limit offset : Z) : option (list Tunnel) :=
  applyWindow input limit offset.
Definition applyAuditWindow (input : list AuditEntry) (limit offset : Z)
    : option (list AuditEntry) :=
  applyWindow input limit offset.

(** ** Operations

    The arguments [uuid] and [now] are the results of [uuid.New().String()] and of
    the calls of [time.Now], in order. *)

Section Ops.
Context `{MR : MapRange}.

(** [NewMemoryStore] *)
Definition NewMemoryStore : t := mkStore ∅ ∅ [] ∅.

(** [CreateSession] *)
Definition CreateSession (m : t) (uuid : string) (now : Time) (sess : Session)
    : result store_error unit * Session * t :=
  let id := if bool_decide (SessID sess = "") then uuid else SessID sess in
  match sessions m !! id with
  | Some _ =>
     (Err ErrAlreadyExists,
      mkSession id (Username sess) (Role sess) (RemoteAddr sess) (CreatedAt sess)
        (LastActive sess) (ClosedAt sess) (Status sess) (Metadata sess), m)
  | None =>
     let status := if bool_decide (Status sess = "") then "active" else Status sess in
     let sess' := mkSession id (Username sess) (Role sess) (RemoteAddr sess) now now
                    (ClosedAt sess) status (Metadata sess) in
     (Ok tt, sess', set_sessions m (<[id := cloneSession sess']> (sessions m)))
  end.

(** [GetSession] *)
Definition GetSession (m : t) (id : string) : result store_error Session :=
  match sessions m !! id with
  | None => Err ErrNotFound
  | Some sess => Ok (cloneSession sess)
  end.

Definition with_LastActive (sess : Session) (now : Time) : Session :=
  mkSession (SessID sess) (Username sess) (Role sess) (RemoteAddr sess) (CreatedAt sess)
    now (ClosedAt sess) (Status sess) (Metadata sess).

(** [UpdateSession] *)
Definition UpdateSession (m : t) (now : Time) (sess : Session)
    : result store_error unit * Session * t :=
  match sessions m !! SessID sess with
  | None => (Err ErrNotFound, sess, m)
  | Some _ =>
     let sess' := with_LastActive sess now in
     (Ok tt, sess', set_sessions m (<[SessID sess := cloneSession sess']> (sessions m)))
  end.

Definition of_session (id : string) (tun : Tunnel) : bool :=
  bool_decide (TunSessionID tun = id).

(** [DeleteSession]: also deletes the tunnels of the session. *)
Definition DeleteSession (m : t) (id : string) : result store_error unit * t :=
  match sessions m !! id with
  | None => (Err ErrNotFound, m)
  | Some _ =>
     (Ok tt,
      mkStore (delete id (sessions m))
        (foldl (λ ts kv, if of_session id kv.2 then delete kv.1 ts else ts)
           (tunnels m) (range (tunnels m)))
        (auditLog m) (attempts m))
  end.

(** The [continue] guards of a listing: an empty criterion does not filter. *)
Definition crit (want have : string) : bool :=
  bool_decide (want = "") || bool_decide (have = want).

Definition session_matches (f : SessionFilter) (s : Session) : bool :=
  crit (SFUsername f) (Username s) && crit (SFStatus f) (Status s)
  && crit (SFRemoteAddr f) (RemoteAddr s)
  && match SFSince f with Some since => negb (Before (CreatedAt s) since) | None => true end.

(** [ListSessions] *)
Definition ListSessions (m : t) (f : SessionFilter) : option (list Session) :=
  applySessionWindow
    (cloneSession <$> filter (λ s, session_matches f s) (range (sessions m)).*2)
    (SFLimit f) (SFOffset f).

(** [CountActiveSessions] *)
Definition CountActiveSessions (m : t) (username : string) : Z :=
  foldl (λ n s, if bool_decide (Username s = username) && bool_decide (Status s = "active")
                then int64_wrap (n + 1) else n) 0%Z (range (sessions m)).*2.

(** [TouchSession] *)
Definition TouchSession (m : t) (now : Time) (id : string) : result store_error unit * t :=
  match sessions m !! id with
  | None => (Err ErrNotFound, m)
  | Some sess => (Ok tt, set_sessions m (<[id := with_LastActive sess now]> (sessions m)))
  end.

(** [CreateTunnel] *)
Definition CreateTunnel (m : t) (uuid : string) (now : Time) (tun : Tunnel)
    : result store_error unit * Tunnel * t :=
  let id := if bool_decide (TunID tun = "") then uuid else TunID tun in
  match tunnels m !! id with
  | Some _ =>
     (Err ErrAlreadyExists,
      mkTunnel id (TunSessionID tun) (TunType tun) (TunLocalAddr tun) (TunRemoteAddr tun)
        (TunCreatedAt tun) (TunClosedAt tun) (BytesSent tun) (BytesRecv tun)
        (TunStatus tun) (TunMetadata tun), m)
  | None =>
     let status := if bool_decide (TunStatus tun = "") then "active" else TunStatus tun in
     let tun' := mkTunnel id (TunSessionID tun) (TunType tun) (TunLocalAddr tun)
                   (TunRemoteAddr tun) now (TunClosedAt tun) (BytesSent tun)
                   (BytesRecv tun) status (TunMetadata tun) in
     (Ok tt, tun', set_tunnels m (<[id := cloneTunnel tun']> (tunnels m)))
  end.

(** [GetTunnel] *)
Definition GetTunnel (m : t) (id : string) : result store_error Tunnel :=
  match tunnels m !! id with
  | None => Err ErrNotFound
  | Some tun => Ok (cloneTunnel tun)
  end.

(** [UpdateTunnel] *)
Definition UpdateTunnel (m : t) (tun : Tunnel) : result store_error unit * t :=
  match tunnels m !! TunID tun with
  | None => (Err ErrNotFound, m)
  | Some _ => (Ok tt, set_tunnels m (<[TunID tun := cloneTunnel tun]> (tunnels m)))
  end.

(** [DeleteTunnel] *)
Definition DeleteTunnel (m : t) (id : string) : result store_error unit * t :=
  match tunnels m !! id with
  | None => (Err ErrNotFound, m)
  | Some _ => (Ok tt, set_tunnels m (delete id (tunnels m)))
  end.

Definition tunnel_matches (f : TunnelFilter) (s : Tunnel) : bool :=
  crit (TFSessionID f) (TunSessionID s) && crit (TFType f) (TunType s)
  && crit (TFStatus f) (TunStatus s).

(** [ListTunnels] *)
Definition ListTunnels (m : t) (f : TunnelFilter) : option (list Tunnel) :=
  applyTunnelWindow
    (cloneTunnel <$> filter (λ s, tunnel_matches f s) (range (tunnels m)).*2)
    (TFLimit f) (TFOffset f).

(** [DeleteTunnelsBySession] *)
Definition DeleteTunnelsBySession (m : t) (sessionID : string) : list string * t :=
  let '(deleted, ts) :=
    foldl (λ '(deleted, ts) (kv : string * Tunnel),
             if of_session sessionID kv.2
             then (deleted ++ [kv.1], delete kv.1 ts) else (deleted, ts))
      ([], tunnels m) (range (tunnels m)) in
  (deleted, set_tunnels m ts).

(** [IncrementAttempts] *)
Definition IncrementAttempts (m : t) (now : Time) (key : string) (window : Duration) : Z * t :=
  let fresh := (1%Z, set_attempts m (<[key := mkAttempt 1 now None]> (attempts m))) in
  match attempts m !! key with
  | None => fresh
  | Some entry =>
     if (window <? Sub now (firstAt entry))%Z then fresh
     else
       let entry' := mkAttempt (int64_wrap (count entry + 1)) (firstAt entry)
                       (lockedUntil entry) in
       (count entry', set_attempts m (<[key := entry']> (attempts m)))
  end.

(** [GetAttempts] *)
Definition GetAttempts (m : t) (key : string) : Z :=
  match attempts m !! key with None => 0%Z | Some entry => count entry end.

(** [ResetAttempts] *)
Definition ResetAttempts (m : t) (key : string) : t :=
  set_attempts m (delete key (attempts m)).

(** [IsLocked]: the duration argument is not used. *)
Definition IsLocked (m : t) (now : Time) (key : string) (_ : Duration) : bool :=
  match attempts m !! key with
  | None => false
  | Some entry =>
     match lockedUntil entry with None => false | Some until => Before now until end
  end.

(** [Lock] reads the clock once more when it creates the entry. *)
Definition Lock (m : t) (now0 now : Time) (key : string) (duration : Duration) : t :=
  let entry := match attempts m !! key with
               | None => mkAttempt 0 now0 None
               | Some entry => entry
               end in
  set_attempts m (<[key := mkAttempt (count entry) (firstAt entry)
                             (Some (Add now duration))]> (attempts m)).

(** [AppendAuditLog] *)
Definition AppendAuditLog (m : t) (uuid : string) (now : Time) (e : AuditEntry)
    : AuditEntry * t :=
  let e' := mkAudit (if bool_decide (AuditID e = "") then uuid else AuditID e) now
              (CorrelationID e) (TraceID e) (Action e) (AuditUsername e) (AuditRole e)
              (Resource e) (Result e) (Details e) (SourceIP e) in
  (e', set_auditLog m (auditLog m ++ [cloneAuditEntry e'])).

Definition audit_matches (f : AuditFilter) (e : AuditEntry) : bool :=
  crit (AFUsername f) (AuditUsername e) && crit (AFAction f) (Action e)
  && crit (AFResult f) (Result e)
  && match AFSince f with Some since => negb (Before (Timestamp e) since) | None => true end
  && match AFUntil f with Some until => negb (After (Timestamp e) until) | None => true end.

(** [QueryAuditLog] *)
Definition QueryAuditLog (m : t) (f : AuditFilter) : option (list AuditEntry) :=
  applyAuditWindow (cloneAuditEntry <$> filter (λ e, audit_matches f e) (auditLog m))
    (AFLimit f) (AFOffset f).

(** [CleanupInactiveSessions] reads the clock twice: for the cutoff and for
    [ClosedAt]. *)
Definition inactive (cutoff : Time) (s : Session) : bool :=
  bool_decide (Status s = "active") && Before (LastActive s) cutoff.
Definition expire (now : Time) (s : Session) : Session :=
  mkSession (SessID s) (Username s) (Role s) (RemoteAddr s) (CreatedAt s) (LastActive s)
    (Some now) "expired" (Metadata s).

Definition CleanupInactiveSessions (m : t) (now0 now : Time) (maxInactive : Duration) : Z * t :=
  let cutoff := Add now0 (int64_wrap (- maxInactive)) in
  let '(removed, ss) :=
    foldl (λ '(removed, ss) (kv : string * Session),
             if inactive cutoff kv.2
             then (int64_wrap (removed + 1), <[kv.1 := expire now kv.2]> ss)
             else (removed, ss))
      (0%Z, sessions m) (range (sessions m)) in
  (removed, set_sessions m ss).

(** [CleanupOldAuditLogs] *)
Definition CleanupOldAuditLogs (m : t) (now : Time) (maxAge : Duration) : Z * t :=
  let cutoff := Add now (int64_wrap (- maxAge)) in
  let '(removed, kept) :=
    foldl (λ '(removed, kept) e,
             if Before (Timestamp e) cutoff then (int64_wrap (removed + 1), kept)
             else (removed, kept ++ [e]))
      (0%Z, []) (auditLog m) in
  (removed, set_auditLog m kept).

(** [Health] and [Close]: a store in memory is always there. *)
Definition Health (_ : t) : option string := None.
Definition Close (_ : t) : option string := None.

End Ops.

(** ** Loops over a map *)

Section Loops.
Context `{MR : MapRange}.

Lemma foldl_insert_lookup {V} (l : list (string * V)) (acc : gmap string V) k v :
  NoDup l.*1 →
  foldl (λ out kv, <[kv.1 := kv.2]> out) acc l !! k = Some v ↔
  (k, v) ∈ l ∨ (k ∉ l.*1) ∧ acc !! k = Some v.
Proof.
  revert acc. induction l as [|[k0 v0] l IH]; intros acc Hnd; simpl.
  - split; [right; split; [apply not_elem_of_nil|done]|].
    intros [H|[_ H]]; [by apply not_elem_of_nil in H|done].
  - apply NoDup_cons in Hnd as [Hk0 Hnd]. rewrite (IH _ Hnd), lookup_insert. simpl in *.
    rewrite !elem_of_cons. case_decide as E.
    + subst k0. split; [intros [?|[? [= ->]]]; auto|].
      intros [[[= ->]|?]|[? ?]]; auto. right. tauto.
    + split; [intros [?|[? ?]]; [auto|right; split; [|done]]; intros [?|?]; done|].
      intros [[[= -> ->]|?]|[Hn ?]]; [done|auto|right; split; [|done]; tauto].
Qed.

Lemma cloneJSONMap_id (x : JSONMap) : cloneJSONMap x = x.
Proof.
  destruct x as [m|]; [|done]. simpl. f_equal. apply map_eq. intros k. apply option_eq.
  intros v. rewrite foldl_insert_lookup by apply NoDup_range_keys.
  rewrite elem_of_range, lookup_empty. intuition discriminate.
Qed.

Lemma cloneSession_id s : cloneSession s = s.
Proof. destruct s. unfold cloneSession; simpl. by rewrite cloneJSONMap_id. Qed.
Lemma cloneTunnel_id s : cloneTunnel s = s.
Proof. destruct s. unfold cloneTunnel; simpl. by rewrite cloneJSONMap_id. Qed.
Lemma cloneAuditEntry_id s : cloneAuditEntry s = s.
Proof. destruct s. unfold cloneAuditEntry; simpl. by rewrite cloneJSONMap_id. Qed.

Lemma fmap_clone {A} (f : A → A) (l : list A) : (∀ x, f x = x) → (f <$> l) = l.
Proof. intros Hf. induction l as [|x l IH]; [done|]. csimpl. by rewrite Hf, IH. Qed.

Lemma foldl_delete_lookup {V} (P : V → bool) (l : list (string * V)) (acc : gmap string V) k v :
  foldl (λ ts kv, if P kv.2 then delete kv.1 ts else ts) acc l !! k = Some v ↔
  acc !! k = Some v ∧ ∀ v', (k, v') ∈ l → P v' = false.
Proof.
  revert acc. induction l as [|[k0 v0] l IH]; intros acc; simpl.
  - split; [intros H; split; [done|]; intros v' Hin; by apply not_elem_of_nil in Hin|tauto].
  - rewrite IH. setoid_rewrite elem_of_cons. destruct (P v0) eqn:E; simpl.
    + rewrite lookup_delete_Some. split.
      * intros [[Hne ?] ?]. split; [done|]. intros v' [[= -> ->]|?]; [done|auto].
      * intros [? H]. split; [split; [|done]|auto]. intros ->.
        specialize (H v0 (or_introl eq_refl)). congruence.
    + split; intros [? H]; (split; [done|]); intros v' Hv; [|auto].
      destruct Hv as [[= -> ->]|?]; auto.
Qed.

(** Deleting while ranging over the map itself keeps the entries that fail the
    test. *)
Lemma range_delete_lookup {V} (P : V → bool) (m : gmap string V) k v :
  foldl (λ ts kv, if P kv.2 then delete kv.1 ts else ts) m (range m) !! k = Some v ↔
  m !! k = Some v ∧ P v = false.
Proof.
  rewrite foldl_delete_lookup. split; intros [Hk H]; (split; [done|]).
  - apply H. by apply elem_of_range.
  - intros v' Hin%elem_of_range. congruence.
Qed.

Lemma foldl_collect_delete {V} (P : V → bool) (l : list (string * V)) deleted
    (ts : gmap string V) :
  foldl (λ '(deleted, ts) (kv : string * V),
           if P kv.2 then (deleted ++ [kv.1], delete kv.1 ts) else (deleted, ts))
    (deleted, ts) l
  = (deleted ++ (filter (λ kv, P kv.2 = true) l).*1,
     foldl (λ ts kv, if P kv.2 then delete kv.1 ts else ts) ts l).
Proof.
  revert deleted ts. induction l as [|[k v] l IH]; intros deleted ts; simpl.
  - by rewrite app_nil_r.
  - rewrite filter_cons. simpl. destruct (P v); simpl; rewrite IH; [|done].
    by rewrite <-app_assoc.
Qed.

Lemma foldl_update_lookup {V} (P : V → bool) (f : V → V) (l : list (string * V))
    (acc : gmap string V) n k v :
  NoDup l.*1 →
  (foldl (λ '(removed, ss) (kv : string * V),
            if P kv.2 then (int64_wrap (removed + 1), <[kv.1 := f kv.2]> ss) else (removed, ss))
     (n, acc) l).2 !! k = Some v ↔
  (∃ v0, (k, v0) ∈ l ∧ P v0 = true ∧ v = f v0)
  ∨ (∀ v0, (k, v0) ∈ l → P v0 = false) ∧ acc !! k = Some v.
Proof.
  revert n acc. induction l as [|[k0 v0] l IH]; intros n acc Hnd; simpl.
  - split; [right; split; [|done]; intros v0 Hin; by apply not_elem_of_nil in Hin|].
    intros [(v0 & Hin & _)|[_ H]]; [by apply not_elem_of_nil in Hin|done].
  - apply NoDup_cons in Hnd as [Hk0 Hnd]. simpl in *. setoid_rewrite elem_of_cons.
    assert (Hnot : ∀ v', (k0, v') ∉ l).
    { intros v' Hin. apply Hk0, list_elem_of_fmap. by exists (k0, v'). }
    destruct (P v0) eqn:E; rewrite (IH _ _ Hnd); [rewrite lookup_insert; case_decide as Ek|].
    + subst k0. split.
      * intros [(w & Hin & _)|[_ [= <-]]]; [by apply Hnot in Hin|left; eauto].
      * intros [(w & [[= ->]|Hin] & _ & ->)|[H _]].
        -- right. split; [|done]. intros w' Hin. by apply Hnot in Hin.
        -- by apply Hnot in Hin.
        -- specialize (H v0 (or_introl eq_refl)). congruence.
    + split; [intros [(w & ? & ?)|[H ?]]; [left; eauto|right; split; [|done]]|].
      * intros w [[= -> ->]|?]; [done|auto].
      * intros [(w & [[= -> ->]|?] & ?)|[H ?]]; [done|left; eauto|right; eauto].
    + split; [intros [(w & ? & ?)|[H ?]]; [left; eauto|right; split; [|done]]|].
      * intros w [[= -> ->]|?]; [done|auto].
      * intros [(w & [[= -> ->]|?] & ? & ?)|[H ?]]; [congruence|left; eauto|right; eauto].
Qed.

Lemma length_values {V} (P : V → Prop) `{∀ x, Decision (P x)} (m : gmap string V) :
  length (filter P (range m).*2) ≤ size m.
Proof. rewrite length_filter, length_fmap, length_range. lia. Qed.

(** A counter incremented once per element that passes the test. *)
Lemma foldl_count_wrap {A} (P : A → bool) (l : list A) n :
  (0 <= n)%Z → (n + Z.of_nat (length l) <= max_int64)%Z →
  foldl (λ n x, if P x then int64_wrap (n + 1) else n) n l
  = (n + Z.of_nat (length (filter (λ x, P x = true) l)))%Z.
Proof.
  revert n. induction l as [|x l IH]; intros n Hn Hb; simpl in *; [lia|].
  rewrite filter_cons. destruct (P x); simpl; rewrite IH; try lia.
  - rewrite int64_wrap_id; [lia|]. unfold in_int64, min_int64. lia.
  - rewrite int64_wrap_id; [lia|]. unfold in_int64, min_int64. lia.
  - rewrite int64_wrap_id; [lia|]. unfold in_int64, min_int64. lia.
Qed.

Lemma foldl_pair_fst {A B C} (f : A → C → A) (g : B → C → B) (P : C → bool) (l : list C) a b :
  (foldl (λ '(a, b) c, if P c then (f a c, g b c) else (a, b)) (a, b) l).1
  = foldl (λ a c, if P c then f a c else a) a l.
Proof. revert a b. induction l as [|c l IH]; intros a b; [done|]. simpl. destruct (P c); apply IH. Qed.

End Loops.

(** ** Windows of a listing *)

(** The page a caller asks for: everything from [offset] on when there is no
    positive limit. *)
Definition page {A} (l : list A) (limit offset : Z) : list A :=
  let rest := drop (Z.to_nat (Z.max 0 offset)) l in
  if (0 <? limit)%Z then take (Z.to_nat limit) rest else rest.

(** The sum the code computes leaves the range of [int]. *)
Definition window_overflows {A} (l : list A) (limit offset : Z) : bool :=
  (offset <? Z.of_nat (length l))%Z && (0 <? limit)%Z
  && (max_int64 <? Z.max 0 offset + limit)%Z.

Lemma slice_some {A} (l : list A) i j :
  (0 <= i <= j)%Z → (j <= Z.of_nat (length l))%Z →
  slice l i j = Some (take (Z.to_nat (j - i)) (drop (Z.to_nat i) l)).
Proof.
  intros [Hi Hij] Hj. unfold slice.
  by rewrite (proj2 (Z.leb_le _ _) Hi), (proj2 (Z.leb_le _ _) Hij), (proj2 (Z.leb_le _ _) Hj).
Qed.

Lemma int64_wrap_over z : (2 ^ 63 <= z < 2 ^ 64)%Z → int64_wrap z = (z - 2 ^ 64)%Z.
Proof.
  intros Hz. unfold int64_wrap.
  replace (z + 2 ^ 63)%Z with (z - 2 ^ 64 + 2 ^ 63 + 1 * 2 ^ 64)%Z by lia.
  rewrite Z.mod_add by lia. rewrite Z.mod_small by lia. lia.
Qed.

Lemma applyWindow_spec {A} (l : list A) limit offset :
  in_int64 limit → in_int64 offset → (Z.of_nat (length l) <= max_int64)%Z →
  applyWindow l limit offset
  = if window_overflows l limit offset then None else Some (page l limit offset).
Proof.
  unfold in_int64, min_int64, applyWindow, window_overflows, page, max_int64.
  intros Hl Ho Hn. set (n := Z.of_nat (length l)) in *.
  destruct (Z.leb_spec n offset) as [H|H].
  { rewrite (proj2 (Z.ltb_ge offset n)) by lia. simpl.
    rewrite (drop_ge l) by lia. destruct (0 <? limit)%Z; [by rewrite take_nil|done]. }
  rewrite (proj2 (Z.ltb_lt offset n)) by lia. simpl.
  replace (if (offset <? 0)%Z then 0%Z else offset) with (Z.max 0 offset)
    by (destruct (Z.ltb_spec offset 0); lia).
  set (o := Z.max 0 offset). assert (Hon : (0 <= o <= n)%Z) by (unfold o; lia).
  destruct (Z.ltb_spec 0 limit) as [Hpos|Hneg]; simpl.
  2: { rewrite slice_some by lia. f_equal. apply take_ge. rewrite length_drop. lia. }
  destruct (Z.ltb_spec (2 ^ 63 - 1) (o + limit)) as [Hov|Hok].
  - rewrite int64_wrap_over by lia. rewrite (proj2 (Z.ltb_lt _ _)) by lia.
    unfold slice. rewrite (proj2 (Z.leb_gt o _)) by lia. by rewrite andb_false_r.
  - rewrite int64_wrap_id by (unfold in_int64, min_int64, max_int64; lia).
    destruct (Z.ltb_spec (o + limit) n) as [Hlt|Hge].
    + rewrite slice_some by lia. do 2 f_equal. lia.
    + rewrite slice_some by lia. f_equal. rewrite !take_ge; [done|..]; rewrite length_drop; lia.
Qed.

(** C35: listings return the requested page.  With limits and offsets of the
    width of [int], [ListSessions], [ListTunnels] and [QueryAuditLog] return the
    page of the entries that match, in the order of iteration, except that they
    panic exactly when the offset lies inside the result and [offset+limit]
    exceeds the largest [int]. *)
Theorem listings_return_pages `{MR : MapRange} (m : t) (fs : SessionFilter)
    (ft : TunnelFilter) (fa : AuditFilter) :
  in_int64 (SFLimit fs) → in_int64 (SFOffset fs) → in_int64 (TFLimit ft) →
  in_int64 (TFOffset ft) → in_int64 (AFLimit fa) → in_int64 (AFOffset fa) →
  (Z.of_nat (size (sessions m)) <= max_int64)%Z →
  (Z.of_nat (size (tunnels m)) <= max_int64)%Z →
  (Z.of_nat (length (auditLog m)) <= max_int64)%Z →
  let ls := filter (λ s, session_matches fs s) (range (sessions m)).*2 in
  let lt := filter (λ s, tunnel_matches ft s) (range (tunnels m)).*2 in
  let la := filter (λ e, audit_matches fa e) (auditLog m) in
  ListSessions m fs
    = (if window_overflows ls (SFLimit fs) (SFOffset fs) then None
       else Some (page ls (SFLimit fs) (SFOffset fs)))
  ∧ ListTunnels m ft
    = (if window_overflows lt (TFLimit ft) (TFOffset ft) then None
       else Some (page lt (TFLimit ft) (TFOffset ft)))
  ∧ QueryAuditLog m fa
    = (if window_overflows la (AFLimit fa) (AFOffset fa) then None
       else Some (page la (AFLimit fa) (AFOffset fa))).
Proof.
  intros. unfold ListSessions, ListTunnels, QueryAuditLog, applySessionWindow,
    applyTunnelWindow, applyAuditWindow.
  rewrite (fmap_clone cloneSession), (fmap_clone cloneTunnel), (fmap_clone cloneAuditEntry)
    by auto using cloneSession_id, cloneTunnel_id, cloneAuditEntry_id.
  split_and!; apply applyWindow_spec; try done.
  - eapply Z.le_trans; [apply inj_le, length_values|done].
  - eapply Z.le_trans; [apply inj_le, length_values|done].
  - eapply Z.le_trans; [apply inj_le, length_filter|done].
Qed.

Definition demo_session (id user : string) : Session :=
  mkSession id user "student" "10.0.0.7:5000" 0 0 None "" None.
Definition demo_entry (action : string) : AuditEntry :=
  mkAudit "" 0 "" "" action "student" "student" "" "ok" None "".
Definition demo_store : t :=
  let m := (CreateSession NewMemoryStore "u-1" (5 * Second) (demo_session "" "student")).2 in
  let m := (CreateSession m "u-2" (9 * Second) (demo_session "s-2" "admin")).2 in
  let m := (CreateTunnel m "u-3" (9 * Second)
              (mkTunnel "t-1" "s-2" "local" "" "" 0 None 0 0 "" None)).2 in
  let m := (AppendAuditLog m "u-4" (9 * Second) (demo_entry "login")).2 in
  let m := (AppendAuditLog m "u-5" (9 * Second) (demo_entry "open")).2 in
  (AppendAuditLog m "u-6" (9 * Second) (demo_entry "close")).2.
Definition demo_audit_filter (limit offset : Z) : AuditFilter :=
  mkAuditFilter "student" "" "" None None limit offset.

Lemma listings_return_pages_witness :
  QueryAuditLog demo_store (demo_audit_filter max_int64 1) = None
  ∧ is_Some (QueryAuditLog demo_store (demo_audit_filter 2 1)).
Proof.
  split.
  - destruct (listings_return_pages demo_store (mkSessionFilter "" "" None "" 1 0)
      (mkTunnelFilter "" "" "" 1 0) (demo_audit_filter max_int64 1)) as (_ & _ & ->);
      by vm_compute.
  - destruct (listings_return_pages demo_store (mkSessionFilter "" "" None "" 1 0)
      (mkTunnelFilter "" "" "" 1 0) (demo_audit_filter 2 1)) as (_ & _ & ->);
      [by vm_compute..|]. eexists. by vm_compute.
Defined.

(** ** Walking the audit log page by page *)

Definition audit_page (f : AuditFilter) (limit offset : Z) : AuditFilter :=
  mkAuditFilter (AFUsername f) (AFAction f) (AFResult f) (AFSince f) (AFUntil f) limit offset.

Lemma QueryAuditLog_page `{MR : MapRange} m f limit offset :
  (0 < limit)%Z → (0 <= offset)%Z → (offset + limit <= max_int64)%Z →
  (Z.of_nat (length (auditLog m)) <= max_int64)%Z →
  QueryAuditLog m (audit_page f limit offset)
  = Some (take (Z.to_nat limit)
            (drop (Z.to_nat offset) (filter (λ e, audit_matches f e) (auditLog m)))).
Proof.
  intros Hl Ho Hb Hn. unfold QueryAuditLog, applyAuditWindow.
  rewrite (fmap_clone cloneAuditEntry) by auto using cloneAuditEntry_id.
  rewrite applyWindow_spec; simpl.
  - unfold window_overflows, page. rewrite (proj2 (Z.ltb_ge max_int64 _)) by lia.
    rewrite andb_false_r, (proj2 (Z.ltb_lt 0 limit)) by lia. do 3 f_equal. lia.
  - unfold in_int64, min_int64. lia.
  - unfold in_int64, min_int64. lia.
  - eapply Z.le_trans; [apply inj_le, length_filter|done].
Qed.

Lemma concat_chunks {A} (k pages : nat) (l : list A) :
  length l ≤ pages * k →
  concat ((λ i, take k (drop (i * k) l)) <$> seq 0 pages) = l.
Proof.
  revert l. induction pages as [|pages IH]; intros l Hl; simpl in *.
  - by destruct l; simpl in *; [|lia].
  - rewrite <-(fmap_S_seq 0 pages), <-list_fmap_compose. rewrite drop_0.
    transitivity (take k l ++ drop k l); [|apply take_drop]. f_equal.
    rewrite <-(IH (drop k l)) at 1 by (rewrite length_drop; lia).
    f_equal. apply list_fmap_ext. intros i j _. simpl. rewrite drop_drop. f_equal.
Qed.

(** Reading the audit log page by page.  Querying with a positive limit at
    the offsets 0, limit, 2*limit, ... returns, concatenated, every matching
    entry exactly once and in the order they were appended. *)
Lemma audit_pages_partition `{MR : MapRange} (m : t) (f : AuditFilter) (limit : Z)
    (pages : nat) :
  (0 < limit)%Z → (Z.of_nat pages * limit <= max_int64)%Z →
  (Z.of_nat (length (auditLog m)) <= Z.of_nat pages * limit)%Z →
  ∃ ls, mapM (λ i, QueryAuditLog m (audit_page f limit (Z.of_nat i * limit))) (seq 0 pages)
        = Some ls
      ∧ concat ls = filter (λ e, audit_matches f e) (auditLog m).
Proof.
  intros Hl Hb Hn. set (all := filter _ (auditLog m)).
  exists ((λ i, take (Z.to_nat limit) (drop (i * Z.to_nat limit) all)) <$> seq 0 pages). split.
  - apply mapM_Some. apply Forall2_fmap_r, Forall_Forall2_diag, Forall_forall.
    intros i [_ Hi]%elem_of_seq. rewrite QueryAuditLog_page by nia.
    do 3 f_equal. lia.
  - apply concat_chunks. assert (length all ≤ length (auditLog m)) by apply length_filter. lia.
Qed.

Lemma audit_pages_partition_witness :
  ∃ ls, mapM (λ i, QueryAuditLog demo_store
                     (audit_page (demo_audit_filter 0 0) 2 (Z.of_nat i * 2))) (seq 0 2)
        = Some ls ∧ length (concat ls) = 3%nat.
Proof.
  destruct (audit_pages_partition demo_store (demo_audit_filter 0 0) 2 2) as (ls & H1 & H2);
    [done..|]. exists ls. split; [exact H1|]. rewrite H2. by vm_compute.
Defined.

(** ** Runs *)

Inductive call :=
| CCreateSession (uuid : string) (now : Time) (sess : Session)
| CUpdateSession (now : Time) (sess : Session)
| CDeleteSession (id : string)
| CTouchSession (now : Time) (id : string)
| CCreateTunnel (uuid : string) (now : Time) (tun : Tunnel)
| CUpdateTunnel (tun : Tunnel)
| CDeleteTunnel (id : string)
| CDeleteTunnelsBySession (sessionID : string)
| CIncrementAttempts (now : Time) (key : string) (window : Duration)
| CResetAttempts (key : string)
| CLock (now0 now : Time) (key : string) (duration : Duration)
| CAppendAuditLog (uuid : string) (now : Time) (e : AuditEntry)
| CCleanupInactiveSessions (now0 now : Time) (maxInactive : Duration)
| CCleanupOldAuditLogs (now : Time) (maxAge : Duration).

Section Runs.
Context `{MR : MapRange}.

Definition exec (m : t) (c : call) : t :=
  match c with
  | CCreateSession u now s => (CreateSession m u now s).2
  | CUpdateSession now s => (UpdateSession m now s).2
  | CDeleteSession id => (DeleteSession m id).2
  | CTouchSession now id => (TouchSession m now id).2
  | CCreateTunnel u now s => (CreateTunnel m u now s).2
  | CUpdateTunnel s => (UpdateTunnel m s).2
  | CDeleteTunnel id => (DeleteTunnel m id).2
  | CDeleteTunnelsBySession id => (DeleteTunnelsBySession m id).2
  | CIncrementAttempts now k w => (IncrementAttempts m now k w).2
  | CResetAttempts k => ResetAttempts m k
  | CLock now0 now k d => Lock m now0 now k d
  | CAppendAuditLog u now e => (AppendAuditLog m u now e).2
  | CCleanupInactiveSessions now0 now d => (CleanupInactiveSessions m now0 now d).2
  | CCleanupOldAuditLogs now d => (CleanupOldAuditLogs m now d).2
  end.

Definition exec_all (m : t) (cs : list call) : t := foldl exec m cs.

(** The readings of the clock at appends to the audit log do not go back. *)
Fixpoint clock_from (last : Time) (cs : list call) : Prop :=
  match cs with
  | [] => True
  | CAppendAuditLog _ now _ :: cs => (last <= now)%Z ∧ clock_from now cs
  | _ :: cs => clock_from last cs
  end.

Definition keys_ok (m : t) : Prop :=
  map_Forall (λ k s, SessID s = k) (sessions m)
  ∧ map_Forall (λ k s, TunID s = k) (tunnels m).

Definition log_ok (last : Time) (m : t) : Prop :=
  StronglySorted (key_le Timestamp) (auditLog m)
  ∧ Forall (λ e, Timestamp e <= last)%Z (auditLog m).

Lemma CleanupOldAuditLogs_log m now d :
  auditLog (CleanupOldAuditLogs m now d).2
  = filter (λ e, Before (Timestamp e) (Add now (int64_wrap (- d))) = false) (auditLog m).
Proof.
  unfold CleanupOldAuditLogs. set (cutoff := Add now _).
  assert (H : ∀ l n kept,
    (foldl (λ '(removed, kept) e,
             if Before (Timestamp e) cutoff then (int64_wrap (removed + 1), kept)
             else (removed, kept ++ [e])) (n, kept) l).2
    = kept ++ filter (λ e, Before (Timestamp e) cutoff = false) l).
  { induction l as [|e l IH]; intros n kept; simpl; [by rewrite app_nil_r|].
    rewrite filter_cons. destruct (Before (Timestamp e) cutoff); rewrite IH; [done|].
    by rewrite <-app_assoc. }
  specialize (H (auditLog m) 0%Z []). by destruct (foldl _ _ _).
Qed.

Lemma CleanupInactiveSessions_sessions m now0 now d k s :
  sessions (CleanupInactiveSessions m now0 now d).2 !! k = Some s ↔
  ∃ s0, sessions m !! k = Some s0
      ∧ s = if inactive (Add now0 (int64_wrap (- d))) s0 then expire now s0 else s0.
Proof.
  unfold CleanupInactiveSessions. set (cutoff := Add now0 _).
  pose proof (foldl_update_lookup (inactive cutoff) (expire now) (range (sessions m))
    (sessions m) 0 k s (NoDup_range_keys _)) as H.
  destruct (foldl _ _ _) as [removed ss]. simpl in *. rewrite H.
  setoid_rewrite elem_of_range. split.
  - intros [(s0 & H1 & H2 & ->)|[H1 H2]]; eexists; split; try done; [by rewrite H2|].
    by rewrite (H1 s).
  - intros (s0 & H1 & ->). destruct (inactive cutoff s0) eqn:E; [left; eauto|right].
    split; [|done]. intros v0 H2. congruence.
Qed.

Lemma DeleteTunnelsBySession_tunnels m sid k v :
  tunnels (DeleteTunnelsBySession m sid).2 !! k = Some v ↔
  tunnels m !! k = Some v ∧ TunSessionID v ≠ sid.
Proof.
  unfold DeleteTunnelsBySession.
  rewrite (foldl_collect_delete (of_session sid)). simpl.
  rewrite (range_delete_lookup (of_session sid)). unfold of_session.
  by rewrite bool_decide_eq_false.
Qed.

Lemma DeleteSession_tunnels m id k v :
  is_Some (sessions m !! id) →
  tunnels (DeleteSession m id).2 !! k = Some v ↔
  tunnels m !! k = Some v ∧ TunSessionID v ≠ id.
Proof.
  intros [s Hs]. unfold DeleteSession. rewrite Hs. simpl.
  rewrite (range_delete_lookup (of_session id)). unfold of_session.
  by rewrite bool_decide_eq_false.
Qed.

Lemma map_Forall_lookup_impl {V} (P : string → V → Prop) (m m' : gmap string V) :
  (∀ k v, m' !! k = Some v → P k v ∨ m !! k = Some v) → map_Forall P m → map_Forall P m'.
Proof. intros H Hm k v Hk. destruct (H k v Hk) as [?|?]; [done|by apply Hm]. Qed.

Lemma keys_ok_exec m c : keys_ok m → keys_ok (exec m c).
Proof.
  intros [Hs Ht]. destruct c; simpl; try done.
  - unfold CreateSession. destruct (sessions m !! _); [done|].
    split; [|done]. by apply map_Forall_insert_2.
  - unfold UpdateSession. destruct (sessions m !! _); [|done].
    split; [|done]. by apply map_Forall_insert_2.
  - destruct (sessions m !! id) as [s|] eqn:E.
    + split; [unfold DeleteSession; rewrite E; by apply map_Forall_delete|].
      intros k v [Hk _]%DeleteSession_tunnels; [by apply Ht|by eexists].
    + unfold DeleteSession. by rewrite E.
  - unfold TouchSession. destruct (sessions m !! id) as [s|] eqn:E; [|done].
    split; [|done]. apply map_Forall_insert_2; [|done]. by apply Hs in E.
  - unfold CreateTunnel. destruct (tunnels m !! _); [done|].
    split; [done|]. by apply map_Forall_insert_2.
  - unfold UpdateTunnel. destruct (tunnels m !! _); [|done].
    split; [done|]. by apply map_Forall_insert_2.
  - unfold DeleteTunnel. destruct (tunnels m !! _); [|done].
    split; [done|]. by apply map_Forall_delete.
  - split; [unfold DeleteTunnelsBySession; by destruct (foldl _ _ _)|].
    intros k v [Hk _]%DeleteTunnelsBySession_tunnels. by apply Ht.
  - unfold IncrementAttempts. repeat case_match; done.
  - split; [|unfold CleanupInactiveSessions; by destruct (foldl _ _ _)].
    intros k v (s0 & Hk & ->)%CleanupInactiveSessions_sessions. case_match; simpl; by apply Hs in Hk.
  - unfold CleanupOldAuditLogs. by destruct (foldl _ _ _).
Qed.

Lemma auditLog_exec m c :
  auditLog (exec m c)
  = match c with
    | CAppendAuditLog u now e => auditLog m ++ [(AppendAuditLog m u now e).1]
    | CCleanupOldAuditLogs now d =>
        filter (λ e, Before (Timestamp e) (Add now (int64_wrap (- d))) = false) (auditLog m)
    | _ => auditLog m
    end.
Proof.
  destruct c; simpl; try done.
  - unfold CreateSession. by case_match.
  - unfold UpdateSession. by case_match.
  - unfold DeleteSession. by case_match.
  - unfold TouchSession. by case_match.
  - unfold CreateTunnel. by case_match.
  - unfold UpdateTunnel. by case_match.
  - unfold DeleteTunnel. by case_match.
  - unfold DeleteTunnelsBySession. by destruct (foldl _ _ _).
  - unfold IncrementAttempts. by repeat case_match.
  - by rewrite cloneAuditEntry_id.
  - unfold CleanupInactiveSessions. by destruct (foldl _ _ _).
  - apply CleanupOldAuditLogs_log.
Qed.

End Runs.

Lemma StronglySorted_filter {A} (R : A → A → Prop) (P : A → Prop) `{∀ x, Decision (P x)} l :
  StronglySorted R l → StronglySorted R (filter P l).
Proof.
  induction 1 as [|x l Hs IH Hall]; [constructor|].
  rewrite filter_cons. case_decide; [|done]. constructor; [done|].
  apply Forall_forall. intros y [_ Hy]%list_elem_of_filter. revert y Hy. by apply Forall_forall.
Qed.

Lemma StronglySorted_snoc {A} (R : A → A → Prop) l x :
  StronglySorted R l → Forall (λ y, R y x) l → StronglySorted R (l ++ [x]).
Proof.
  induction 1 as [|y l Hs IH Hall]; intros Hx; simpl; [by repeat constructor|].
  apply Forall_cons in Hx as [Hyx Hx]. constructor; [by apply IH|].
  apply Forall_app. split; [done|]. by apply Forall_singleton.
Qed.

Section Reachable.
Context `{MR : MapRange}.

Lemma log_ok_exec last m c :
  log_ok last m → clock_from last [c] → ∃ last', log_ok last' (exec m c)
    ∧ ∀ cs, clock_from last (c :: cs) → clock_from last' cs.
Proof.
  intros [Hs Hf] Hc. unfold log_ok. rewrite auditLog_exec.
  destruct c; simpl in *; try (exists last; by split_and!).
  - exists now. split; [split|by intros cs [_ ?]].
    + apply StronglySorted_snoc; [done|]. eapply Forall_impl; [done|].
      intros e0 He. unfold key_le. simpl in *. lia.
    + apply Forall_app. split; [|by apply Forall_singleton].
      eapply Forall_impl; [done|]. simpl in *. lia.
  - exists last. split_and!; [by apply StronglySorted_filter| |done].
    apply Forall_forall. intros e [_ He]%list_elem_of_filter. revert e He. by apply Forall_forall.
Qed.

Lemma clock_from_head last c cs : clock_from last (c :: cs) → clock_from last [c].
Proof. destruct c; simpl; tauto. Qed.

Lemma log_ok_exec_all last m cs :
  log_ok last m → clock_from last cs → ∃ last', log_ok last' (exec_all m cs).
Proof.
  revert last m. induction cs as [|c cs IH]; intros last m Hm Hc; [by exists last|].
  destruct (log_ok_exec last m c Hm (clock_from_head _ _ _ Hc)) as (last' & H1 & H2).
  apply (IH last'); auto.
Qed.

Lemma keys_ok_exec_all m cs : keys_ok m → keys_ok (exec_all m cs).
Proof.
  revert m. induction cs as [|c cs IH]; intros m Hm; [done|]. by apply IH, keys_ok_exec.
Qed.

End Reachable.

Lemma StronglySorted_drop {A} (R : A → A → Prop) n l :
  StronglySorted R l → StronglySorted R (drop n l).
Proof.
  revert l. induction n as [|n IH]; intros [|x l] Hl; try done. simpl.
  apply IH. by inversion Hl.
Qed.

Lemma StronglySorted_take {A} (R : A → A → Prop) n l :
  StronglySorted R l → StronglySorted R (take n l).
Proof.
  revert l. induction n as [|n IH]; intros [|x l] Hl; simpl; try constructor.
  - apply IH. by inversion Hl.
  - inversion Hl. by apply Forall_take.
Qed.

Lemma applyWindow_sorted {A} (R : A → A → Prop) l limit offset l' :
  StronglySorted R l → applyWindow l limit offset = Some l' → StronglySorted R l'.
Proof.
  intros Hl. unfold applyWindow, slice. repeat case_if; intros [= <-]; try constructor;
    by apply StronglySorted_take, StronglySorted_drop.
Qed.

(** The invariant of the store.  Whatever the calls, an object found under a
    key carries that key as its identifier; and when the clock does not go back
    between appends, every query of the audit log answers in chronological
    order. *)
Lemma store_reachable_wf `{MR : MapRange} (cs : list call) (start : Time) :
  clock_from start cs →
  let m := exec_all NewMemoryStore cs in
  (∀ id s, GetSession m id = Ok s → SessID s = id)
  ∧ (∀ id s, GetTunnel m id = Ok s → TunID s = id)
  ∧ (∀ f l, QueryAuditLog m f = Some l → StronglySorted (key_le Timestamp) l).
Proof.
  intros Hc m.
  destruct (keys_ok_exec_all NewMemoryStore cs) as [Hs Ht]; [split; apply map_Forall_empty|].
  destruct (log_ok_exec_all start NewMemoryStore cs) as (last & Hl & _);
    [split; constructor|done|]. fold m in Hs, Ht, Hl. split_and!.
  - unfold GetSession. intros id s. destruct (sessions m !! id) eqn:E; [|done].
    intros [= <-]. rewrite cloneSession_id. by apply Hs in E.
  - unfold GetTunnel. intros id s. destruct (tunnels m !! id) eqn:E; [|done].
    intros [= <-]. rewrite cloneTunnel_id. by apply Ht in E.
  - intros f l Hq. unfold QueryAuditLog, applyAuditWindow in Hq.
    rewrite (fmap_clone cloneAuditEntry) in Hq by auto using cloneAuditEntry_id.
    eapply applyWindow_sorted; [|exact Hq]. by apply StronglySorted_filter.
Qed.

Definition demo_calls : list call :=
  [CCreateSession "u-1" 5 (demo_session "" "student");
   CAppendAuditLog "u-2" 6 (demo_entry "login");
   CAppendAuditLog "u-3" 8 (demo_entry "logout");
   CDeleteSession "u-1"].

Lemma store_reachable_wf_witness :
  let m := exec_all NewMemoryStore demo_calls in
  (∀ id s, GetSession m id = Ok s → SessID s = id)
  ∧ (∀ id s, GetTunnel m id = Ok s → TunID s = id)
  ∧ (∀ f l, QueryAuditLog m f = Some l → StronglySorted (key_le Timestamp) l).
Proof. apply (store_reachable_wf demo_calls 0). simpl. lia. Defined.

(** Deleting a session.  [DeleteSession] fails exactly on an unknown session
    and then changes nothing; otherwise the session is gone, its tunnels are gone
    (those that [DeleteTunnelsBySession] would delete), and every other session,
    tunnel, audit entry and attempt counter is as before. *)
Lemma delete_session_cascades `{MR : MapRange} (m : t) (id : string) :
  let '(r, m') := DeleteSession m id in
  match GetSession m id with
  | Err e => r = Err e ∧ m' = m
  | Ok _ =>
     r = Ok tt
     ∧ GetSession m' id = Err ErrNotFound
     ∧ (∀ id', id' ≠ id → GetSession m' id' = GetSession m id')
     ∧ (∀ tid, GetTunnel m' tid
               = match GetTunnel m tid with
                 | Ok tun => if bool_decide (TunSessionID tun = id) then Err ErrNotFound else Ok tun
                 | Err e => Err e
                 end)
     ∧ tunnels m' = tunnels (DeleteTunnelsBySession m id).2
     ∧ auditLog m' = auditLog m ∧ attempts m' = attempts m
  end.
Proof.
  destruct (DeleteSession m id) as [r m'] eqn:Hd.
  unfold GetSession at 1. destruct (sessions m !! id) as [s|] eqn:E.
  2: { unfold DeleteSession in Hd. rewrite E in Hd. by simplify_eq. }
  assert (Ht : ∀ k v, tunnels m' !! k = Some v ↔ tunnels m !! k = Some v ∧ TunSessionID v ≠ id).
  { intros k v. pose proof (DeleteSession_tunnels m id k v) as H. rewrite Hd in H.
    apply H. by eexists. }
  unfold DeleteSession in Hd. rewrite E in Hd. injection Hd as Hr Hm.
  assert (Hss : sessions m' = delete id (sessions m)) by by rewrite <-Hm.
  unfold GetSession. rewrite Hss. split_and!; try (by rewrite <-Hm); try done.
  - by rewrite lookup_delete_eq.
  - intros id' Hne. by rewrite lookup_delete_ne.
  - intros tid. unfold GetTunnel. destruct (tunnels m !! tid) as [tun|] eqn:Et.
    + rewrite cloneTunnel_id. case_bool_decide as Es.
      * destruct (tunnels m' !! tid) eqn:Et'; [|done]. apply Ht in Et' as [? ?]. congruence.
      * rewrite (proj2 (Ht tid tun)) by done. by rewrite cloneTunnel_id.
    + destruct (tunnels m' !! tid) eqn:Et'; [|done]. apply Ht in Et' as [? ?]. congruence.
  - apply map_eq. intros k. apply option_eq. intros v.
    by rewrite Ht, DeleteTunnelsBySession_tunnels.
Qed.

(** A created session can be read back.  [CreateSession] succeeds exactly
    when the identifier (the given one, or the generated one if empty) is free;
    then [GetSession] returns the session with both times set to the clock and the
    status defaulted to active, and no other session changes; otherwise the store
    is unchanged. *)
Lemma create_session_get `{MR : MapRange} (m : t) (uuid : string) (now : Time)
    (sess : Session) :
  let id := if bool_decide (SessID sess = "") then uuid else SessID sess in
  let '(r, sess', m') := CreateSession m uuid now sess in
  SessID sess' = id ∧
  match GetSession m id with
  | Ok _ => r = Err ErrAlreadyExists ∧ m' = m
  | Err _ =>
     r = Ok tt
     ∧ GetSession m' id = Ok sess'
     ∧ CreatedAt sess' = now ∧ LastActive sess' = now
     ∧ Status sess' = (if bool_decide (Status sess = "") then "active" else Status sess)
     ∧ (∀ id', id' ≠ id → GetSession m' id' = GetSession m id')
     ∧ CreateSession m' uuid now sess' = (Err ErrAlreadyExists, sess', m')
  end.
Proof.
  intros id. unfold CreateSession. fold id. unfold GetSession at 1.
  destruct (sessions m !! id) as [s|] eqn:E; [done|]. simpl. split; [done|].
  unfold GetSession. simpl. rewrite lookup_insert_eq, !cloneSession_id. split_and!; try done.
  - intros id' Hne. by rewrite lookup_insert_ne.
  - replace (if bool_decide (id = "") then uuid else id) with id
      by (unfold id; by repeat case_bool_decide). by rewrite lookup_insert_eq.
Qed.

(** Attempts and locks.  Inside the window [IncrementAttempts] counts one more
    attempt and keeps the lock; once the window has elapsed it starts again from
    one and forgets the lock, even a lock that has not expired. *)
Lemma increment_attempts_and_lock (m : t) (now later : Time) (key : string)
    (window d : Duration) :
  let '(n, m') := IncrementAttempts m now key window in
  n = GetAttempts m' key
  ∧ match attempts m !! key with
    | Some e =>
       if (window <? Sub now (firstAt e))%Z
       then n = 1%Z ∧ IsLocked m' later key d = false
       else n = int64_wrap (GetAttempts m key + 1)
            ∧ IsLocked m' later key d = IsLocked m later key d
    | None => n = 1%Z ∧ IsLocked m' later key d = false
    end
  ∧ ∀ key', key' ≠ key → GetAttempts m' key' = GetAttempts m key'
                        ∧ IsLocked m' later key' d = IsLocked m later key' d.
Proof.
  unfold IncrementAttempts, GetAttempts, IsLocked.
  destruct (attempts m !! key) as [e|] eqn:E; [destruct (window <? _)%Z|]; simpl;
    rewrite lookup_insert_eq; split_and!; try done;
    intros key' Hne; by rewrite lookup_insert_ne.
Qed.

Lemma CleanupInactiveSessions_count `{MR : MapRange} m now0 now d :
  (Z.of_nat (size (sessions m)) <= max_int64)%Z →
  (CleanupInactiveSessions m now0 now d).1
  = Z.of_nat (length (filter (λ s, inactive (Add now0 (int64_wrap (- d))) s = true)
                        (range (sessions m)).*2)).
Proof.
  intros Hsz. unfold CleanupInactiveSessions. set (cutoff := Add now0 _).
  pose proof (foldl_pair_fst (λ n (_ : string * Session), int64_wrap (n + 1))
    (λ ss kv, <[kv.1 := expire now kv.2]> ss) (λ kv, inactive cutoff kv.2)
    (range (sessions m)) 0%Z (sessions m)) as H.
  destruct (foldl _ _ _) as [n ss]. simpl in *. subst n.
  rewrite (foldl_count_wrap (λ kv : string * Session, inactive cutoff kv.2)).
  - rewrite Z.add_0_l. f_equal. rewrite <-(length_fmap snd). f_equal.
    induction (range (sessions m)) as [|[k s] l IH]; [done|]. csimpl.
    rewrite !filter_cons. simpl. case_decide; csimpl; by rewrite IH.
  - done.
  - by rewrite length_range.
Qed.

Lemma map_size_dom_eq {V} (m m' : gmap string V) :
  (∀ k, is_Some (m !! k) ↔ is_Some (m' !! k)) → size m = size m'.
Proof.
  intros H. rewrite <-!size_dom. f_equal. apply set_eq. intros k. by rewrite !elem_of_dom.
Qed.

(** Expiring inactive sessions.  [CleanupInactiveSessions] marks exactly the
    active sessions last seen before the cutoff as expired and closed now, leaves
    the others as they are, returns how many it marked, and finds nothing more to
    do when run again for the same cutoff. *)
Lemma cleanup_inactive_spec `{MR : MapRange} (m : t) (now0 now now1 : Time) (d : Duration) :
  (Z.of_nat (size (sessions m)) <= max_int64)%Z →
  let cutoff := Add now0 (int64_wrap (- d)) in
  let '(n, m') := CleanupInactiveSessions m now0 now d in
  n = Z.of_nat (length (filter (λ s, inactive cutoff s = true) (range (sessions m)).*2))
  ∧ (∀ id, sessions m' !! id
           = (λ s, if inactive cutoff s then expire now s else s) <$> sessions m !! id)
  ∧ (CleanupInactiveSessions m' now0 now1 d).1 = 0%Z.
Proof.
  intros Hsz cutoff.
  assert (Hlk : ∀ id, sessions (CleanupInactiveSessions m now0 now d).2 !! id
    = (λ s, if inactive cutoff s then expire now s else s) <$> sessions m !! id).
  { intros id. apply option_eq. intros s.
    rewrite CleanupInactiveSessions_sessions, fmap_Some. naive_solver. }
  pose proof (CleanupInactiveSessions_count m now0 now d Hsz) as Hn.
  pose proof (CleanupInactiveSessions_count (CleanupInactiveSessions m now0 now d).2
    now0 now1 d) as Hn'. fold cutoff in Hn, Hn'.
  destruct (CleanupInactiveSessions m now0 now d) as [n m']. simpl in *.
  split_and!; [done|done|]. rewrite Hn'.
  - replace (filter _ _) with (@nil Session); [done|]. symmetry.
    apply filter_none. intros s Hs. apply list_elem_of_fmap in Hs as ([id s'] & -> & Hin).
    apply elem_of_range in Hin. rewrite Hlk in Hin. apply fmap_Some in Hin as (s0 & _ & ->).
    simpl. destruct (inactive cutoff s0) eqn:E; [done|]. by rewrite E.
  - erewrite map_size_dom_eq; [done|]. intros id. rewrite Hlk. by destruct (sessions m !! id).
Qed.

Lemma cleanup_inactive_spec_witness :
  ∃ n m', CleanupInactiveSessions demo_store (20 * Second) (20 * Second) (12 * Second) = (n, m')
        ∧ n = 1%Z ∧ (CleanupInactiveSessions m' (20 * Second) (30 * Second) (12 * Second)).1 = 0%Z.
Proof.
  pose proof (cleanup_inactive_spec demo_store (20 * Second) (20 * Second) (30 * Second)
    (12 * Second)) as H.
  destruct (CleanupInactiveSessions demo_store (20 * Second) (20 * Second) (12 * Second))
    as [n m'] eqn:E.
  destruct H as (Hn & _ & H0); [by vm_compute|].
  exists n, m'. split_and!; [done| |exact H0]. rewrite Hn. by vm_compute.
Defined.

End MemoryStore.
