(* ===== verification/GoTime.v ===== *)
(** * Times and durations as text

    [Time.Format(time.RFC3339)], its variant with nanoseconds that
    [encoding/json] writes, [Duration.Round] and [Duration.String].  A local time
    is printed with the offset, in seconds, of the zone of the process. *)

From S2P Require Import Prelude GoStrings.

Open Scope Z_scope.

(** ** Calendar *)

(** Year, month and day of a number of days since January 1 of year 1, counted in
    eras of 400 years that start in March. *)
Definition civil_of_days (days : Z) : Z * Z * Z :=
  let z := days + 306 in
  let era := z / 146097 in
  let doe := z mod 146097 in
  let yoe := (doe - doe / 1460 + doe / 36524 - doe / 146096) / 365 in
  let doy := doe - (365 * yoe + yoe / 4 - yoe / 100) in
  let mp := (5 * doy + 2) / 153 in
  let d := doy - (153 * mp + 2) / 5 + 1 in
  let m := if mp <? 10 then mp + 3 else mp - 9 in
  let y := yoe + era * 400 in
  (if m <=? 2 then y + 1 else y, m, d).

Definition days_of_civil (y m d : Z) : Z :=
  let y' := if m <=? 2 then y - 1 else y in
  let era := y' / 400 in
  let yoe := y' mod 400 in
  let mp := if 2 <? m then m - 3 else m + 9 in
  let doy := (153 * mp + 2) / 5 + d - 1 in
  era * 146097 + (yoe * 365 + yoe / 4 - yoe / 100 + doy) - 306.

Definition pad (width : nat) (n : Z) : string :=
  let digits := Itoa (Z.abs n) in
  (if n <? 0 then "-" else "") +:+ zeros (width - String.length digits) +:+ digits.

Definition nanoseconds_per_day : Z := 86400 * Second.

(** The year of an instant, UTC. *)
Definition year (t : Time) : Z := (civil_of_days (t / nanoseconds_per_day)).1.1.

Definition format_offset (offset : Z) : string :=
  if offset =? 0 then "Z"
  else
    let minutes := Z.abs offset / 60 in
    (if offset <? 0 then "-" else "+") +:+ pad 2 (minutes / 60) +:+ ":" +:+ pad 2 (minutes mod 60).

(** The date and the time of day up to seconds. *)
Definition format_seconds (t : Time) : string :=
  let '(y, m, d) := civil_of_days (t / nanoseconds_per_day) in
  let s := (t mod nanoseconds_per_day) / Second in
  pad 4 y +:+ "-" +:+ pad 2 m +:+ "-" +:+ pad 2 d +:+ "T"
  +:+ pad 2 (s / 3600) +:+ ":" +:+ pad 2 (s / 60 mod 60) +:+ ":" +:+ pad 2 (s mod 60).

(** [t.Format(time.RFC3339)] in a zone [offset] seconds ahead of UTC. *)
Definition FormatRFC3339 (offset : Z) (t : Time) : string :=
  format_seconds (t + offset * Second) +:+ format_offset offset.

(** The digits after the point, without trailing zeros. *)
Definition trim_zeros (s : string) : string := TrimRightByte s "0"%char.

Definition fraction (width : nat) (n : Z) : string :=
  if n =? 0 then "" else "." +:+ trim_zeros (pad width n).

(** [t.Format(time.RFC3339Nano)], UTC. *)
Definition FormatRFC3339Nano (t : Time) : string :=
  format_seconds t +:+ fraction 9 (t mod Second) +:+ "Z".

(** ** Durations *)

(** [Duration.Round]: halves away from zero, saturating. *)
Definition Round (d m : Duration) : Duration :=
  if m <=? 0 then d
  else
    let r := Z.rem d m in
    if d <? 0 then
      if - r + - r <? m then d + - r
      else if min_int64 <=? d - m + - r then d - m + - r else min_int64
    else
      if r + r <? m then d - r
      else if d + m - r <=? max_int64 then d + m - r else max_int64.

(** [Duration.String] *)
Definition duration_small (u : Z) : string :=
  if u =? 0 then "0s"
  else if u <? 1000 then Itoa u +:+ "ns"
  else if u <? 1000000 then Itoa (u / 1000) +:+ fraction 3 (u mod 1000) +:+ "µs"
  else Itoa (u / 1000000) +:+ fraction 6 (u mod 1000000) +:+ "ms".

Definition duration_large (u : Z) : string :=
  let s := u / Second in
  (if 3600 <=? s then Itoa (s / 3600) +:+ "h" else "")
  +:+ (if 60 <=? s then Itoa (s / 60 mod 60) +:+ "m" else "")
  +:+ Itoa (s mod 60) +:+ fraction 9 (u mod Second) +:+ "s".

Definition format_duration (d : Duration) : string :=
  let u := Z.abs d in
  (if d <? 0 then "-" else "") +:+ (if u <? Second then duration_small u else duration_large u).

(** ** Examples *)

Example format_epoch : FormatRFC3339 0 zero_time = "0001-01-01T00:00:00Z".
Proof. by vm_compute. Qed.
Example format_2024 :
  FormatRFC3339 (- 18000) (days_of_civil 2024 2 29 * nanoseconds_per_day + 5 * Second)
  = "2024-02-28T19:00:05-05:00".
Proof. by vm_compute. Qed.
Example format_nano :
  FormatRFC3339Nano (days_of_civil 2000 3 1 * nanoseconds_per_day + 120000000)
  = "2000-03-01T00:00:00.12Z".
Proof. by vm_compute. Qed.
Example format_minutes : format_duration (Round (65 * Second + 500000000) Second) = "1m6s".
Proof. by vm_compute. Qed.
Example format_tenths : format_duration 1500000 = "1.5ms".
Proof. by vm_compute. Qed.


(** [Round] to a positive unit gives a multiple of the unit, or an extreme. *)
Lemma Round_multiple d m :
  0 < m → ∃ k, Round d m = k * m ∨ Round d m = max_int64 ∨ Round d m = min_int64.
Proof.
  intros Hm. unfold Round. rewrite (proj2 (Z.leb_gt m 0)) by lia.
  pose proof (Z.quot_rem' d m) as Hq. set (q := Z.quot d m) in *.
  repeat case_if; [exists q|exists (q - 1)|exists 0|exists q|exists (q + 1)|exists 0]; auto; left; lia.
Qed.
