(* ===== verification/TimeText.v ===== *)
(** * Times read from text

    What [Time.UnmarshalJSON] accepts: the date, the time of day, a fraction of a second
    of which nine digits count, and [Z] or an offset.  A time that
    [Time.MarshalJSON] wrote is read back. *)

From stdpp Require Import pretty.
From S2P Require Import Prelude GoStrings GoTime.

Module TimeText.
Local Open Scope Z_scope.

(** ** The parser *)

(** Exactly [n] digits. *)
Fixpoint digitsN (n : nat) (acc : Z) (s : string) : option (Z * string) :=
  match n with
  | O => Some (acc, s)
  | S n =>
     match s with
     | "" => None
     | String a s =>
        match digit a with Some d => digitsN n (acc * 10 + d) s | None => None end
     end
  end.

(** [parseUint] on a field of fixed width, with its range. *)
Definition field (n : nat) (lo hi : Z) (s : string) : option (Z * string) :=
  match digitsN n 0 s with
  | Some (x, rest) => if (lo <=? x) && (x <=? hi) then Some (x, rest) else None
  | None => None
  end.

Definition expect (c : ascii) (s : string) : option string :=
  match s with String a s => if bool_decide (a = c) then Some s else None | "" => None end.

Definition leap (y : Z) : bool := (y mod 4 =? 0) && (negb (y mod 100 =? 0) || (y mod 400 =? 0)).

(** [daysIn] *)
Definition daysIn (m y : Z) : Z :=
  if m =? 2 then (if leap y then 29 else 28)
  else if (m =? 4) || (m =? 6) || (m =? 9) || (m =? 11) then 30 else 31.

(** The fraction: [width] more digits count, the others are skipped. *)
Fixpoint nanos (width : nat) (acc : Z) (s : string) : Z * string :=
  match s with
  | "" => (acc * 10 ^ Z.of_nat width, "")
  | String a s' =>
     match digit a with
     | Some d => match width with
                 | O => nanos O acc s'
                 | S w => nanos w (acc * 10 + d) s'
                 end
     | None => (acc * 10 ^ Z.of_nat width, s)
     end
  end.

(** A fraction starts with a point and has a digit. *)
Definition parse_fraction (s : string) : Z * string :=
  match s with
  | String a (String b s') =>
     if bool_decide (a = "."%char) && bool_decide (is_Some (digit b))
     then nanos 9 0 (String b s') else (0, s)
  | _ => (0, s)
  end.

(** [Z] or an offset, in seconds. *)
Definition parse_zone (s : string) : option Z :=
  if bool_decide (s = "Z") then Some 0
  else match s with
  | String sign s =>
     if bool_decide (sign = "+"%char) || bool_decide (sign = "-"%char) then
       match field 2 0 23 s with
       | None => None
       | Some (hr, s) =>
          match expect ":"%char s with
          | None => None
          | Some s =>
             match field 2 0 59 s with
             | Some (mm, "") =>
                Some ((if bool_decide (sign = "-"%char) then -1 else 1) * ((hr * 60 + mm) * 60))
             | _ => None
             end
          end
       end
     else None
  | "" => None
  end.

Notation "'do' x := m 'in' k" :=
  (match m with Some x => k | None => None end)
  (at level 10, x binder, m at level 100, k at level 200, only parsing).

(** [parseRFC3339] *)
Definition ParseRFC3339 (s : string) : option Time :=
  do '(y, s) := field 4 0 9999 s in
  do s := expect "-"%char s in
  do '(m, s) := field 2 1 12 s in
  do s := expect "-"%char s in
  do '(d, s) := field 2 1 (daysIn m y) s in
  do s := expect "T"%char s in
  do '(hr, s) := field 2 0 23 s in
  do s := expect ":"%char s in
  do '(mi, s) := field 2 0 59 s in
  do s := expect ":"%char s in
  do '(se, s) := field 2 0 59 s in
  let '(ns, s) := parse_fraction s in
  do offset := parse_zone s in
  Some (days_of_civil y m d * nanoseconds_per_day
        + (hr * 3600 + mi * 60 + se - offset) * Second + ns).

Example parse_time_examples :
  ParseRFC3339 "0001-01-01T00:00:00Z" = Some 0
  ∧ ParseRFC3339 "2000-03-01T01:00:00.12+01:00"
    = Some (days_of_civil 2000 3 1 * nanoseconds_per_day + 120000000)
  ∧ ParseRFC3339 "2023-02-29T00:00:00Z" = None ∧ ParseRFC3339 "2023-02-28T24:00:00Z" = None
  ∧ ParseRFC3339 "2023-02-28T23:00:00" = None ∧ ParseRFC3339 "2023-02-28T23:00:00.Z" = None.
Proof. by vm_compute. Qed.

(** ** Numbers of a fixed width *)

Lemma pretty_go_length k x s :
  (x < 10 ^ N.of_nat k)%N → (String.length (pretty_N_go x s) <= k + String.length s)%nat.
Proof.
  revert x s. induction k as [|k IH]; intros x s Hx.
  - assert (x = 0%N) as -> by (simpl in Hx; lia). by rewrite pretty_N_go_0.
  - assert (x = 0 ∨ 0 < x)%N as [->|Hp] by lia; [rewrite pretty_N_go_0; lia|].
    rewrite pretty_N_go_step by done.
    etrans; [apply IH|simpl; lia].
    apply N.Div0.div_lt_upper_bound. rewrite Nat2N.inj_succ, N.pow_succ_r' in Hx. lia.
Qed.

Lemma Itoa_length k n :
  0 <= n < 10 ^ Z.of_nat k → (0 < k)%nat → (String.length (Itoa n) <= k)%nat.
Proof.
  intros Hn Hk. unfold Itoa, pretty, pretty_Z. destruct n as [|p|p]; [simpl; lia| |lia].
  unfold pretty, pretty_positive, pretty, pretty_N. rewrite decide_False by done.
  etrans; [apply (pretty_go_length k)|simpl; lia].
  apply N2Z.inj_lt. rewrite N2Z.inj_pow, nat_N_Z. simpl. lia.
Qed.

Lemma length_zeros n : String.length (zeros n) = n.
Proof. induction n; simpl; auto. Qed.

Lemma digitsN_value s acc v rest :
  digits_value acc s = Some v → digitsN (String.length s) acc (s +:+ rest) = Some (v, rest).
Proof.
  revert acc. induction s as [|a s IH]; intros acc; [by intros [= ->]|].
  rewrite string_app_cons. simpl. destruct (digit a); [apply IH|done].
Qed.

Lemma pad_pos k n : 0 <= n → pad k n = zeros (k - String.length (Itoa n)) +:+ Itoa n.
Proof.
  intros Hn. unfold pad. rewrite (proj2 (Z.ltb_ge n 0)), Z.abs_eq by done. done.
Qed.

Lemma pad_value k n : 0 <= n → digits_value 0 (pad k n) = Some n.
Proof. intros Hn. rewrite pad_pos, digits_value_zeros by done. by apply digits_value_Itoa. Qed.

Lemma pad_length k n :
  0 <= n < 10 ^ Z.of_nat k → (0 < k)%nat → String.length (pad k n) = k.
Proof.
  intros Hn Hk. rewrite pad_pos, string_length_app, length_zeros by lia.
  pose proof (Itoa_length k n Hn Hk). lia.
Qed.

Lemma field_pad k lo hi n rest :
  lo <= n <= hi → 0 <= n < 10 ^ Z.of_nat k → (0 < k)%nat →
  field k lo hi (pad k n +:+ rest) = Some (n, rest).
Proof.
  intros Hr Hn Hk. unfold field. rewrite <-(pad_length k n Hn Hk) at 1.
  rewrite (digitsN_value _ _ n) by (apply pad_value; lia).
  by rewrite (proj2 (Z.leb_le lo n)), (proj2 (Z.leb_le n hi)) by lia.
Qed.

(** ** The fraction *)

Lemma trim_zeros_spec s : ∃ k, s = trim_zeros s +:+ zeros k.
Proof.
  unfold trim_zeros. induction s as [|a s [k IH]]; [by exists 0%nat|]. simpl.
  destruct (TrimRightByte s "0"%char) as [|b t] eqn:E.
  - case_bool_decide as Ha.
    + subst a. exists (S k). rewrite IH. done.
    + exists k. rewrite IH. done.
  - exists k. rewrite string_app_cons, <-IH. done.
Qed.

Lemma digits_value_app acc s t v :
  digits_value acc s = Some v → digits_value acc (s +:+ t) = digits_value v t.
Proof.
  revert acc. induction s as [|a s IH]; intros acc; [by intros [= ->]|].
  rewrite string_app_cons. simpl. destruct (digit a); [apply IH|done].
Qed.

Lemma digits_value_zeros_r acc k : digits_value acc (zeros k) = Some (acc * 10 ^ Z.of_nat k).
Proof.
  revert acc. induction k as [|k IH]; intros acc; [simpl; f_equal; lia|].
  change (digits_value acc (zeros (S k))) with (digits_value (acc * 10 + 0) (zeros k)).
  rewrite IH. f_equal.
  rewrite Nat2Z.inj_succ, Z.pow_succ_r by lia. lia.
Qed.

Lemma digits_value_prefix acc s t v :
  digits_value acc (s +:+ t) = Some v → is_Some (digits_value acc s).
Proof.
  revert acc. induction s as [|a s IH]; intros acc; [by eexists|].
  rewrite string_app_cons. simpl. destruct (digit a); [apply IH|done].
Qed.

(** Reading the digits that are there. *)
Lemma nanos_value w s acc v rest :
  digits_value acc s = Some v → (String.length s <= w)%nat →
  (∀ a r, rest = String a r → digit a = None) →
  nanos w acc (s +:+ rest) = (v * 10 ^ Z.of_nat (w - String.length s), rest).
Proof.
  revert w acc. induction s as [|a s IH]; intros w acc Hv Hw Hr.
  - simpl in Hv. injection Hv as ->. rewrite Nat.sub_0_r.
    destruct rest as [|b r]; [done|].
    change ("" +:+ String b r) with (String b r). simpl. by rewrite (Hr b r).
  - rewrite string_app_cons. simpl in *. destruct (digit a) as [d|]; [|done].
    destruct w as [|w]; [lia|]. simpl. apply IH; [done|lia|done].
Qed.

Lemma parse_fraction_spec n rest :
  0 <= n < Second → (∀ a r, rest = String a r → digit a = None ∧ a ≠ "."%char) →
  parse_fraction (fraction 9 n +:+ rest) = (n, rest).
Proof.
  intros Hn Hr. unfold fraction. destruct (n =? 0) eqn:E.
  - apply Z.eqb_eq in E as ->. change ("" +:+ rest) with rest. unfold parse_fraction.
    destruct rest as [|a [|b r]]; [done|done|].
    destruct (Hr a (String b r) eq_refl) as [_ Ha]. by rewrite bool_decide_eq_false_2.
  - apply Z.eqb_neq in E.
    destruct (trim_zeros_spec (pad 9 n)) as [k Hk]. set (t := trim_zeros (pad 9 n)) in *.
    assert (Hlen : String.length (pad 9 n) = 9%nat).
    { apply pad_length; [unfold Second in Hn; simpl; lia|lia]. }
    assert (Hval : digits_value 0 (pad 9 n) = Some n) by (apply pad_value; lia).
    rewrite Hk in Hval, Hlen. rewrite string_length_app, length_zeros in Hlen.
    destruct (digits_value_prefix _ _ _ _ Hval) as [v Hv].
    rewrite (digits_value_app _ _ _ _ Hv), digits_value_zeros_r in Hval. injection Hval as Hn'.
    destruct t as [|b t'] eqn:Et.
    { simpl in Hv. injection Hv as <-. lia. }
    change (("." +:+ String b t') +:+ rest) with (String "." (String b (t' +:+ rest))).
    assert (Hb : is_Some (digit b)).
    { simpl in Hv. destruct (digit b); [by eexists|done]. }
    unfold parse_fraction. rewrite !bool_decide_eq_true_2 by done. cbn [andb].
    change (String b (t' +:+ rest)) with (String b t' +:+ rest).
    rewrite (nanos_value 9 _ _ v) by (try done; try lia; intros a r Hrest; by apply (Hr a r)).
    f_equal. rewrite <-Hn'. do 3 f_equal. lia.
Qed.

(** ** The calendar *)

(** The day of the era gives the year of the era and the day of that year. *)
Lemma yoe_spec doe :
  0 <= doe < 146097 →
  let yoe := (doe - doe / 1460 + doe / 36524 - doe / 146096) / 365 in
  0 <= yoe < 400 ∧ 0 <= doe - (365 * yoe + yoe / 4 - yoe / 100) < 366.
Proof. intros H yoe. unfold yoe. Z.to_euclidean_division_equations; lia. Qed.

(** The last day of a year that is not a leap year is day 364 counted from March. *)
Lemma doy_leap doe :
  0 <= doe < 146097 →
  let yoe := (doe - doe / 1460 + doe / 36524 - doe / 146096) / 365 in
  doe - (365 * yoe + yoe / 4 - yoe / 100) = 365 → leap (yoe + 1) = true.
Proof.
  intros H yoe Hd. unfold leap. pose proof (yoe_spec doe H) as [Hy _]. fold yoe in Hy.
  assert ((yoe + 1) mod 4 = 0 ∧ ((yoe + 1) mod 100 ≠ 0 ∨ (yoe + 1) mod 400 = 0)) as [H4 Hc].
  { unfold yoe in *. Z.to_euclidean_division_equations; lia. }
  apply Z.eqb_eq in H4. rewrite H4. simpl. apply orb_true_iff.
  destruct Hc as [Hc|Hc]; [left; by apply negb_true_iff, Z.eqb_neq|right; by apply Z.eqb_eq].
Qed.

(** Month and day of a day counted from March. *)
Definition month_day (doy : Z) : Z * Z :=
  let mp := (5 * doy + 2) / 153 in
  (if mp <? 10 then mp + 3 else mp - 9, doy - (153 * mp + 2) / 5 + 1).

Definition month_day_ok (doy : Z) : bool :=
  let '(m, d) := month_day doy in
  let mp := if 2 <? m then m - 3 else m + 9 in
  (1 <=? m) && (m <=? 12) && (1 <=? d)
  && (d <=? (if m =? 2 then (if doy =? 365 then 29 else 28) else daysIn m 1))
  && ((153 * mp + 2) / 5 + d - 1 =? doy).

Lemma month_day_all : forallb (λ n, month_day_ok (Z.of_nat n)) (seq 0 366) = true.
Proof. by vm_compute. Qed.

Lemma month_day_spec doy : 0 <= doy < 366 → month_day_ok doy = true.
Proof.
  intros H. pose proof month_day_all as Ha. rewrite forallb_forall in Ha.
  specialize (Ha (Z.to_nat doy)). rewrite Z2Nat.id in Ha by lia. apply Ha, in_seq. lia.
Qed.

Lemma leap_era y e : leap (y + e * 400) = leap y.
Proof.
  unfold leap. replace (e * 400) with (e * 100 * 4) at 1 by lia.
  rewrite Z_mod_plus_full. replace (e * 400) with (e * 4 * 100) at 1 by lia.
  rewrite Z_mod_plus_full. by rewrite Z_mod_plus_full.
Qed.

(** The date of a day is a date, and the day of that date is the day. *)
Lemma civil_spec days :
  let '(y, m, d) := civil_of_days days in
  1 <= m <= 12 ∧ 1 <= d <= daysIn m y ∧ days_of_civil y m d = days.
Proof.
  unfold civil_of_days. set (z := days + 306). set (era := z / 146097). set (doe := z mod 146097).
  assert (Hdoe : 0 <= doe < 146097) by (apply Z.mod_pos_bound; lia).
  assert (Hz : z = era * 146097 + doe) by (unfold era, doe; pose proof (Z.div_mod z 146097); lia).
  pose proof (yoe_spec doe Hdoe) as Hy. pose proof (doy_leap doe Hdoe) as Hl. cbv zeta in Hy, Hl.
  set (yoe := (doe - doe / 1460 + doe / 36524 - doe / 146096) / 365) in *.
  set (doy := doe - (365 * yoe + yoe / 4 - yoe / 100)) in *. destruct Hy as [Hy Hd].
  pose proof (month_day_spec doy Hd) as Hok. unfold month_day_ok, month_day in Hok.
  set (mp := (5 * doy + 2) / 153) in *.
  set (m := if mp <? 10 then mp + 3 else mp - 9) in *.
  set (d := doy - (153 * mp + 2) / 5 + 1) in *.
  repeat (apply andb_true_iff in Hok as [Hok ?]). bool_to_prop.
  set (y := if m <=? 2 then yoe + era * 400 + 1 else yoe + era * 400).
  split; [lia|]. split.
  - split; [lia|]. destruct (m =? 2) eqn:E2.
    + unfold daysIn. rewrite E2. apply Z.eqb_eq in E2.
      unfold y. rewrite (proj2 (Z.leb_le m 2)) by lia.
      replace (yoe + era * 400 + 1) with (yoe + 1 + era * 400) by lia. rewrite leap_era.
      destruct (doy =? 365) eqn:E3; [|destruct (leap (yoe + 1)); clear -H0; lia].
      apply Z.eqb_eq in E3. by rewrite (Hl E3).
    + unfold daysIn in *. rewrite E2 in *. lia.
  - unfold days_of_civil.
    assert (Hy' : (if m <=? 2 then y - 1 else y) = yoe + era * 400).
    { unfold y. destruct (m <=? 2); lia. }
    rewrite Hy', Z_mod_plus_full, Z_div_plus_full, Z.mod_small, Z.div_small by lia.
    unfold doy in *. lia.
Qed.

(** ** The round trip *)

Lemma expect_app c s : expect c (String c "" +:+ s) = Some s.
Proof. simpl. by rewrite bool_decide_eq_true_2. Qed.

Lemma daysIn_range m y : 28 <= daysIn m y <= 31.
Proof. unfold daysIn. repeat case_match; lia. Qed.

(** A time of the years 0 to 9999 is read back from the text [encoding/json] writes. *)
Lemma ParseRFC3339_format t :
  0 <= year t <= 9999 → ParseRFC3339 (FormatRFC3339Nano t) = Some t.
Proof.
  intros Hyear. unfold FormatRFC3339Nano, format_seconds. unfold year in Hyear.
  pose proof (civil_spec (t / nanoseconds_per_day)) as Hc.
  destruct (civil_of_days (t / nanoseconds_per_day)) as [[y m] d]. cbn [fst] in Hyear.
  destruct Hc as (Hm & Hd & Hdays). pose proof (daysIn_range m y) as Hr.
  set (s := (t mod nanoseconds_per_day) / Second).
  assert (Hs : 0 <= s < 86400).
  { unfold s, nanoseconds_per_day, Second. pose proof (Z.mod_pos_bound t (86400 * 1000000000)).
    split; [apply Z.div_pos; lia|apply Z.div_lt_upper_bound; lia]. }
  assert (Hh : 0 <= s / 3600 < 24).
  { split; [apply Z.div_pos; lia|apply Z.div_lt_upper_bound; lia]. }
  assert (Hmi : 0 <= s / 60 mod 60 < 60) by (apply Z.mod_pos_bound; lia).
  assert (Hse : 0 <= s mod 60 < 60) by (apply Z.mod_pos_bound; lia).
  rewrite <-!string_app_assoc. unfold ParseRFC3339.
  repeat (rewrite field_pad by (simpl; lia); cbv beta iota; rewrite expect_app; cbv beta iota).
  rewrite field_pad by (simpl; lia). cbv beta iota.
  rewrite parse_fraction_spec.
  2: { unfold Second. apply Z.mod_pos_bound. lia. }
  2: { by intros a r [= <- <-]. }
  cbv beta iota. unfold parse_zone. rewrite bool_decide_eq_true_2 by done. f_equal.
  rewrite Hdays, Z.sub_0_r.
  assert (Hsplit : s / 3600 * 3600 + (s / 60) mod 60 * 60 + s mod 60 = s)
    by (Z.to_euclidean_division_equations; lia).
  rewrite Hsplit. unfold s.
  pose proof (Z.div_mod t nanoseconds_per_day ltac:(done)) as Ht.
  set (q := t / nanoseconds_per_day) in *. set (r := t mod nanoseconds_per_day) in *.
  assert (Hr' : t mod Second = r mod Second).
  { rewrite Ht. replace (nanoseconds_per_day * q + r) with (r + q * 86400 * Second)
      by (unfold nanoseconds_per_day; lia). by rewrite Z_mod_plus_full. }
  rewrite Hr'. pose proof (Z.div_mod r Second ltac:(done)). lia.
Qed.

End TimeText.
