(* ===== verification/SQL.v ===== *)
(** * The SQL the store sends

    This file has the syntax of the statements the sources send (insert with or without
    [ON CONFLICT], update, delete, select), the text each one is written as, and their
    meaning on tables as the language documents it ([exec], [query]): columns with their
    types, [NOT NULL] and defaults, primary keys, references with [ON DELETE CASCADE], all
    or nothing for a statement that fails.

    The server itself is not part of the sources and is a parameter ([Postgres]): what it
    does with a statement, how it rounds a time to microseconds, and the normal form of a
    JSON document.  It is relied on only in that a statement that fits the schema, with
    arguments it can store, has the documented meaning, and that one with other arguments
    is refused.  The order in which it scans a table is [range]'s.

    A client is a program of statements ([prog]); between two of them other clients may
    change the tables, and an answer may be lost. *)

From S2P Require Import Prelude GoStrings GoTime.

Module SQL.

(** ** Values and tables *)

Inductive value :=
| Null
| Text (s : string)
| Int (n : Z)
| Timestamptz (t : Time)
| Jsonb (s : string).

#[export] Instance value_eq_dec : EqDecision value.
Proof. solve_decision. Defined.

Inductive coltype := TEXT | TIMESTAMPTZ | BIGINT | INTEGER | JSONB.

#[export] Instance coltype_eq_dec : EqDecision coltype.
Proof. solve_decision. Defined.

(** [REFERENCES t(id) ON DELETE CASCADE] is the name of [t]. *)
Record column := mkColumn {
  cname : string;
  ctype : coltype;
  cnotnull : bool;
  cdefault : value;
  creferences : option string;
}.

(** The first column is the primary key. *)
Record table_def := mkTable { tname : string; tcolumns : list column }.

Abbreviation schema := (list table_def) (only parsing).

(** A row has a value for each column; a table maps the primary keys to the rows. *)
Abbreviation row := (list (string * value)) (only parsing).
Abbreviation db := (gmap string (gmap string (list (string * value)))) (only parsing).

Fixpoint col (r : row) (c : string) : value :=
  match r with
  | [] => Null
  | (c', v) :: r => if String.eqb c c' then v else col r c
  end.

Fixpoint set_col (r : row) (c : string) (v : value) : row :=
  match r with
  | [] => []
  | (c', v') :: r => if String.eqb c c' then (c', v) :: r else (c', v') :: set_col r c v
  end.

Definition table (σ : db) (name : string) : gmap string row := default ∅ (σ !! name).

(** ** Statements *)

Inductive cmp := Eq | Lt | Le | Ge.

(** [$n] is [Param n]. *)
Inductive expr :=
| Param (n : nat)
| Lit (v : value)
| Col (c : string)
| Plus (a b : expr)
| CaseWhen (op : cmp) (l r a b : expr).

Record cond := Cond { lhs : expr; op : cmp; rhs : expr }.

(** The conflict of an insert is on the primary key. *)
Inductive stmt :=
| Insert (t : string) (cols : list string) (vals : list expr)
    (conflict : option (string * list (string * expr)))
| Update (t : string) (sets : list (string * expr)) (where_ : list cond)
| Delete (t : string) (where_ : list cond).

Inductive target := Columns (cs : list string) | CountStar.

Record select := mkSelect {
  what : target;
  from : string;
  where_ : list cond;
  order_desc : option string;
  limit : option expr;
  offset : option expr;
}.

(** ** Their text *)

Definition print_value (v : value) : string :=
  match v with
  | Null => "NULL"
  | Text s | Jsonb s => "'" +:+ s +:+ "'"
  | Int n => Itoa n
  | Timestamptz t => "'" +:+ FormatRFC3339Nano t +:+ "'"
  end.

Definition print_cmp (o : cmp) : string :=
  match o with Eq => "=" | Lt => "<" | Le => "<=" | Ge => ">=" end.

Fixpoint print_expr (e : expr) : string :=
  match e with
  | Param n => "$" +:+ Itoa (Z.of_nat n)
  | Lit v => print_value v
  | Col c => c
  | Plus a b => print_expr a +:+ " + " +:+ print_expr b
  | CaseWhen o l r a b =>
     "CASE WHEN " +:+ print_expr l +:+ " " +:+ print_cmp o +:+ " " +:+ print_expr r
     +:+ " THEN " +:+ print_expr a +:+ " ELSE " +:+ print_expr b +:+ " END"
  end.

(** Two constants are compared without spaces ([1=1]). *)
Definition print_cond (c : cond) : string :=
  let sp := match lhs c with Lit _ => "" | _ => " " end in
  print_expr (lhs c) +:+ sp +:+ print_cmp (op c) +:+ sp +:+ print_expr (rhs c).

Definition print_where (cs : list cond) : string :=
  match cs with [] => "" | _ => " WHERE " +:+ String.concat " AND " (print_cond <$> cs) end.

Definition print_sets (sets : list (string * expr)) : string :=
  String.concat ", " ((λ s, s.1 +:+ " = " +:+ print_expr s.2) <$> sets).

Definition print_stmt (st : stmt) : string :=
  match st with
  | Insert t cols vals conflict =>
     "INSERT INTO " +:+ t +:+ " (" +:+ String.concat ", " cols +:+ ") VALUES ("
     +:+ String.concat ", " (print_expr <$> vals) +:+ ")"
     +:+ match conflict with
         | None => ""
         | Some (key, sets) =>
            " ON CONFLICT (" +:+ key +:+ ") DO UPDATE SET " +:+ print_sets sets
         end
  | Update t sets cs => "UPDATE " +:+ t +:+ " SET " +:+ print_sets sets +:+ print_where cs
  | Delete t cs => "DELETE FROM " +:+ t +:+ print_where cs
  end.

Definition print_select (q : select) : string :=
  "SELECT " +:+ match what q with Columns cs => String.concat ", " cs | CountStar => "COUNT(*)" end
  +:+ " FROM " +:+ from q +:+ print_where (where_ q)
  +:+ match order_desc q with Some c => " ORDER BY " +:+ c +:+ " DESC" | None => "" end
  +:+ match limit q with Some e => " LIMIT " +:+ print_expr e | None => "" end
  +:+ match offset q with Some e => " OFFSET " +:+ print_expr e | None => "" end.

(** ** Meaning *)

Inductive pg_error :=
| UniqueViolation (t : string)
| ForeignKeyViolation (t c : string)
| NotNullViolation (c : string)
| InvalidText
| OutOfRange
| InvalidJSON
| Driver (err : string).

#[export] Instance pg_error_eq_dec : EqDecision pg_error.
Proof. solve_decision. Defined.

(** How the server keeps values: times to the microsecond, and a document in its normal
    form. *)
Class PostgresValues := {
  micros : Time → Time;
  micros_mono t u : (t <= u)%Z → (micros t <= micros u)%Z;
  micros_idem t : micros (micros t) = micros t;
  micros_close t : (Z.abs (micros t - t) < 1000)%Z;
  jsonb : string → option string;
}.

(** Text is valid UTF-8 without null bytes. *)
Definition text_ok (s : string) : bool :=
  negb (contains_byte (byte_of 0) s) && String.eqb (encode_runes (decode_runes s)) s.

(** Times go from November 24 of year -4713 to the end of year 294276. *)
Definition timestamp_ok (t : Time) : bool :=
  (days_of_civil (-4713) 11 24 * nanoseconds_per_day <=? t)%Z
  && (t <? days_of_civil 294277 1 1 * nanoseconds_per_day)%Z.

(** An argument the server takes, and what it reads. *)
Definition storable `{PostgresValues} (v : value) : bool :=
  match v with
  | Text s => text_ok s
  | Timestamptz t => timestamp_ok (micros t)
  | _ => true
  end.
Definition bound `{PostgresValues} (v : value) : value :=
  match v with Timestamptz t => Timestamptz (micros t) | _ => v end.

Section Server.
Context `{MR : MapRange} `{PV : PostgresValues} (sch : schema).

(** An argument as the server reads it. *)
Definition bind_arg (v : value) : result pg_error value :=
  match v with
  | Text s => if text_ok s then Ok v else Err InvalidText
  | Timestamptz t => if timestamp_ok (micros t) then Ok (Timestamptz (micros t)) else Err OutOfRange
  | _ => Ok v
  end.

Fixpoint bind_args (vs : list value) : result pg_error (list value) :=
  match vs with
  | [] => Ok []
  | v :: vs => let* v' := bind_arg v in let* vs' := bind_args vs in Ok (v' :: vs')
  end.

Definition compare_values (o : cmp) (a b : value) : bool :=
  match a, b with
  | Text s, Text s' => match o with Eq => String.eqb s s' | _ => false end
  | Int n, Int m | Timestamptz n, Timestamptz m =>
     match o with Eq => n =? m | Lt => n <? m | Le => n <=? m | Ge => m <=? n end%Z
  | _, _ => false
  end.

Fixpoint eval (args : list value) (r : row) (e : expr) : value :=
  match e with
  | Param n => nth (n - 1) args Null
  | Lit v => v
  | Col c => col r c
  | Plus a b =>
     match eval args r a, eval args r b with Int n, Int m => Int (n + m) | _, _ => Null end
  | CaseWhen o l r' a b =>
     if compare_values o (eval args r l) (eval args r r') then eval args r a else eval args r b
  end.

Definition holds (args : list value) (cs : list cond) (r : row) : bool :=
  forallb (λ c, compare_values (op c) (eval args r (lhs c)) (eval args r (rhs c))) cs.

(** A value stored in a column. *)
Definition store_value (c : column) (v : value) : result pg_error value :=
  match v with
  | Null => if cnotnull c then Err (NotNullViolation (cname c)) else Ok Null
  | Int n =>
     match ctype c with
     | INTEGER => if (- 2 ^ 31 <=? n)%Z && (n <? 2 ^ 31)%Z then Ok v else Err OutOfRange
     | _ => if bool_decide (in_int64 n) then Ok v else Err OutOfRange
     end
  | Text s =>
     match ctype c with
     | JSONB => match jsonb s with Some s' => Ok (Jsonb s') | None => Err InvalidJSON end
     | _ => Ok v
     end
  | _ => Ok v
  end.

Fixpoint store_row (cs : list column) (r : row) : result pg_error row :=
  match cs, r with
  | c :: cs, (n, v) :: r =>
     let* v' := store_value c v in let* r' := store_row cs r in Ok ((n, v') :: r')
  | _, _ => Ok []
  end.

Definition text_of (v : value) : string := match v with Text s => s | _ => "" end.

(** The references of a row. *)
Fixpoint check_references (t : string) (cs : list column) (r : row) (σ : db) : option pg_error :=
  match cs with
  | [] => None
  | c :: cs =>
     match creferences c with
     | Some parent =>
        match table σ parent !! text_of (col r (cname c)) with
        | Some _ => check_references t cs r σ
        | None => Some (ForeignKeyViolation t (cname c))
        end
     | None => check_references t cs r σ
     end
  end.

Fixpoint lookup_def (sch : schema) (t : string) : list column :=
  match sch with
  | [] => []
  | d :: sch => if String.eqb (tname d) t then tcolumns d else lookup_def sch t
  end.

(** The row an insert proposes: the listed columns, and the defaults of the others. *)
Fixpoint assoc (cols : list string) (vals : list expr) (c : string) : option expr :=
  match cols, vals with
  | c' :: cols, e :: vals => if String.eqb c c' then Some e else assoc cols vals c
  | _, _ => None
  end.
Definition proposed (cs : list column) (cols : list string) (vals : list expr)
    (args : list value) : row :=
  (λ c, (cname c, match assoc cols vals (cname c) with
                  | Some e => eval args [] e
                  | None => cdefault c
                  end)) <$> cs.

(** [SET]: every expression reads the old row. *)
Definition apply_sets (args : list value) (sets : list (string * expr)) (r : row) : row :=
  foldl (λ r' s, set_col r' s.1 (eval args r s.2)) r sets.

(** Change the rows that satisfy a condition, all of them or none. *)
Fixpoint update_rows (cs : list column) (args : list value) (sets : list (string * expr))
    (conds : list cond) (rows : list (string * row)) (acc : gmap string row) (n : Z)
    : result pg_error (Z * gmap string row) :=
  match rows with
  | [] => Ok (n, acc)
  | (k, r) :: rows =>
     if holds args conds r then
       let* r' := store_row cs (apply_sets args sets r) in
       update_rows cs args sets conds rows (<[k := r']> acc) (n + 1)
     else update_rows cs args sets conds rows acc n
  end.

(** The rows of the other tables that refer to deleted rows go with them. *)
Definition references_any (t : string) (gone : gmap string row) (cs : list column) (r : row)
    : bool :=
  existsb (λ c, bool_decide (creferences c = Some t)
                && bool_decide (is_Some (gone !! text_of (col r (cname c))))) cs.
Definition cascade (t : string) (gone : gmap string row) (σ : db) : db :=
  map_imap (λ name rows,
    Some (filter (λ kr, references_any t gone (lookup_def sch name) kr.2 = false) rows)) σ.

Definition exec (st : stmt) (args : list value) (σ : db) : result pg_error (Z * db) :=
  let* args := bind_args args in
  match st with
  | Insert t cols vals conflict =>
     let cs := lookup_def sch t in
     let* r := store_row cs (proposed cs cols vals args) in
     let key := match r with (_, v) :: _ => text_of v | [] => "" end in
     match table σ t !! key with
     | Some old =>
        match conflict with
        | None => Err (UniqueViolation t)
        | Some (_, sets) =>
           let* r' := store_row cs (apply_sets args sets old) in
           Ok (1%Z, <[t := <[key := r']> (table σ t)]> σ)
        end
     | None =>
        match check_references t cs r σ with
        | Some err => Err err
        | None => Ok (1%Z, <[t := <[key := r]> (table σ t)]> σ)
        end
     end
  | Update t sets conds =>
     let* '(n, rows) := update_rows (lookup_def sch t) args sets conds
                          (range (table σ t)) (table σ t) 0 in
     Ok (n, <[t := rows]> σ)
  | Delete t conds =>
     let gone := filter (λ kr, holds args conds kr.2 = true) (table σ t) in
     let kept := filter (λ kr, holds args conds kr.2 = false) (table σ t) in
     Ok (Z.of_nat (size gone), cascade t gone (<[t := kept]> σ))
  end.

Definition time_of (v : value) : Z := match v with Timestamptz t => t | _ => 0%Z end.
Definition count_of (v : value) : nat := match v with Int n => Z.to_nat n | _ => 0 end.

Definition query (q : select) (args : list value) (σ : db)
    : result pg_error (list (list value)) :=
  let* args := bind_args args in
  let rows := filter (λ r, holds args (where_ q) r = true) (range (table σ (from q))).*2 in
  let rows := match order_desc q with
              | Some c => sort_by (λ r, - time_of (col r c))%Z rows
              | None => rows
              end in
  let rows := match offset q with
              | Some e => drop (count_of (eval args [] e)) rows
              | None => rows
              end in
  let rows := match limit q with
              | Some e => take (count_of (eval args [] e)) rows
              | None => rows
              end in
  match what q with
  | Columns cs => Ok ((λ r, col r <$> cs) <$> rows)
  | CountStar => Ok [[Int (Z.of_nat (length rows))]]
  end.

End Server.

(** ** Statements that fit a schema *)

Section Fits.
Context (sch : schema) (args : list value).

Definition fits (ty : coltype) (v : value) : bool :=
  match v, ty with
  | Null, _ | Text _, (TEXT | JSONB) | Jsonb _, JSONB | Int _, (BIGINT | INTEGER)
  | Timestamptz _, TIMESTAMPTZ => true
  | _, _ => false
  end.

Fixpoint lookup_column (cs : list column) (c : string) : option column :=
  match cs with
  | [] => None
  | d :: cs => if String.eqb (cname d) c then Some d else lookup_column cs c
  end.

(** Texts are only compared for equality, and documents not at all. *)
Definition comparable (ty : coltype) (o : cmp) : bool :=
  match ty, o with TEXT, Eq | TIMESTAMPTZ, _ | BIGINT, _ | INTEGER, _ => true | _, _ => false end.

Fixpoint expr_fits (cs : list column) (ty : coltype) (e : expr) : bool :=
  match e with
  | Param n => match n, nth_error args (n - 1) with S _, Some v => fits ty v | _, _ => false end
  | Lit v => fits ty v
  | Col c => match lookup_column cs c with Some d => bool_decide (ctype d = ty) | None => false end
  | Plus a b =>
     bool_decide (ty = BIGINT ∨ ty = INTEGER) && expr_fits cs ty a && expr_fits cs ty b
  | CaseWhen o l r a b =>
     existsb (λ ty', comparable ty' o && expr_fits cs ty' l && expr_fits cs ty' r)
       [TEXT; TIMESTAMPTZ; BIGINT; INTEGER]
     && expr_fits cs ty a && expr_fits cs ty b
  end.

Definition conds_fit (cs : list column) (conds : list cond) : bool :=
  forallb (λ c, existsb (λ ty, comparable ty (op c) && expr_fits cs ty (lhs c)
                               && expr_fits cs ty (rhs c))
                  [TEXT; TIMESTAMPTZ; BIGINT; INTEGER]) conds.

(** A statement changes neither the key of a row nor what the row refers to. *)
Definition sets_fit (cs : list column) (sets : list (string * expr)) : bool :=
  forallb (λ s, match lookup_column cs s.1 with
                | Some d => bool_decide (creferences d = None)
                            && negb (bool_decide (Some s.1 = cname <$> head cs))
                            && expr_fits cs (ctype d) s.2
                | None => false
                end) sets.

Definition refers_to (t : string) (d : table_def) : bool :=
  existsb (λ c, bool_decide (creferences c = Some t)) (tcolumns d).

Definition stmt_fits (st : stmt) : bool :=
  match st with
  | Insert t cols vals conflict =>
     let cs := lookup_def sch t in
     Nat.eqb (length cols) (length vals)
     && forallb (λ ce, match lookup_column cs ce.1 with
                       | Some d => expr_fits [] (ctype d) ce.2
                       | None => false
                       end) (zip cols vals)
     && match conflict with
        | None => true
        | Some (key, sets) => bool_decide (Some key = cname <$> head cs) && sets_fit cs sets
        end
  | Update t sets conds => sets_fit (lookup_def sch t) sets && conds_fit (lookup_def sch t) conds
  | Delete t conds =>
     (* what a deletion takes along is not referred to in turn *)
     conds_fit (lookup_def sch t) conds
     && forallb (λ d, negb (refers_to t d) || negb (existsb (refers_to (tname d)) sch)) sch
  end.

(** The number of a [LIMIT] or [OFFSET]. *)
Definition number_fits (e : option expr) : bool :=
  match e with
  | None => true
  | Some (Param (S n)) => match nth_error args n with Some (Int k) => (0 <=? k)%Z | _ => false end
  | Some _ => false
  end.

Definition select_fits (q : select) : bool :=
  let cs := lookup_def sch (from q) in
  match what q with
  | Columns l => forallb (λ c, bool_decide (is_Some (lookup_column cs c))) l
  | CountStar => true
  end
  && conds_fit cs (where_ q)
  && match order_desc q with
     | None => true
     | Some c => match lookup_column cs c with
                 | Some d => bool_decide (ctype d = TIMESTAMPTZ) && cnotnull d
                 | None => false
                 end
     end
  && number_fits (limit q) && number_fits (offset q).

End Fits.

(** ** The server *)

Class Postgres := {
  pg_values :: PostgresValues;
  pg_exec `{MapRange} : schema → stmt → list value → db → result pg_error (Z * db);
  pg_query `{MapRange} : schema → select → list value → db → result pg_error (list (list value));
  exec_documented `{MapRange} sch st args σ :
    stmt_fits sch args st = true → forallb storable args = true →
    pg_exec sch st args σ = exec sch st args σ;
  query_documented `{MapRange} sch q args σ :
    select_fits sch args q = true → forallb storable args = true →
    pg_query sch q args σ = query q args σ;
  exec_refused `{MapRange} sch st args σ :
    forallb storable args = false → ∃ e, pg_exec sch st args σ = Err e;
  query_refused `{MapRange} sch q args σ :
    forallb storable args = false → ∃ e, pg_query sch q args σ = Err e;
}.

(** ** Programs of statements *)

(** The rows of an answer may end in an error. *)
Definition answer : Type := result pg_error (list (list value) * option pg_error).

Inductive prog (A : Type) :=
| Ret (a : A)
| Exec (st : stmt) (args : list value) (k : result pg_error Z → prog A)
| Query (q : select) (args : list value) (k : answer → prog A).
Arguments Ret {A}.
Arguments Exec {A}.
Arguments Query {A}.

Fixpoint bind {A B} (p : prog A) (f : A → prog B) : prog B :=
  match p with
  | Ret a => f a
  | Exec st args k => Exec st args (λ r, bind (k r) f)
  | Query q args k => Query q args (λ r, bind (k r) f)
  end.

(** What happens at a statement: other clients have changed the tables since the last
    one, and then it is answered, never reaches the server, is executed without an
    answer, or its rows are cut short. *)
Inductive verdict := Answered | Unsent (err : string) | Unheard (err : string)
  | Cut (n : nat) (err : string).
Record event := mkEvent { others : db → db; outcome : verdict }.

Definition quiet : event := mkEvent id Answered.

Section Run.
Context `{MR : MapRange} `{PG : Postgres} (sch : schema).

Definition exec_under (v : verdict) (st : stmt) (args : list value) (σ : db)
    : result pg_error Z * db :=
  match v with
  | Unsent err => (Err (Driver err), σ)
  | _ =>
     match pg_exec sch st args σ with
     | Err err => (Err err, σ)
     | Ok (n, σ') =>
        (match v with Answered => Ok n | Unsent err | Unheard err | Cut _ err => Err (Driver err) end,
         σ')
     end
  end.

Definition query_under (v : verdict) (q : select) (args : list value) (σ : db) : answer :=
  match v with
  | Unsent err | Unheard err => Err (Driver err)
  | Answered => let* rows := pg_query sch q args σ in Ok (rows, None)
  | Cut n err => let* rows := pg_query sch q args σ in Ok (take n rows, Some (Driver err))
  end.

(** One event per statement; after the last event the program is alone and answered. *)
Fixpoint run {A} (p : prog A) (es : list event) (σ : db) : A * db :=
  match p with
  | Ret a => (a, σ)
  | Exec st args k =>
     let e := hd quiet es in
     let '(r, σ') := exec_under (outcome e) st args (others e σ) in
     run (k r) (tl es) σ'
  | Query q args k =>
     let e := hd quiet es in
     let σ' := others e σ in
     run (k (query_under (outcome e) q args σ')) (tl es) σ'
  end.

End Run.

(** ** Arguments *)

Lemma bind_args_ok `{PostgresValues} vs :
  forallb storable vs = true → bind_args vs = Ok (bound <$> vs).
Proof.
  induction vs as [|v vs IH]; [done|]. simpl. intros [Hv Hvs]%andb_true_iff.
  rewrite (IH Hvs). destruct v; simpl in *; by rewrite ?Hv.
Qed.

Lemma bind_args_err `{PostgresValues} vs :
  forallb storable vs = false → ∃ e, bind_args vs = Err e.
Proof.
  induction vs as [|v vs IH]; [done|]. simpl. intros Hv.
  destruct (bind_arg v) as [v'|e] eqn:E; [|by eexists].
  destruct (storable v) eqn:Hs.
  - destruct (IH Hv) as [e ->]. by eexists.
  - destruct v; simpl in *; try done; by rewrite Hs in E.
Qed.

(** A server that rounds to the nearest microsecond and keeps documents as they are. *)
Definition nearest_values : PostgresValues.
Proof.
  refine {| micros t := ((t + 500) / 1000 * 1000)%Z; jsonb := Some |}.
  - intros t u H. assert ((t + 500) / 1000 <= (u + 500) / 1000)%Z by (apply Z.div_le_mono; lia). lia.
  - intros t. rewrite (Z.add_comm _ 500), Z.div_add by lia. simpl. done.
  - intros t. Z.to_euclidean_division_equations. lia.
Defined.

#[export] Instance nearest_microsecond : Postgres | 100.
Proof.
  refine {| pg_values := nearest_values;
            pg_exec MR := @exec MR nearest_values;
            pg_query MR := λ _, @query MR nearest_values |}; try done.
  - intros MR sch st args σ Hs. destruct (bind_args_err args Hs) as [e He]. exists e.
    unfold exec. by rewrite He.
  - intros MR sch q args σ Hs. destruct (bind_args_err args Hs) as [e He]. exists e.
    unfold query. by rewrite He.
Defined.

(** Arguments that are storable by hypothesis. *)
Ltac solve_storable :=
  cbn -[text_ok timestamp_ok micros];
  repeat match goal with H : ?b = true |- context [?b] => rewrite H end; try done.

(** ** Statements that are answered *)

Section Answered.
Context `{MR : MapRange} `{PG : Postgres} (sch : schema).

Lemma run_exec {A} st args (k : result pg_error Z → prog A) σ :
  stmt_fits sch args st = true → forallb storable args = true →
  run sch (Exec st args k) [] σ
  = match exec sch st args σ with
    | Ok (n, σ') => run sch (k (Ok n)) [] σ'
    | Err e => run sch (k (Err e)) [] σ
    end.
Proof.
  intros Hf Hs. simpl. rewrite exec_documented by done.
  by destruct (exec sch st args σ) as [[n σ']|e].
Qed.

Lemma run_query {A} q args (k : answer → prog A) σ :
  select_fits sch args q = true → forallb storable args = true →
  run sch (Query q args k) [] σ
  = run sch (k (let* rows := query q args σ in Ok (rows, None))) [] σ.
Proof. intros Hf Hs. simpl. by rewrite query_documented. Qed.

(** Others act first. *)
Lemma run_exec_event {A} st args (k : result pg_error Z → prog A) f es σ :
  run sch (Exec st args k) (mkEvent f Answered :: es) σ
  = match pg_exec sch st args (f σ) with
    | Ok (n, σ') => run sch (k (Ok n)) es σ'
    | Err e => run sch (k (Err e)) es (f σ)
    end.
Proof. simpl. by destruct (pg_exec sch st args (f σ)) as [[n σ']|e]. Qed.

Lemma run_query_event {A} q args (k : answer → prog A) f σ :
  run sch (Query q args k) [mkEvent f Answered] σ = run sch (Query q args k) [] (f σ).
Proof. done. Qed.

Definition key_of (r : row) : string := match r with (_, v) :: _ => text_of v | [] => "" end.

Lemma exec_insert t cols vals conflict args σ r :
  forallb storable args = true →
  store_row (lookup_def sch t) (proposed (lookup_def sch t) cols vals (bound <$> args)) = Ok r →
  exec sch (Insert t cols vals conflict) args σ
  = match table σ t !! key_of r with
    | Some old =>
       match conflict with
       | None => Err (UniqueViolation t)
       | Some (_, sets) =>
          let* r' := store_row (lookup_def sch t) (apply_sets (bound <$> args) sets old) in
          Ok (1%Z, <[t := <[key_of r := r']> (table σ t)]> σ)
       end
    | None =>
       match check_references t (lookup_def sch t) r σ with
       | Some err => Err err
       | None => Ok (1%Z, <[t := <[key_of r := r]> (table σ t)]> σ)
       end
    end.
Proof. intros Hs Hr. unfold exec. rewrite bind_args_ok by done. cbv beta iota zeta. by rewrite Hr. Qed.

Lemma exec_update t sets conds args σ :
  forallb storable args = true →
  exec sch (Update t sets conds) args σ
  = let* nr := update_rows (lookup_def sch t) (bound <$> args) sets conds
                 (range (table σ t)) (table σ t) 0 in
    Ok (nr.1, <[t := nr.2]> σ).
Proof.
  intros Hs. unfold exec. rewrite bind_args_ok by done. cbv beta iota zeta.
  by destruct (update_rows _ _ _ _ _ _ _) as [[]|].
Qed.

Lemma exec_delete t conds args σ :
  forallb storable args = true →
  exec sch (Delete t conds) args σ
  = let gone := filter (λ kr, holds (bound <$> args) conds kr.2 = true) (table σ t) in
    let kept := filter (λ kr, holds (bound <$> args) conds kr.2 = false) (table σ t) in
    Ok (Z.of_nat (size gone), cascade sch t gone (<[t := kept]> σ)).
Proof. intros Hs. unfold exec. by rewrite bind_args_ok. Qed.

(** A statement with an argument the server does not take changes nothing. *)
Lemma exec_unstorable st args σ :
  forallb storable args = false → ∃ e, run sch (Exec st args Ret) [] σ = (Err e, σ).
Proof. intros Hs. destruct (exec_refused sch st args σ Hs) as [e He]. exists e. simpl. by rewrite He. Qed.

End Answered.

(** ** Tables whose rows stand for values of a type *)

Section Typed.
Context `{MR : MapRange} {X : Type} (rep : row → X → Prop).
Implicit Types (tbl : gmap string row) (m : gmap string X).

Definition typed tbl m : Prop := ∀ k, option_Forall2 rep (tbl !! k) (m !! k).

Lemma typed_empty : typed ∅ ∅.
Proof. intros k. rewrite !lookup_empty. constructor. Qed.

Lemma typed_Some tbl m k r : typed tbl m → tbl !! k = Some r → ∃ x, m !! k = Some x ∧ rep r x.
Proof. intros H Hr. specialize (H k). rewrite Hr in H. inversion H; eauto. Qed.

Lemma typed_Some_r tbl m k x : typed tbl m → m !! k = Some x → ∃ r, tbl !! k = Some r ∧ rep r x.
Proof. intros H Hr. specialize (H k). rewrite Hr in H. inversion H; eauto. Qed.

Lemma typed_None tbl m k : typed tbl m → tbl !! k = None ↔ m !! k = None.
Proof.
  intros H. specialize (H k). split; intros E; rewrite E in H; by inversion H.
Qed.

Lemma typed_insert tbl m k r x :
  typed tbl m → rep r x → typed (<[k := r]> tbl) (<[k := x]> m).
Proof.
  intros H Hr j. destruct (decide (k = j)) as [->|Hj].
  - rewrite !lookup_insert_eq. by constructor.
  - rewrite !lookup_insert_ne by done. apply H.
Qed.

Lemma typed_filter tbl m (f : row → bool) (g : X → bool) (b : bool) :
  typed tbl m → (∀ k r x, tbl !! k = Some r → m !! k = Some x → rep r x → f r = g x) →
  typed (filter (λ kr, f kr.2 = b) tbl) (filter (λ kx, g kx.2 = b) m).
Proof.
  intros H Hfg k. rewrite !map_lookup_filter. pose proof (H k) as Hk.
  destruct (tbl !! k) as [r|] eqn:Er, (m !! k) as [x|] eqn:Ex; inversion Hk; simpl; [|constructor].
  rewrite (Hfg k r x) by done. case_guard; simpl; by constructor.
Qed.

Lemma typed_size tbl m : typed tbl m → size tbl = size m.
Proof.
  intros H. rewrite <-!size_dom. f_equal. apply set_eq. intros k. rewrite !elem_of_dom.
  specialize (H k). split; intros [y Hy]; rewrite Hy in H; inversion H; eauto.
Qed.

(** An update of the rows that satisfy a condition. *)
Definition update_where (g : X → bool) (h : X → X) (m : gmap string X) : gmap string X :=
  (λ x, if g x then h x else x) <$> m.

Context `{PG : Postgres}.

(** What is known of a table in the middle of an update: the rows still to visit are the
    old ones, the others are done. *)
Definition half_done (done_ : gmap string X) tbl (l : list (string * row)) (acc : gmap string row)
    : Prop :=
  (∀ k r, (k, r) ∈ l → tbl !! k = Some r ∧ acc !! k = Some r)
  ∧ ∀ k, k ∉ l.*1 → option_Forall2 rep (acc !! k) (done_ !! k).

Lemma half_done_next d tbl k r l acc acc' :
  half_done d tbl ((k, r) :: l) acc → k ∉ l.*1 →
  (∀ j, j ≠ k → acc' !! j = acc !! j) → option_Forall2 rep (acc' !! k) (d !! k) →
  half_done d tbl l acc'.
Proof.
  intros [Hl Hd] Hk Hacc Hnew. split.
  - intros j r' Hj. destruct (Hl j r') as [? Ha]; [by right|]. split; [done|].
    rewrite Hacc; [done|]. intros ->. apply Hk, list_elem_of_fmap. by exists (k, r').
  - intros j Hj. destruct (decide (j = k)) as [->|Hne]; [done|]. rewrite Hacc by done.
    apply Hd. simpl. rewrite elem_of_cons. by intros [|].
Qed.

Lemma update_rows_loop cs args sets conds g h tbl m :
  typed tbl m →
  (∀ r x, rep r x → holds args conds r = g x) →
  (∀ r x, rep r x → g x = true →
     ∃ r', store_row cs (apply_sets args sets r) = Ok r' ∧ rep r' (h x)) →
  ∀ l acc n, NoDup l.*1 → half_done (update_where g h m) tbl l acc →
  ∃ tbl', update_rows cs args sets conds l acc n
     = Ok (n + Z.of_nat (length (filter (λ kr, holds args conds kr.2 = true) l)), tbl')%Z
     ∧ typed tbl' (update_where g h m).
Proof.
  intros Ht Hg Hh l. induction l as [|[k r] l IH]; intros acc n Hnd Hhalf.
  { exists acc. simpl. split; [do 2 f_equal; lia|]. intros k. apply Hhalf. apply not_elem_of_nil. }
  simpl in Hnd. apply NoDup_cons in Hnd as [Hk Hnd].
  destruct (proj1 Hhalf k r) as [Hr Hacc]; [left|].
  destruct (typed_Some _ _ _ _ Ht Hr) as (x & Hx & Hrep). pose proof (Hg _ _ Hrep) as Hgr.
  assert (Hlook : update_where g h m !! k = Some (if g x then h x else x)).
  { unfold update_where. by rewrite lookup_fmap, Hx. }
  simpl update_rows. rewrite filter_cons. simpl. destruct (holds args conds r) eqn:Eh.
  - destruct (Hh _ _ Hrep (eq_sym Hgr)) as (r' & Hs & Hr'). rewrite Hs, decide_True by done.
    destruct (IH (<[k:=r']> acc) (n + 1)%Z Hnd) as (tbl' & E & Ht').
    { eapply half_done_next; [done|done|intros j Hj; by rewrite lookup_insert_ne|].
      rewrite lookup_insert_eq, Hlook, <-Hgr. by constructor. }
    exists tbl'. split; [|done]. rewrite E. do 2 f_equal. simpl. lia.
  - rewrite decide_False by done. apply IH; [done|].
    eapply half_done_next; [done..|]. rewrite Hacc, Hlook, <-Hgr. by constructor.
Qed.

Lemma filter_snd {V} (f : V → bool) (l : list (string * V)) :
  filter (λ v, f v = true) l.*2 = (filter (λ kv, f kv.2 = true) l).*2.
Proof.
  induction l as [|kv l IH]; [done|]. csimpl. rewrite !filter_cons.
  case_decide; csimpl; by rewrite IH.
Qed.

Lemma filter_range_perm {V} (P : string * V → Prop) `{∀ kr, Decision (P kr)} (tbl : gmap string V) :
  filter P (range tbl) ≡ₚ map_to_list (filter P tbl).
Proof.
  rewrite range_perm, map_filter_alt, map_to_list_to_map; [done|].
  eapply (sublist_NoDup _ (map_to_list tbl).*1); [apply NoDup_fst_map_to_list|].
  apply fmap_sublist, sublist_filter.
Qed.

Lemma update_rows_spec cs args sets conds g h tbl m :
  typed tbl m →
  (∀ r x, rep r x → holds args conds r = g x) →
  (∀ r x, rep r x → g x = true →
     ∃ r', store_row cs (apply_sets args sets r) = Ok r' ∧ rep r' (h x)) →
  ∃ tbl', update_rows cs args sets conds (range tbl) tbl 0
          = Ok (Z.of_nat (size (filter (λ kx, g kx.2 = true) m)), tbl')
    ∧ typed tbl' (update_where g h m).
Proof.
  intros Ht Hg Hh.
  destruct (update_rows_loop cs args sets conds g h tbl m Ht Hg Hh (range tbl) tbl 0)
    as (tbl' & E & Ht').
  - apply NoDup_range_keys.
  - split; [intros k r Hr; apply elem_of_range in Hr; done|].
    intros k Hk. unfold update_where. rewrite lookup_fmap.
    assert (tbl !! k = None) as Hn.
    { apply eq_None_not_Some. intros [r Hr]. apply Hk, list_elem_of_fmap.
      exists (k, r). split; [done|by apply elem_of_range]. }
    rewrite Hn. apply (typed_None _ _ _ Ht) in Hn as ->. constructor.
  - exists tbl'. split; [|done]. rewrite E, Z.add_0_l, filter_range_perm, length_map_to_list.
    do 3 f_equal. apply typed_size, typed_filter; eauto.
Qed.

(** The rows a query reads, when [dec] decodes them. *)
Context (dec : row → X) (rep_dec : ∀ r x, rep r x → dec r = x).

Lemma typed_dec tbl m : typed tbl m → m = dec <$> tbl.
Proof.
  intros H. apply map_eq. intros k. rewrite lookup_fmap. specialize (H k).
  destruct H as [r x Hr|]; [|done]. simpl. by rewrite (rep_dec _ _ Hr).
Qed.

Lemma typed_rows tbl m args cs (g : X → bool) :
  typed tbl m → (∀ r x, rep r x → holds args cs r = g x) →
  let rows := filter (λ r, holds args cs r = true) (range tbl).*2 in
  dec <$> rows ≡ₚ filter (λ x, g x = true) (map_to_list m).*2
  ∧ Forall (λ r, rep r (dec r)) rows.
Proof.
  intros H Hg rows.
  assert (Hall : Forall (λ r, rep r (dec r)) (range tbl).*2).
  { apply Forall_forall. intros r [[k r'] [-> Hr]]%list_elem_of_fmap.
    apply elem_of_range in Hr. destruct (typed_Some _ _ _ _ H Hr) as (x & _ & Hx).
    simpl. by rewrite (rep_dec _ _ Hx). }
  split.
  - assert (Hdec : dec <$> rows = filter (λ x, g x = true) (dec <$> (range tbl).*2)).
    { unfold rows. clear rows. induction Hall as [|r l Hr _ IH]; [done|].
      rewrite fmap_cons, !filter_cons, (Hg _ _ Hr). case_decide; csimpl; by rewrite IH. }
    rewrite Hdec. apply filter_Permutation. rewrite (typed_dec _ _ H).
    rewrite map_to_list_fmap, range_perm, <-!list_fmap_compose. done.
  - unfold rows. clear rows. induction Hall as [|r l Hr _ IH]; [constructor|].
    rewrite filter_cons. case_decide; [by constructor|done].
Qed.

Lemma typed_sorted (key : row → Z) (key' : X → Z) rows :
  Forall (λ r, rep r (dec r)) rows → (∀ r x, rep r x → key r = key' x) →
  StronglySorted (key_le key') (dec <$> sort_by key rows)
  ∧ Forall (λ r, rep r (dec r)) (sort_by key rows).
Proof.
  intros Hall Hkey. assert (Hall' : Forall (λ r, rep r (dec r)) (sort_by key rows)).
  { by rewrite sort_by_perm. }
  split; [|done]. pose proof (sort_by_sorted key rows) as Hs. revert Hall'.
  induction Hs as [|r l _ IH Hr]; intros Hall'; [constructor|].
  inversion_clear Hall' as [|? ? Hd Hl]. csimpl. constructor; [by apply IH|].
  clear IH. induction Hr as [|r' l Hle _ IH]; [constructor|].
  inversion_clear Hl as [|? ? Hd' Hl']. csimpl. constructor; [|by apply IH].
  unfold key_le in *. by rewrite <-(Hkey _ _ Hd), <-(Hkey _ _ Hd').
Qed.

End Typed.

End SQL.
