(* ===== verification/PostgresStore.v ===== *)
(** * The PostgreSQL store ([internal/store/postgres.go])

    The schema, the statements and the operations of [PostgresStore].  An operation is a
    program of statements ([SQL.prog]); the values of a [JSONMap] are opaque, so how
    they are written and read is an input ([JSONMaps]).  [uuid] and the times are the
    results of [uuid.New().String()] and of the calls of [time.Now], in order. *)

From S2P Require Import Prelude GoStrings GoTime MemoryStore SQL.

Module PostgresStore.
Import SQL MemoryStore.

(** ** The schema *)

Definition required (name : string) (t : coltype) : column := mkColumn name t true Null None.
Definition optional (name : string) (t : coltype) : column := mkColumn name t false Null None.
Definition defaulted (name : string) (t : coltype) (v : value) : column :=
  mkColumn name t true v None.

Definition empty_document : value := Jsonb "{}".

Definition postgresSchema : list table_def :=
  [ mkTable "sessions"
      [ required "id" TEXT; required "username" TEXT; required "role" TEXT;
        optional "remote_addr" TEXT; required "created_at" TIMESTAMPTZ;
        required "last_active" TIMESTAMPTZ; optional "closed_at" TIMESTAMPTZ;
        required "status" TEXT; defaulted "metadata" JSONB empty_document ];
    mkTable "tunnels"
      [ required "id" TEXT; mkColumn "session_id" TEXT true Null (Some "sessions");
        required "type" TEXT; optional "local_addr" TEXT; optional "remote_addr" TEXT;
        required "created_at" TIMESTAMPTZ; optional "closed_at" TIMESTAMPTZ;
        defaulted "bytes_sent" BIGINT (Int 0); defaulted "bytes_recv" BIGINT (Int 0);
        required "status" TEXT; defaulted "metadata" JSONB empty_document ];
    mkTable "audit_log"
      [ required "id" TEXT; required "timestamp" TIMESTAMPTZ; optional "correlation_id" TEXT;
        optional "trace_id" TEXT; required "action" TEXT; optional "username" TEXT;
        optional "role" TEXT; optional "resource" TEXT; optional "result" TEXT;
        defaulted "details" JSONB empty_document; optional "source_ip" TEXT ];
    mkTable "rate_limits"
      [ required "name" TEXT; defaulted "count" INTEGER (Int 0);
        required "first_at" TIMESTAMPTZ; optional "locked_until" TIMESTAMPTZ ] ].

(** [CREATE TABLE IF NOT EXISTS] leaves an existing table as it is. *)
Definition create_tables (σ : db) : db :=
  foldl (λ σ d, <[tname d := table σ (tname d)]> σ) σ postgresSchema.

(** ** Documents and errors *)

(** [json.Marshal] of a [JSONMap], and what [json.Unmarshal] leaves in an empty one. *)
Class JSONMaps := {
  marshal_map : gmap string nat → result string string;
  unmarshal_map : string → JSONMap;
}.

Inductive error :=
| NotFound
| PgError (e : pg_error)
| ScanError (i : nat)
| JSONError (e : string)
| NoRows.

#[export] Instance error_eq_dec : EqDecision error.
Proof. solve_decision. Defined.

(** [translatePostgresError] *)
Definition translatePostgresError (err : option error) : option error :=
  match err with None => None | Some err => Some err end.

(** [requireRowsAffected] *)
Definition requireRowsAffected (n : Z) : option error :=
  if (n =? 0)%Z then Some NotFound else None.

(** The error of a statement whose count is checked. *)
Definition affected (r : result pg_error Z) : option error :=
  match r with Err e => Some (PgError e) | Ok n => requireRowsAffected n end.
Definition sent (r : result pg_error Z) : option error :=
  match r with Err e => Some (PgError e) | Ok _ => None end.

(** ** Scanning a row *)

Definition scan_string (i : nat) (v : value) : result error string :=
  match v with Text s => Ok s | _ => Err (ScanError i) end.
Definition scan_time (i : nat) (v : value) : result error Time :=
  match v with Timestamptz t => Ok t | _ => Err (ScanError i) end.
Definition scan_time_ptr (i : nat) (v : value) : result error (option Time) :=
  match v with Null => Ok None | Timestamptz t => Ok (Some t) | _ => Err (ScanError i) end.
Definition scan_int (i : nat) (v : value) : result error Z :=
  match v with Int n => Ok n | _ => Err (ScanError i) end.
(** A [[]byte] takes a null too. *)
Definition scan_bytes (i : nat) (v : value) : result error string :=
  match v with Jsonb s | Text s => Ok s | Null => Ok "" | _ => Err (ScanError i) end.

(** [QueryRowx(...).Scan] and [Get]: the first row, if there is one. *)
Definition first_row (a : answer) : result error (list value) :=
  match a with
  | Err e => Err (PgError e)
  | Ok (r :: _, _) => Ok r
  | Ok ([], Some e) => Err (PgError e)
  | Ok ([], None) => Err NoRows
  end.

(** A scan in a loop over the rows; the error after the last row comes with the rows. *)
Fixpoint scan_rows {A} (scan : list value → result error A) (rows : list (list value))
    : result error (list A) :=
  match rows with
  | [] => Ok []
  | r :: rows => let* a := scan r in let* l := scan_rows scan rows in Ok (a :: l)
  end.
Definition all_rows {A} (scan : list value → result error A) (a : answer)
    : list A * option error :=
  match a with
  | Err e => ([], Some (PgError e))
  | Ok (rows, err) =>
     match scan_rows scan rows with
     | Err e => ([], Some e)
     | Ok l => (l, PgError <$> err)
     end
  end.

Section Store.
Context `{JM : JSONMaps}.

(** [marshalJSONMap] and [unmarshalJSONMap] *)
Definition marshalJSONMap (v : JSONMap) : result string string := marshal_map (default ∅ v).
Definition unmarshalJSONMap (data : string) : JSONMap := unmarshal_map data.

Definition scan_session (r : list value) : result error Session :=
  let* id := scan_string 0 (nth 0 r Null) in
  let* username := scan_string 1 (nth 1 r Null) in
  let* role := scan_string 2 (nth 2 r Null) in
  let* remote := scan_string 3 (nth 3 r Null) in
  let* created := scan_time 4 (nth 4 r Null) in
  let* active := scan_time 5 (nth 5 r Null) in
  let* closed := scan_time_ptr 6 (nth 6 r Null) in
  let* status := scan_string 7 (nth 7 r Null) in
  let* metadata := scan_bytes 8 (nth 8 r Null) in
  Ok (mkSession id username role remote created active closed status
        (unmarshalJSONMap metadata)).

Definition scan_tunnel (r : list value) : result error Tunnel :=
  let* id := scan_string 0 (nth 0 r Null) in
  let* session := scan_string 1 (nth 1 r Null) in
  let* type := scan_string 2 (nth 2 r Null) in
  let* local := scan_string 3 (nth 3 r Null) in
  let* remote := scan_string 4 (nth 4 r Null) in
  let* created := scan_time 5 (nth 5 r Null) in
  let* closed := scan_time_ptr 6 (nth 6 r Null) in
  let* bsent := scan_int 7 (nth 7 r Null) in
  let* brecv := scan_int 8 (nth 8 r Null) in
  let* status := scan_string 9 (nth 9 r Null) in
  let* metadata := scan_bytes 10 (nth 10 r Null) in
  Ok (mkTunnel id session type local remote created closed bsent brecv status
        (unmarshalJSONMap metadata)).

Definition scan_audit (r : list value) : result error AuditEntry :=
  let* id := scan_string 0 (nth 0 r Null) in
  let* time := scan_time 1 (nth 1 r Null) in
  let* correlation := scan_string 2 (nth 2 r Null) in
  let* trace := scan_string 3 (nth 3 r Null) in
  let* action := scan_string 4 (nth 4 r Null) in
  let* username := scan_string 5 (nth 5 r Null) in
  let* role := scan_string 6 (nth 6 r Null) in
  let* resource := scan_string 7 (nth 7 r Null) in
  let* result := scan_string 8 (nth 8 r Null) in
  let* details := scan_bytes 9 (nth 9 r Null) in
  let* source := scan_string 10 (nth 10 r Null) in
  Ok (mkAudit id time correlation trace action username role resource result
        (unmarshalJSONMap details) source).

(** ** Sessions *)

Definition params (n : nat) : list expr := Param <$> seq 1 n.
Definition time_ptr (t : option Time) : value :=
  match t with Some t => Timestamptz t | None => Null end.
(** [WHERE c = $1] *)
Definition by_key (c : string) : list cond := [Cond (Col c) Eq (Param 1)].

Definition insert_session : stmt :=
  Insert "sessions" ["id"; "username"; "role"; "remote_addr"; "created_at"; "last_active";
                     "status"; "metadata"] (params 8) None.

(** [CreateSession] *)
Definition CreateSession (uuid : string) (now : Time) (sess : Session)
    : prog (option error * Session) :=
  let sess :=
    mkSession (if bool_decide (SessID sess = "") then uuid else SessID sess) (Username sess)
      (Role sess) (RemoteAddr sess) now now (ClosedAt sess)
      (if bool_decide (Status sess = "") then "active" else Status sess) (Metadata sess) in
  match marshalJSONMap (Metadata sess) with
  | Err e => Ret (Some (JSONError e), sess)
  | Ok metadata =>
     Exec insert_session
       [Text (SessID sess); Text (Username sess); Text (Role sess); Text (RemoteAddr sess);
        Timestamptz (CreatedAt sess); Timestamptz (LastActive sess); Text (Status sess);
        Text metadata]
       (λ r, Ret (translatePostgresError (sent r), sess))
  end.

Definition session_columns : list string :=
  ["id"; "username"; "role"; "remote_addr"; "created_at"; "last_active"; "closed_at";
   "status"; "metadata"].

Definition select_session : select :=
  mkSelect (Columns session_columns) "sessions" (by_key "id") None None None.

(** [sql.ErrNoRows] becomes [ErrNotFound]. *)
Definition or_not_found {A} (r : result error A) : result error A :=
  match r with Err NoRows => Err NotFound | _ => r end.

(** [GetSession] *)
Definition GetSession (id : string) : prog (result error Session) :=
  Query select_session [Text id]
    (λ a, Ret (or_not_found (let* r := first_row a in scan_session r))).

Definition update_session : stmt :=
  Update "sessions"
    [("username", Param 2); ("role", Param 3); ("remote_addr", Param 4);
     ("last_active", Param 5); ("closed_at", Param 6); ("status", Param 7);
     ("metadata", Param 8)] (by_key "id").

(** [UpdateSession] *)
Definition UpdateSession (now : Time) (sess : Session) : prog (option error * Session) :=
  let sess := with_LastActive sess now in
  match marshalJSONMap (Metadata sess) with
  | Err e => Ret (Some (JSONError e), sess)
  | Ok metadata =>
     Exec update_session
       [Text (SessID sess); Text (Username sess); Text (Role sess); Text (RemoteAddr sess);
        Timestamptz (LastActive sess); time_ptr (ClosedAt sess); Text (Status sess);
        Text metadata]
       (λ r, Ret (affected r, sess))
  end.

(** [DeleteSession] *)
Definition DeleteSession (id : string) : prog (option error) :=
  Exec (Delete "sessions" (by_key "id")) [Text id] (λ r, Ret (affected r)).

(** ** Listings

    A listing is built a condition at a time: the conditions, the arguments, and the
    number of the next placeholder. *)

Record builder := mkBuilder { conds : list cond; bargs : list value; index : nat }.

Definition builder0 : builder := mkBuilder [Cond (Lit (Int 1)) Eq (Lit (Int 1))] [] 1.

(** [query += fmt.Sprintf(" AND c op $%d", index); args = append(args, v); index++] *)
Definition and_cond (c : string) (o : cmp) (v : value) (b : builder) : builder :=
  mkBuilder (conds b ++ [Cond (Col c) o (Param (index b))]) (bargs b ++ [v]) (index b + 1)%nat.

Definition when (c : bool) (f : builder → builder) (b : builder) : builder :=
  if c then f b else b.
Definition given (s : string) : bool := negb (bool_decide (s = "")).
Definition when_time (t : option Time) (f : Time → builder → builder) (b : builder) : builder :=
  match t with Some t => f t b | None => b end.

(** [ORDER BY c DESC], then [LIMIT] and [OFFSET] when they are positive. *)
Definition finish (cols : list string) (t order : string) (lim off : Z) (b : builder)
    : select * list value :=
  let '(limit, args, index) :=
    if (0 <? lim)%Z then (Some (Param (index b)), bargs b ++ [Int lim], (index b + 1)%nat)
    else (None, bargs b, index b) in
  let '(offset, args) :=
    if (0 <? off)%Z then (Some (Param index), args ++ [Int off]) else (None, args) in
  (mkSelect (Columns cols) t (conds b) (Some order) limit offset, args).

Definition session_query (f : SessionFilter) : select * list value :=
  let b := builder0 in
  let b := when (given (SFUsername f)) (and_cond "username" Eq (Text (SFUsername f))) b in
  let b := when (given (SFStatus f)) (and_cond "status" Eq (Text (SFStatus f))) b in
  let b := when (given (SFRemoteAddr f)) (and_cond "remote_addr" Eq (Text (SFRemoteAddr f))) b in
  let b := when_time (SFSince f) (λ t, and_cond "created_at" Ge (Timestamptz t)) b in
  finish session_columns "sessions" "created_at" (SFLimit f) (SFOffset f) b.

(** [ListSessions] *)
Definition ListSessions (f : SessionFilter) : prog (list Session * option error) :=
  let '(q, args) := session_query f in Query q args (λ a, Ret (all_rows scan_session a)).

Definition count_active : select :=
  mkSelect CountStar "sessions"
    [Cond (Col "username") Eq (Param 1); Cond (Col "status") Eq (Lit (Text "active"))]
    None None None.

(** [GetContext] into an [int]: the value is kept when there is an error. *)
Definition get_int (a : answer) : Z * option error :=
  match first_row a with
  | Err e => (0%Z, Some e)
  | Ok r => match scan_int 0 (nth 0 r Null) with Ok n => (n, None) | Err e => (0%Z, Some e) end
  end.

(** [CountActiveSessions] *)
Definition CountActiveSessions (username : string) : prog (Z * option error) :=
  Query count_active [Text username] (λ a, Ret (get_int a)).

(** [TouchSession] *)
Definition TouchSession (now : Time) (id : string) : prog (option error) :=
  Exec (Update "sessions" [("last_active", Param 2)] (by_key "id")) [Text id; Timestamptz now]
    (λ r, Ret (affected r)).

(** ** Tunnels *)

Definition insert_tunnel : stmt :=
  Insert "tunnels" ["id"; "session_id"; "type"; "local_addr"; "remote_addr"; "created_at";
                    "status"; "metadata"] (params 8) None.

(** [CreateTunnel] *)
Definition CreateTunnel (uuid : string) (now : Time) (tun : Tunnel)
    : prog (option error * Tunnel) :=
  let tun :=
    mkTunnel (if bool_decide (TunID tun = "") then uuid else TunID tun) (TunSessionID tun)
      (TunType tun) (TunLocalAddr tun) (TunRemoteAddr tun) now (TunClosedAt tun)
      (BytesSent tun) (BytesRecv tun)
      (if bool_decide (TunStatus tun = "") then "active" else TunStatus tun)
      (TunMetadata tun) in
  match marshalJSONMap (TunMetadata tun) with
  | Err e => Ret (Some (JSONError e), tun)
  | Ok metadata =>
     Exec insert_tunnel
       [Text (TunID tun); Text (TunSessionID tun); Text (TunType tun); Text (TunLocalAddr tun);
        Text (TunRemoteAddr tun); Timestamptz (TunCreatedAt tun); Text (TunStatus tun);
        Text metadata]
       (λ r, Ret (translatePostgresError (sent r), tun))
  end.

Definition tunnel_columns : list string :=
  ["id"; "session_id"; "type"; "local_addr"; "remote_addr"; "created_at"; "closed_at";
   "bytes_sent"; "bytes_recv"; "status"; "metadata"].

(** [GetTunnel] *)
Definition GetTunnel (id : string) : prog (result error Tunnel) :=
  Query (mkSelect (Columns tunnel_columns) "tunnels" (by_key "id") None None None) [Text id]
    (λ a, Ret (or_not_found (let* r := first_row a in scan_tunnel r))).

Definition update_tunnel : stmt :=
  Update "tunnels"
    [("bytes_sent", Param 2); ("bytes_recv", Param 3); ("status", Param 4);
     ("closed_at", Param 5); ("metadata", Param 6)] (by_key "id").

(** [UpdateTunnel] *)
Definition UpdateTunnel (tun : Tunnel) : prog (option error) :=
  match marshalJSONMap (TunMetadata tun) with
  | Err e => Ret (Some (JSONError e))
  | Ok metadata =>
     Exec update_tunnel
       [Text (TunID tun); Int (BytesSent tun); Int (BytesRecv tun); Text (TunStatus tun);
        time_ptr (TunClosedAt tun); Text metadata]
       (λ r, Ret (affected r))
  end.

(** [DeleteTunnel] *)
Definition DeleteTunnel (id : string) : prog (option error) :=
  Exec (Delete "tunnels" (by_key "id")) [Text id] (λ r, Ret (affected r)).

Definition tunnel_query (f : TunnelFilter) : select * list value :=
  let b := builder0 in
  let b := when (given (TFSessionID f)) (and_cond "session_id" Eq (Text (TFSessionID f))) b in
  let b := when (given (TFType f)) (and_cond "type" Eq (Text (TFType f))) b in
  let b := when (given (TFStatus f)) (and_cond "status" Eq (Text (TFStatus f))) b in
  finish tunnel_columns "tunnels" "created_at" (TFLimit f) (TFOffset f) b.

(** [ListTunnels] *)
Definition ListTunnels (f : TunnelFilter) : prog (list Tunnel * option error) :=
  let '(q, args) := tunnel_query f in Query q args (λ a, Ret (all_rows scan_tunnel a)).

(** [DeleteTunnelsBySession]: the ids are read first, the rows deleted after. *)
Definition DeleteTunnelsBySession (sessionID : string) : prog (result error (list string)) :=
  Query (mkSelect (Columns ["id"]) "tunnels" (by_key "session_id") None None None)
    [Text sessionID]
    (λ a, match all_rows (λ r, scan_string 0 (nth 0 r Null)) a with
          | (_, Some e) => Ret (Err e)
          | (ids, None) =>
             Exec (Delete "tunnels" (by_key "session_id")) [Text sessionID]
               (λ r, match sent r with Some e => Ret (Err e) | None => Ret (Ok ids) end)
          end).

(** ** Attempts *)

Definition first_at_expired (a b : expr) : expr := CaseWhen Lt (Col "first_at") (Param 3) a b.

Definition upsert_attempt : stmt :=
  Insert "rate_limits" ["name"; "count"; "first_at"] [Param 1; Lit (Int 1); Param 2]
    (Some ("name",
       [("count", first_at_expired (Lit (Int 1)) (Plus (Col "count") (Lit (Int 1))));
        ("first_at", first_at_expired (Param 2) (Col "first_at"))])).

(** [GetAttempts] *)
Definition GetAttempts (key : string) : prog (Z * option error) :=
  Query (mkSelect (Columns ["count"]) "rate_limits" (by_key "name") None None None) [Text key]
    (λ a, Ret (match get_int a with (_, Some NoRows) => (0%Z, None) | r => r end)).

(** [IncrementAttempts] reads the clock for the cutoff and for [first_at]. *)
Definition IncrementAttempts (now0 now : Time) (key : string) (window : Duration)
    : prog (Z * option error) :=
  let cutoff := Add now0 (int64_wrap (- window)) in
  Exec upsert_attempt [Text key; Timestamptz now; Timestamptz cutoff]
    (λ r, match sent r with Some e => Ret (0%Z, Some e) | None => GetAttempts key end).

(** [ResetAttempts] *)
Definition ResetAttempts (key : string) : prog (option error) :=
  Exec (Delete "rate_limits" (by_key "name")) [Text key] (λ r, Ret (sent r)).

(** [IsLocked]: [lockedUntil] stays nil when there is an error. *)
Definition IsLocked (now : Time) (key : string) (_ : Duration) : prog (bool * option error) :=
  Query (mkSelect (Columns ["locked_until"]) "rate_limits" (by_key "name") None None None)
    [Text key]
    (λ a, let '(lockedUntil, err) :=
            match first_row a with
            | Err e => (None, Some e)
            | Ok r => match scan_time_ptr 0 (nth 0 r Null) with
                      | Ok t => (t, None)
                      | Err e => (None, Some e)
                      end
            end in
          Ret (match err, lockedUntil with
               | Some NoRows, _ | _, None => (false, None)
               | err, Some until => (Before now until, err)
               end)).

(** [Lock] *)
Definition upsert_lock : stmt :=
  Insert "rate_limits" ["name"; "count"; "first_at"; "locked_until"]
    [Param 1; Lit (Int 0); Param 2; Param 3] (Some ("name", [("locked_until", Param 3)])).

Definition Lock (now : Time) (key : string) (duration : Duration) : prog (option error) :=
  Exec upsert_lock [Text key; Timestamptz now; Timestamptz (Add now duration)]
    (λ r, Ret (sent r)).

(** ** The audit log *)

Definition audit_columns : list string :=
  ["id"; "timestamp"; "correlation_id"; "trace_id"; "action"; "username"; "role"; "resource";
   "result"; "details"; "source_ip"].

(** [AppendAuditLog] *)
Definition AppendAuditLog (uuid : string) (now : Time) (e : AuditEntry)
    : prog (option error * AuditEntry) :=
  let e := mkAudit (if bool_decide (AuditID e = "") then uuid else AuditID e) now
             (CorrelationID e) (TraceID e) (Action e) (AuditUsername e) (AuditRole e)
             (Resource e) (Result e) (Details e) (SourceIP e) in
  match marshalJSONMap (Details e) with
  | Err err => Ret (Some (JSONError err), e)
  | Ok details =>
     Exec (Insert "audit_log" audit_columns (params 11) None)
       [Text (AuditID e); Timestamptz (Timestamp e); Text (CorrelationID e); Text (TraceID e);
        Text (Action e); Text (AuditUsername e); Text (AuditRole e); Text (Resource e);
        Text (Result e); Text details; Text (SourceIP e)]
       (λ r, Ret (translatePostgresError (sent r), e))
  end.

Definition audit_query (f : AuditFilter) : select * list value :=
  let b := builder0 in
  let b := when (given (AFUsername f)) (and_cond "username" Eq (Text (AFUsername f))) b in
  let b := when (given (AFAction f)) (and_cond "action" Eq (Text (AFAction f))) b in
  let b := when (given (AFResult f)) (and_cond "result" Eq (Text (AFResult f))) b in
  let b := when_time (AFSince f) (λ t, and_cond "timestamp" Ge (Timestamptz t)) b in
  let b := when_time (AFUntil f) (λ t, and_cond "timestamp" Le (Timestamptz t)) b in
  finish audit_columns "audit_log" "timestamp" (AFLimit f) (AFOffset f) b.

(** [QueryAuditLog] *)
Definition QueryAuditLog (f : AuditFilter) : prog (list AuditEntry * option error) :=
  let '(q, args) := audit_query f in Query q args (λ a, Ret (all_rows scan_audit a)).

(** ** Cleaning up *)

Definition expire_sessions : stmt :=
  Update "sessions" [("status", Lit (Text "expired")); ("closed_at", Param 2)]
    [Cond (Col "status") Eq (Lit (Text "active")); Cond (Col "last_active") Lt (Param 1)].

Definition rows_affected (r : result pg_error Z) : Z * option error :=
  match r with Err e => (0%Z, Some (PgError e)) | Ok n => (n, None) end.

(** [CleanupInactiveSessions] and [CleanupOldAuditLogs] *)
Definition CleanupInactiveSessions (now0 now : Time) (maxInactive : Duration)
    : prog (Z * option error) :=
  let cutoff := Add now0 (int64_wrap (- maxInactive)) in
  Exec expire_sessions [Timestamptz cutoff; Timestamptz now] (λ r, Ret (rows_affected r)).

Definition CleanupOldAuditLogs (now : Time) (maxAge : Duration) : prog (Z * option error) :=
  let cutoff := Add now (int64_wrap (- maxAge)) in
  Exec (Delete "audit_log" [Cond (Col "timestamp") Lt (Param 1)]) [Timestamptz cutoff]
    (λ r, Ret (rows_affected r)).

End Store.

(** ** Connecting *)

Record PostgresConfig := mkPostgresConfig {
  Host : string;
  Port : Z;
  Database : string;
  User : string;
  Password : string;
  SSLMode : string;
  PoolSize : Z;
}.

Definition maxInt (a b : Z) : Z := if (b <? a)%Z then a else b.

(** The defaults of [NewPostgresStore]. *)
Definition postgres_defaults (c : PostgresConfig) : PostgresConfig :=
  mkPostgresConfig (Host c) (if (Port c =? 0)%Z then 5432%Z else Port c) (Database c) (User c)
    (Password c) (if bool_decide (SSLMode c = "") then "disable" else SSLMode c)
    (if (PoolSize c <=? 0)%Z then 10%Z else PoolSize c).

Definition dsn (c : PostgresConfig) : string :=
  "host=" +:+ Host c +:+ " port=" +:+ Itoa (Port c) +:+ " user=" +:+ User c
  +:+ " password=" +:+ Password c +:+ " dbname=" +:+ Database c +:+ " sslmode=" +:+ SSLMode c.

(** The pool of connections of a store. *)
Record PostgresStore := mkPostgresStore {
  source_name : string;
  max_open : Z;
  max_idle : Z;
  max_lifetime : Duration;
}.

(** [NewPostgresStore]: [connect] is the error of [sqlx.Connect] for a source name, and
    [schema_err] the error of creating the schema, in which case the pool is closed. *)
Definition NewPostgresStore (connect : string → option string) (schema_err : option string)
    (cfg : PostgresConfig) (σ : db) : result string PostgresStore * db :=
  let cfg := postgres_defaults cfg in
  match connect (dsn cfg) with
  | Some err => (Err ("conectando a PostgreSQL: " +:+ err), σ)
  | None =>
     match schema_err with
     | Some err => (Err ("creando esquema PostgreSQL: " +:+ err), σ)
     | None =>
        (Ok (mkPostgresStore (dsn cfg) (PoolSize cfg) (maxInt 1 (PoolSize cfg `quot` 2))
               (30 * Minute)), create_tables σ)
     end
  end.

(** [Health] and [Close] hand on the error of the pool. *)
Definition Health (ping : option string) : option string := ping.
Definition Close (close : option string) : option string := close.

(** ** The text of a listing

    What the code concatenates; it is the text of the query above. *)

Record text_builder := mkText { text : string; tindex : nat }.

Definition and_text (c o : string) (b : text_builder) : text_builder :=
  mkText (text b +:+ " AND " +:+ c +:+ " " +:+ o +:+ " $" +:+ Itoa (Z.of_nat (tindex b)))
    (tindex b + 1)%nat.
Definition when_text (c : bool) (f : text_builder → text_builder) (b : text_builder)
    : text_builder := if c then f b else b.

Definition finish_text (order : string) (lim off : bool) (b : text_builder) : string :=
  let b := mkText (text b +:+ " ORDER BY " +:+ order +:+ " DESC") (tindex b) in
  let b := when_text lim
    (λ b, mkText (text b +:+ " LIMIT $" +:+ Itoa (Z.of_nat (tindex b))) (tindex b + 1)%nat) b in
  let b := when_text off
    (λ b, mkText (text b +:+ " OFFSET $" +:+ Itoa (Z.of_nat (tindex b))) (tindex b)) b in
  text b.

(** The flags say which criteria are given. *)
Definition session_text (username status remote since lim off : bool) : string :=
  let b := mkText "SELECT id, username, role, remote_addr, created_at, last_active, closed_at, status, metadata FROM sessions WHERE 1=1" 1 in
  let b := when_text username (and_text "username" "=") b in
  let b := when_text status (and_text "status" "=") b in
  let b := when_text remote (and_text "remote_addr" "=") b in
  let b := when_text since (and_text "created_at" ">=") b in
  finish_text "created_at" lim off b.

Definition tunnel_text (session type status lim off : bool) : string :=
  let b := mkText "SELECT id, session_id, type, local_addr, remote_addr, created_at, closed_at, bytes_sent, bytes_recv, status, metadata FROM tunnels WHERE 1=1" 1 in
  let b := when_text session (and_text "session_id" "=") b in
  let b := when_text type (and_text "type" "=") b in
  let b := when_text status (and_text "status" "=") b in
  finish_text "created_at" lim off b.

Definition audit_text (username action result_ since until_ lim off : bool) : string :=
  let b := mkText "SELECT id, timestamp, correlation_id, trace_id, action, username, role, resource, result, details, source_ip FROM audit_log WHERE 1=1" 1 in
  let b := when_text username (and_text "username" "=") b in
  let b := when_text action (and_text "action" "=") b in
  let b := when_text result_ (and_text "result" "=") b in
  let b := when_text since (and_text "timestamp" ">=") b in
  let b := when_text until_ (and_text "timestamp" "<=") b in
  finish_text "timestamp" lim off b.

Definition is_given {A} (o : option A) : bool := bool_decide (is_Some o).

End PostgresStore.
