(* ===== verification/PostgresSpec.v ===== *)
(** * What the PostgreSQL store promises

    The tables stand for maps of sessions, tunnels, audit entries and counters ([rel],
    related to the tables by [repr]).  Every operation of [PostgresStore], run by itself on
    a server that answers, gives the result and the state of a function on those maps. *)

From S2P Require Import Prelude GoStrings GoTime MemoryStore SQL PostgresStore.

Module PostgresSpec.
Import SQL MemoryStore PostgresStore.

(** ** The state *)

Record rate_limit := mkLimit {
  lname : string;
  lcount : Z;
  first_at : Time;
  locked_until : option Time;
}.

Record rel := mkRel {
  rsessions : gmap string Session;
  rtunnels : gmap string Tunnel;
  raudit : gmap string AuditEntry;
  rlimits : gmap string rate_limit;
}.

Definition set_rsessions (m : rel) x : rel := mkRel x (rtunnels m) (raudit m) (rlimits m).
Definition set_rtunnels (m : rel) x : rel := mkRel (rsessions m) x (raudit m) (rlimits m).
Definition set_raudit (m : rel) x : rel := mkRel (rsessions m) (rtunnels m) x (rlimits m).
Definition set_rlimits (m : rel) x : rel := mkRel (rsessions m) (rtunnels m) (raudit m) x.

(** ** Maps whose values carry their key *)

Section Keyed.
Context {X : Type} (key : X → string).
Implicit Types m : gmap string X.

Definition keyed m : Prop := ∀ k x, m !! k = Some x → key x = k.
Definition has_key (id : string) (x : X) : bool := String.eqb (key x) id.

Lemma has_key_true id x : has_key id x = true ↔ key x = id.
Proof. apply String.eqb_eq. Qed.

Lemma filter_key m id :
  keyed m → filter (λ kx, has_key id kx.2 = true) m
            = match m !! id with Some x => {[id := x]} | None => ∅ end.
Proof.
  intros Hk. apply map_eq. intros j. rewrite map_lookup_filter.
  destruct (m !! j) as [y|] eqn:Ej; simpl.
  - destruct (decide (j = id)) as [->|Hne].
    + rewrite option_guard_True, Ej, lookup_singleton_eq; [done|]. by apply has_key_true, Hk.
    + rewrite option_guard_False.
      * destruct (m !! id); [by rewrite lookup_singleton_ne|by rewrite lookup_empty].
      * rewrite has_key_true, (Hk _ _ Ej). done.
  - destruct (m !! id) as [x|] eqn:Ei; [|by rewrite lookup_empty].
    rewrite lookup_singleton_ne; [done|]. congruence.
Qed.

Lemma filter_not_key m id :
  keyed m → filter (λ kx, has_key id kx.2 = false) m = delete id m.
Proof.
  intros Hk. apply map_eq. intros j. rewrite map_lookup_filter.
  destruct (decide (j = id)) as [->|Hne].
  - rewrite lookup_delete_eq. destruct (m !! id) as [x|] eqn:E; [simpl|done].
    rewrite option_guard_False; [done|]. rewrite not_false_iff_true. by apply has_key_true, Hk.
  - rewrite lookup_delete_ne by done. destruct (m !! j) as [x|] eqn:E; [simpl|done].
    rewrite option_guard_True; [done|]. apply not_true_iff_false.
    rewrite has_key_true, (Hk _ _ E). done.
Qed.

Lemma size_filter_key m id :
  keyed m → Z.of_nat (size (filter (λ kx, has_key id kx.2 = true) m))
            = match m !! id with Some _ => 1%Z | None => 0%Z end.
Proof.
  intros Hk. rewrite filter_key by done.
  destruct (m !! id); [by rewrite map_size_singleton|by rewrite map_size_empty].
Qed.

Lemma update_key m id h : keyed m → update_where (has_key id) h m = alter h id m.
Proof.
  intros Hk. apply map_eq. intros j. unfold update_where.
  rewrite lookup_fmap. destruct (decide (j = id)) as [->|Hne].
  - rewrite lookup_alter_eq. destruct (m !! id) as [x|] eqn:E; [simpl|done].
    by rewrite (proj2 (has_key_true id x) (Hk _ _ E)).
  - rewrite lookup_alter_ne by done. destruct (m !! j) as [x|] eqn:E; [simpl|done].
    destruct (has_key id x) eqn:Eh; [|done]. apply has_key_true in Eh.
    by rewrite (Hk _ _ E) in Eh.
Qed.

Lemma keyed_insert m x : keyed m → keyed (<[key x := x]> m).
Proof.
  intros Hk j y Hy. destruct (decide (key x = j)) as [<-|Hne].
  - rewrite lookup_insert_eq in Hy. by injection Hy as <-.
  - rewrite lookup_insert_ne in Hy by done. by apply Hk.
Qed.
Lemma keyed_alter m h id : keyed m → (∀ x, key (h x) = key x) → keyed (alter h id m).
Proof.
  intros Hk Hh j y Hy. apply lookup_alter_Some in Hy as [(-> & x & Hx & ->)|[_ Hy]].
  - rewrite Hh. by apply Hk.
  - by apply Hk.
Qed.
Lemma keyed_filter m (P : string * X → Prop) `{∀ kx, Decision (P kx)} :
  keyed m → keyed (filter P m).
Proof. intros Hk j y Hy. apply map_lookup_filter_Some in Hy as [Hy _]. by apply Hk. Qed.
Lemma keyed_delete m id : keyed m → keyed (delete id m).
Proof. intros Hk j y Hy. apply lookup_delete_Some in Hy as [_ Hy]. by apply Hk. Qed.
Lemma keyed_update m g h : keyed m → (∀ x, key (h x) = key x) → keyed (update_where g h m).
Proof.
  intros Hk Hh j y Hy. unfold update_where in Hy. rewrite lookup_fmap in Hy.
  destruct (m !! j) as [x|] eqn:E; [|done]. simpl in Hy. injection Hy as <-.
  destruct (g x); [rewrite Hh|]; by apply Hk.
Qed.

End Keyed.

#[export] Hint Resolve keyed_insert keyed_alter keyed_filter keyed_delete keyed_update : sops.

(** A statement that fits the schema, with arguments that are storable by hypothesis. *)
Ltac solve_documented :=
  match goal with
  | |- stmt_fits _ _ _ = true =>
     unfold time_ptr; repeat case_match; vm_compute; reflexivity
  | |- select_fits _ _ _ = true => vm_compute; reflexivity
  | |- _ => solve_storable
  end.

(** ** Rows *)

Section Spec.
Context `{MR : MapRange} `{PG : Postgres} `{JM : JSONMaps}.

Definition session_row (s : Session) (doc : string) : row :=
  [("id", Text (SessID s)); ("username", Text (Username s)); ("role", Text (Role s));
   ("remote_addr", Text (RemoteAddr s)); ("created_at", Timestamptz (CreatedAt s));
   ("last_active", Timestamptz (LastActive s)); ("closed_at", time_ptr (ClosedAt s));
   ("status", Text (Status s)); ("metadata", Jsonb doc)].
Definition tunnel_row (t : Tunnel) (doc : string) : row :=
  [("id", Text (TunID t)); ("session_id", Text (TunSessionID t)); ("type", Text (TunType t));
   ("local_addr", Text (TunLocalAddr t)); ("remote_addr", Text (TunRemoteAddr t));
   ("created_at", Timestamptz (TunCreatedAt t)); ("closed_at", time_ptr (TunClosedAt t));
   ("bytes_sent", Int (BytesSent t)); ("bytes_recv", Int (BytesRecv t));
   ("status", Text (TunStatus t)); ("metadata", Jsonb doc)].
Definition audit_row (e : AuditEntry) (doc : string) : row :=
  [("id", Text (AuditID e)); ("timestamp", Timestamptz (Timestamp e));
   ("correlation_id", Text (CorrelationID e)); ("trace_id", Text (TraceID e));
   ("action", Text (Action e)); ("username", Text (AuditUsername e));
   ("role", Text (AuditRole e)); ("resource", Text (Resource e)); ("result", Text (Result e));
   ("details", Jsonb doc); ("source_ip", Text (SourceIP e))].
Definition limit_row (l : rate_limit) : row :=
  [("name", Text (lname l)); ("count", Int (lcount l)); ("first_at", Timestamptz (first_at l));
   ("locked_until", time_ptr (locked_until l))].

Definition session_rep (r : row) (s : Session) : Prop :=
  ∃ doc, r = session_row s doc ∧ Metadata s = unmarshalJSONMap doc.
Definition tunnel_rep (r : row) (t : Tunnel) : Prop :=
  ∃ doc, r = tunnel_row t doc ∧ TunMetadata t = unmarshalJSONMap doc
    ∧ in_int64 (BytesSent t) ∧ in_int64 (BytesRecv t).
Definition audit_rep (r : row) (e : AuditEntry) : Prop :=
  ∃ doc, r = audit_row e doc ∧ Details e = unmarshalJSONMap doc.
Definition limit_rep (r : row) (l : rate_limit) : Prop :=
  r = limit_row l ∧ (- 2 ^ 31 <= lcount l < 2 ^ 31)%Z.

(** The tables of a database that only this program writes. *)
Record repr (σ : db) (m : rel) : Prop := {
  rep_sessions : typed session_rep (table σ "sessions") (rsessions m);
  rep_tunnels : typed tunnel_rep (table σ "tunnels") (rtunnels m);
  rep_audit : typed audit_rep (table σ "audit_log") (raudit m);
  rep_limits : typed limit_rep (table σ "rate_limits") (rlimits m);
  key_sessions : keyed SessID (rsessions m);
  key_tunnels : keyed TunID (rtunnels m);
  key_audit : keyed AuditID (raudit m);
  key_limits : keyed lname (rlimits m);
}.

(** A program that ends, by itself, in a result and a state. *)
Definition refines {A} (p : prog A) (σ : db) (a : A) (m : rel) : Prop :=
  ∃ σ', run postgresSchema p [] σ = (a, σ') ∧ repr σ' m.

Lemma table_insert (σ : db) t x : table (<[t := x]> σ) t = x.
Proof. unfold table. by rewrite lookup_insert_eq. Qed.
Lemma table_insert_ne (σ : db) t t' x : t ≠ t' → table (<[t := x]> σ) t' = table σ t'.
Proof. intros. unfold table. by rewrite lookup_insert_ne. Qed.
Lemma table_cascade sch t gone (σ : db) name :
  table (cascade sch t gone σ) name
  = filter (λ kr, references_any t gone (lookup_def sch name) kr.2 = false) (table σ name).
Proof.
  unfold table, cascade. rewrite map_lookup_imap.
  destruct (σ !! name); simpl; [done|]. by rewrite map_filter_empty.
Qed.
Lemma table_cascade_same sch t gone (σ : db) name :
  (∀ r, references_any t gone (lookup_def sch name) r = false) →
  table (cascade sch t gone σ) name = table σ name.
Proof.
  intros H. rewrite table_cascade. apply map_filter_id. intros k r _. apply H.
Qed.

(** One table changes. *)
Lemma repr_sessions σ m tbl x :
  repr σ m → typed session_rep tbl x → keyed SessID x →
  repr (<["sessions" := tbl]> σ) (set_rsessions m x).
Proof. intros [] Ht Hk. constructor; rewrite ?table_insert, ?table_insert_ne by done; done. Qed.
Lemma repr_tunnels σ m tbl x :
  repr σ m → typed tunnel_rep tbl x → keyed TunID x →
  repr (<["tunnels" := tbl]> σ) (set_rtunnels m x).
Proof. intros [] Ht Hk. constructor; rewrite ?table_insert, ?table_insert_ne by done; done. Qed.
Lemma repr_audit σ m tbl x :
  repr σ m → typed audit_rep tbl x → keyed AuditID x →
  repr (<["audit_log" := tbl]> σ) (set_raudit m x).
Proof. intros [] Ht Hk. constructor; rewrite ?table_insert, ?table_insert_ne by done; done. Qed.
Lemma repr_limits σ m tbl x :
  repr σ m → typed limit_rep tbl x → keyed lname x →
  repr (<["rate_limits" := tbl]> σ) (set_rlimits m x).
Proof. intros [] Ht Hk. constructor; rewrite ?table_insert, ?table_insert_ne by done; done. Qed.

(** ** Sessions *)

(** What a statement stores of a document. *)
Definition stored_doc (v : JSONMap) : option string :=
  match marshalJSONMap v with
  | Ok data => if text_ok data then jsonb data else None
  | Err _ => None
  end.

Definition stored_session (uuid : string) (now : Time) (s : Session) (doc : string) : Session :=
  mkSession (if bool_decide (SessID s = "") then uuid else SessID s) (Username s) (Role s)
    (RemoteAddr s) (micros now) (micros now) None
    (if bool_decide (Status s = "") then "active" else Status s) (unmarshalJSONMap doc).

(** The argument after a call: its times are not rounded, and the rest is its own. *)
Definition with_times (s : Session) (now : Time) (closed : option Time) (md : JSONMap) : Session :=
  mkSession (SessID s) (Username s) (Role s) (RemoteAddr s) now now closed (Status s) md.

Definition spec_CreateSession (m : rel) (s : Session) : option error * rel :=
  match rsessions m !! SessID s with
  | Some _ => (Some (PgError (UniqueViolation "sessions")), m)
  | None => (None, set_rsessions m (<[SessID s := s]> (rsessions m)))
  end.

Definition session_storable (uuid : string) (now : Time) (s : Session) : bool :=
  text_ok (if bool_decide (SessID s = "") then uuid else SessID s) && text_ok (Username s)
  && text_ok (Role s) && text_ok (RemoteAddr s) && timestamp_ok (micros now)
  && text_ok (if bool_decide (Status s = "") then "active" else Status s).

Lemma stored_doc_spec v doc :
  stored_doc v = Some doc →
  ∃ data, marshalJSONMap v = Ok data ∧ text_ok data = true ∧ jsonb data = Some doc.
Proof.
  unfold stored_doc. destruct (marshalJSONMap v) as [data|]; [|done].
  destruct (text_ok data) eqn:E; [|done]. eauto.
Qed.

Lemma CreateSession_refines σ m uuid now s doc :
  repr σ m → session_storable uuid now s = true → stored_doc (Metadata s) = Some doc →
  let s0 := stored_session uuid now s doc in
  refines (CreateSession uuid now s) σ
    ((spec_CreateSession m s0).1, with_times s0 now (ClosedAt s) (Metadata s))
    (spec_CreateSession m s0).2.
Proof.
  intros Hr Hok Hdoc s0. unfold session_storable in Hok. bool_to_prop.
  destruct (stored_doc_spec _ _ Hdoc) as (data & Hm & Ht & Hj).
  unfold CreateSession, refines. cbn [Metadata]. rewrite Hm, run_exec by solve_documented. unfold insert_session.
  rewrite (exec_insert _ _ _ _ _ _ _ (session_row s0 doc)).
  2: { solve_storable. }
  2: { cbn. rewrite Hj. done. }
  cbn [key_of text_of session_row].
  unfold spec_CreateSession. pose proof (rep_sessions _ _ Hr (SessID s0)) as Hl.
  destruct Hl as [r x Hrep|].
  - exists σ. split; [|done]. done.
  - eexists. split; [reflexivity|].
    apply repr_sessions; [done| |apply keyed_insert, Hr].
    apply typed_insert; [apply Hr|]. by exists doc.
Qed.

(** A row is read back as what it stands for. *)
Lemma scan_session_rep r s :
  session_rep r s → scan_session (col r <$> session_columns) = Ok s.
Proof.
  intros (doc & -> & Hmd). destruct s as [? ? ? ? ? ? [] ? ?]; simpl in *; by subst.
Qed.

(** The condition [id = $1] on a row. *)
Lemma by_key_holds c id args r v :
  col r c = Text v → holds (Text id :: args) (by_key c) r = String.eqb v id.
Proof. intros H. unfold holds. simpl. rewrite H. simpl. by rewrite andb_true_r. Qed.

Lemma session_by_id id args r s :
  session_rep r s → holds (Text id :: args) (by_key "id") r = has_key SessID id s.
Proof. intros (doc & -> & _). by apply by_key_holds. Qed.

Lemma query_storable q args σ :
  forallb storable args = true →
  query q args σ
  = let rows := filter (λ r, holds (bound <$> args) (where_ q) r = true)
                  (range (table σ (from q))).*2 in
    let rows := match order_desc q with
                | Some c => sort_by (λ r, - time_of (col r c))%Z rows
                | None => rows
                end in
    let rows := match offset q with
                | Some e => drop (count_of (eval (bound <$> args) [] e)) rows
                | None => rows
                end in
    let rows := match limit q with
                | Some e => take (count_of (eval (bound <$> args) [] e)) rows
                | None => rows
                end in
    match what q with
    | Columns cs => Ok ((λ r, col r <$> cs) <$> rows)
    | CountStar => Ok [[Int (Z.of_nat (length rows))]]
    end.
Proof. intros Hs. unfold query. by rewrite bind_args_ok. Qed.

(** A row looked up by its key: the rows with that key are the one of the map. *)
Lemma rows_by_key {X} (rep : row → X → Prop) (key : X → string) tbl (mm : gmap string X) cs args id :
  typed rep tbl mm → keyed key mm → (∀ r x, rep r x → holds args cs r = has_key key id x) →
  filter (λ r, holds args cs r = true) (range tbl).*2
  = match tbl !! id with Some r => [r] | None => [] end.
Proof.
  intros Ht Hk Hh.
  assert (Hflt : filter (λ kr, holds args cs kr.2 = true) tbl
                 = match tbl !! id with Some r => {[id := r]} | None => ∅ end).
  { apply map_eq. intros j. rewrite map_lookup_filter.
    destruct (tbl !! j) as [r|] eqn:Ej; simpl.
    - destruct (typed_Some _ _ _ _ _ Ht Ej) as (x & Hx & Hrep). rewrite (Hh _ _ Hrep).
      destruct (decide (j = id)) as [->|Hne].
      + rewrite option_guard_True, Ej, lookup_singleton_eq; [done|].
        by apply has_key_true, Hk.
      + rewrite option_guard_False.
        * destruct (tbl !! id); [by rewrite lookup_singleton_ne|by rewrite lookup_empty].
        * rewrite has_key_true, (Hk _ _ Hx). done.
    - destruct (tbl !! id) eqn:Ei; [|by rewrite lookup_empty].
      rewrite lookup_singleton_ne; [done|]. congruence. }
  assert (Hperm : filter (λ r, holds args cs r = true) (range tbl).*2
                  ≡ₚ match tbl !! id with Some r => [r] | None => [] end).
  { rewrite (filter_snd (holds args cs)), filter_range_perm, Hflt.
    destruct (tbl !! id); [by rewrite map_to_list_singleton|by rewrite map_to_list_empty]. }
  destruct (tbl !! id); [by apply Permutation_singleton_r in Hperm|].
  by apply Permutation_nil_r in Hperm.
Qed.

Definition lookup_answer {X} (o : option X) (f : X → list value) : answer :=
  Ok (match o with Some x => [f x] | None => [] end, None).

(** A query by key answers with the row of that key. *)
Lemma query_by_key {X} (rep : row → X → Prop) (key : X → string) t c cs σ (mm : gmap string X) id :
  text_ok id = true → typed rep (table σ t) mm → keyed key mm →
  (∀ r x, rep r x → col r c = Text (key x)) →
  (let* rows := query (mkSelect (Columns cs) t (by_key c) None None None) [Text id] σ in
   Ok (rows, None))
  = lookup_answer (table σ t !! id) (λ r, col r <$> cs).
Proof.
  intros Hid Ht Hk Hc. rewrite query_storable by solve_storable.
  cbn [from where_ order_desc offset limit what].
  rewrite (rows_by_key rep key _ mm _ _ id); [|done..|].
  2: { intros r x Hr. by apply by_key_holds, Hc. }
  unfold lookup_answer. by destruct (table σ t !! id).
Qed.

Definition spec_GetSession (m : rel) (id : string) : result error Session :=
  match rsessions m !! id with Some s => Ok s | None => Err NotFound end.

Lemma GetSession_refines σ m id :
  repr σ m → text_ok id = true → refines (GetSession id) σ (spec_GetSession m id) m.
Proof.
  intros Hr Hid. exists σ. split; [|done]. unfold GetSession. rewrite run_query by solve_documented.
  unfold select_session, spec_GetSession.
  rewrite (query_by_key session_rep SessID _ _ _ _ (rsessions m)); [|done|apply Hr..|].
  2: { by intros r x (doc & -> & _). }
  destruct (rep_sessions _ _ Hr id) as [r s Hs|]; [|done].
  unfold lookup_answer. cbn [first_row run]. by rewrite (scan_session_rep _ _ Hs).
Qed.

(** An update by key changes the value of that key. *)
Lemma update_by_key {X} (rep : row → X → Prop) (key : X → string) t c sets σ (mm : gmap string X)
    id args h :
  forallb storable (Text id :: args) = true → typed rep (table σ t) mm → keyed key mm →
  (∀ r x, rep r x → col r c = Text (key x)) →
  (∀ r x, rep r x →
     ∃ r', store_row (lookup_def postgresSchema t)
             (apply_sets (bound <$> (Text id :: args)) sets r) = Ok r' ∧ rep r' (h x)) →
  ∃ tbl', SQL.exec postgresSchema (Update t sets (by_key c)) (Text id :: args) σ
          = Ok (match mm !! id with Some _ => 1%Z | None => 0%Z end, <[t := tbl']> σ)
    ∧ typed rep tbl' (alter h id mm).
Proof.
  intros Hs Ht Hk Hc Hh. rewrite exec_update by done.
  destruct (update_rows_spec rep (lookup_def postgresSchema t) (bound <$> (Text id :: args)) sets
              (by_key c) (has_key key id) h (table σ t) mm) as (tbl' & E & Ht').
  - done.
  - intros r x Hr. by apply by_key_holds, Hc.
  - eauto.
  - exists tbl'. rewrite E, size_filter_key by done. split; [done|].
    by rewrite <-(update_key key).
Qed.

(** [ErrNotFound] when the key has no value, else the change. *)
Definition spec_alter {X} (mm : gmap string X) (id : string) (h : X → X)
    : option error * gmap string X :=
  match mm !! id with
  | None => (Some NotFound, mm)
  | Some _ => (None, alter h id mm)
  end.

Lemma spec_alter_affected {X} (mm : gmap string X) id h :
  affected (Ok (match mm !! id with Some _ => 1%Z | None => 0%Z end)) = (spec_alter mm id h).1
  ∧ alter h id mm = (spec_alter mm id h).2.
Proof.
  unfold spec_alter. destruct (mm !! id) eqn:E; [done|]. split; [done|].
  apply map_eq. intros j. destruct (decide (id = j)) as [<-|].
  - by rewrite lookup_alter_eq, E.
  - by rewrite lookup_alter_ne.
Qed.

(** The columns [UpdateSession] writes. *)
Definition updated_session (now : Time) (s : Session) (doc : string) (old : Session) : Session :=
  mkSession (SessID old) (Username s) (Role s) (RemoteAddr s) (CreatedAt old) (micros now)
    (micros <$> ClosedAt s) (Status s) (unmarshalJSONMap doc).

Definition spec_UpdateSession (m : rel) (now : Time) (s : Session) (doc : string)
    : option error * rel :=
  let r := spec_alter (rsessions m) (SessID s) (updated_session now s doc) in
  (r.1, set_rsessions m r.2).

Definition update_storable (now : Time) (s : Session) : bool :=
  text_ok (SessID s) && text_ok (Username s) && text_ok (Role s) && text_ok (RemoteAddr s)
  && timestamp_ok (micros now) && storable (time_ptr (ClosedAt s)) && text_ok (Status s).

Lemma UpdateSession_refines σ m now s doc :
  repr σ m → update_storable now s = true → stored_doc (Metadata s) = Some doc →
  refines (UpdateSession now s) σ
    ((spec_UpdateSession m now s doc).1, with_LastActive s now)
    (spec_UpdateSession m now s doc).2.
Proof.
  intros Hr Hok Hdoc. unfold update_storable in Hok. bool_to_prop.
  destruct (stored_doc_spec _ _ Hdoc) as (data & Hm & Ht & Hj).
  unfold UpdateSession, refines. cbn [Metadata with_LastActive]. rewrite Hm, run_exec by solve_documented.
  edestruct (update_by_key session_rep SessID "sessions" "id") as (tbl' & E & Ht');
    [|apply (rep_sessions _ _ Hr)|apply Hr| | |unfold update_session; rewrite E].
  - solve_storable.
  - by intros r x (doc' & -> & _).
  - intros r x (doc' & -> & _). instantiate (1 := updated_session now s doc).
    exists (session_row (updated_session now s doc x) doc).
    split; [|by exists doc]. cbn. rewrite Hj. unfold updated_session.
    by destruct (ClosedAt s).
  - destruct (spec_alter_affected (rsessions m) (SessID s) (updated_session now s doc)) as [Ha Hm'].
    eexists. cbn [run SessID with_LastActive]. rewrite Ha. split; [reflexivity|].
    unfold spec_UpdateSession. cbn [snd]. rewrite <-Hm'.
    apply repr_sessions; [done|done|]. apply keyed_alter; [apply Hr|done].
Qed.

(** [DeleteSession] deletes the tunnels of the session with it. *)
Definition spec_DeleteSession (m : rel) (id : string) : option error * rel :=
  match rsessions m !! id with
  | None => (Some NotFound, m)
  | Some _ =>
     (None, mkRel (delete id (rsessions m))
              (filter (λ kt, of_session id kt.2 = false) (rtunnels m)) (raudit m) (rlimits m))
  end.

Lemma tunnel_references gone r t :
  tunnel_rep r t →
  references_any "sessions" gone (lookup_def postgresSchema "tunnels") r
  = bool_decide (is_Some (gone !! TunSessionID t)).
Proof.
  intros (doc & -> & _). unfold references_any. simpl. apply orb_false_r.
Qed.

Definition orphaned (gone : gmap string Session) (t : Tunnel) : bool :=
  bool_decide (is_Some (gone !! TunSessionID t)).

(** Deleting sessions: the tunnels of the deleted sessions go. *)
Lemma delete_sessions_typed σ m g args conds :
  repr σ m → (∀ r s, session_rep r s → holds args conds r = g s) →
  let gone := filter (λ kr, holds args conds kr.2 = true) (table σ "sessions") in
  repr (cascade postgresSchema "sessions" gone
         (<["sessions" := filter (λ kr, holds args conds kr.2 = false) (table σ "sessions")]> σ))
    (mkRel (filter (λ kx, g kx.2 = false) (rsessions m))
       (filter (λ kt, orphaned (filter (λ kx, g kx.2 = true) (rsessions m)) kt.2 = false)
          (rtunnels m))
       (raudit m) (rlimits m)).
Proof.
  intros Hr Hg gone.
  assert (Hgone : typed session_rep gone (filter (λ kx, g kx.2 = true) (rsessions m))).
  { apply typed_filter; [apply Hr|eauto]. }
  constructor; cbn [rsessions rtunnels raudit rlimits];
    [|rewrite table_cascade, table_insert_ne by done|..|apply keyed_filter, Hr|apply keyed_filter, Hr
     |apply Hr|apply Hr].
  - rewrite table_cascade_same, table_insert by done. apply typed_filter; [apply Hr|eauto].
  - apply (typed_filter _ _ _ (references_any "sessions" gone (lookup_def postgresSchema "tunnels"))
             (orphaned _)); [apply Hr|].
    intros k r t _ _ Ht. rewrite (tunnel_references _ _ _ Ht). apply bool_decide_ext.
    rewrite <-!not_eq_None_Some, (typed_None _ _ _ (TunSessionID t) Hgone). done.
  - rewrite table_cascade_same, table_insert_ne by done. apply Hr.
  - rewrite table_cascade_same, table_insert_ne by done. apply Hr.
Qed.

Lemma DeleteSession_refines σ m id :
  repr σ m → text_ok id = true →
  refines (DeleteSession id) σ (spec_DeleteSession m id).1 (spec_DeleteSession m id).2.
Proof.
  intros Hr Hid. unfold DeleteSession, refines. rewrite run_exec, exec_delete by solve_documented.
  cbn zeta. cbn [run].
  assert (Hg : ∀ r s, session_rep r s →
    holds (bound <$> [Text id]) (by_key "id") r = has_key SessID id s).
  { intros r s Hs. by apply session_by_id. }
  rewrite (typed_size session_rep _ (filter (λ kx, has_key SessID id kx.2 = true) (rsessions m)))
    by (apply typed_filter; [apply Hr|eauto]).
  rewrite size_filter_key by apply Hr. eexists. unfold spec_DeleteSession.
  pose proof (delete_sessions_typed σ m _ _ _ Hr Hg) as Hrep.
  rewrite filter_not_key, filter_key in Hrep by apply Hr.
  destruct (rsessions m !! id) as [s|] eqn:E; (split; [reflexivity|]).
  - cbn [snd]. eapply eq_ind; [exact Hrep|]. f_equal. apply map_filter_ext.
    intros k t _. cbn [snd]. unfold of_session, orphaned. split; intros H; bool_to_prop;
      apply bool_decide_eq_false.
    + intros <-. apply H. rewrite lookup_singleton_eq. by eexists.
    + intros [x Hx]. apply lookup_singleton_Some in Hx as [Hx _]. congruence.
  - cbn [snd]. eapply eq_ind; [exact Hrep|]. rewrite delete_id by done. destruct m. cbn in *.
    f_equal. apply map_filter_id. intros k t _. apply bool_decide_eq_false.
    intros [x Hx]. by rewrite lookup_empty in Hx.
Qed.

(** [TouchSession] *)
Definition touched (now : Time) (s : Session) : Session := with_LastActive s (micros now).

Definition spec_TouchSession (m : rel) (now : Time) (id : string) : option error * rel :=
  let r := spec_alter (rsessions m) id (touched now) in (r.1, set_rsessions m r.2).

Lemma TouchSession_refines σ m now id :
  repr σ m → text_ok id = true → timestamp_ok (micros now) = true →
  refines (TouchSession now id) σ (spec_TouchSession m now id).1 (spec_TouchSession m now id).2.
Proof.
  intros Hr Hid Hnow. unfold TouchSession, refines. rewrite run_exec by solve_documented.
  destruct (update_by_key session_rep SessID "sessions" "id" [("last_active", Param 2)] σ
              (rsessions m) id [Timestamptz now] (touched now)) as (tbl' & E & Ht').
  - solve_storable.
  - apply Hr.
  - apply Hr.
  - by intros r x (doc' & -> & _).
  - intros r x (doc & -> & Hmd). exists (session_row (touched now x) doc).
    split; [|by exists doc]. unfold touched, session_row. cbn. by destruct (ClosedAt x).
  - rewrite E. destruct (spec_alter_affected (rsessions m) id (touched now)) as [Ha Hm].
    eexists. cbn [run]. rewrite Ha. split; [reflexivity|].
    unfold spec_TouchSession. cbn [snd]. rewrite <-Hm.
    apply repr_sessions; [done|done|]. apply keyed_alter; [apply Hr|done].
Qed.

(** [CleanupInactiveSessions] *)
Definition spec_Cleanup (m : rel) (cutoff now : Time) : Z * rel :=
  (Z.of_nat (size (filter (λ kx, inactive (micros cutoff) kx.2 = true) (rsessions m))),
   set_rsessions m (update_where (inactive (micros cutoff)) (expire (micros now)) (rsessions m))).

Lemma CleanupInactiveSessions_refines σ m now0 now d :
  let cutoff := Add now0 (int64_wrap (- d)) in
  repr σ m → timestamp_ok (micros cutoff) = true → timestamp_ok (micros now) = true →
  refines (CleanupInactiveSessions now0 now d) σ
    ((spec_Cleanup m cutoff now).1, None) (spec_Cleanup m cutoff now).2.
Proof.
  intros cutoff Hr Hc Hnow. unfold CleanupInactiveSessions, refines, expire_sessions.
  fold cutoff. rewrite run_exec, exec_update by solve_documented.
  destruct (update_rows_spec session_rep (lookup_def postgresSchema "sessions")
              (bound <$> [Timestamptz cutoff; Timestamptz now])
              [("status", Lit (Text "expired")); ("closed_at", Param 2)]
              [Cond (Col "status") Eq (Lit (Text "active")); Cond (Col "last_active") Lt (Param 1)]
              (inactive (micros cutoff)) (expire (micros now)) (table σ "sessions") (rsessions m))
    as (tbl' & E & Ht').
  - apply Hr.
  - intros r s (doc & -> & _). unfold holds, inactive, Before. simpl. rewrite andb_true_r.
    f_equal. destruct (String.eqb_spec (Status s) "active") as [->|];
      [by rewrite bool_decide_eq_true_2|by rewrite bool_decide_eq_false_2].
  - intros r s (doc & -> & Hmd) _. exists (session_row (expire (micros now) s) doc).
    split; [done|by exists doc].
  - rewrite E. eexists. split; [reflexivity|].
    apply repr_sessions; [done|done|]. apply keyed_update; [apply Hr|done].
Qed.

(** ** Deleting from a table nothing refers to *)

Lemma repr_ext σ σ' m : (∀ t, table σ' t = table σ t) → repr σ m → repr σ' m.
Proof. intros H []. constructor; rewrite ?H; done. Qed.

Definition unreferenced (t : string) : Prop :=
  ∀ name gone r, references_any t gone (lookup_def postgresSchema name) r = false.

Lemma references_none t gone cs r :
  Forall (λ c, creferences c ≠ Some t) cs → references_any t gone cs r = false.
Proof.
  induction 1 as [|c cs Hc _ IH]; [done|]. unfold references_any in *. cbn [existsb].
  by rewrite IH, bool_decide_eq_false_2.
Qed.

Lemma unreferenced_not_sessions t : t ≠ "sessions" → unreferenced t.
Proof.
  intros Ht name gone r. apply references_none. unfold postgresSchema.
  cbn [lookup_def tname tcolumns].
  repeat (destruct (String.eqb _ name); [repeat constructor; simpl; congruence|]). constructor.
Qed.

Lemma delete_plain {X} (rep : row → X → Prop) t conds args σ (mm : gmap string X) (g : X → bool) :
  t ≠ "sessions" → forallb storable args = true → typed rep (table σ t) mm →
  (∀ r x, rep r x → holds (bound <$> args) conds r = g x) →
  ∃ tbl' σ', SQL.exec postgresSchema (Delete t conds) args σ
             = Ok (Z.of_nat (size (filter (λ kx, g kx.2 = true) mm)), σ')
    ∧ typed rep tbl' (filter (λ kx, g kx.2 = false) mm)
    ∧ ∀ n, table σ' n = table (<[t := tbl']> σ) n.
Proof.
  intros Hne Hs Ht Hg. rewrite exec_delete by done. do 2 eexists. split; [|split].
  - cbn zeta. do 3 f_equal. apply (typed_size rep), typed_filter; eauto.
  - apply typed_filter; [done|]. eauto.
  - intros n. rewrite table_cascade_same; [done|]. intros r. by apply unreferenced_not_sessions.
Qed.

(** ** Tunnels *)

Definition stored_tunnel (uuid : string) (now : Time) (t : Tunnel) (doc : string) : Tunnel :=
  mkTunnel (if bool_decide (TunID t = "") then uuid else TunID t) (TunSessionID t) (TunType t)
    (TunLocalAddr t) (TunRemoteAddr t) (micros now) None 0 0
    (if bool_decide (TunStatus t = "") then "active" else TunStatus t) (unmarshalJSONMap doc).

(** The session must exist. *)
Definition spec_CreateTunnel (m : rel) (t : Tunnel) : option error * rel :=
  match rtunnels m !! TunID t, rsessions m !! TunSessionID t with
  | Some _, _ => (Some (PgError (UniqueViolation "tunnels")), m)
  | None, None => (Some (PgError (ForeignKeyViolation "tunnels" "session_id")), m)
  | None, Some _ => (None, set_rtunnels m (<[TunID t := t]> (rtunnels m)))
  end.

Definition tunnel_storable (uuid : string) (now : Time) (t : Tunnel) : bool :=
  text_ok (if bool_decide (TunID t = "") then uuid else TunID t) && text_ok (TunSessionID t)
  && text_ok (TunType t) && text_ok (TunLocalAddr t) && text_ok (TunRemoteAddr t)
  && timestamp_ok (micros now)
  && text_ok (if bool_decide (TunStatus t = "") then "active" else TunStatus t).

(** The argument after a call. *)
Definition tunnel_arg (t0 : Tunnel) (now : Time) (t : Tunnel) : Tunnel :=
  mkTunnel (TunID t0) (TunSessionID t) (TunType t) (TunLocalAddr t) (TunRemoteAddr t) now
    (TunClosedAt t) (BytesSent t) (BytesRecv t) (TunStatus t0) (TunMetadata t).

Lemma CreateTunnel_refines σ m uuid now t doc :
  repr σ m → tunnel_storable uuid now t = true → stored_doc (TunMetadata t) = Some doc →
  let t0 := stored_tunnel uuid now t doc in
  refines (CreateTunnel uuid now t) σ ((spec_CreateTunnel m t0).1, tunnel_arg t0 now t)
    (spec_CreateTunnel m t0).2.
Proof.
  intros Hr Hok Hdoc t0. unfold tunnel_storable in Hok. bool_to_prop.
  destruct (stored_doc_spec _ _ Hdoc) as (data & Hm & Ht & Hj).
  unfold CreateTunnel, refines. cbn [TunMetadata]. rewrite Hm, run_exec by solve_documented. unfold insert_tunnel.
  rewrite (exec_insert _ _ _ _ _ _ _ (tunnel_row t0 doc)).
  2: { solve_storable. }
  2: { cbn. rewrite Hj. done. }
  cbn [key_of text_of tunnel_row]. unfold spec_CreateTunnel.
  destruct (rep_tunnels _ _ Hr (TunID t0)) as [r x Hrep|]; [by exists σ|].
  assert (check_references "tunnels" (lookup_def postgresSchema "tunnels") (tunnel_row t0 doc) σ
          = match table σ "sessions" !! TunSessionID t0 with
            | Some _ => None
            | None => Some (ForeignKeyViolation "tunnels" "session_id")
            end) as -> by done.
  destruct (rep_sessions _ _ Hr (TunSessionID t0)) as [r x Hrep|]; [|by exists σ].
  eexists. split; [reflexivity|]. apply repr_tunnels; [done| |apply keyed_insert, Hr].
  apply typed_insert; [apply Hr|]. exists doc. split_and!; done.
Qed.

Lemma scan_tunnel_rep r t : tunnel_rep r t → scan_tunnel (col r <$> tunnel_columns) = Ok t.
Proof.
  intros (doc & -> & Hmd & _). destruct t as [? ? ? ? ? ? [] ? ? ? ?]; simpl in *; by subst.
Qed.

Definition spec_GetTunnel (m : rel) (id : string) : result error Tunnel :=
  match rtunnels m !! id with Some t => Ok t | None => Err NotFound end.

Lemma GetTunnel_refines σ m id :
  repr σ m → text_ok id = true → refines (GetTunnel id) σ (spec_GetTunnel m id) m.
Proof.
  intros Hr Hid. exists σ. split; [|done]. unfold GetTunnel. rewrite run_query by solve_documented.
  unfold spec_GetTunnel.
  rewrite (query_by_key tunnel_rep TunID _ _ _ _ (rtunnels m)); [|done|apply Hr..|].
  2: { by intros r x (doc & -> & _). }
  destruct (rep_tunnels _ _ Hr id) as [r s Hs|]; [|done].
  unfold lookup_answer. cbn [first_row run]. by rewrite (scan_tunnel_rep _ _ Hs).
Qed.

(** The columns [UpdateTunnel] writes. *)
Definition updated_tunnel (t : Tunnel) (doc : string) (old : Tunnel) : Tunnel :=
  mkTunnel (TunID old) (TunSessionID old) (TunType old) (TunLocalAddr old) (TunRemoteAddr old)
    (TunCreatedAt old) (micros <$> TunClosedAt t) (BytesSent t) (BytesRecv t) (TunStatus t)
    (unmarshalJSONMap doc).

Definition spec_UpdateTunnel (m : rel) (t : Tunnel) (doc : string) : option error * rel :=
  let r := spec_alter (rtunnels m) (TunID t) (updated_tunnel t doc) in
  (r.1, set_rtunnels m r.2).

Definition tunnel_update_storable (t : Tunnel) : bool :=
  text_ok (TunID t) && text_ok (TunStatus t) && storable (time_ptr (TunClosedAt t))
  && bool_decide (in_int64 (BytesSent t)) && bool_decide (in_int64 (BytesRecv t)).

Lemma UpdateTunnel_refines σ m t doc :
  repr σ m → tunnel_update_storable t = true → stored_doc (TunMetadata t) = Some doc →
  refines (UpdateTunnel t) σ (spec_UpdateTunnel m t doc).1 (spec_UpdateTunnel m t doc).2.
Proof.
  intros Hr Hok Hdoc. unfold tunnel_update_storable in Hok.
  do 4 (apply andb_true_iff in Hok as [Hok ?]).
  destruct (stored_doc_spec _ _ Hdoc) as (data & Hm & Ht & Hj).
  unfold UpdateTunnel, refines. rewrite Hm, run_exec by solve_documented. unfold update_tunnel.
  edestruct (update_by_key tunnel_rep TunID "tunnels" "id") as (tbl' & E & Ht');
    [|apply (rep_tunnels _ _ Hr)|apply Hr| | |rewrite E].
  - solve_storable.
  - by intros r x (doc' & -> & _).
  - intros r x (doc' & -> & _ & Hbs & Hbr). instantiate (1 := updated_tunnel t doc).
    exists (tunnel_row (updated_tunnel t doc x) doc). split.
    + cbn. rewrite Hj. unfold updated_tunnel.
      rewrite H, H0. by destruct (TunClosedAt t).
    + exists doc. bool_to_prop. split_and!; done.
  - destruct (spec_alter_affected (rtunnels m) (TunID t) (updated_tunnel t doc)) as [Ha Hm'].
    eexists. cbn [run]. rewrite Ha. split; [reflexivity|].
    unfold spec_UpdateTunnel. cbn [snd]. rewrite <-Hm'.
    apply repr_tunnels; [done|done|]. apply keyed_alter; [apply Hr|done].
Qed.

(** [DeleteTunnel] *)
Definition spec_DeleteTunnel (m : rel) (id : string) : option error * rel :=
  match rtunnels m !! id with
  | None => (Some NotFound, m)
  | Some _ => (None, set_rtunnels m (delete id (rtunnels m)))
  end.

Lemma DeleteTunnel_refines σ m id :
  repr σ m → text_ok id = true →
  refines (DeleteTunnel id) σ (spec_DeleteTunnel m id).1 (spec_DeleteTunnel m id).2.
Proof.
  intros Hr Hid. unfold DeleteTunnel, refines. rewrite run_exec by solve_documented.
  destruct (delete_plain tunnel_rep "tunnels" (by_key "id") [Text id] σ (rtunnels m)
              (has_key TunID id)) as (tbl' & σ' & E & Ht & Hσ');
    [done|solve_storable|apply Hr| |rewrite E].
  { intros r t (doc & -> & _). by apply by_key_holds. }
  rewrite size_filter_key by apply Hr. rewrite filter_not_key in Ht by apply Hr.
  exists σ'. unfold spec_DeleteTunnel. split; [by destruct (rtunnels m !! id)|].
  assert (repr σ' (set_rtunnels m (delete id (rtunnels m)))) as Hrep.
  { eapply repr_ext; [done|]. apply repr_tunnels; [done|done|]. apply keyed_delete, Hr. }
  destruct (rtunnels m !! id) eqn:E'; [done|]. rewrite delete_id in Hrep by done. by destruct m.
Qed.

(** ** Listings *)

(** The conditions of a builder on a row, whatever arguments follow. *)
Definition means (b : builder) (r : row) (p : bool) : Prop :=
  index b = S (length (bargs b))
  ∧ ∀ extra, holds ((bound <$> bargs b) ++ extra) (conds b) r = p.

Lemma means_builder0 r : means builder0 r true.
Proof. done. Qed.

Lemma eval_param vs v extra r :
  eval ((bound <$> vs) ++ v :: extra) r (Param (S (length vs))) = v.
Proof.
  simpl. rewrite Nat.sub_0_r, app_nth2; rewrite length_fmap; [|lia]. by rewrite Nat.sub_diag.
Qed.

Lemma means_and b r p c o v :
  means b r p → means (and_cond c o v b) r (p && compare_values o (col r c) (bound v)).
Proof.
  intros [Hi Hp]. split.
  { simpl. rewrite length_app, Hi. simpl. lia. }
  intros extra. cbn [and_cond bargs conds]. rewrite fmap_app, <-app_assoc. cbn [app fmap list_fmap].
  specialize (Hp (bound v :: extra)). unfold holds in *. rewrite forallb_app, Hp. cbn [forallb op lhs rhs].
  rewrite Hi. cbn [eval]. rewrite andb_true_r. f_equal. f_equal.
  apply (eval_param (bargs b) (bound v) extra r).
Qed.

Lemma eqb_sym_decide (a b : string) : String.eqb a b = bool_decide (a = b).
Proof.
  destruct (String.eqb_spec a b); [by rewrite bool_decide_eq_true_2|by rewrite bool_decide_eq_false_2].
Qed.

(** An optional equality on a column is a criterion of the in-memory store. *)
Lemma means_when b r p c want have :
  means b r p → col r c = Text have →
  means (when (given want) (and_cond c Eq (Text want)) b) r (p && crit want have).
Proof.
  intros Hb Hc. unfold given, crit, when. case_bool_decide; simpl.
  - by rewrite andb_true_r.
  - pose proof (means_and _ _ _ c Eq (Text want) Hb) as H'. rewrite Hc in H'. simpl in H'.
    by rewrite eqb_sym_decide in H'.
Qed.

Lemma means_since b r p c o t (have : Time) :
  means b r p → col r c = Timestamptz have →
  means (when_time t (λ t, and_cond c o (Timestamptz t)) b) r
    (p && match t with Some t => compare_values o (Timestamptz have) (Timestamptz (micros t))
                     | None => true end).
Proof.
  intros Hb Hc. destruct t as [t|]; simpl; [|by rewrite andb_true_r].
  pose proof (means_and _ _ _ c o (Timestamptz t) Hb) as H'. by rewrite Hc in H'.
Qed.

(** What a listing answers: the values that satisfy its criteria, the newest first, and
    of those the page asked for. *)
Definition listed {X} (g : X → bool) (time : X → Time) (mm : gmap string X) (lim off : Z)
    (res : list X * option error) : Prop :=
  ∃ l, l ≡ₚ filter (λ x, g x = true) (map_to_list mm).*2
    ∧ StronglySorted (λ a b, time b <= time a)%Z l ∧ res = (page l lim off, None).

Lemma page_drop_take {A} (l : list A) lim off :
  page l lim off = (if (0 <? lim)%Z then take (Z.to_nat lim) else id)
                     ((if (0 <? off)%Z then drop (Z.to_nat off) else id) l).
Proof.
  unfold page. destruct (Z.ltb_spec 0 off).
  - rewrite Z.max_r by lia. by destruct (0 <? lim)%Z.
  - rewrite Z.max_l by lia. by destruct (0 <? lim)%Z.
Qed.

Lemma filter_ext_in {A} (f g : A → bool) (l : list A) :
  (∀ x, x ∈ l → f x = g x) → filter (λ x, f x = true) l = filter (λ x, g x = true) l.
Proof.
  induction l as [|x l IH]; intros H; [done|]. rewrite !filter_cons, (H x) by left.
  rewrite IH; [done|]. intros y Hy. apply H. by right.
Qed.

Lemma finish_query cols t order lim off b σ :
  index b = S (length (bargs b)) → forallb storable (bargs b) = true →
  let q := finish cols t order lim off b in
  (∀ k r extra, table σ t !! k = Some r →
     holds ((bound <$> bargs b) ++ extra) (conds b) r = holds (bound <$> bargs b) (conds b) r) →
  query q.1 q.2 σ
  = Ok ((λ r, col r <$> cols) <$>
        page (sort_by (λ r, - time_of (col r order))%Z
                (filter (λ r, holds (bound <$> bargs b) (conds b) r = true) (range (table σ t)).*2))
          lim off).
Proof.
  intros Hi Hs q Hext. rewrite page_drop_take. unfold q, finish. rewrite Hi.
  assert (Hf : ∀ extra, filter (λ r, holds ((bound <$> bargs b) ++ extra) (conds b) r = true)
                          (range (table σ t)).*2
               = filter (λ r, holds (bound <$> bargs b) (conds b) r = true) (range (table σ t)).*2).
  { intros extra. apply filter_ext_in. intros r [[k r'] [-> Hr]]%list_elem_of_fmap.
    apply elem_of_range in Hr. by apply (Hext k). }
  destruct (0 <? lim)%Z, (0 <? off)%Z; cbn [fst snd];
    rewrite query_storable by (rewrite ?forallb_app, ?Hs; done);
    cbn [from where_ order_desc offset limit what]; rewrite ?fmap_app, <-?app_assoc;
    cbn [fmap list_fmap bound app]; rewrite ?Hf; try done.
  - rewrite (eval_param (bargs b) (Int lim) [Int off]).
    pose proof (eval_param (bargs b ++ [Int lim]) (Int off) [] []) as He.
    rewrite fmap_app, length_app, <-app_assoc in He. simpl length in He.
    rewrite Nat.add_1_r in *. cbn [fmap list_fmap bound app] in He. by rewrite He.
  - by rewrite (eval_param (bargs b) (Int lim) []).
  - by rewrite (eval_param (bargs b) (Int off) []).
Qed.

Lemma scan_rows_ok {X} (rep : row → X → Prop) (dec : row → X) scan (cols : list string) rows :
  Forall (λ r, rep r (dec r)) rows → (∀ r x, rep r x → scan (col r <$> cols) = Ok x) →
  scan_rows scan ((λ r, col r <$> cols) <$> rows) = Ok (dec <$> rows).
Proof.
  intros Hall Hscan. induction Hall as [|r rows Hr _ IH]; [done|].
  csimpl. by rewrite (Hscan _ _ Hr), IH.
Qed.

Lemma page_fmap {A B} (f : A → B) l lim off : f <$> page l lim off = page (f <$> l) lim off.
Proof. unfold page. rewrite <-fmap_drop. destruct (0 <? lim)%Z; [by rewrite fmap_take|done]. Qed.

Lemma page_Forall {A} (P : A → Prop) l lim off : Forall P l → Forall P (page l lim off).
Proof. intros H. unfold page. destruct (0 <? lim)%Z; [apply Forall_take|]; by apply Forall_drop. Qed.

Lemma newest_first {X} (time : X → Time) l :
  StronglySorted (key_le (λ x, - time x)%Z) l → StronglySorted (λ a b, time b <= time a)%Z l.
Proof.
  induction 1 as [|x l _ IH Hx]; constructor; [done|].
  eapply Forall_impl; [exact Hx|]. intros y. unfold key_le. lia.
Qed.

(** A listing of a table answers as it should. *)
Lemma listing {X} `{Inhabited X} (rep : row → X → Prop) scan (g : X → bool) (time : X → Time)
    cols t order lim off b σ (mm : gmap string X) :
  typed rep (table σ t) mm → (∀ r x, rep r x → scan (col r <$> cols) = Ok x) →
  (∀ r x, rep r x → means b r (g x)) → (∀ r x, rep r x → col r order = Timestamptz (time x)) →
  index b = S (length (bargs b)) → forallb storable (bargs b) = true →
  let q := finish cols t order lim off b in
  listed g time mm lim off
    (all_rows scan (let* rows := query q.1 q.2 σ in Ok (rows, None))).
Proof.
  intros Ht Hscan Hm Htime Hi Hs q. unfold q. rewrite finish_query; [|done|done|].
  2: { intros k r extra Hk. destruct (typed_Some _ _ _ _ _ Ht Hk) as (x & _ & Hr).
       destruct (Hm _ _ Hr) as [_ He]. rewrite (He extra), <-(He []). by rewrite app_nil_r. }
  set (dec := λ r : row, match scan (col r <$> cols) with Ok x => x | Err _ => inhabitant end).
  assert (Hdec : ∀ r x, rep r x → dec r = x) by (intros r x Hr; unfold dec; by rewrite (Hscan _ _ Hr)).
  destruct (typed_rows rep dec Hdec _ _ (bound <$> bargs b) (conds b) g Ht) as [Hp Hall].
  { intros r x Hr. destruct (Hm _ _ Hr) as [_ He]. rewrite <-(He []). by rewrite app_nil_r. }
  set (rows := filter _ _) in *.
  destruct (typed_sorted rep dec (λ r, - time_of (col r order))%Z (λ x, - time x)%Z rows)
    as [Hsort Hall']; [done| |].
  { intros r x Hr. by rewrite (Htime _ _ Hr). }
  exists (dec <$> sort_by (λ r, - time_of (col r order))%Z rows). split_and!.
  - by rewrite sort_by_perm.
  - by apply newest_first.
  - unfold all_rows. rewrite (scan_rows_ok rep dec) by (try done; by apply page_Forall).
    by rewrite page_fmap.
Qed.

#[local] Instance Session_inhabited : Inhabited Session :=
  populate (mkSession "" "" "" "" 0 0 None "" None).
#[local] Instance Tunnel_inhabited : Inhabited Tunnel :=
  populate (mkTunnel "" "" "" "" "" 0 None 0 0 "" None).
#[local] Instance Audit_inhabited : Inhabited AuditEntry :=
  populate (mkAudit "" 0 "" "" "" "" "" "" "" None "").

Lemma finish_storable cols t order lim off b :
  forallb storable (finish cols t order lim off b).2 = forallb storable (bargs b).
Proof.
  unfold finish. destruct (0 <? lim)%Z, (0 <? off)%Z; cbn [snd];
    rewrite ?forallb_app; cbn; by rewrite ?andb_true_r.
Qed.

Lemma index_when (c : bool) x o v b :
  index b = S (length (bargs b)) →
  index (when c (and_cond x o v) b) = S (length (bargs (when c (and_cond x o v) b))).
Proof. intros H. destruct c; simpl; [|done]. rewrite length_app, H. simpl. lia. Qed.
Lemma index_when_time t x o b :
  index b = S (length (bargs b)) →
  index (when_time t (λ t, and_cond x o (Timestamptz t)) b)
  = S (length (bargs (when_time t (λ t, and_cond x o (Timestamptz t)) b))).
Proof. intros H. destruct t; simpl; [|done]. rewrite length_app, H. simpl. lia. Qed.

(** A bound on a time, as the in-memory store writes it. *)
Lemma since_bound (o : option Time) (have : Time) :
  match o with
  | Some t => compare_values Ge (Timestamptz have) (Timestamptz (micros t))
  | None => true
  end
  = match micros <$> o with Some since => negb (Before have since) | None => true end.
Proof. destruct o; simpl; [|done]. unfold Before. apply Z.leb_antisym. Qed.
Lemma until_bound (o : option Time) (have : Time) :
  match o with
  | Some t => compare_values Le (Timestamptz have) (Timestamptz (micros t))
  | None => true
  end
  = match micros <$> o with Some until => negb (After have until) | None => true end.
Proof. destruct o; simpl; [|done]. unfold After. apply Z.leb_antisym. Qed.

(** The listings fit the schema, whichever criteria are given. *)
Ltac solve_listing_fits lim off :=
  unfold finish, when, when_time; cbn [bargs conds index builder0 and_cond];
  destruct (Z.ltb_spec 0 lim) as [Hl|Hl], (Z.ltb_spec 0 off) as [Ho|Ho];
  [apply Z.lt_le_incl, Z.leb_le in Hl, Ho|apply Z.lt_le_incl, Z.leb_le in Hl
  |apply Z.lt_le_incl, Z.leb_le in Ho|]; repeat case_match;
  cbv -[Z.leb]; rewrite ?Hl, ?Ho; reflexivity.

Lemma session_query_fits f :
  select_fits postgresSchema (session_query f).2 (session_query f).1 = true.
Proof.
  destruct f as [? ? ? ? lim off]. unfold session_query.
  cbn [SFUsername SFStatus SFRemoteAddr SFSince SFLimit SFOffset]. solve_listing_fits lim off.
Qed.

Lemma tunnel_query_fits f :
  select_fits postgresSchema (tunnel_query f).2 (tunnel_query f).1 = true.
Proof.
  destruct f as [? ? ? lim off]. unfold tunnel_query.
  cbn [TFSessionID TFType TFStatus TFLimit TFOffset]. solve_listing_fits lim off.
Qed.

Lemma audit_query_fits f :
  select_fits postgresSchema (audit_query f).2 (audit_query f).1 = true.
Proof.
  destruct f as [? ? ? ? ? lim off]. unfold audit_query.
  cbn [AFUsername AFAction AFResult AFSince AFUntil AFLimit AFOffset]. solve_listing_fits lim off.
Qed.

(** The times of a filter are rounded like the columns. *)
Definition rounded_sessions (f : SessionFilter) : SessionFilter :=
  mkSessionFilter (SFUsername f) (SFStatus f) (micros <$> SFSince f) (SFRemoteAddr f)
    (SFLimit f) (SFOffset f).

Lemma ListSessions_refines σ m f :
  repr σ m → forallb storable (session_query f).2 = true →
  ∃ res, listed (session_matches (rounded_sessions f)) CreatedAt (rsessions m)
           (SFLimit f) (SFOffset f) res
    ∧ run postgresSchema (ListSessions f) [] σ = (res, σ).
Proof.
  intros Hr Hs. eexists. split.
  2: { unfold ListSessions. rewrite (surjective_pairing (session_query f)), run_query; [done|apply session_query_fits|done]. }
  unfold session_query in *. cbv zeta in *. rewrite finish_storable in Hs.
  apply (listing session_rep); [apply Hr|apply scan_session_rep| | | |done].
  - intros r s (doc & -> & _). unfold session_matches. cbn [rounded_sessions SFSince].
    rewrite <-since_bound. apply means_since; [|done].
    do 2 (apply means_when; [|done]).
    apply (means_when _ _ true); [apply means_builder0|done].
  - by intros r s (doc & -> & _).
  - apply index_when_time. by do 3 apply index_when.
Qed.

Definition rounded_audit (f : AuditFilter) : AuditFilter :=
  mkAuditFilter (AFUsername f) (AFAction f) (AFResult f) (micros <$> AFSince f)
    (micros <$> AFUntil f) (AFLimit f) (AFOffset f).

Lemma scan_audit_rep r e : audit_rep r e → scan_audit (col r <$> audit_columns) = Ok e.
Proof. intros (doc & -> & Hd). destruct e; simpl in *; by subst. Qed.

Lemma QueryAuditLog_refines σ m f :
  repr σ m → forallb storable (audit_query f).2 = true →
  ∃ res, listed (audit_matches (rounded_audit f)) Timestamp (raudit m)
           (AFLimit f) (AFOffset f) res
    ∧ run postgresSchema (QueryAuditLog f) [] σ = (res, σ).
Proof.
  intros Hr Hs. eexists. split.
  2: { unfold QueryAuditLog. rewrite (surjective_pairing (audit_query f)), run_query; [done|apply audit_query_fits|done]. }
  unfold audit_query in *. cbv zeta in *. rewrite finish_storable in Hs.
  apply (listing audit_rep); [apply Hr|apply scan_audit_rep| | | |done].
  - intros r s (doc & -> & _). unfold audit_matches. cbn [rounded_audit AFSince AFUntil].
    rewrite <-since_bound, <-until_bound. do 2 (apply means_since; [|done]).
    do 2 (apply means_when; [|done]).
    apply (means_when _ _ true); [apply means_builder0|done].
  - by intros r s (doc & -> & _).
  - do 2 apply index_when_time. by do 3 apply index_when.
Qed.

Lemma ListTunnels_refines σ m f :
  repr σ m → forallb storable (tunnel_query f).2 = true →
  ∃ res, listed (tunnel_matches f) TunCreatedAt (rtunnels m) (TFLimit f) (TFOffset f) res
    ∧ run postgresSchema (ListTunnels f) [] σ = (res, σ).
Proof.
  intros Hr Hs. eexists. split.
  2: { unfold ListTunnels. rewrite (surjective_pairing (tunnel_query f)), run_query; [done|apply tunnel_query_fits|done]. }
  unfold tunnel_query in *. cbv zeta in *. rewrite finish_storable in Hs.
  apply (listing tunnel_rep); [apply Hr|apply scan_tunnel_rep| | | |done].
  - intros r s (doc & -> & _). unfold tunnel_matches.
    do 2 (apply means_when; [|done]).
    apply (means_when _ _ true); [apply means_builder0|done].
  - by intros r s (doc & -> & _).
  - by do 3 apply index_when.
Qed.

(** [CountActiveSessions] *)
Definition active_of (username : string) (s : Session) : bool :=
  bool_decide (Username s = username) && bool_decide (Status s = "active").

Lemma CountActiveSessions_refines σ m username :
  repr σ m → text_ok username = true →
  refines (CountActiveSessions username) σ
    (Z.of_nat (length (filter (λ s, active_of username s = true) (map_to_list (rsessions m)).*2)),
     None) m.
Proof.
  intros Hr Hu. exists σ. split; [|done]. unfold CountActiveSessions. rewrite run_query by solve_documented.
  rewrite query_storable by solve_storable. unfold count_active.
  cbn [from where_ order_desc offset limit what run]. f_equal.
  set (dec := λ r : row, match scan_session (col r <$> session_columns) with
                         | Ok x => x | Err _ => inhabitant end).
  destruct (typed_rows session_rep dec) with (m := rsessions m) (tbl := table σ "sessions")
    (args := bound <$> [Text username]) (g := active_of username)
    (cs := [Cond (Col "username") Eq (Param 1); Cond (Col "status") Eq (Lit (Text "active"))])
    as [Hp _].
  - intros r x Hx. unfold dec. by rewrite (scan_session_rep _ _ Hx).
  - apply Hr.
  - intros r s (doc & -> & _). unfold holds, active_of. simpl. rewrite andb_true_r.
    by rewrite !eqb_sym_decide.
  - rewrite <-Hp, length_fmap. done.
Qed.

(** [DeleteTunnelsBySession] *)
Lemma DeleteTunnelsBySession_refines σ m id :
  repr σ m → text_ok id = true →
  ∃ ids, ids ≡ₚ TunID <$> filter (λ t, of_session id t = true) (map_to_list (rtunnels m)).*2
    ∧ refines (DeleteTunnelsBySession id) σ (Ok ids)
        (set_rtunnels m (filter (λ kt, of_session id kt.2 = false) (rtunnels m))).
Proof.
  intros Hr Hid. unfold DeleteTunnelsBySession, refines. rewrite run_query, query_storable by solve_documented.
  cbn [from where_ order_desc offset limit what].
  assert (Hg : ∀ r t, tunnel_rep r t →
    holds (bound <$> [Text id]) (by_key "session_id") r = of_session id t).
  { intros r t (doc & -> & _). unfold of_session. rewrite <-eqb_sym_decide. by apply by_key_holds. }
  set (dec := λ r : row, match scan_tunnel (col r <$> tunnel_columns) with
                         | Ok x => x | Err _ => inhabitant end).
  destruct (typed_rows tunnel_rep dec) with (m := rtunnels m) (tbl := table σ "tunnels")
    (args := bound <$> [Text id]) (g := of_session id) (cs := by_key "session_id") as [Hp Hall];
    [intros r x Hx; unfold dec; by rewrite (scan_tunnel_rep _ _ Hx)|apply Hr|done|].
  set (rows := filter _ _) in *.
  assert (Hscan : scan_rows (λ r, scan_string 0 (nth 0 r Null)) ((λ r, col r <$> ["id"]) <$> rows)
                  = Ok (TunID <$> (dec <$> rows))).
  { clear Hp. induction Hall as [|r l Hd _ IH]; [done|].
    rewrite !fmap_cons. cbn [scan_rows]. rewrite IH.
    destruct Hd as (doc & Hrow & _). rewrite Hrow at 1. done. }
  exists (TunID <$> (dec <$> rows)). split; [by rewrite Hp|].
  cbn [all_rows]. unfold all_rows. rewrite Hscan. cbn [fmap option_fmap option_map].
  rewrite run_exec by solve_documented.
  destruct (delete_plain tunnel_rep "tunnels" (by_key "session_id") [Text id] σ (rtunnels m)
              (of_session id)) as (tbl' & σ' & E & Ht & Hσ');
    [done|solve_storable|apply Hr|done|rewrite E].
  exists σ'. split; [done|]. eapply repr_ext; [done|].
  apply repr_tunnels; [done|done|]. apply keyed_filter, Hr.
Qed.

(** ** Attempts *)

Definition spec_GetAttempts (m : rel) (key : string) : Z :=
  match rlimits m !! key with Some l => lcount l | None => 0%Z end.

Lemma limit_by_name σ m key cs :
  repr σ m → text_ok key = true →
  (let* rows := query (mkSelect (Columns cs) "rate_limits" (by_key "name") None None None)
                  [Text key] σ in Ok (rows, None))
  = lookup_answer (rlimits m !! key) (λ l, col (limit_row l) <$> cs).
Proof.
  intros Hr Hk.
  rewrite (query_by_key limit_rep lname _ _ _ _ (rlimits m)); [|done|apply Hr..|].
  2: { by intros r x [-> _]. }
  destruct (rep_limits _ _ Hr key) as [r l [-> _]|]; done.
Qed.

Lemma GetAttempts_refines σ m key :
  repr σ m → text_ok key = true →
  refines (GetAttempts key) σ (spec_GetAttempts m key, None) m.
Proof.
  intros Hr Hk. exists σ. split; [|done]. unfold GetAttempts.
  rewrite run_query, (limit_by_name _ m) by (done || solve_documented). unfold spec_GetAttempts.
  by destruct (rlimits m !! key).
Qed.

(** The window starts again when its first attempt is older than the cutoff; the lock
    stays.  A count of 32 bits does not pass its maximum. *)
Definition next_limit (cutoff now : Time) (l : rate_limit) : rate_limit :=
  if (first_at l <? micros cutoff)%Z then mkLimit (lname l) 1 (micros now) (locked_until l)
  else mkLimit (lname l) (lcount l + 1) (first_at l) (locked_until l).

(** The row an attempt leaves. *)
Lemma attempt_row key cutoff now l :
  (- 2 ^ 31 <= lcount l < 2 ^ 31)%Z → lname l = key →
  store_row (lookup_def postgresSchema "rate_limits")
    (apply_sets (bound <$> [Text key; Timestamptz now; Timestamptz cutoff])
       [("count", first_at_expired (Lit (Int 1)) (Plus (Col "count") (Lit (Int 1))));
        ("first_at", first_at_expired (Param 2) (Col "first_at"))] (limit_row l))
  = if (lcount (next_limit cutoff now l) <? 2 ^ 31)%Z then Ok (limit_row (next_limit cutoff now l))
    else Err OutOfRange.
Proof.
  intros Hl <-. unfold apply_sets, first_at_expired, next_limit. cbn -[Z.ltb Z.pow Z.opp].
  destruct (first_at l <? micros cutoff)%Z; cbn -[Z.ltb Z.leb Z.pow Z.opp Z.add].
  - by destruct (locked_until l).
  - rewrite (proj2 (Z.leb_le (-2 ^ 31) (lcount l + 1))) by lia. cbn -[Z.ltb Z.pow Z.opp Z.add].
    destruct (lcount l + 1 <? 2 ^ 31)%Z; [|done]. by destruct (locked_until l).
Qed.

(** The counter after an attempt. *)
Definition bumped (m : rel) (cutoff now : Time) (key : string) : rate_limit :=
  match rlimits m !! key with
  | None => mkLimit key 1 (micros now) None
  | Some l => next_limit cutoff now l
  end.

Lemma upsert_attempt_refines σ m now cutoff key :
  repr σ m → text_ok key = true → timestamp_ok (micros cutoff) = true →
  timestamp_ok (micros now) = true →
  let r := SQL.exec postgresSchema upsert_attempt
             [Text key; Timestamptz now; Timestamptz cutoff] σ in
  let l := bumped m cutoff now key in
  if (lcount l <? 2 ^ 31)%Z
  then ∃ σ', r = Ok (1%Z, σ') ∧ repr σ' (set_rlimits m (<[key := l]> (rlimits m)))
  else r = Err OutOfRange.
Proof.
  intros Hr Hk Hc Hnow r. unfold r, bumped, upsert_attempt.
  rewrite (exec_insert _ _ _ _ _ _ _ (limit_row (mkLimit key 1 (micros now) None)));
    [|solve_storable|done].
  cbn [key_of text_of limit_row lname].
  assert (Hnew : ∀ l, lname l = key → (- 2 ^ 31 <= lcount l < 2 ^ 31)%Z →
    repr (<["rate_limits" := <[key := limit_row l]> (table σ "rate_limits")]> σ)
      (set_rlimits m (<[key := l]> (rlimits m)))).
  { intros l <- Hrange. apply repr_limits; [done|apply typed_insert; [apply Hr|done]|].
    apply keyed_insert, Hr. }
  pose proof (rep_limits _ _ Hr key) as Hrep. pose proof (key_limits _ _ Hr key) as Hkey.
  destruct Hrep as [r' l [-> Hl]|].
  - specialize (Hkey l eq_refl). rewrite attempt_row by done.
    assert (Hlo : (- 2 ^ 31 <= lcount (next_limit cutoff now l))%Z).
    { unfold next_limit. destruct (first_at l <? _)%Z; simpl; lia. }
    destruct (Z.ltb_spec (lcount (next_limit cutoff now l)) (2 ^ 31)) as [Hlt|Hge]; [|done].
    eexists. split; [done|]. apply Hnew; [|lia].
    unfold next_limit. by destruct (first_at l <? _)%Z.
  - eexists. split; [done|]. apply (Hnew (mkLimit key 1 (micros now) None)); [done|]. simpl. lia.
Qed.

Definition spec_IncrementAttempts (m : rel) (cutoff now : Time) (key : string)
    : (Z * option error) * rel :=
  let l := bumped m cutoff now key in
  if (lcount l <? 2 ^ 31)%Z
  then ((lcount l, None), set_rlimits m (<[key := l]> (rlimits m)))
  else ((0%Z, Some (PgError OutOfRange)), m).

Lemma IncrementAttempts_refines σ m now0 now key window :
  let cutoff := Add now0 (int64_wrap (- window)) in
  repr σ m → text_ok key = true → timestamp_ok (micros cutoff) = true →
  timestamp_ok (micros now) = true →
  let r := spec_IncrementAttempts m cutoff now key in
  refines (IncrementAttempts now0 now key window) σ r.1 r.2.
Proof.
  intros cutoff Hr Hk Hc Hnow. unfold IncrementAttempts, refines, spec_IncrementAttempts.
  fold cutoff. rewrite run_exec by solve_documented.
  pose proof (upsert_attempt_refines σ m now cutoff key Hr Hk Hc Hnow) as Hu. cbv zeta in Hu.
  destruct (lcount (bumped m cutoff now key) <? 2 ^ 31)%Z; [|rewrite Hu; by exists σ].
  destruct Hu as (σ' & -> & Hr'). cbn [sent].
  destruct (GetAttempts_refines σ' _ key Hr' Hk) as (σ'' & E & Hr''). exists σ''. split; [|done].
  rewrite E. unfold spec_GetAttempts. cbn. by rewrite lookup_insert_eq.
Qed.

Lemma ResetAttempts_refines σ m key :
  repr σ m → text_ok key = true →
  refines (ResetAttempts key) σ None (set_rlimits m (delete key (rlimits m))).
Proof.
  intros Hr Hk. unfold ResetAttempts, refines. rewrite run_exec by solve_documented.
  destruct (delete_plain limit_rep "rate_limits" (by_key "name") [Text key] σ (rlimits m)
              (has_key lname key)) as (tbl' & σ' & E & Ht & Hσ');
    [done|solve_storable|apply Hr| |rewrite E].
  { intros r t [-> _]. by apply by_key_holds. }
  rewrite filter_not_key in Ht by apply Hr. exists σ'. split; [done|].
  eapply repr_ext; [done|]. apply repr_limits; [done|done|]. apply keyed_delete, Hr.
Qed.

Definition spec_IsLocked (m : rel) (now : Time) (key : string) : bool :=
  match rlimits m !! key ≫= locked_until with Some until => Before now until | None => false end.

Lemma IsLocked_refines σ m now key d :
  repr σ m → text_ok key = true →
  refines (IsLocked now key d) σ (spec_IsLocked m now key, None) m.
Proof.
  intros Hr Hk. exists σ. split; [|done]. unfold IsLocked.
  rewrite run_query, (limit_by_name _ m) by (done || solve_documented). unfold spec_IsLocked.
  destruct (rlimits m !! key) as [l|]; [|done]. simpl. by destruct (locked_until l).
Qed.

Definition locked (key : string) (now until : Time) (o : option rate_limit) : rate_limit :=
  match o with
  | None => mkLimit key 0 (micros now) (Some (micros until))
  | Some l => mkLimit (lname l) (lcount l) (first_at l) (Some (micros until))
  end.

Lemma Lock_refines σ m now key d :
  repr σ m → text_ok key = true → timestamp_ok (micros now) = true →
  timestamp_ok (micros (Add now d)) = true →
  refines (Lock now key d) σ None
    (set_rlimits m (<[key := locked key now (Add now d) (rlimits m !! key)]> (rlimits m))).
Proof.
  intros Hr Hk Hnow Hu. unfold Lock, refines. rewrite run_exec by solve_documented. unfold upsert_lock.
  rewrite (exec_insert _ _ _ _ _ _ _ (limit_row (locked key now (Add now d) None)));
    [|solve_storable|done].
  cbn [key_of text_of limit_row lname locked].
  pose proof (rep_limits _ _ Hr key) as Hrep. pose proof (key_limits _ _ Hr key) as Hkey.
  destruct Hrep as [r l [-> Hl]|].
  - specialize (Hkey l eq_refl).
    assert (store_row (lookup_def postgresSchema "rate_limits")
             (apply_sets (bound <$> [Text key; Timestamptz now; Timestamptz (Add now d)])
                [("locked_until", Param 3)] (limit_row l))
            = Ok (limit_row (locked key now (Add now d) (Some l)))) as ->.
    { cbn -[Z.ltb Z.leb Z.pow Z.opp].
      by rewrite (proj2 (Z.leb_le _ _)), (proj2 (Z.ltb_lt _ _)) by lia. }
    eexists. split; [reflexivity|]. apply repr_limits; [done|apply typed_insert; [apply Hr|done]|].
    replace key with (lname (locked key now (Add now d) (Some l))) at 1 by done.
    apply keyed_insert, Hr.
  - eexists. split; [reflexivity|]. apply repr_limits; [done|apply typed_insert; [apply Hr|]|].
    + split; [done|]. simpl. lia.
    + replace key with (lname (locked key now (Add now d) None)) at 1 by done.
      apply keyed_insert, Hr.
Qed.

(** ** The audit log *)

Definition stored_audit (uuid : string) (now : Time) (e : AuditEntry) (doc : string) : AuditEntry :=
  mkAudit (if bool_decide (AuditID e = "") then uuid else AuditID e) (micros now)
    (CorrelationID e) (TraceID e) (Action e) (AuditUsername e) (AuditRole e) (Resource e)
    (Result e) (unmarshalJSONMap doc) (SourceIP e).

Definition spec_AppendAuditLog (m : rel) (e : AuditEntry) : option error * rel :=
  match raudit m !! AuditID e with
  | Some _ => (Some (PgError (UniqueViolation "audit_log")), m)
  | None => (None, set_raudit m (<[AuditID e := e]> (raudit m)))
  end.

Definition audit_storable (uuid : string) (now : Time) (e : AuditEntry) : bool :=
  text_ok (if bool_decide (AuditID e = "") then uuid else AuditID e) && timestamp_ok (micros now)
  && text_ok (CorrelationID e) && text_ok (TraceID e) && text_ok (Action e)
  && text_ok (AuditUsername e) && text_ok (AuditRole e) && text_ok (Resource e)
  && text_ok (Result e) && text_ok (SourceIP e).

Lemma AppendAuditLog_refines σ m uuid now e doc :
  repr σ m → audit_storable uuid now e = true → stored_doc (Details e) = Some doc →
  let e0 := stored_audit uuid now e doc in
  refines (AppendAuditLog uuid now e) σ
    ((spec_AppendAuditLog m e0).1,
     mkAudit (AuditID e0) now (CorrelationID e) (TraceID e) (Action e) (AuditUsername e)
       (AuditRole e) (Resource e) (Result e) (Details e) (SourceIP e))
    (spec_AppendAuditLog m e0).2.
Proof.
  intros Hr Hok Hdoc e0. unfold audit_storable in Hok. bool_to_prop.
  destruct (stored_doc_spec _ _ Hdoc) as (data & Hm & Ht & Hj).
  unfold AppendAuditLog, refines. cbn [Details]. rewrite Hm, run_exec by solve_documented.
  rewrite (exec_insert _ _ _ _ _ _ _ (audit_row e0 doc)).
  2: { solve_storable. }
  2: { cbn. rewrite Hj. done. }
  cbn [key_of text_of audit_row]. unfold spec_AppendAuditLog.
  destruct (rep_audit _ _ Hr (AuditID e0)) as [r x Hrep|]; [by exists σ|].
  eexists. split; [reflexivity|]. apply repr_audit; [done| |apply keyed_insert, Hr].
  apply typed_insert; [apply Hr|]. by exists doc.
Qed.

Lemma CleanupOldAuditLogs_refines σ m now d :
  let cutoff := Add now (int64_wrap (- d)) in
  let old := λ e, Before (Timestamp e) (micros cutoff) in
  repr σ m → timestamp_ok (micros cutoff) = true →
  refines (CleanupOldAuditLogs now d) σ
    (Z.of_nat (size (filter (λ ke, old ke.2 = true) (raudit m))), None)
    (set_raudit m (filter (λ ke, old ke.2 = false) (raudit m))).
Proof.
  intros cutoff old Hr Hc. unfold CleanupOldAuditLogs, refines. fold cutoff. rewrite run_exec by solve_documented.
  destruct (delete_plain audit_rep "audit_log" [Cond (Col "timestamp") Lt (Param 1)]
              [Timestamptz cutoff] σ (raudit m) old) as (tbl' & σ' & E & Ht & Hσ');
    [done|solve_storable|apply Hr| |rewrite E].
  { intros r e (doc & -> & _). unfold holds. simpl. apply andb_true_r. }
  exists σ'. split; [done|]. eapply repr_ext; [done|].
  apply repr_audit; [done|done|]. apply keyed_filter, Hr.
Qed.

End Spec.
End PostgresSpec.
