(* ===== verification/PostgresProps.v ===== *)
(** * Properties of the PostgreSQL store

    The operations as calls with replies: what sequences of them answer, what stays true
    of the tables, what happens when the server does not answer or others change the
    tables in between, and where the store agrees with the in-memory one. *)

From S2P Require Import Prelude GoStrings GoTime MemoryStore SQL PostgresStore PostgresSpec.

Module PostgresProps.
Import SQL MemoryStore PostgresStore PostgresSpec.

(** ** Calls *)

Inductive pg_call :=
| PCreateSession (uuid : string) (now : Time) (s : Session)
| PGetSession (id : string)
| PUpdateSession (now : Time) (s : Session)
| PDeleteSession (id : string)
| PListSessions (f : SessionFilter)
| PCountActiveSessions (username : string)
| PTouchSession (now : Time) (id : string)
| PCreateTunnel (uuid : string) (now : Time) (t : Tunnel)
| PGetTunnel (id : string)
| PUpdateTunnel (t : Tunnel)
| PDeleteTunnel (id : string)
| PListTunnels (f : TunnelFilter)
| PDeleteTunnelsBySession (id : string)
| PIncrementAttempts (now0 now : Time) (key : string) (window : Duration)
| PGetAttempts (key : string)
| PResetAttempts (key : string)
| PIsLocked (now : Time) (key : string) (d : Duration)
| PLock (now : Time) (key : string) (d : Duration)
| PAppendAuditLog (uuid : string) (now : Time) (e : AuditEntry)
| PQueryAuditLog (f : AuditFilter)
| PCleanupInactiveSessions (now0 now : Time) (d : Duration)
| PCleanupOldAuditLogs (now : Time) (d : Duration).

Inductive reply :=
| RUnit (e : option error)
| RSession (r : result error Session)
| RTunnel (r : result error Tunnel)
| RSessions (r : list Session * option error)
| RTunnels (r : list Tunnel * option error)
| RAudits (r : list AuditEntry * option error)
| RIDs (r : result error (list string))
| RCount (r : Z * option error)
| RLocked (r : bool * option error).

Definition reply_error (r : reply) : option error :=
  match r with
  | RUnit e => e
  | RSession (Err e) | RTunnel (Err e) | RIDs (Err e) => Some e
  | RSession (Ok _) | RTunnel (Ok _) | RIDs (Ok _) => None
  | RSessions (_, e) | RTunnels (_, e) | RAudits (_, e) => e
  | RCount (_, e) | RLocked (_, e) => e
  end.

Section Props.
Context `{MR : MapRange} `{PG : Postgres} `{JM : JSONMaps}.

Definition returning {A} (p : prog A) (f : A → reply) : prog reply := bind p (λ a, Ret (f a)).

Definition program (c : pg_call) : prog reply :=
  match c with
  | PCreateSession uuid now s => returning (CreateSession uuid now s) (λ r, RUnit r.1)
  | PGetSession id => returning (GetSession id) RSession
  | PUpdateSession now s => returning (UpdateSession now s) (λ r, RUnit r.1)
  | PDeleteSession id => returning (DeleteSession id) RUnit
  | PListSessions f => returning (ListSessions f) RSessions
  | PCountActiveSessions u => returning (CountActiveSessions u) RCount
  | PTouchSession now id => returning (TouchSession now id) RUnit
  | PCreateTunnel uuid now t => returning (CreateTunnel uuid now t) (λ r, RUnit r.1)
  | PGetTunnel id => returning (GetTunnel id) RTunnel
  | PUpdateTunnel t => returning (UpdateTunnel t) RUnit
  | PDeleteTunnel id => returning (DeleteTunnel id) RUnit
  | PListTunnels f => returning (ListTunnels f) RTunnels
  | PDeleteTunnelsBySession id => returning (DeleteTunnelsBySession id) RIDs
  | PIncrementAttempts now0 now key w => returning (IncrementAttempts now0 now key w) RCount
  | PGetAttempts key => returning (GetAttempts key) RCount
  | PResetAttempts key => returning (ResetAttempts key) RUnit
  | PIsLocked now key d => returning (IsLocked now key d) RLocked
  | PLock now key d => returning (Lock now key d) RUnit
  | PAppendAuditLog uuid now e => returning (AppendAuditLog uuid now e) (λ r, RUnit r.1)
  | PQueryAuditLog f => returning (QueryAuditLog f) RAudits
  | PCleanupInactiveSessions now0 now d => returning (CleanupInactiveSessions now0 now d) RCount
  | PCleanupOldAuditLogs now d => returning (CleanupOldAuditLogs now d) RCount
  end.

Lemma run_returning {A} (p : prog A) f es σ :
  run postgresSchema (returning p f) es σ
  = (f (run postgresSchema p es σ).1, (run postgresSchema p es σ).2).
Proof.
  unfold returning. revert es σ. induction p as [a|st args k IH|q args k IH]; intros es σ; [done|..].
  - simpl. destruct (exec_under _ _ _ _ _) as [r σ']. apply IH.
  - simpl. apply IH.
Qed.

(** ** What a call may answer *)

Definition cutoff_of (now : Time) (d : Duration) : Time := Add now (int64_wrap (- d)).

(** The document of the call is one the server takes. *)
Definition with_doc (v : JSONMap) (P : string → Prop) : Prop :=
  match stored_doc v with Some doc => P doc | None => False end.

Definition allowed (m : rel) (c : pg_call) (r : reply) (m' : rel) : Prop :=
  match c with
  | PCreateSession uuid now s =>
     with_doc (Metadata s) (λ doc,
       let o := spec_CreateSession m (stored_session uuid now s doc) in r = RUnit o.1 ∧ m' = o.2)
  | PGetSession id => r = RSession (spec_GetSession m id) ∧ m' = m
  | PUpdateSession now s =>
     with_doc (Metadata s) (λ doc,
       let o := spec_UpdateSession m now s doc in r = RUnit o.1 ∧ m' = o.2)
  | PDeleteSession id => let o := spec_DeleteSession m id in r = RUnit o.1 ∧ m' = o.2
  | PListSessions f =>
     ∃ l, listed (session_matches (rounded_sessions f)) CreatedAt (rsessions m)
            (SFLimit f) (SFOffset f) l ∧ r = RSessions l ∧ m' = m
  | PCountActiveSessions u =>
     r = RCount (Z.of_nat (length (filter (λ s, active_of u s = true)
                                     (map_to_list (rsessions m)).*2)), None) ∧ m' = m
  | PTouchSession now id => let o := spec_TouchSession m now id in r = RUnit o.1 ∧ m' = o.2
  | PCreateTunnel uuid now t =>
     with_doc (TunMetadata t) (λ doc,
       let o := spec_CreateTunnel m (stored_tunnel uuid now t doc) in r = RUnit o.1 ∧ m' = o.2)
  | PGetTunnel id => r = RTunnel (spec_GetTunnel m id) ∧ m' = m
  | PUpdateTunnel t =>
     with_doc (TunMetadata t) (λ doc,
       let o := spec_UpdateTunnel m t doc in r = RUnit o.1 ∧ m' = o.2)
  | PDeleteTunnel id => let o := spec_DeleteTunnel m id in r = RUnit o.1 ∧ m' = o.2
  | PListTunnels f =>
     ∃ l, listed (tunnel_matches f) TunCreatedAt (rtunnels m) (TFLimit f) (TFOffset f) l
          ∧ r = RTunnels l ∧ m' = m
  | PDeleteTunnelsBySession id =>
     ∃ ids, ids ≡ₚ TunID <$> filter (λ t, of_session id t = true) (map_to_list (rtunnels m)).*2
            ∧ r = RIDs (Ok ids)
            ∧ m' = set_rtunnels m (filter (λ kt, of_session id kt.2 = false) (rtunnels m))
  | PIncrementAttempts now0 now key w =>
     let o := spec_IncrementAttempts m (cutoff_of now0 w) now key in r = RCount o.1 ∧ m' = o.2
  | PGetAttempts key => r = RCount (spec_GetAttempts m key, None) ∧ m' = m
  | PResetAttempts key => r = RUnit None ∧ m' = set_rlimits m (delete key (rlimits m))
  | PIsLocked now key _ => r = RLocked (spec_IsLocked m now key, None) ∧ m' = m
  | PLock now key d =>
     r = RUnit None
     ∧ m' = set_rlimits m (<[key := locked key now (Add now d) (rlimits m !! key)]> (rlimits m))
  | PAppendAuditLog uuid now e =>
     with_doc (Details e) (λ doc,
       let o := spec_AppendAuditLog m (stored_audit uuid now e doc) in r = RUnit o.1 ∧ m' = o.2)
  | PQueryAuditLog f =>
     ∃ l, listed (audit_matches (rounded_audit f)) Timestamp (raudit m) (AFLimit f) (AFOffset f) l
          ∧ r = RAudits l ∧ m' = m
  | PCleanupInactiveSessions now0 now d =>
     let o := spec_Cleanup m (cutoff_of now0 d) now in r = RCount (o.1, None) ∧ m' = o.2
  | PCleanupOldAuditLogs now d =>
     let old e := Before (Timestamp e) (micros (cutoff_of now d)) in
     r = RCount (Z.of_nat (size (filter (λ ke, old ke.2 = true) (raudit m))), None)
     ∧ m' = set_raudit m (filter (λ ke, old ke.2 = false) (raudit m))
  end.

(** The server takes the arguments of a call. *)
Definition has_doc (v : JSONMap) : bool := bool_decide (is_Some (stored_doc v)).
Definition time_ok (t : Time) : bool := timestamp_ok (micros t).
Definition call_storable (c : pg_call) : bool :=
  match c with
  | PCreateSession uuid now s => session_storable uuid now s && has_doc (Metadata s)
  | PGetSession id | PDeleteSession id | PCountActiveSessions id | PGetTunnel id
  | PDeleteTunnel id | PDeleteTunnelsBySession id | PGetAttempts id | PResetAttempts id
  | PIsLocked _ id _ => text_ok id
  | PUpdateSession now s => update_storable now s && has_doc (Metadata s)
  | PListSessions f => forallb storable (session_query f).2
  | PTouchSession now id => text_ok id && time_ok now
  | PCreateTunnel uuid now t => tunnel_storable uuid now t && has_doc (TunMetadata t)
  | PUpdateTunnel t => tunnel_update_storable t && has_doc (TunMetadata t)
  | PListTunnels f => forallb storable (tunnel_query f).2
  | PIncrementAttempts now0 now key w => text_ok key && time_ok (cutoff_of now0 w) && time_ok now
  | PLock now key d => text_ok key && time_ok now && time_ok (Add now d)
  | PAppendAuditLog uuid now e => audit_storable uuid now e && has_doc (Details e)
  | PQueryAuditLog f => forallb storable (audit_query f).2
  | PCleanupInactiveSessions now0 now d => time_ok (cutoff_of now0 d) && time_ok now
  | PCleanupOldAuditLogs now d => time_ok (cutoff_of now d)
  end.

(** ** Refinement *)

(** A sequence of calls, each by itself on a server that answers. *)
Fixpoint run_calls (cs : list pg_call) (σ : db) : list reply * db :=
  match cs with
  | [] => ([], σ)
  | c :: cs =>
     let '(r, σ') := run postgresSchema (program c) [] σ in
     let '(rs, σ'') := run_calls cs σ' in (r :: rs, σ'')
  end.

Inductive allowed_calls : rel → list pg_call → list reply → rel → Prop :=
| allowed_nil m : allowed_calls m [] [] m
| allowed_cons m c r m' cs rs m'' :
   allowed m c r m' → allowed_calls m' cs rs m'' → allowed_calls m (c :: cs) (r :: rs) m''.

Lemma refines_allowed {A} (p : prog A) f σ a m m0 c :
  refines p σ a m → program c = returning p f → allowed m0 c (f a) m →
  ∃ m', repr (run postgresSchema (program c) [] σ).2 m'
        ∧ allowed m0 c (run postgresSchema (program c) [] σ).1 m'.
Proof.
  intros (σ' & E & Hrep) Hp Ha. rewrite Hp, run_returning, E. simpl. eauto.
Qed.

Lemma pure_allowed {A} (p : prog A) f σ m c a :
  run postgresSchema p [] σ = (a, σ) → repr σ m → program c = returning p f →
  allowed m c (f a) m →
  ∃ m', repr (run postgresSchema (program c) [] σ).2 m'
        ∧ allowed m c (run postgresSchema (program c) [] σ).1 m'.
Proof. intros E Hr Hp Ha. eapply refines_allowed; [by exists σ|done|done]. Qed.

Ltac by_refinement lem :=
  eapply refines_allowed; [|reflexivity|];
  [by apply lem|simpl; unfold with_doc; try match goal with H : _ = Some _ |- _ => rewrite H end; done].

Lemma call_refines σ m c :
  repr σ m → call_storable c = true →
  ∃ m', repr (run postgresSchema (program c) [] σ).2 m'
        ∧ allowed m c (run postgresSchema (program c) [] σ).1 m'.
Proof.
  intros Hr Hs. destruct c; cbn [call_storable] in Hs; unfold time_ok, has_doc in Hs.
  all: try (destruct (stored_doc _) as [doc|] eqn:Hd;
            [apply andb_true_iff in Hs as [Hs _]|rewrite andb_false_r in Hs; done]).
  all: bool_to_prop.
  - by_refinement CreateSession_refines.
  - by_refinement GetSession_refines.
  - by_refinement UpdateSession_refines.
  - by_refinement DeleteSession_refines.
  - destruct (ListSessions_refines σ m f) as (l & Hl & E); [done..|].
    eapply pure_allowed; [exact E|exact Hr|reflexivity|]. by exists l.
  - by_refinement CountActiveSessions_refines.
  - by_refinement TouchSession_refines.
  - by_refinement CreateTunnel_refines.
  - by_refinement GetTunnel_refines.
  - by_refinement UpdateTunnel_refines.
  - by_refinement DeleteTunnel_refines.
  - destruct (ListTunnels_refines σ m f) as (l & Hl & E); [done..|].
    eapply pure_allowed; [exact E|exact Hr|reflexivity|]. by exists l.
  - destruct (DeleteTunnelsBySession_refines σ m id) as (ids & Hids & E); [done..|].
    eapply refines_allowed; [exact E|reflexivity|]. by exists ids.
  - by_refinement IncrementAttempts_refines.
  - by_refinement GetAttempts_refines.
  - by_refinement ResetAttempts_refines.
  - by_refinement IsLocked_refines.
  - by_refinement Lock_refines.
  - by_refinement AppendAuditLog_refines.
  - destruct (QueryAuditLog_refines σ m f) as (l & Hl & E); [done..|].
    eapply pure_allowed; [exact E|exact Hr|reflexivity|]. by exists l.
  - by_refinement CleanupInactiveSessions_refines.
  - by_refinement CleanupOldAuditLogs_refines.
Qed.

Lemma calls_refine cs σ m :
  repr σ m → forallb call_storable cs = true →
  ∃ m', repr (run_calls cs σ).2 m' ∧ allowed_calls m cs (run_calls cs σ).1 m'.
Proof.
  revert σ m. induction cs as [|c cs IH]; intros σ m Hr Hs.
  { exists m. split; [done|constructor]. }
  simpl in Hs. apply andb_true_iff in Hs as [Hc Hs].
  destruct (call_refines σ m c Hr Hc) as (m1 & Hr1 & Ha). simpl.
  destruct (run postgresSchema (program c) [] σ) as [r σ1]. simpl in *.
  destruct (IH σ1 m1 Hr1 Hs) as (m2 & Hr2 & Ha2). destruct (run_calls cs σ1) as [rs σ2].
  exists m2. split; [done|]. by econstructor.
Qed.

Definition rel0 : rel := mkRel ∅ ∅ ∅ ∅.

Lemma repr_new : repr (create_tables ∅) rel0.
Proof.
  constructor; first [apply typed_empty|intros k x Hx; simpl in Hx; by rewrite lookup_empty in Hx].
Qed.

(** ** The references of the tunnels *)

Definition tunnels_have_sessions (m : rel) : Prop :=
  ∀ k t, rtunnels m !! k = Some t → is_Some (rsessions m !! TunSessionID t).

Lemma spec_alter_lookup {X} (mm : gmap string X) id h k :
  is_Some ((spec_alter mm id h).2 !! k) ↔ is_Some (mm !! k).
Proof.
  unfold spec_alter. destruct (mm !! id) eqn:E; [|done]. cbn [snd].
  destruct (decide (id = k)) as [<-|]; [by rewrite lookup_alter_eq, fmap_is_Some|].
  by rewrite lookup_alter_ne.
Qed.

Lemma spec_alter_Some {X} (mm : gmap string X) id h k y :
  (spec_alter mm id h).2 !! k = Some y → ∃ x, mm !! k = Some x ∧ (y = x ∨ y = h x).
Proof.
  unfold spec_alter. destruct (mm !! id) eqn:E; cbn [snd]; [|eauto].
  intros [(-> & x' & Hx & ->)|[_ Hy]]%lookup_alter_Some; eauto.
Qed.

Lemma alter_sessions_keep m id h :
  tunnels_have_sessions m →
  tunnels_have_sessions (set_rsessions m (spec_alter (rsessions m) id h).2).
Proof. intros H k t Ht. apply spec_alter_lookup. by apply (H k). Qed.

Lemma filter_tunnels_keep m (P : string * Tunnel → Prop) `{∀ x, Decision (P x)} :
  tunnels_have_sessions m → tunnels_have_sessions (set_rtunnels m (filter P (rtunnels m))).
Proof. intros Hm k t Ht. apply map_lookup_filter_Some in Ht as [Ht _]. by apply (Hm k). Qed.

Lemma allowed_tunnels m c r m' :
  tunnels_have_sessions m → allowed m c r m' → tunnels_have_sessions m'.
Proof.
  intros H. destruct c; cbn [allowed]; unfold with_doc; try destruct (stored_doc _) as [doc|];
    try (intros [_ ->]; try done); try done; try (by intros (l & _ & _ & ->)).
  - unfold spec_CreateSession. destruct (rsessions m !! _); [done|].
    intros k t Ht. cbn. apply lookup_insert_is_Some'. right. by apply (H k).
  - apply alter_sessions_keep, H.
  - unfold spec_DeleteSession. destruct (rsessions m !! id) eqn:E; [|done].
    intros k t Ht. cbn in *. apply map_lookup_filter_Some in Ht as [Ht Hne].
    unfold of_session in Hne. bool_to_prop. rewrite lookup_delete_ne by done. by apply (H k).
  - apply alter_sessions_keep, H.
  - unfold spec_CreateTunnel. destruct (rtunnels m !! _); [done|].
    destruct (rsessions m !! _) eqn:E; [|done]. intros k t Ht. cbn in *.
    apply lookup_insert_Some in Ht as [[_ <-]|[_ Ht]]; [eexists; exact E|by apply (H k)].
  - intros k t Ht. unfold spec_UpdateTunnel in Ht. cbn in Ht.
    apply spec_alter_Some in Ht as (t' & Ht' & [->| ->]); exact (H k t' Ht').
  - unfold spec_DeleteTunnel. destruct (rtunnels m !! id) eqn:E; [|done].
    intros k t Ht. cbn in *. apply lookup_delete_Some in Ht as [_ Ht]. by apply (H k).
  - intros (ids & _ & _ & ->). by apply filter_tunnels_keep.
  - unfold spec_IncrementAttempts. by destruct (_ <? _)%Z.
  - unfold spec_AppendAuditLog. by destruct (raudit m !! _).
  - intros k t Ht. unfold spec_Cleanup, update_where. cbn in *.
    rewrite lookup_fmap, fmap_is_Some. by apply (H k).
Qed.

Lemma allowed_calls_tunnels m cs rs m' :
  allowed_calls m cs rs m' → tunnels_have_sessions m → tunnels_have_sessions m'.
Proof. induction 1; eauto using allowed_tunnels. Qed.

(** ** Placeholders *)

Fixpoint expr_params (e : expr) : list nat :=
  match e with
  | Param n => [n]
  | Lit _ | Col _ => []
  | Plus a b => expr_params a ++ expr_params b
  | CaseWhen _ l r a b => expr_params l ++ expr_params r ++ expr_params a ++ expr_params b
  end.
Definition opt_params (e : option expr) : list nat :=
  match e with Some e => expr_params e | None => [] end.
Definition cond_params (c : cond) : list nat := expr_params (lhs c) ++ expr_params (rhs c).
Definition select_params (q : select) : list nat :=
  concat (cond_params <$> where_ q)
  ++ opt_params (limit q) ++ opt_params (offset q).

Lemma concat_snoc sep (l : list string) x :
  l ≠ [] → String.concat sep (l ++ [x]) = String.concat sep l +:+ sep +:+ x.
Proof.
  induction l as [|y l IH]; [done|]. intros _. destruct l as [|z l]; [done|].
  change (String.concat sep ((y :: z :: l) ++ [x]))
    with (y +:+ sep +:+ String.concat sep ((z :: l) ++ [x])).
  rewrite IH by done. change (String.concat sep (y :: z :: l))
    with (y +:+ sep +:+ String.concat sep (z :: l)).
  by rewrite !string_app_assoc.
Qed.

Lemma print_where_snoc cs c :
  cs ≠ [] → print_where (cs ++ [c]) = print_where cs +:+ " AND " +:+ print_cond c.
Proof.
  intros Hne. destruct cs as [|c0 cs]; [done|].
  change (print_where ((c0 :: cs) ++ [c]))
    with (" WHERE " +:+ String.concat " AND " (print_cond <$> ((c0 :: cs) ++ [c]))).
  rewrite fmap_app. cbn [fmap list_fmap]. rewrite concat_snoc by done.
  by rewrite !string_app_assoc.
Qed.

(** The text built so far is the text of the conditions built so far, and their
    placeholders are in order. *)
Record built (cols : list string) (t : string) (b : builder) (tb : text_builder) : Prop := {
  built_text : text tb = "SELECT " +:+ String.concat ", " cols +:+ " FROM " +:+ t
                         +:+ print_where (conds b);
  built_index : tindex tb = index b;
  built_nonempty : conds b ≠ [];
  built_next : index b = S (length (bargs b));
  built_params : concat (cond_params <$> conds b) = seq 1 (length (bargs b));
}.

Lemma built_and cols t b tb c o v :
  built cols t b tb → built cols t (and_cond c o v b) (and_text c (print_cmp o) tb).
Proof.
  intros [Ht Hi Hne Hn Hp]. constructor; cbn [and_cond and_text text tindex conds index bargs].
  - rewrite print_where_snoc, Ht by done. unfold print_cond. cbn [lhs rhs op print_expr].
    rewrite Hi. change " $" with (" " +:+ "$"). by rewrite !string_app_assoc.
  - by rewrite Hi.
  - by destruct (conds b).
  - rewrite length_app, Hn. simpl. lia.
  - rewrite fmap_app, concat_app, Hp, length_app, seq_app. simpl. do 2 f_equal. done.
Qed.

Lemma built_when cols t b tb c o v (flag : bool) :
  built cols t b tb →
  built cols t (when flag (and_cond c o v) b) (when_text flag (and_text c (print_cmp o)) tb).
Proof. intros H. destruct flag; [by apply built_and|done]. Qed.

Lemma built_when_time cols t b tb c o (u : option Time) :
  built cols t b tb →
  built cols t (when_time u (λ u, and_cond c o (Timestamptz u)) b)
    (when_text (is_given u) (and_text c (print_cmp o)) tb).
Proof. intros H. destruct u; [by apply built_and|done]. Qed.

Lemma built_finish cols t b tb order lim off :
  built cols t b tb →
  let q := finish cols t order lim off b in
  print_select q.1 = finish_text order (0 <? lim)%Z (0 <? off)%Z tb
  ∧ select_params q.1 = seq 1 (length q.2).
Proof.
  intros [Ht Hi Hne Hn Hp] q. unfold q, finish, finish_text, select_params, print_select.
  change " LIMIT $" with (" LIMIT " +:+ "$"). change " OFFSET $" with (" OFFSET " +:+ "$").
  destruct (0 <? lim)%Z, (0 <? off)%Z;
    cbn [fst snd what from where_ order_desc limit offset when_text text tindex opt_params
         expr_params print_expr];
    fold cond_params; rewrite ?Hp, ?Ht, ?Hi, ?Hn, ?length_app, ?seq_app, ?app_nil_r,
      ?string_app_nil_r, <-?app_assoc, <-?string_app_assoc; simpl;
    rewrite ?Nat.add_1_r; done.
Qed.

(** ** Other clients in between *)

(** An attempt on a key: the time and the cutoff its client computed. *)
Abbreviation attempt_at := (Time * Time)%type (only parsing).

(** What the statement of an attempt of another client does. *)
Definition bump (key : string) (σ : db) (u : attempt_at) : db :=
  match pg_exec postgresSchema upsert_attempt [Text key; Timestamptz u.1; Timestamptz u.2] σ with
  | Ok (_, σ') => σ'
  | Err _ => σ
  end.

(** The counter of a key after an attempt, and after several; [None] is no counter. *)
Definition attempted (key : string) (o : option rate_limit) (u : attempt_at) : rate_limit :=
  match o with
  | None => mkLimit key 1 (micros u.1) None
  | Some l => next_limit u.2 u.1 l
  end.
Definition attempts_made (key : string) (o : option rate_limit) (us : list attempt_at)
    : option rate_limit :=
  foldl (λ o u, Some (attempted key o u)) o us.

Definition count_of_limit (o : option rate_limit) : Z :=
  match o with Some l => lcount l | None => 0%Z end.

(** An attempt opens a window when there is no counter or its window is over. *)
Definition opens (o : option rate_limit) (u : attempt_at) : bool :=
  match o with None => true | Some l => (first_at l <? micros u.2)%Z end.

Definition put_limit (m : rel) (key : string) (o : option rate_limit) : rel :=
  match o with Some l => set_rlimits m (<[key := l]> (rlimits m)) | None => m end.

(** Every attempt is counted once: those since the one that opened the last window, and,
    when none of them opened one, all of them on top of the count there was. *)
Definition all_counted (key : string) (o : option rate_limit) (us : list attempt_at)
    (l : rate_limit) : Prop :=
  (∃ l0, o = Some l0 ∧ first_at l = first_at l0 ∧ Forall (λ u, opens o u = false) us
         ∧ lcount l = (lcount l0 + Z.of_nat (length us))%Z)
  ∨ ∃ xs u ys, us = xs ++ u :: ys ∧ opens (attempts_made key o xs) u = true
      ∧ first_at l = micros u.1
      ∧ Forall (λ y, opens (Some l) y = false) ys ∧ lcount l = (1 + Z.of_nat (length ys))%Z.

Lemma attempted_all_counted key o us u :
  (∃ l, attempts_made key o us = Some l ∧ all_counted key o us l) ∨ us = [] →
  all_counted key o (us ++ [u]) (attempted key (attempts_made key o us) u).
Proof.
  intros H. destruct (opens (attempts_made key o us) u) eqn:Eo.
  - right. exists us, u, []. split_and!; [done|done| |constructor|].
    all: destruct (attempts_made key o us) as [l|]; [|done]; cbn in Eo |- *;
      unfold next_limit; by rewrite Eo.
  - destruct (attempts_made key o us) as [l|] eqn:El; [|done].
    assert (Ea : attempted key (Some l) u
                 = mkLimit (lname l) (lcount l + 1) (first_at l) (locked_until l)).
    { cbn. unfold next_limit. cbn [opens] in Eo. by rewrite Eo. }
    rewrite Ea. destruct H as [(l' & [= <-] & [(l0 & -> & Hf & Hu & Hn)|Hx])| ->].
    + left. exists l0. cbn [first_at lcount]. split_and!; [done|done| |].
      * apply Forall_app. split; [done|]. constructor; [|done]. cbn [opens] in *. by rewrite <-Hf.
      * rewrite length_app. cbn [length]. lia.
    + destruct Hx as (xs & v & ys & -> & Hv & Hf & Hy & Hn). right.
      exists xs, v, (ys ++ [u]). cbn [first_at lcount]. split_and!; [|done|done| |].
      * by rewrite <-app_assoc.
      * apply Forall_app. split; [done|]. by constructor.
      * rewrite length_app. cbn [length]. lia.
    + cbn in El. subst o. left. exists l. cbn [first_at lcount app]. split_and!; [done|done| |].
      * by constructor.
      * cbn [length]. lia.
Qed.

Lemma attempts_all_counted key o us :
  us ≠ [] → ∃ l, attempts_made key o us = Some l ∧ all_counted key o us l.
Proof.
  induction us as [|u us IH] using rev_ind; [done|]. intros _.
  exists (attempted key (attempts_made key o us) u). split.
  - unfold attempts_made. by rewrite foldl_app.
  - apply attempted_all_counted. destruct us; [by right|]. left. by apply IH.
Qed.

Lemma attempted_count key o u :
  (lcount (attempted key o u) <= Z.max 0 (count_of_limit o) + 1)%Z.
Proof.
  destruct o as [l|]; [|done]. cbn [attempted count_of_limit]. unfold next_limit.
  destruct (_ <? _)%Z; cbn; lia.
Qed.

Definition attempt_ok (u : attempt_at) : bool := time_ok u.1 && time_ok u.2.

(** The statement of an attempt. *)
Lemma one_attempt key σ m u :
  repr σ m → text_ok key = true → attempt_ok u = true →
  (Z.max 0 (count_of_limit (rlimits m !! key)) + 1 < 2 ^ 31)%Z →
  pg_exec postgresSchema upsert_attempt [Text key; Timestamptz u.1; Timestamptz u.2] σ
    = Ok (1%Z, bump key σ u)
  ∧ repr (bump key σ u) (put_limit m key (Some (attempted key (rlimits m !! key) u))).
Proof.
  intros Hr Hk Hw Hn. unfold attempt_ok, time_ok in Hw. bool_to_prop. unfold bump.
  rewrite exec_documented by solve_documented.
  pose proof (upsert_attempt_refines σ m u.1 u.2 key) as Hu. cbv zeta in Hu.
  change (bumped m u.2 u.1 key) with (attempted key (rlimits m !! key) u) in Hu.
  pose proof (attempted_count key (rlimits m !! key) u).
  rewrite (proj2 (Z.ltb_lt _ _)) in Hu by lia. by destruct Hu as (σ' & -> & Hr').
Qed.

Lemma put_limit_lookup m key o :
  rlimits (put_limit m key o) !! key = match o with Some l => Some l | None => rlimits m !! key end.
Proof. destruct o; [|done]. cbn. by rewrite lookup_insert_eq. Qed.

Lemma put_limit_twice m key o l : put_limit (put_limit m key o) key (Some l) = put_limit m key (Some l).
Proof. destruct o; [|done]. cbn. unfold set_rlimits. cbn. by rewrite insert_insert_eq. Qed.

Lemma many_attempts key us σ m :
  repr σ m → text_ok key = true → forallb attempt_ok us = true →
  (Z.max 0 (count_of_limit (rlimits m !! key)) + Z.of_nat (length us) < 2 ^ 31)%Z →
  repr (foldl (bump key) σ us) (put_limit m key (attempts_made key (rlimits m !! key) us))
  ∧ (count_of_limit (attempts_made key (rlimits m !! key) us)
     <= Z.max 0 (count_of_limit (rlimits m !! key)) + Z.of_nat (length us))%Z.
Proof.
  intros Hr Hk. induction us as [|u us IH] using rev_ind; intros Hus Hn.
  { cbn. split; [|lia]. destruct (rlimits m !! key) eqn:E; [|done].
    cbn. rewrite insert_id by done. by destruct m. }
  rewrite forallb_app in Hus. cbn [forallb] in Hus. rewrite length_app in Hn. cbn [length] in Hn.
  apply andb_true_iff in Hus as [Hus Hu]. rewrite andb_true_r in Hu.
  destruct (IH Hus ltac:(lia)) as [Hr' Hc]. rewrite foldl_app. cbn [foldl].
  unfold attempts_made at 1 2. rewrite foldl_app. cbn [foldl].
  fold (attempts_made key (rlimits m !! key) us). set (o := attempts_made _ _ us) in *.
  assert (Ho : rlimits (put_limit m key o) !! key = o).
  { rewrite put_limit_lookup. destruct o eqn:Eo; [done|]. unfold o in Eo.
    destruct us using rev_ind; [done|]. unfold attempts_made in Eo. by rewrite foldl_app in Eo. }
  destruct (one_attempt key _ _ u Hr' Hk Hu) as [_ Hr2].
  { rewrite Ho. lia. }
  rewrite Ho, put_limit_twice in Hr2. split; [done|].
  pose proof (attempted_count key o u). cbn [count_of_limit]. rewrite length_app. cbn [length]. lia.
Qed.

End Props.
(** ** The in-memory store with the same contents *)

Definition to_attempt (l : rate_limit) : attemptEntry :=
  mkAttempt (lcount l) (first_at l) (locked_until l).

Definition same_contents (ms : MemoryStore.t) (m : rel) : Prop :=
  sessions ms = rsessions m ∧ tunnels ms = rtunnels m ∧ attempts ms = to_attempt <$> rlimits m
  ∧ auditLog ms ≡ₚ (map_to_list (raudit m)).*2.

(** The lengths are ones of Go's slices and maps. *)
Definition sizes_fit (ms : MemoryStore.t) : Prop :=
  (Z.of_nat (size (sessions ms)) <= max_int64)%Z
  ∧ (Z.of_nat (size (tunnels ms)) <= max_int64)%Z
  ∧ (Z.of_nat (length (auditLog ms)) <= max_int64)%Z.

(** Two answers to a listing: the same entries that match, in the memory store's order
    and newest first; of each the page of the limit and the offset.  [None] is the panic
    of the memory store when [offset+limit] overflows. *)
Definition same_listing {X} (time : X → Time) (lim off : Z) (mem : option (list X))
    (pg : list X * option error) : Prop :=
  ∃ l l', l ≡ₚ l' ∧ StronglySorted (λ a b, time b <= time a)%Z l'
    ∧ mem = (if window_overflows l lim off then None else Some (page l lim off))
    ∧ pg = (page l' lim off, None).

(** Without a page they are the same entries. *)
Lemma same_listing_all {X} (time : X → Time) lim off (mem : option (list X)) pg :
  same_listing time lim off mem pg → (lim <= 0)%Z → (off <= 0)%Z →
  ∃ l, mem = Some l ∧ pg.2 = None ∧ pg.1 ≡ₚ l.
Proof.
  intros (l & l' & Hp & _ & -> & ->) Hl Ho. exists l. unfold window_overflows, page.
  rewrite (proj2 (Z.ltb_ge 0 lim)), Z.max_l, andb_false_r by lia. by split_and!.
Qed.

Lemma listing_agrees {X} (time : X → Time) (g : X → bool) (clone : X → X) (l : list X)
    (mm : gmap string X) lim off pg :
  (∀ x, clone x = x) → l ≡ₚ (map_to_list mm).*2 → (Z.of_nat (length l) <= max_int64)%Z →
  in_int64 lim → in_int64 off → listed g time mm lim off pg →
  same_listing time lim off (applyWindow (clone <$> filter (λ x, g x) l) lim off) pg.
Proof.
  intros Hc Hp Hn Hl Ho (l' & Hp' & Hs & ->). rewrite fmap_clone by done.
  exists (filter (λ x, g x) l), l'. split_and!; [|done| |done].
  - rewrite Hp', <-Hp. by rewrite (list_filter_iff _ (λ x, g x = true)) by (intros x; apply Is_true_true).
  - apply applyWindow_spec; [done|done|].
    eapply Z.le_trans; [apply inj_le, length_filter|done].
Qed.

Lemma length_range_values `{MapRange} {V} (m : gmap string V) : length (range m).*2 = size m.
Proof. by rewrite length_fmap, length_range. Qed.

(** ** Examples *)

(** Documents without fields. *)
#[local] Instance demo_maps : JSONMaps :=
  {| marshal_map _ := Ok "{}"; unmarshal_map _ := Some ∅ |}.

(** A time of year 2024. *)
Definition demo_now : Time := (days_of_civil 2024 5 1 * nanoseconds_per_day)%Z.

Definition demo_calls : list pg_call :=
  [PCreateSession "u1" demo_now (mkSession "" "ana" "operator" "10.0.0.1:99" 0 0 None "" None);
   PCreateTunnel "t1" demo_now (mkTunnel "" "u1" "local" "a" "b" 0 None 7 7 "" None);
   PCreateTunnel "t2" demo_now (mkTunnel "" "u2" "local" "a" "b" 0 None 0 0 "" None);
   PIncrementAttempts demo_now demo_now "ana" Minute;
   PIncrementAttempts demo_now demo_now "ana" Minute;
   PGetTunnel "t1"; PCountActiveSessions "ana";
   PAppendAuditLog "e1" demo_now (mkAudit "" 0 "" "" "login" "ana" "operator" "" "ok" None "")].

(** The replies: the second tunnel is refused, and the attempts are counted. *)
Example demo_replies :
  (run_calls demo_calls (create_tables ∅)).1
  = [RUnit None; RUnit None;
     RUnit (Some (PgError (ForeignKeyViolation "tunnels" "session_id")));
     RCount (1%Z, None); RCount (2%Z, None);
     RTunnel (Ok (mkTunnel "t1" "u1" "local" "a" "b" demo_now None 0 0 "active" (Some ∅)));
     RCount (1%Z, None); RUnit None].
Proof. by vm_compute. Qed.

Definition demo_db : db := (run_calls demo_calls (create_tables ∅)).2.

(** A tunnel that another client creates between the two statements of
    [DeleteTunnelsBySession] is deleted, and is not among the ids it returns. *)
Example deleted_but_not_reported :
  let late σ := (run postgresSchema
    (CreateTunnel "t3" demo_now (mkTunnel "" "u1" "local" "a" "b" 0 None 0 0 "" None)) [] σ).2 in
  let res := run postgresSchema (DeleteTunnelsBySession "u1") [quiet; mkEvent late Answered] demo_db in
  is_Some (table (late demo_db) "tunnels" !! "t3")
  ∧ res.1 = Ok ["t1"] ∧ table res.2 "tunnels" = ∅.
Proof. vm_compute. split; [by eexists|]. split; reflexivity. Qed.

(** Two different configurations with the same source name: a value is written as it
    is, so a space in it starts another parameter. *)
Example dsn_is_not_quoted :
  let c1 := mkPostgresConfig "h" 5432 "e" "u" "x dbname=d" "require" 10 in
  let c2 := mkPostgresConfig "h" 5432 "d dbname=e" "u" "x" "require" 10 in
  Password c1 ≠ Password c2 ∧ dsn c1 = dsn c2.
Proof. done. Qed.

(** When the window starts again the PostgreSQL store keeps the lock of the key; the
    in-memory store forgets it. *)
Lemma lock_when_the_window_restarts `{MapRange} `{Postgres} (m : rel) (ms : MemoryStore.t) key l
    cutoff now window :
  rlimits m !! key = Some l → (first_at l < micros cutoff)%Z →
  attempts ms !! key = Some (to_attempt l) → (window < Sub now (first_at l))%Z →
  locked_until (bumped m cutoff now key) = locked_until l
  ∧ ∀ t d, MemoryStore.IsLocked (MemoryStore.IncrementAttempts ms now key window).2 t key d = false.
Proof.
  intros Hl Hc Ha Hw. split.
  - unfold bumped, next_limit. rewrite Hl. by rewrite (proj2 (Z.ltb_lt _ _)).
  - intros t d. unfold MemoryStore.IncrementAttempts. rewrite Ha. cbn [firstAt to_attempt].
    rewrite (proj2 (Z.ltb_lt _ _)) by done. unfold MemoryStore.IsLocked. cbn.
    by rewrite lookup_insert_eq.
Qed.

(** ** The properties *)

(** C5: From new tables, every sequence of operations whose arguments the server takes
    gives the replies and the state that the specification of the store allows: each
    operation's result on every branch, [ErrNotFound] included, and its effect. *)
Theorem postgres_refines_spec `{MR : MapRange} `{PG : Postgres} `{JM : JSONMaps}
    (cs : list pg_call) :
  forallb call_storable cs = true →
  let res := run_calls cs (create_tables ∅) in
  ∃ m, repr res.2 m ∧ allowed_calls rel0 cs res.1 m.
Proof. intros Hs res. by apply calls_refine; [apply repr_new|]. Qed.

Lemma postgres_refines_spec_witness :
  ∃ m, repr demo_db m
       ∧ allowed_calls rel0 demo_calls (run_calls demo_calls (create_tables ∅)).1 m.
Proof. apply (postgres_refines_spec demo_calls). vm_compute. reflexivity. Defined.

(** In every state that operations lead to, the session of each tunnel exists: tunnels
    are created only for existing sessions and go with their session. *)
Lemma postgres_tunnels_have_sessions `{MR : MapRange} `{PG : Postgres} `{JM : JSONMaps}
    (cs : list pg_call) (k : string) (r : list (string * value)) :
  forallb call_storable cs = true →
  let σ := (run_calls cs (create_tables ∅)).2 in
  table σ "tunnels" !! k = Some r →
  is_Some (table σ "sessions" !! text_of (col r "session_id")).
Proof.
  intros Hs σ Hr. destruct (calls_refine cs _ _ repr_new Hs) as (m & Hrep & Ha). fold σ in Hrep.
  apply allowed_calls_tunnels in Ha; [|intros k' t Ht; simpl in Ht; by rewrite lookup_empty in Ht].
  destruct (typed_Some _ _ _ _ _ (rep_tunnels _ _ Hrep) Hr) as (t & Ht & doc & -> & _).
  destruct (Ha k t Ht) as [s Hs'].
  destruct (typed_Some_r _ _ _ _ _ (rep_sessions _ _ Hrep) Hs') as (r' & Hr' & _). by exists r'.
Qed.

Lemma postgres_tunnels_have_sessions_witness :
  ∃ r, is_Some (table demo_db "sessions" !! text_of (col r "session_id")).
Proof.
  eexists. apply (postgres_tunnels_have_sessions demo_calls "t1"); vm_compute; reflexivity.
Defined.

(** The text of a listing query says only which criteria are given, whatever their
    values; its placeholders are [$1] to [$n] in order and the arguments are [n] values,
    so no value of a filter becomes part of the query. *)
Lemma listings_are_parameterized (sf : SessionFilter) (tf : TunnelFilter) (af : AuditFilter) :
  (print_select (session_query sf).1
   = session_text (given (SFUsername sf)) (given (SFStatus sf)) (given (SFRemoteAddr sf))
       (is_given (SFSince sf)) (0 <? SFLimit sf)%Z (0 <? SFOffset sf)%Z
   ∧ select_params (session_query sf).1 = seq 1 (length (session_query sf).2))
  ∧ (print_select (tunnel_query tf).1
     = tunnel_text (given (TFSessionID tf)) (given (TFType tf)) (given (TFStatus tf))
         (0 <? TFLimit tf)%Z (0 <? TFOffset tf)%Z
     ∧ select_params (tunnel_query tf).1 = seq 1 (length (tunnel_query tf).2))
  ∧ (print_select (audit_query af).1
     = audit_text (given (AFUsername af)) (given (AFAction af)) (given (AFResult af))
         (is_given (AFSince af)) (is_given (AFUntil af)) (0 <? AFLimit af)%Z (0 <? AFOffset af)%Z
     ∧ select_params (audit_query af).1 = seq 1 (length (audit_query af).2)).
Proof.
  split; [|split]; apply built_finish.
  - apply built_when_time. do 3 apply built_when. by constructor.
  - do 3 apply built_when. by constructor.
  - do 2 apply built_when_time. do 3 apply built_when. by constructor.
Qed.

(** C38: When the server cannot be reached every operation leaves the tables as they are
    and returns the driver's error, except [IsLocked], which answers that the key is not
    locked and reports no error. *)
Theorem unreachable_server `{MR : MapRange} `{PG : Postgres} `{JM : JSONMaps}
    (c : pg_call) (err : string) (σ : db) :
  call_storable c = true →
  let res := run postgresSchema (program c) [mkEvent id (Unsent err)] σ in
  res.2 = σ
  ∧ match c with
    | PIsLocked _ _ _ => res.1 = RLocked (false, None)
    | _ => reply_error res.1 = Some (PgError (Driver err))
    end.
Proof.
  intros Hs res. unfold res. destruct c; cbn [call_storable] in Hs; try done.
  all: try by (cbn [program]; unfold ListSessions, ListTunnels, QueryAuditLog;
               rewrite (surjective_pairing (_ f))).
  all: unfold has_doc in Hs;
    (destruct (stored_doc _) as [doc|] eqn:Hd; [|by rewrite andb_false_r in Hs]);
    destruct (stored_doc_spec _ _ Hd) as (data & Hm & _);
    cbn [program]; unfold CreateSession, UpdateSession, CreateTunnel, UpdateTunnel, AppendAuditLog;
    cbn [Metadata with_LastActive TunMetadata Details]; by rewrite Hm.
Qed.

Lemma unreachable_server_witness :
  let res := run postgresSchema (program (PIsLocked demo_now "ana" 0))
               [mkEvent id (Unsent "connection refused")] demo_db in
  res.2 = demo_db ∧ res.1 = RLocked (false, None).
Proof.
  apply (unreachable_server (PIsLocked demo_now "ana" 0) "connection refused" demo_db).
  vm_compute. reflexivity.
Defined.

(** C27: Attempts of other clients on the same key, before and between the two statements
    of [IncrementAttempts], whatever their times: the counter ends as when all of them
    were made one after the other, and the reply is its count.  Each attempt since the
    one that opened the window (the first of the key, or the first after the window
    ended) is counted once, and when none opened one, each adds to the count there was.
    The times are ones the column can store and the count stays below its 2^31. *)
Theorem attempts_are_not_lost `{MR : MapRange} `{PG : Postgres} `{JM : JSONMaps}
    (σ : db) (m : rel) (key : string) (now0 now : Time) (window : Duration)
    (before_ between : list (Time * Time)) :
  let o := rlimits m !! key in
  let own := (now, cutoff_of now0 window) in
  let us := before_ ++ own :: between in
  repr σ m → text_ok key = true → forallb attempt_ok us = true →
  (Z.max 0 (count_of_limit o) + Z.of_nat (length us) < 2 ^ 31)%Z →
  let res := run postgresSchema (IncrementAttempts now0 now key window)
               [mkEvent (λ σ, foldl (bump key) σ before_) Answered;
                mkEvent (λ σ, foldl (bump key) σ between) Answered] σ in
  ∃ l, res.1 = (lcount l, None) ∧ repr res.2 (put_limit m key (Some l))
       ∧ attempts_made key o us = Some l ∧ all_counted key o us l.
Proof.
  intros o own us Hr Hk Hus Hn res.
  destruct (attempts_all_counted key o us) as (l & Hl & Hall); [by destruct before_|].
  exists l. rewrite (and_assoc (res.1 = _)). split; [|done].
  destruct (many_attempts key us σ m Hr Hk Hus Hn) as [Hend _]. fold o in Hend. rewrite Hl in Hend.
  assert (Hpre : forallb attempt_ok before_ = true ∧ attempt_ok own = true).
  { unfold us in Hus. rewrite forallb_app in Hus. cbn [forallb] in Hus. by bool_to_prop. }
  assert (Hlen : length us = (length before_ + S (length between))%nat).
  { unfold us. by rewrite length_app. }
  destruct (many_attempts key before_ σ m Hr Hk (proj1 Hpre)) as [Hbef Hcnt]; [fold o; lia|].
  set (σ1 := foldl (bump key) σ before_) in *.
  destruct (one_attempt key σ1 _ own Hbef Hk (proj2 Hpre)) as [Hown _].
  { rewrite put_limit_lookup. fold o in Hcnt |- *. destruct (attempts_made key o before_); cbn in *; lia. }
  unfold us in Hend. rewrite foldl_app in Hend. cbn [foldl] in Hend. fold σ1 in Hend.
  unfold res, IncrementAttempts. fold (cutoff_of now0 window).
  rewrite run_exec_event. cbn [others]. fold σ1. cbn [fst snd own] in Hown. rewrite Hown. cbn [sent tl].
  unfold GetAttempts at 1 2. rewrite run_query_event. cbn [others tl]. fold (GetAttempts key).
  destruct (GetAttempts_refines _ _ key Hend Hk) as (σ3 & -> & Hr3). cbn [fst snd].
  split; [|done]. unfold spec_GetAttempts. by rewrite put_limit_lookup.
Qed.

(** The first attempt of a key, with one of another client before it; and one after the
    window of the first two is over, with another client's in between. *)
Lemma attempts_are_not_lost_witness :
  let later := Add demo_now (2 * Minute) in
  let first := run postgresSchema (IncrementAttempts demo_now demo_now "ana" Minute)
     [mkEvent (λ σ, foldl (bump "ana") σ [(demo_now, demo_now)]) Answered;
      mkEvent (λ σ, foldl (bump "ana") σ []) Answered] (create_tables ∅) in
  let second := run postgresSchema (IncrementAttempts later later "ana" Minute)
     [mkEvent (λ σ, foldl (bump "ana") σ []) Answered;
      mkEvent (λ σ, foldl (bump "ana") σ [(later, later)]) Answered] first.2 in
  first.1 = (2%Z, None) ∧ second.1 = (2%Z, None).
Proof.
  intros later first second.
  destruct (attempts_are_not_lost (create_tables ∅) rel0 "ana" demo_now demo_now Minute
              [(demo_now, demo_now)] [] repr_new) as (l & E & Hr & Hl & _);
    [vm_compute; reflexivity..|].
  fold first in E, Hr. vm_compute in Hl. injection Hl as <-.
  destruct (attempts_are_not_lost first.2 _ "ana" later later Minute [] [(later, later)] Hr)
    as (l2 & E2 & _ & Hl2 & _); [vm_compute; reflexivity..|].
  fold second in E2. vm_compute in Hl2. injection Hl2 as <-. split; [exact E|exact E2].
Defined.

(** C26: On the same contents the PostgreSQL store and the in-memory store read the same.
    For every storable key: the session, the tunnel, the count of active sessions, the
    attempts and the lock.  For every filter with storable texts and times: the sessions,
    the tunnels and the audit entries that match it (its times rounded to microseconds,
    as the server does) are the same ones, of which each store gives the page of the
    limit and the offset in its own order; without a page, the same entries. *)
Theorem stores_read_the_same `{MR : MapRange} `{PG : Postgres} `{JM : JSONMaps}
    (σ : db) (m : rel) (ms : MemoryStore.t) :
  repr σ m → same_contents ms m → sizes_fit ms →
  (∀ id, text_ok id = true →
     (run postgresSchema (GetSession id) [] σ).1
     = match MemoryStore.GetSession ms id with Ok s => Ok s | Err _ => Err NotFound end
     ∧ (run postgresSchema (GetTunnel id) [] σ).1
       = match MemoryStore.GetTunnel ms id with Ok t => Ok t | Err _ => Err NotFound end
     ∧ (run postgresSchema (CountActiveSessions id) [] σ).1
       = (MemoryStore.CountActiveSessions ms id, None)
     ∧ (run postgresSchema (GetAttempts id) [] σ).1 = (MemoryStore.GetAttempts ms id, None)
     ∧ ∀ now d, (run postgresSchema (IsLocked now id d) [] σ).1
                = (MemoryStore.IsLocked ms now id d, None))
  ∧ (∀ f, forallb storable (session_query f).2 = true →
       in_int64 (SFLimit f) → in_int64 (SFOffset f) →
       same_listing CreatedAt (SFLimit f) (SFOffset f)
         (MemoryStore.ListSessions ms (rounded_sessions f))
         (run postgresSchema (ListSessions f) [] σ).1)
  ∧ (∀ f, forallb storable (tunnel_query f).2 = true →
       in_int64 (TFLimit f) → in_int64 (TFOffset f) →
       same_listing TunCreatedAt (TFLimit f) (TFOffset f)
         (MemoryStore.ListTunnels ms f) (run postgresSchema (ListTunnels f) [] σ).1)
  ∧ (∀ f, forallb storable (audit_query f).2 = true →
       in_int64 (AFLimit f) → in_int64 (AFOffset f) →
       same_listing Timestamp (AFLimit f) (AFOffset f)
         (MemoryStore.QueryAuditLog ms (rounded_audit f))
         (run postgresSchema (QueryAuditLog f) [] σ).1).
Proof.
  intros Hr (Hs & Ht & Ha & Hl) (Hns & Hnt & Hna). split; [|split_and!].
  - intros id Hid. split_and!.
    + destruct (GetSession_refines σ m id Hr Hid) as (σ' & -> & _).
      unfold MemoryStore.GetSession, spec_GetSession. rewrite Hs. cbn [fst].
      destruct (rsessions m !! id); [by rewrite cloneSession_id|done].
    + destruct (GetTunnel_refines σ m id Hr Hid) as (σ' & -> & _).
      unfold MemoryStore.GetTunnel, spec_GetTunnel. rewrite Ht. cbn [fst].
      destruct (rtunnels m !! id); [by rewrite cloneTunnel_id|done].
    + destruct (CountActiveSessions_refines σ m id Hr Hid) as (σ' & -> & _). cbn [fst]. f_equal.
      unfold MemoryStore.CountActiveSessions. rewrite (foldl_count_wrap (active_of id)).
      * rewrite Z.add_0_l, Hs, range_perm. done.
      * done.
      * rewrite length_fmap, length_range. lia.
    + destruct (GetAttempts_refines σ m id Hr Hid) as (σ' & -> & _). cbn [fst]. f_equal.
      unfold MemoryStore.GetAttempts, spec_GetAttempts. rewrite Ha, lookup_fmap.
      by destruct (rlimits m !! id).
    + intros now d. destruct (IsLocked_refines σ m now id d Hr Hid) as (σ' & -> & _).
      cbn [fst]. f_equal. unfold MemoryStore.IsLocked, spec_IsLocked. rewrite Ha, lookup_fmap.
      destruct (rlimits m !! id) as [l|]; [|done]. simpl. by destruct (locked_until l).
  - intros f Hf Hlim Hoff. destruct (ListSessions_refines σ m f Hr Hf) as (res & Hres & ->).
    apply (listing_agrees _ _ _ _ (rsessions m)); [apply cloneSession_id| |by rewrite length_range_values|done..].
    by rewrite Hs, range_perm.
  - intros f Hf Hlim Hoff. destruct (ListTunnels_refines σ m f Hr Hf) as (res & Hres & ->).
    apply (listing_agrees _ _ _ _ (rtunnels m)); [apply cloneTunnel_id| |by rewrite length_range_values|done..].
    by rewrite Ht, range_perm.
  - intros f Hf Hlim Hoff. destruct (QueryAuditLog_refines σ m f Hr Hf) as (res & Hres & ->).
    by apply (listing_agrees _ _ _ _ (raudit m)); [apply cloneAuditEntry_id|..].
Qed.

(** The store with the contents of the tables. *)
Definition memory_of (m : rel) : MemoryStore.t :=
  MemoryStore.mkStore (rsessions m) (rtunnels m) (map_to_list (raudit m)).*2
    (to_attempt <$> rlimits m).

Lemma memory_of_fits σ m :
  repr σ m → (Z.of_nat (size (table σ "sessions")) <= max_int64)%Z →
  (Z.of_nat (size (table σ "tunnels")) <= max_int64)%Z →
  (Z.of_nat (size (table σ "audit_log")) <= max_int64)%Z → sizes_fit (memory_of m).
Proof.
  intros Hr H1 H2 H3. split_and!; cbn [sessions tunnels auditLog memory_of].
  - by rewrite <-(typed_size _ _ _ (rep_sessions _ _ Hr)).
  - by rewrite <-(typed_size _ _ _ (rep_tunnels _ _ Hr)).
  - rewrite length_fmap, length_map_to_list. by rewrite <-(typed_size _ _ _ (rep_audit _ _ Hr)).
Qed.

Lemma zero_in_int64 : in_int64 0.
Proof. done. Qed.
Lemma one_in_int64 : in_int64 1.
Proof. done. Qed.

(** A session, its tunnel, an audit entry and two attempts. *)
Lemma stores_read_the_same_witness :
  let t1 := mkTunnel "t1" "u1" "local" "a" "b" demo_now None 0 0 "active" (Some ∅) in
  ∃ ms, MemoryStore.GetTunnel ms "t1" = Ok t1
    ∧ MemoryStore.GetAttempts ms "ana" = 2%Z
    ∧ MemoryStore.CountActiveSessions ms "ana" = 1%Z
    ∧ MemoryStore.ListTunnels ms (mkTunnelFilter "u1" "" "" 0 0) = Some [t1]
    ∧ same_listing CreatedAt 1 0
        (MemoryStore.ListSessions ms (rounded_sessions (mkSessionFilter "ana" "" (Some demo_now) "" 1 0)))
        (run postgresSchema (ListSessions (mkSessionFilter "ana" "" (Some demo_now) "" 1 0)) []
           demo_db).1.
Proof.
  intros t1. destruct (calls_refine demo_calls _ _ repr_new) as (m & Hr & _); [vm_compute; reflexivity|].
  fold demo_db in Hr. exists (memory_of m).
  destruct (stores_read_the_same demo_db m (memory_of m) Hr) as (Hk & Hss & Hts & _).
  { by split_and!. }
  { apply (memory_of_fits demo_db); [done|vm_compute; done..]. }
  destruct (Hk "t1" eq_refl) as (_ & Ht & _). destruct (Hk "ana" eq_refl) as (_ & _ & Hc & Ha & _).
  split_and!.
  - destruct (MemoryStore.GetTunnel (memory_of m) "t1") as [t|]; vm_compute in Ht;
      [|discriminate Ht].
    injection Ht as <-. reflexivity.
  - vm_compute (run _ _ _ _) in Ha. by injection Ha.
  - vm_compute (run _ _ _ _) in Hc. by injection Hc.
  - destruct (same_listing_all _ _ _ _ _ (Hts (mkTunnelFilter "u1" "" "" 0 0) eq_refl zero_in_int64
                  zero_in_int64) (Z.le_refl 0) (Z.le_refl 0)) as (l & -> & _ & Hp).
    vm_compute (run _ _ _ _) in Hp. apply Permutation_singleton_l in Hp. subst l. reflexivity.
  - apply Hss; [vm_compute; reflexivity|apply one_in_int64|apply zero_in_int64].
Defined.

End PostgresProps.
