(* ===== verification/GoParse.v ===== *)
(** * Reading values from text ([strconv], [time], [bufio], [strings], [os])

    What [internal/config/config.go] uses of the standard library: booleans and
    durations in text, the lines of a file, quotes around a value, and the environment
    of the process as a finite map. *)

From Stdlib Require Import Floats.SpecFloat.
From S2P Require Import Prelude GoStrings.

Module GoParse.

(** ** Booleans *)

(** [strconv.ParseBool] *)
Definition ParseBool (s : string) : option bool :=
  if bool_decide (s ∈ ["1"; "t"; "T"; "true"; "TRUE"; "True"]) then Some true
  else if bool_decide (s ∈ ["0"; "f"; "F"; "false"; "FALSE"; "False"]) then Some false
  else None.

(** ** Durations *)

Local Open Scope Z_scope.

(** [leadingInt]: the value of the leading digits and the rest; the value must stay
    within [1<<63]. *)
Fixpoint leadingInt (x : Z) (s : string) : option (Z * string) :=
  match s with
  | "" => Some (x, "")
  | String c s' =>
     match digit c with
     | None => Some (x, s)
     | Some d =>
        if 2 ^ 63 / 10 <? x then None
        else let y := x * 10 + d in if 2 ^ 63 <? y then None else leadingInt y s'
     end
  end.

(** [leadingFraction]: the value of the leading digits, the number of digits it has
    (the scale is that power of ten), and the rest; digits that do not fit are ignored. *)
Fixpoint leadingFraction (x : Z) (scale : nat) (overflow : bool) (s : string)
    : Z * nat * string :=
  match s with
  | "" => (x, scale, "")
  | String c s' =>
     match digit c with
     | None => (x, scale, s)
     | Some d =>
        if overflow then leadingFraction x scale true s'
        else if (2 ^ 63 - 1) / 10 <? x then leadingFraction x scale true s'
        else let y := x * 10 + d in
             if 2 ^ 63 <? y then leadingFraction x scale true s'
             else leadingFraction y (S scale) false s'
     end
  end.

(** [float64(n)] of a non-negative integer, and [uint64(x)] of a float. *)
Definition float64 (n : Z) : spec_float := binary_normalize 53 1024 n 0 false.
Definition truncate (x : spec_float) : Z :=
  match x with
  | S754_finite false m e => if 0 <=? e then Z.pos m * 2 ^ e else Z.pos m / 2 ^ (- e)
  | _ => 0
  end.

(** [uint64(float64(f) * (float64(unit) / scale))]; a power of ten up to the nineteenth
    is exact as a float. *)
Definition scaled_fraction (f unit : Z) (scale : nat) : Z :=
  truncate (SFmul 53 1024 (float64 f)
              (SFdiv 53 1024 (float64 unit) (float64 (10 ^ Z.of_nat scale)))).

(** The longest prefix without digits and dots, and the rest. *)
Fixpoint leadingUnit (s : string) : string * string :=
  match s with
  | "" => ("", "")
  | String c s' =>
     if bool_decide (c = "."%char) || bool_decide (is_Some (digit c)) then ("", s)
     else let '(u, rest) := leadingUnit s' in (String c u, rest)
  end.

(** [unitMap], with both spellings of the micro sign. *)
Definition unitMap (u : string) : option Z :=
  if bool_decide (u = "ns") then Some 1
  else if bool_decide (u ∈ ["us"; "µs"; "μs"]) then Some 1000
  else if bool_decide (u = "ms") then Some 1000000
  else if bool_decide (u = "s") then Some Second
  else if bool_decide (u = "m") then Some Minute
  else if bool_decide (u = "h") then Some (60 * Minute)
  else None.

Definition starts_number (s : string) : bool :=
  match s with
  | "" => false
  | String c _ => bool_decide (c = "."%char) || bool_decide (is_Some (digit c))
  end.

(** One term of a duration, a number with its unit: its nanoseconds and the rest. *)
Definition duration_term (s : string) : option (Z * string) :=
  if negb (starts_number s) then None else
  match leadingInt 0 s with
  | None => None
  | Some (v, s1) =>
     let pre := negb (bool_decide (s1 = s)) in
     let '(f, scale, s2, post) :=
       match s1 with
       | String "."%char s1' =>
          let '(f, scale, s2) := leadingFraction 0 0 false s1' in
          (f, scale, s2, negb (bool_decide (s2 = s1')))
       | _ => (0, 0%nat, s1, false)
       end in
     if negb pre && negb post then None else
     let '(u, rest) := leadingUnit s2 in
     if bool_decide (u = "") then None else
     match unitMap u with
     | None => None
     | Some unit =>
        if 2 ^ 63 / unit <? v then None
        else let v1 := v * unit in
             let v2 := if 0 <? f then v1 + scaled_fraction f unit scale else v1 in
             if (0 <? f) && (2 ^ 63 <? v2) then None else Some (v2, rest)
     end
  end.

(** The loop over the terms; each takes at least one byte. *)
Fixpoint duration_terms (fuel : nat) (d : Z) (s : string) : option Z :=
  match fuel with
  | O => None
  | S fuel =>
     if bool_decide (s = "") then Some d
     else match duration_term s with
     | None => None
     | Some (v, rest) =>
        let d := uint64_wrap (d + v) in
        if 2 ^ 63 <? d then None else duration_terms fuel d rest
     end
  end.

(** [time.ParseDuration] *)
Definition ParseDuration (s : string) : option Duration :=
  let '(neg, s) :=
    match s with
    | String "-"%char s' => (true, s')
    | String "+"%char s' => (false, s')
    | _ => (false, s)
    end in
  if bool_decide (s = "0") then Some 0
  else if bool_decide (s = "") then None
  else match duration_terms (S (String.length s)) 0 s with
  | None => None
  | Some d =>
     if neg then Some (int64_wrap (- d))
     else if 2 ^ 63 - 1 <? d then None else Some d
  end.

(** ** Lines *)

(** The lines of [bufio.Scanner] with its default buffer: without the line feed and a
    carriage return before it, no last line if it is empty, and nothing from the first
    line that does not fit in the buffer on. *)
Definition max_line : Z := 65535.

Definition drop_cr (s : string) : string :=
  match string_rev s with String c r => if bool_decide (byte_val c = 13) then string_rev r else s | "" => s end.

Fixpoint scan_lines (raw : list string) : list string :=
  match raw with
  | [] => []
  | [last] => if bool_decide (last = "") || (max_line <? len last) then [] else [drop_cr last]
  | l :: raw => if max_line <? len l then [] else drop_cr l :: scan_lines raw
  end.

Definition Lines (contents : string) : list string :=
  scan_lines (SplitByte contents (byte_of 10)).

(** ** Quotes *)

Definition is_quote (a : ascii) : bool := (byte_val a =? 34) || (byte_val a =? 39).

Fixpoint trim_left_quotes (s : string) : string :=
  match s with
  | "" => ""
  | String a s' => if is_quote a then trim_left_quotes s' else s
  end.

(** [strings.Trim] with the single and the double quote as cutset. *)
Definition TrimQuotes (s : string) : string :=
  string_rev (trim_left_quotes (string_rev (trim_left_quotes s))).

(** ** The environment *)

Abbreviation environ := (gmap string string).

(** [os.Setenv], which fails on an empty name, a name with an equals sign or a null
    byte, and a value with a null byte. *)
Definition Setenv (key value : string) (env : environ) : environ :=
  if bool_decide (key = "") || contains_byte "="%char key || contains_byte (byte_of 0) key
     || contains_byte (byte_of 0) value
  then env else <[key := value]> env.

Example duration_examples :
  ParseDuration "30s" = Some (30 * Second) ∧ ParseDuration "1h15m30.918s" = Some 4530918000000
  ∧ ParseDuration "-1.5h" = Some (- 5400 * Second) ∧ ParseDuration ".5ms" = Some 500000
  ∧ ParseDuration "1.0000000000000000000000001us" = Some 1000
  ∧ ParseDuration "3" = None ∧ ParseDuration "1d" = None ∧ ParseDuration "." = None
  ∧ ParseDuration "9223372036854775808ns" = None
  ∧ ParseDuration "-9223372036854775808ns" = Some min_int64
  ∧ ParseDuration "0.3333333333333333333h" = Some 1200000000000.
Proof. by vm_compute. Qed.

End GoParse.
