(* ===== verification/GoFloat.v ===== *)
(** * Reading a float ([strconv.ParseFloat] with 64 bits)

    What [internal/config/config.go] uses of [strconv] for the sampling rate.  The text
    is read byte by byte as [readFloat] does (sign, decimal or hexadecimal digits with
    underscores, a point, an exponent), and the number it denotes is rounded once, to
    nearest even, which is what the library documents; an overflow is its [ErrRange]. *)

From Stdlib Require Import Floats.SpecFloat.
From S2P Require Import Prelude GoStrings.

Module GoFloat.

#[local] Open Scope Z_scope.

(** [lower] of one byte. *)
Definition lower (a : ascii) : Z := Z.lor (byte_val a) 32.

(** The value of a digit in a base. *)
Definition digit (hex : bool) (a : ascii) : option Z :=
  let x := byte_val a in
  if (48 <=? x) && (x <=? 57) then Some (x - 48)
  else if hex && (97 <=? lower a) && (lower a <=? 102) then Some (lower a - 87)
  else None.

(** ** Special values *)

(** The text is the word, ignoring the case of its letters. *)
Definition same_letters (s word : string) : bool :=
  bool_decide (map_bytes byte_lower s = word).

(** [special], for a text it reads to the end. *)
Definition special (s : string) : option spec_float :=
  let '(signed, neg, rest) :=
    match s with
    | String a r => if byte_val a =? 43 then (true, false, r)
                    else if byte_val a =? 45 then (true, true, r) else (false, false, s)
    | "" => (false, false, s)
    end in
  if same_letters rest "inf" || same_letters rest "infinity" then Some (S754_infinity neg)
  else if negb signed && same_letters s "nan" then Some S754_nan
  else None.

(** ** Digits *)

(** The digits of the mantissa: its value, the digits after the point if one was seen,
    whether there was a digit and an underscore, and the rest. *)
Record mantissa := mkMantissa {
  value : Z;
  fraction : option Z;
  digits : bool;
  underscores : bool;
}.

Fixpoint readMantissa (hex : bool) (m : mantissa) (s : string) : mantissa * string :=
  match s with
  | "" => (m, "")
  | String a s' =>
     if byte_val a =? 95 then
       readMantissa hex (mkMantissa (value m) (fraction m) (digits m) true) s'
     else if byte_val a =? 46 then
       match fraction m with
       | Some _ => (m, s)
       | None => readMantissa hex (mkMantissa (value m) (Some 0) (digits m) (underscores m)) s'
       end
     else match digit hex a with
     | Some d =>
        readMantissa hex (mkMantissa (value m * (if hex then 16 else 10) + d)
                            ((λ n, n + 1) <$> fraction m) true (underscores m)) s'
     | None => (m, s)
     end
  end.

(** The digits of the exponent, which stops growing at ten thousand. *)
Fixpoint readExponent (e : Z) (under : bool) (s : string) : Z * bool * string :=
  match s with
  | "" => (e, under, "")
  | String a s' =>
     if byte_val a =? 95 then readExponent e true s'
     else match digit false a with
     | Some d => readExponent (if e <? 10000 then e * 10 + d else e) under s'
     | None => (e, under, s)
     end
  end.

(** [underscoreOK]: underscores only between digits, or after the base prefix; the last
    byte is a digit, an underscore, something else, or the start. *)
Inductive last_byte := AtStart | AtDigit | AtUnderscore | AtOther.

Fixpoint underscores_ok (hex : bool) (last : last_byte) (s : string) : bool :=
  match s with
  | "" => match last with AtUnderscore => false | _ => true end
  | String a s' =>
     match digit hex a with
     | Some _ => underscores_ok hex AtDigit s'
     | None =>
        if byte_val a =? 95
        then match last with AtDigit => underscores_ok hex AtUnderscore s' | _ => false end
        else match last with AtUnderscore => false | _ => underscores_ok hex AtOther s' end
     end
  end.

(** The text after an optional sign, and the sign. *)
Definition strip_sign (s : string) : bool * string :=
  match s with
  | String a r => if byte_val a =? 43 then (false, r)
                  else if byte_val a =? 45 then (true, r) else (false, s)
  | "" => (false, s)
  end.

(** The text after a prefix of base sixteen; [readFloat] wants something after it. *)
Definition strip_hex (s : string) : bool * string :=
  match s with
  | String z (String x (String _ _ as r)) =>
     if (byte_val z =? 48) && (lower x =? 120) then (true, r) else (false, s)
  | _ => (false, s)
  end.

Definition underscoreOK (s : string) : bool :=
  let '(_, s) := strip_sign s in
  match s with
  | String z (String x r) =>
     if (byte_val z =? 48) && ((lower x =? 98) || (lower x =? 111) || (lower x =? 120))
     then underscores_ok (lower x =? 120) AtDigit r
     else underscores_ok false AtStart s
  | _ => underscores_ok false AtStart s
  end.

(** What the text denotes: a sign, an integer and a power of two or of ten. *)
Record number := mkNumber { negative : bool; hexadecimal : bool; integer : Z; power : Z }.

(** [readFloat], for a text it reads to the end. *)
Definition readFloat (s : string) : option number :=
  if bool_decide (s = "") then None else
  let '(neg, r) := strip_sign s in
  let '(hex, r) := strip_hex r in
  let '(m, r) := readMantissa hex (mkMantissa 0 None false false) r in
  if negb (digits m) then None else
  let point := default 0 (fraction m) * (if hex then 4 else 1) in
  let finish (e : Z) (under : bool) :=
    if under && negb (underscoreOK s) then None
    else Some (mkNumber neg hex (value m) (e - point)) in
  match r with
  | "" => if hex then None else finish 0 (underscores m)
  | String a r =>
     if negb (lower a =? (if hex then 112 else 101)) then None
     else
       let '(eneg, r) := strip_sign r in
       match r with
       | String d _ =>
          if bool_decide (digit false d = None) then None
          else
            let '(e, under, rest) := readExponent 0 (underscores m) r in
            if bool_decide (rest = "") then finish (if eneg : bool then - e else e) under else None
       | "" => None
       end
  end.

(** ** Rounding *)

(** The float nearest to the number. *)
Definition nearest (n : number) : spec_float :=
  let base := if hexadecimal n then 2 else 10 in
  let m := if negative n then - integer n else integer n in
  match integer n with
  | Z.pos p =>
     if 0 <=? power n then binary_normalize 53 1024 (m * base ^ power n) 0 (negative n)
     else SFdiv 53 1024 (S754_finite (negative n) p 0)
            (S754_finite false (Z.to_pos (base ^ (- power n))) 0)
  | _ => S754_zero (negative n)
  end.

(** [ParseFloat(s, 64)]; [None] is an error. *)
Definition ParseFloat (s : string) : option spec_float :=
  match special s with
  | Some f => Some f
  | None =>
     n ← readFloat s;
     match nearest n with
     | S754_infinity _ => None
     | f => Some f
     end
  end.

(** [1.0], [0.25] and [0.1] *)
Example parse_one : ParseFloat "1.0" = Some (S754_finite false 4503599627370496 (-52)).
Proof. by vm_compute. Qed.
Example parse_quarter : ParseFloat "0x1p-2" = ParseFloat "0.25" ∧ ParseFloat "25e-2" = ParseFloat "0.25".
Proof. by vm_compute. Qed.
Example parse_tenth : ParseFloat "0.1" = Some (S754_finite false 7205759403792794 (-56)).
Proof. by vm_compute. Qed.
Example parse_range :
  ParseFloat "1e309" = None ∧ ParseFloat "-Inf" = Some (S754_infinity true)
  ∧ ParseFloat "nan" = Some S754_nan ∧ ParseFloat "-nan" = None ∧ ParseFloat "1e-400" = Some (S754_zero false).
Proof. by vm_compute. Qed.
Example parse_underscores :
  (ParseFloat "1_23.50_0_0e+1_2" = ParseFloat "1.235e14")
  ∧ Forall (λ s, ParseFloat s = None)
      ["-_123.5e+12"; "_123.5"; "1__23.5"; "123_.5"; "123._5"; "123.5_e+12"; "123.5e_+12";
       "123.5e+_12"; "123.5e+12_"; "0x12"; "1e"; "."; "1.2.3"; " 1"; "1 "; ""].
Proof. split; [by vm_compute|]. repeat constructor; by vm_compute. Qed.

End GoFloat.
