(* ===== verification/JSON.v ===== *)
(** * JSON text

    What [encoding/json] writes for the values the program serializes: objects
    with their fields in order, arrays, strings, integers, booleans and times.
    Strings are escaped as the package does by default (HTML characters too). *)

From S2P Require Import Prelude GoStrings GoTime.

Inductive json :=
| JNull
| JBool (b : bool)
| JInt (n : Z)
| JString (s : string)
| JTime (t : Time)
| JArr (l : list json)
| JObj (l : list (string * json)).

(** A [map[string]T]: the keys are written in order. *)
Definition key_string_le (a b : string * json) : Prop := String.le a.1 b.1.
#[export] Instance key_string_le_dec a b : Decision (key_string_le a b).
Proof. unfold key_string_le. apply _. Defined.

Definition JMap (l : list (string * json)) : json := JObj (merge_sort key_string_le l).

(** ** Strings *)

Definition hex_digit (n : Z) : ascii :=
  byte_of (if (n <? 10)%Z then 48 + n else 87 + n)%Z.

(** [\u] and four hexadecimal digits. *)
Definition u_escape (r : Z) : string :=
  "\u" +:+ String (hex_digit (r / 4096 mod 16)) (String (hex_digit (r / 256 mod 16))
    (String (hex_digit (r / 16 mod 16)) (String (hex_digit (r mod 16)) ""))).

Definition escape_ascii (a : ascii) : string :=
  let v := byte_val a in
  if (v =? 34)%Z then "\" +:+ String a ""
  else if (v =? 92)%Z then "\\"
  else if (v =? 8)%Z then "\b"
  else if (v =? 12)%Z then "\f"
  else if (v =? 10)%Z then "\n"
  else if (v =? 13)%Z then "\r"
  else if (v =? 9)%Z then "\t"
  else if (v <? 32)%Z || (v =? 60)%Z || (v =? 62)%Z || (v =? 38)%Z then u_escape v
  else String a "".

(** One character of the text at a time; a byte that starts no character is
    written as U+FFFD. *)
Fixpoint escape_fuel (fuel : nat) (s : string) : string :=
  match fuel with
  | O => ""
  | S fuel =>
     match s with
     | "" => ""
     | String a rest =>
        if is_ascii a then escape_ascii a +:+ escape_fuel fuel rest
        else match decode_runes s with
        | r :: _ =>
           match strip_prefix (encode_rune r) s with
           | Some rest' =>
              (if (r =? 8232)%Z || (r =? 8233)%Z then u_escape r else encode_rune r)
              +:+ escape_fuel fuel rest'
           | None => "\ufffd" +:+ escape_fuel fuel rest
           end
        | [] => ""
        end
     end
  end.

Definition dquote : string := String (byte_of 34) "".
Definition quote (s : string) : string := dquote +:+ escape_fuel (String.length s) s +:+ dquote.

(** ** Values *)

Definition newline_indent (indent : bool) (depth : nat) : string :=
  if indent then String (byte_of 10) (String.concat "" (replicate depth "  ")) else "".

(** [json.Marshal] ([indent] false) and [json.MarshalIndent(v, "", "  ")]. *)
Fixpoint render (indent : bool) (depth : nat) (j : json) : string :=
  let sep := "," +:+ newline_indent indent (S depth) in
  match j with
  | JNull => "null"
  | JBool b => if b then "true" else "false"
  | JInt n => Itoa n
  | JString s => quote s
  | JTime t => dquote +:+ FormatRFC3339Nano t +:+ dquote
  | JArr [] => "[]"
  | JArr l =>
     "[" +:+ newline_indent indent (S depth)
     +:+ String.concat sep (map (render indent (S depth)) l)
     +:+ newline_indent indent depth +:+ "]"
  | JObj [] => "{}"
  | JObj l =>
     "{" +:+ newline_indent indent (S depth)
     +:+ String.concat sep
           (map (λ '(k, v), quote k +:+ ":" +:+ (if indent then " " else "")
                            +:+ render indent (S depth) v) l)
     +:+ newline_indent indent depth +:+ "}"
  end.

(** Times outside the years 0 to 9999 are refused. *)
Fixpoint times_ok (j : json) : bool :=
  match j with
  | JTime t => (0 <=? year t)%Z && (year t <=? 9999)%Z
  | JArr l => forallb times_ok l
  | JObj l => forallb (λ kv, times_ok kv.2) l
  | _ => true
  end.

Definition marshal_error : string :=
  "json: error calling MarshalJSON for type time.Time: Time.MarshalJSON: year outside of range [0,9999]".

Definition Marshal (j : json) : result string string :=
  if times_ok j then Ok (render false 0 j) else Err marshal_error.
Definition MarshalIndent (j : json) : result string string :=
  if times_ok j then Ok (render true 0 j) else Err marshal_error.

Example marshal_small :
  render false 0 (JObj [("a", JInt 3); ("b", JArr [JString "x<y"; JBool true; JNull]); ("c", JArr [])])
  = "{" +:+ dquote +:+ "a" +:+ dquote +:+ ":3," +:+ dquote +:+ "b" +:+ dquote +:+ ":["
    +:+ dquote +:+ "x\u003cy" +:+ dquote +:+ ",true,null]," +:+ dquote +:+ "c" +:+ dquote
    +:+ ":[]}".
Proof. by vm_compute. Qed.
