(* ===== verification/JSONParse.v ===== *)
(** * JSON text read back

    The syntax [json.Unmarshal] accepts, as values, and the proof that what
    [json.Marshal] and [json.MarshalIndent] write is read back: strings up to bytes that
    are not UTF-8, which both replace by U+FFFD. *)

From S2P Require Import Prelude GoStrings GoTime TimeText JSON.

Module JSONParse.
Local Open Scope Z_scope.

(** ** Strings *)

Definition hex_value (a : ascii) : option Z :=
  let v := byte_val a in
  if (48 <=? v) && (v <=? 57) then Some (v - 48)
  else if (97 <=? v) && (v <=? 102) then Some (v - 87)
  else if (65 <=? v) && (v <=? 70) then Some (v - 55)
  else None.

Definition hex4 (a b c d : ascii) : option Z :=
  match hex_value a, hex_value b, hex_value c, hex_value d with
  | Some x, Some y, Some z, Some w => Some (x * 4096 + y * 256 + z * 16 + w)
  | _, _, _, _ => None
  end.

Definition backslash : ascii := byte_of 92.
Definition quote_char : ascii := byte_of 34.
Definition is_char (v : Z) (a : ascii) : bool := byte_val a =? v.

(** The letters after a backslash, with the byte they stand for. *)
Definition simple_escape (a : ascii) : option ascii :=
  let v := byte_val a in
  if (v =? 34) || (v =? 92) || (v =? 47) then Some a
  else if v =? 98 then Some (byte_of 8)
  else if v =? 102 then Some (byte_of 12)
  else if v =? 110 then Some (byte_of 10)
  else if v =? 114 then Some (byte_of 13)
  else if v =? 116 then Some (byte_of 9)
  else None.

Definition prepend (p : string) (o : option (string * string)) : option (string * string) :=
  match o with Some (raw, rest) => Some (p +:+ raw, rest) | None => None end.

(** The text of a string after its opening quote, up to its closing quote. *)
Fixpoint lex_string (s : string) : option (string * string) :=
  match s with
  | "" => None
  | String a s1 =>
     if is_char 34 a then Some ("", s1)
     else if is_char 92 a then
       match s1 with
       | "" => None
       | String b s2 =>
          if is_char 117 b then
            match s2 with
            | String c (String d (String e (String f s3))) =>
               if bool_decide (is_Some (hex4 c d e f))
               then prepend (String a (String b (String c (String d (String e (String f ""))))))
                      (lex_string s3)
               else None
            | _ => None
            end
          else if bool_decide (is_Some (simple_escape b))
          then prepend (String a (String b "")) (lex_string s2)
          else None
       end
     else if byte_val a <? 32 then None
     else prepend (String a "") (lex_string s1)
  end.

(** Bytes that are not escapes: what is not UTF-8 becomes U+FFFD. *)
Definition sanitize (s : string) : string := encode_runes (decode_runes s).

Definition is_surrogate (r : Z) : bool := (55296 <=? r) && (r <=? 57343).
(** [utf16.DecodeRune] *)
Definition pair_rune (r1 r2 : Z) : option Z :=
  if (55296 <=? r1) && (r1 <=? 56319) && (56320 <=? r2) && (r2 <=? 57343)
  then Some ((r1 - 55296) * 1024 + (r2 - 56320) + 65536) else None.

(** [unquote]; [run] is what has been read since the last escape. *)
Fixpoint unquote (run s : string) : string :=
  match s with
  | "" => sanitize run
  | String a s1 =>
     if is_char 92 a then
       match s1 with
       | "" => sanitize run
       | String b s2 =>
          if is_char 117 b then
            match s2 with
            | String c (String d (String e (String f s3))) =>
               let r := default 0 (hex4 c d e f) in
               if is_surrogate r then
                 match s3 with
                 | String b1 (String u (String c' (String d' (String e' (String f' s4))))) =>
                    match (if is_char 92 b1 && is_char 117 u then hex4 c' d' e' f' else None) with
                    | Some r2 =>
                       match pair_rune r r2 with
                       | Some rr => sanitize run +:+ encode_rune rr +:+ unquote "" s4
                       | None => sanitize run +:+ encode_rune RuneError +:+ unquote "" s3
                       end
                    | None => sanitize run +:+ encode_rune RuneError +:+ unquote "" s3
                    end
                 | _ => sanitize run +:+ encode_rune RuneError +:+ unquote "" s3
                 end
               else sanitize run +:+ encode_rune r +:+ unquote "" s3
            | _ => sanitize run
            end
          else match simple_escape b with
          | Some x => sanitize run +:+ String x (unquote "" s2)
          | None => sanitize run
          end
       end
     else unquote (run +:+ String a "") s1
  end.

Example unquote_examples :
  unquote "" "a\u0041\n\ud83d\ude00\ud83d!" = "aA" +:+ String (byte_of 10) "" +:+ encode_rune 128512
    +:+ encode_rune RuneError +:+ "!"
  ∧ lex_string ("a\u00e9" +:+ String quote_char "x") = Some ("a\u00e9", "x")
  ∧ lex_string ("a\x" +:+ String quote_char "x") = None.
Proof. by vm_compute. Qed.

(** ** What [quote] writes *)

Definition escape (s : string) : string := escape_fuel (String.length s) s.

(** What is written for a rune. *)
Definition escape_rune (r : Z) : string :=
  if r <? 128 then escape_ascii (byte_of r)
  else if (r =? 8232) || (r =? 8233) then u_escape r else encode_rune r.

Lemma is_cont_range b : is_cont b = true → 128 <= byte_val b <= 191.
Proof. unfold is_cont. lia. Qed.

Lemma div_64 x y : 0 <= y < 64 → (x * 64 + y) / 64 = x.
Proof. intros H. rewrite Z.div_add_l by lia. rewrite Z.div_small by done. lia. Qed.
Lemma mod_64 x y : 0 <= y < 64 → (x * 64 + y) mod 64 = y.
Proof. intros H. rewrite Z.add_comm, Z_mod_plus_full. by apply Z.mod_small. Qed.

Lemma encode_2 a b :
  194 <= byte_val a <= 223 → is_cont b = true →
  encode_rune ((byte_val a - 192) * 64 + (byte_val b - 128)) = String a (String b "").
Proof.
  intros Ha Hb%is_cont_range. unfold encode_rune. set (r := _ + _).
  rewrite (proj2 (Z.ltb_ge r 128)), (proj2 (Z.ltb_lt r 2048)) by (unfold r; lia).
  unfold r. rewrite div_64, mod_64 by lia.
  rewrite !Zplus_minus. by rewrite !byte_val_of.
Qed.

Lemma encode_3 a b c :
  224 <= byte_val a <= 239 → is_cont b = true → is_cont c = true →
  (byte_val a = 224 → 160 <= byte_val b) →
  encode_rune ((byte_val a - 224) * 4096 + (byte_val b - 128) * 64 + (byte_val c - 128))
  = String a (String b (String c "")).
Proof.
  intros Ha Hb%is_cont_range Hc%is_cont_range H224. unfold encode_rune. set (r := _ + _ + _).
  rewrite (proj2 (Z.ltb_ge r 128)), (proj2 (Z.ltb_ge r 2048)), (proj2 (Z.ltb_lt r 65536))
    by (unfold r; lia).
  assert (Hr : r = ((byte_val a - 224) * 64 + (byte_val b - 128)) * 64 + (byte_val c - 128))
    by (unfold r; lia).
  assert (Hr' : r / 4096 = byte_val a - 224).
  { change 4096 with (64 * 64). rewrite <-Z.div_div by lia. by rewrite Hr, !div_64 by lia. }
  rewrite Hr', Hr, div_64, !mod_64 by lia. rewrite !Zplus_minus. by rewrite !byte_val_of.
Qed.

Lemma encode_4 a b c d :
  240 <= byte_val a <= 244 → is_cont b = true → is_cont c = true → is_cont d = true →
  (byte_val a = 240 → 144 <= byte_val b) →
  encode_rune ((byte_val a - 240) * 262144 + (byte_val b - 128) * 4096
               + (byte_val c - 128) * 64 + (byte_val d - 128))
  = String a (String b (String c (String d ""))).
Proof.
  intros Ha Hb%is_cont_range Hc%is_cont_range Hd%is_cont_range H240.
  unfold encode_rune. set (r := _ + _ + _ + _).
  rewrite (proj2 (Z.ltb_ge r 128)), (proj2 (Z.ltb_ge r 2048)), (proj2 (Z.ltb_ge r 65536))
    by (unfold r; lia).
  assert (Hr : r = (((byte_val a - 240) * 64 + (byte_val b - 128)) * 64 + (byte_val c - 128)) * 64
                   + (byte_val d - 128)) by (unfold r; lia).
  assert (H2 : r / 4096 = (byte_val a - 240) * 64 + (byte_val b - 128)).
  { change 4096 with (64 * 64). rewrite <-Z.div_div by lia. by rewrite Hr, !div_64 by lia. }
  assert (H3 : r / 262144 = byte_val a - 240).
  { change 262144 with (4096 * 64). rewrite <-Z.div_div by lia. by rewrite H2, div_64 by lia. }
  rewrite H3, H2, Hr, div_64, !mod_64 by lia. rewrite !Zplus_minus. by rewrite !byte_val_of.
Qed.

Ltac split_if E := match goal with |- context [if ?c then _ else _] => destruct c eqn:E end.

(** A byte above ASCII starts a rune, or is passed as an error. *)
Lemma decode_error_or_rune a s :
  is_ascii a = false →
  decode_runes (String a s) = RuneError :: decode_runes s
  ∨ ∃ r rest, String a s = encode_rune r +:+ rest ∧ 128 <= r
      ∧ decode_runes (String a s) = r :: decode_runes rest.
Proof.
  intros Ha. assert (Ea : (byte_val a <? 128) = false) by done.
  rewrite decode_runes_cons. cbn zeta. rewrite Ea.
  destruct s as [|b s2]; [by left|].
  split_if E2.
  { right. bool_to_prop. eexists _, s2. split; [|split; [|reflexivity]].
    - by rewrite encode_2.
    - pose proof (is_cont_range b ltac:(done)). lia. }
  destruct s2 as [|c s3]; [by left|].
  split_if E3.
  { right. bool_to_prop. eexists _, s3.
    assert (byte_val a = 224 → 160 <= byte_val b).
    { intros H'. rewrite H' in *. simpl in *. by bool_to_prop. }
    split; [|split; [|reflexivity]].
    - by rewrite encode_3.
    - pose proof (is_cont_range b ltac:(done)). pose proof (is_cont_range c ltac:(done)). lia. }
  destruct s3 as [|d s4]; [by left|].
  split_if E4; [|by left].
  right. bool_to_prop. eexists _, s4.
  assert (byte_val a = 240 → 144 <= byte_val b).
  { intros H'. rewrite H' in *. simpl in *. by bool_to_prop. }
  split; [|split; [|reflexivity]].
  - by rewrite encode_4.
  - pose proof (is_cont_range b ltac:(done)). pose proof (is_cont_range c ltac:(done)).
    pose proof (is_cont_range d ltac:(done)). lia.
Qed.

(** The text of a string does not depend on the fuel. *)
Lemma strip_prefix_length p s t :
  strip_prefix p s = Some t → String.length s = (String.length p + String.length t)%nat.
Proof. intros ->%strip_prefix_spec. apply string_length_app. Qed.

Lemma encode_rune_length r : (0 < String.length (encode_rune r))%nat.
Proof. unfold encode_rune. repeat case_if; simpl; lia. Qed.

Lemma escape_fuel_enough n m s :
  (String.length s <= n)%nat → (String.length s <= m)%nat → escape_fuel n s = escape_fuel m s.
Proof.
  revert m s. induction n as [|n IH]; intros m s Hn Hm.
  { destruct s; [by destruct m|simpl in Hn; lia]. }
  destruct m as [|m]; [destruct s; [done|simpl in Hm; lia]|].
  destruct s as [|a rest]; [done|]. cbn [escape_fuel]. simpl in Hn, Hm.
  destruct (is_ascii a); [f_equal; apply IH; lia|].
  destruct (decode_runes (String a rest)) as [|r rs]; [done|].
  destruct (strip_prefix (encode_rune r) (String a rest)) as [rest'|] eqn:E; f_equal; apply IH; try lia.
  all: apply strip_prefix_length in E; pose proof (encode_rune_length r); simpl in E; lia.
Qed.

Lemma escape_cons a rest :
  escape (String a rest)
  = if is_ascii a then escape_ascii a +:+ escape rest
    else match decode_runes (String a rest) with
    | r :: _ =>
       match strip_prefix (encode_rune r) (String a rest) with
       | Some rest' =>
          (if (r =? 8232) || (r =? 8233) then u_escape r else encode_rune r) +:+ escape rest'
       | None => "\ufffd" +:+ escape rest
       end
    | [] => ""
    end.
Proof.
  unfold escape at 1. cbn [String.length escape_fuel]. destruct (is_ascii a); [done|].
  destruct (decode_runes (String a rest)) as [|r rs]; [done|].
  destruct (strip_prefix (encode_rune r) (String a rest)) as [rest'|] eqn:E; f_equal.
  apply escape_fuel_enough; [|done].
  apply strip_prefix_length in E. pose proof (encode_rune_length r). simpl in E. lia.
Qed.

(** A string is read a rune or a stray byte at a time. *)
Lemma escape_ind (P : string → Prop) :
  P "" →
  (∀ r rest, scalar r → P rest → decode_runes (encode_rune r +:+ rest) = r :: decode_runes rest →
     escape (encode_rune r +:+ rest) = escape_rune r +:+ escape rest → P (encode_rune r +:+ rest)) →
  (∀ a rest, P rest → decode_runes (String a rest) = RuneError :: decode_runes rest →
     escape (String a rest) = "\ufffd" +:+ escape rest → P (String a rest)) →
  ∀ s, P s.
Proof.
  intros H0 H1 H2 s. remember (String.length s) as n eqn:Hn. revert s Hn.
  induction (Nat.lt_wf_0 n) as [n _ IH]; intros s ->. destruct s as [|a s]; [done|].
  pose proof (escape_cons a s) as Hesc.
  destruct (is_ascii a) eqn:Ha.
  { pose proof (byte_val_range a) as Hr. unfold is_ascii in Ha.
    assert (He : encode_rune (byte_val a) = String a "").
    { unfold encode_rune. by rewrite Ha, byte_val_of. }
    assert (Hs : String a s = encode_rune (byte_val a) +:+ s) by (by rewrite He).
    assert (P s) by (eapply IH; [|done]; simpl; lia).
    assert (Hd : decode_runes (String a s) = byte_val a :: decode_runes s)
      by (apply decode_runes_1; lia).
    rewrite Hs in *. apply H1; [unfold scalar; lia|done|done|].
    rewrite Hesc. unfold escape_rune. by rewrite Ha, byte_val_of. }
  pose proof (decode_runes_scalar (String a s)) as Hsc.
  destruct (decode_error_or_rune a s Ha) as [Hd|(r & rest & Hs & Hr & Hd)].
  - destruct (strip_prefix (encode_rune RuneError) (String a s)) as [rest|] eqn:Hp.
    + apply strip_prefix_spec in Hp as Hs. rewrite Hd, Hp in Hesc. rewrite Hs in Hesc |- *.
      assert (scalar RuneError) by (unfold scalar, RuneError; lia).
      apply H1; [done| |by apply decode_encode_rune|].
      * eapply IH; [|done]. apply strip_prefix_length in Hp. rewrite Hp.
        pose proof (encode_rune_length RuneError). lia.
      * rewrite Hesc. done.
    + rewrite Hd, Hp in Hesc. apply H2; [eapply IH; [|done]; simpl; lia|done|done].
  - rewrite Hd in Hesc, Hsc. inversion_clear Hsc as [|? ? Hsr _].
    rewrite (proj2 (strip_prefix_spec _ _ _) Hs) in Hesc. rewrite Hs in *.
    apply H1; [done| |by apply decode_encode_rune|].
    + eapply IH; [|done]. rewrite string_length_app. pose proof (encode_rune_length r). lia.
    + rewrite Hesc. unfold escape_rune. by rewrite (proj2 (Z.ltb_ge r 128)).
Qed.

(** ** Reading a string back *)

Lemma lex_ascii a t :
  is_ascii a = true → lex_string (escape_ascii a +:+ t) = prepend (escape_ascii a) (lex_string t).
Proof.
  destruct a as [[] [] [] [] [] [] [] []]; intros H; try discriminate H; reflexivity.
Qed.

(** A character is either read into the run, or ends it. *)
Definition reads (e r run t : string) : Prop :=
  unquote run (e +:+ t) = unquote (run +:+ r) t
  ∨ unquote run (e +:+ t) = sanitize run +:+ r +:+ unquote "" t.

Lemma unquote_ascii a run t : is_ascii a = true → reads (escape_ascii a) (String a "") run t.
Proof.
  unfold reads.
  destruct a as [[] [] [] [] [] [] [] []]; intros H; try discriminate H;
    first [left; reflexivity|right; reflexivity].
Qed.

Lemma not_ascii_chars a v : is_ascii a = false → v < 128 → is_char v a = false.
Proof. unfold is_ascii, is_char. lia. Qed.

Lemma lex_no_ascii p t : no_ascii p = true → lex_string (p +:+ t) = prepend p (lex_string t).
Proof.
  induction p as [|a p IH]; intros Hp.
  { change ("" +:+ t) with t. by destruct (lex_string t) as [[]|]. }
  simpl in Hp. apply andb_true_iff in Hp as [Ha Hp]. apply negb_true_iff in Ha.
  rewrite string_app_cons. cbn [lex_string].
  rewrite !not_ascii_chars by (done || lia). unfold is_ascii in Ha.
  rewrite (proj2 (Z.ltb_ge _ 32)) by lia. rewrite (IH Hp). by destruct (lex_string t) as [[]|].
Qed.

Lemma unquote_no_ascii p run t : no_ascii p = true → unquote run (p +:+ t) = unquote (run +:+ p) t.
Proof.
  revert run. induction p as [|a p IH]; intros run Hp.
  { by rewrite string_app_nil_r. }
  simpl in Hp. apply andb_true_iff in Hp as [Ha Hp]. apply negb_true_iff in Ha.
  rewrite string_app_cons. cbn [unquote]. rewrite not_ascii_chars by (done || lia).
  rewrite (IH _ Hp). by rewrite <-string_app_assoc.
Qed.

Lemma no_ascii_byte z s : 128 <= z < 256 → no_ascii s = true → no_ascii (String (byte_of z) s) = true.
Proof.
  intros Hz Hs. simpl. rewrite Hs. unfold is_ascii. rewrite byte_of_val by lia.
  by rewrite (proj2 (Z.ltb_ge z 128)) by lia.
Qed.

Lemma encode_no_ascii r : scalar r → 128 <= r → no_ascii (encode_rune r) = true.
Proof.
  intros Hs Hr. unfold scalar in Hs. unfold encode_rune. rewrite (proj2 (Z.ltb_ge r 128)) by done.
  repeat case_if; bool_to_prop; repeat apply no_ascii_byte; try done.
  all: Z.to_euclidean_division_equations; lia.
Qed.

Lemma escape_rune_reads r run t :
  scalar r →
  lex_string (escape_rune r +:+ t) = prepend (escape_rune r) (lex_string t)
  ∧ reads (escape_rune r) (encode_rune r) run t.
Proof.
  intros Hs. assert (Hpos : 0 <= r) by (unfold scalar in Hs; lia). unfold escape_rune.
  destruct (r <? 128) eqn:E.
  { apply Z.ltb_lt in E. assert (is_ascii (byte_of r) = true) as Ha.
    { unfold is_ascii. rewrite byte_of_val by lia. by apply Z.ltb_lt. }
    split; [by apply lex_ascii|].
    assert (encode_rune r = String (byte_of r) "") as ->.
    { unfold encode_rune. by rewrite (proj2 (Z.ltb_lt r 128)). }
    by apply unquote_ascii. }
  apply Z.ltb_ge in E. destruct ((r =? 8232) || (r =? 8233)) eqn:E2.
  - unfold reads. apply orb_true_iff in E2 as [->%Z.eqb_eq| ->%Z.eqb_eq];
      (split; [reflexivity|right; reflexivity]).
  - pose proof (encode_no_ascii r Hs E). split; [by apply lex_no_ascii|].
    left. by apply unquote_no_ascii.
Qed.

Lemma lex_escape s rest :
  lex_string (escape s +:+ String quote_char rest) = Some (escape s, rest).
Proof.
  induction s as [|r s Hr IH _ ->|a s IH _ ->] using escape_ind; [done|..].
  - rewrite <-string_app_assoc.
    destruct (escape_rune_reads r "" (escape s +:+ String quote_char rest) Hr) as [-> _].
    by rewrite IH.
  - rewrite <-string_app_assoc.
    change (lex_string ("\ufffd" +:+ (escape s +:+ String quote_char rest)))
      with (prepend "\ufffd" (lex_string (escape s +:+ String quote_char rest))).
    by rewrite IH.
Qed.

Lemma sanitize_runes rs : Forall scalar rs → sanitize (encode_runes rs) = encode_runes rs.
Proof. intros H. unfold sanitize. by rewrite decode_encode_runes. Qed.

Lemma unquote_escape s rs :
  Forall scalar rs → unquote (encode_runes rs) (escape s) = encode_runes rs +:+ sanitize s.
Proof.
  revert rs. induction s as [|r s Hr IH Hd ->|a s IH Hd ->] using escape_ind; intros rs Hrs.
  - change (unquote (encode_runes rs) (escape "")) with (sanitize (encode_runes rs)).
    rewrite sanitize_runes by done. unfold sanitize. simpl. by rewrite string_app_nil_r.
  - assert (Hsan : sanitize (encode_rune r +:+ s) = encode_rune r +:+ sanitize s)
      by (unfold sanitize; by rewrite Hd).
    rewrite Hsan. destruct (escape_rune_reads r (encode_runes rs) (escape s) Hr) as [_ [-> | ->]].
    + replace (encode_runes rs +:+ encode_rune r) with (encode_runes (rs ++ [r])).
      2: { rewrite encode_runes_app. simpl. by rewrite string_app_nil_r. }
      rewrite IH by (apply Forall_app; split; [done|by constructor]).
      rewrite encode_runes_app. simpl. by rewrite string_app_nil_r, string_app_assoc.
    + rewrite sanitize_runes by done. do 2 f_equal. exact (IH [] (Forall_nil_2 _)).
  - change (unquote (encode_runes rs) ("\ufffd" +:+ escape s))
      with (sanitize (encode_runes rs) +:+ encode_rune RuneError +:+ unquote "" (escape s)).
    rewrite sanitize_runes by done. f_equal.
    assert (sanitize (String a s) = encode_rune RuneError +:+ sanitize s) as ->
      by (unfold sanitize; by rewrite Hd).
    f_equal. exact (IH [] (Forall_nil_2 _)).
Qed.

End JSONParse.
