(* ===== verification/JSONValue.v ===== *)
(** * JSON values read back

    The values [json.Unmarshal] reads, with a bound on the nesting, and the round trip:
    what [json.Marshal] and [json.MarshalIndent] write is read as the value written. *)

From stdpp Require Import pretty.
From S2P Require Import Prelude GoStrings GoTime TimeText JSON JSONParse.

Module JSONValue.
Import JSONParse.
Local Open Scope Z_scope.

(** A number is kept as its text, and a string as its text and what it stands for. *)
Inductive value :=
| VNull
| VBool (b : bool)
| VNum (lit : string)
| VStr (raw s : string)
| VArr (l : list value)
| VObj (l : list (string * value)).

(** ** The parser *)

Definition is_space (a : ascii) : bool :=
  is_char 32 a || is_char 9 a || is_char 10 a || is_char 13 a.

Fixpoint skip_ws (s : string) : string :=
  match s with String a t => if is_space a then skip_ws t else s | "" => "" end.

Fixpoint span_digits (s : string) : string * string :=
  match s with
  | String a t =>
     if bool_decide (is_Some (digit a))
     then let '(ds, rest) := span_digits t in (String a ds, rest) else ("", s)
  | "" => ("", "")
  end.

Definition digits1 (s : string) : option (string * string) :=
  match span_digits s with ("", _) => None | r => Some r end.

(** [-] if there is one, then [0] or digits that do not start with 0. *)
Definition lex_int (s : string) : option (string * string) :=
  let '(sign, t) := match s with
                    | String a t => if is_char 45 a then (String a "", t) else ("", s)
                    | "" => ("", s)
                    end in
  match t with
  | String a t' =>
     if is_char 48 a then Some (sign +:+ String a "", t') else prepend sign (digits1 t)
  | "" => None
  end.

Definition lex_frac (s : string) : option (string * string) :=
  match s with
  | String a t => if is_char 46 a then prepend (String a "") (digits1 t) else Some ("", s)
  | "" => Some ("", s)
  end.

Definition lex_exp (s : string) : option (string * string) :=
  match s with
  | String a t =>
     if is_char 101 a || is_char 69 a then
       match t with
       | String b t' =>
          if is_char 43 b || is_char 45 b then prepend (String a (String b "")) (digits1 t')
          else prepend (String a "") (digits1 t)
       | "" => None
       end
     else Some ("", s)
  | "" => Some ("", s)
  end.

Definition lex_number (s : string) : option (string * string) :=
  match lex_int s with
  | Some (i, s1) =>
     match lex_frac s1 with
     | Some (f, s2) =>
        match lex_exp s2 with Some (e, s3) => Some (i +:+ f +:+ e, s3) | None => None end
     | None => None
     end
  | None => None
  end.

(** The nesting the scanner allows. *)
Definition maxNestingDepth : Z := 10000.

(** After an element: a comma and another, or the end. *)
Inductive next := More (rest : string) | End_ (rest : string) | Bad.
Definition next_of (close : Z) (s : string) : next :=
  match skip_ws s with
  | String a t => if is_char 44 a then More t else if is_char close a then End_ t else Bad
  | "" => Bad
  end.

Fixpoint parse_value (fuel : nat) (depth : Z) (s : string) {struct fuel}
    : option (value * string) :=
  match fuel with
  | O => None
  | S fuel =>
     match skip_ws s with
     | "" => None
     | String a t =>
        if is_char 34 a then
          match lex_string t with
          | Some (raw, rest) => Some (VStr raw (unquote "" raw), rest)
          | None => None
          end
        else if is_char 123 a then
          if maxNestingDepth <=? depth then None
          else match next_of 125 t with
          | End_ rest => Some (VObj [], rest)
          | _ => match parse_members fuel (depth + 1) t with
                 | Some (l, rest) => Some (VObj l, rest)
                 | None => None
                 end
          end
        else if is_char 91 a then
          if maxNestingDepth <=? depth then None
          else match next_of 93 t with
          | End_ rest => Some (VArr [], rest)
          | _ => match parse_elems fuel (depth + 1) t with
                 | Some (l, rest) => Some (VArr l, rest)
                 | None => None
                 end
          end
        else if is_char 116 a then
          match strip_prefix "rue" t with Some rest => Some (VBool true, rest) | None => None end
        else if is_char 102 a then
          match strip_prefix "alse" t with Some rest => Some (VBool false, rest) | None => None end
        else if is_char 110 a then
          match strip_prefix "ull" t with Some rest => Some (VNull, rest) | None => None end
        else match lex_number (String a t) with
        | Some (lit, rest) => Some (VNum lit, rest)
        | None => None
        end
     end
  end
with parse_elems (fuel : nat) (depth : Z) (s : string) {struct fuel}
    : option (list value * string) :=
  match fuel with
  | O => None
  | S fuel =>
     match parse_value fuel depth s with
     | None => None
     | Some (v, s1) =>
        match next_of 93 s1 with
        | End_ rest => Some ([v], rest)
        | More rest => match parse_elems fuel depth rest with
                       | Some (l, rest') => Some (v :: l, rest')
                       | None => None
                       end
        | Bad => None
        end
     end
  end
with parse_members (fuel : nat) (depth : Z) (s : string) {struct fuel}
    : option (list (string * value) * string) :=
  match fuel with
  | O => None
  | S fuel =>
     match skip_ws s with
     | String a t =>
        if is_char 34 a then
          match lex_string t with
          | Some (raw, s1) =>
             match skip_ws s1 with
             | String c s2 =>
                if is_char 58 c then
                  match parse_value fuel depth s2 with
                  | None => None
                  | Some (v, s3) =>
                     let kv := (unquote "" raw, v) in
                     match next_of 125 s3 with
                     | End_ rest => Some ([kv], rest)
                     | More rest => match parse_members fuel depth rest with
                                    | Some (l, rest') => Some (kv :: l, rest')
                                    | None => None
                                    end
                     | Bad => None
                     end
                  end
                else None
             | "" => None
             end
          | None => None
          end
        else None
     | "" => None
     end
  end.

(** A document is a value and white space.  Every call of the parser below another
    follows a character that it does not read again. *)
Definition parse_fuel (s : string) : nat := (2 * String.length s + 2)%nat.

Definition parse (s : string) : option value :=
  match parse_value (parse_fuel s) 0 s with
  | Some (v, rest) => if bool_decide (skip_ws rest = "") then Some v else None
  | None => None
  end.

Example parse_examples :
  parse " [1, -0.5e+3 ,true,{}, null] " = Some (VArr [VNum "1"; VNum "-0.5e+3"; VBool true; VObj []; VNull])
  ∧ parse "[1,]" = None ∧ parse "01" = None ∧ parse "[1] x" = None ∧ parse "" = None
  ∧ parse ("{" +:+ quote "k" +:+ " : " +:+ quote "<" +:+ "}") = Some (VObj [("k", VStr "\u003c" "<")]).
Proof. by vm_compute. Qed.

(** ** What is written *)

Fixpoint val_of (j : json) : value :=
  match j with
  | JNull => VNull
  | JBool b => VBool b
  | JInt n => VNum (Itoa n)
  | JString s => VStr (escape s) (sanitize s)
  | JTime t => VStr (FormatRFC3339Nano t) (FormatRFC3339Nano t)
  | JArr l => VArr (map val_of l)
  | JObj l => VObj (map (λ '(k, v), (sanitize k, val_of v)) l)
  end.

(** The nesting of a value, and the fuel that reads it. *)
Fixpoint height (j : json) : Z :=
  match j with
  | JArr l => 1 + foldr (λ x h, Z.max (height x) h) 0 l
  | JObj l => 1 + foldr (λ kv h, Z.max (height kv.2) h) 0 l
  | _ => 0
  end.
Fixpoint need (j : json) : nat :=
  match j with
  | JArr l => S (foldr (λ x n, S (Nat.max (need x) n)) 0%nat l)
  | JObj l => S (foldr (λ kv n, S (Nat.max (need kv.2) n)) 0%nat l)
  | _ => 1%nat
  end.

Lemma json_nested_ind (P : json → Prop) :
  P JNull → (∀ b, P (JBool b)) → (∀ n, P (JInt n)) → (∀ s, P (JString s)) → (∀ t, P (JTime t)) →
  (∀ l, Forall P l → P (JArr l)) → (∀ l, Forall (λ kv, P kv.2) l → P (JObj l)) → ∀ j, P j.
Proof.
  intros H1 H2 H3 H4 H5 H6 H7. fix IH 1.
  intros [|b|n|s|t|l|l]; [exact H1|apply H2|apply H3|apply H4|apply H5|..].
  - apply H6. induction l as [|x l IHl]; constructor; [apply IH|apply IHl].
  - apply H7. induction l as [|x l IHl]; constructor; [apply IH|apply IHl].
Qed.

(** ** Numbers and times *)

Definition ends_number (rest : string) : Prop :=
  ∀ a t, rest = String a t → digit a = None ∧ is_char 46 a = false
                              ∧ is_char 101 a = false ∧ is_char 69 a = false.

Lemma span_digits_app ds rest :
  all_digits ds = true → ends_number rest → span_digits (ds +:+ rest) = (ds, rest).
Proof.
  intros Hd Hr. induction ds as [|a ds IH].
  - change ("" +:+ rest) with rest. destruct rest as [|a t]; [done|]. simpl.
    destruct (Hr a t eq_refl) as [-> _]. by rewrite bool_decide_eq_false_2 by (by intros []).
  - simpl in Hd. apply andb_true_iff in Hd as [Ha Hd]. rewrite string_app_cons. cbn [span_digits].
    by rewrite Ha, (IH Hd).
Qed.

Lemma pretty_go_first x s :
  (0 < x)%N → ∃ a t d, pretty_N_go x s = String a t ∧ digit a = Some d ∧ 0 < d.
Proof.
  revert s. induction (N.lt_wf_0 x) as [x _ IH]; intros s Hx.
  rewrite pretty_N_go_step by done.
  destruct (N.eq_0_gt_0_cases (x / 10)) as [E|E].
  - rewrite E, pretty_N_go_0. do 3 eexists. split; [done|].
    assert (x < 10)%N by (apply N.div_small_iff in E; lia).
    rewrite digit_pretty by (by apply N.mod_lt). split; [done|]. rewrite N.mod_small by done. lia.
  - apply IH; [by apply N.div_lt|done].
Qed.

Lemma Itoa_first n : 0 < n → ∃ a t d, Itoa n = String a t ∧ digit a = Some d ∧ 0 < d.
Proof.
  intros Hn. unfold Itoa, pretty, pretty_Z. destruct n as [|p|p]; [lia| |lia].
  unfold pretty, pretty_positive, pretty, pretty_N. rewrite decide_False by done.
  by apply pretty_go_first.
Qed.

Lemma digit_chars a d :
  digit a = Some d → is_char 45 a = false ∧ is_char 34 a = false ∧ is_char 123 a = false
    ∧ is_char 91 a = false ∧ is_char 116 a = false ∧ is_char 102 a = false
    ∧ is_char 110 a = false ∧ is_space a = false ∧ (0 < d → is_char 48 a = false).
Proof. unfold digit, is_space, is_char. case_if; [|done]. intros [= <-]. bool_to_prop. split_and!; try intros; lia. Qed.

(** A number is read whole, when what follows cannot continue it. *)
Lemma lex_int_digits n rest :
  0 <= n → ends_number rest → lex_int (Itoa n +:+ rest) = Some (Itoa n, rest).
Proof.
  intros Hn Hr. pose proof (digits_value_all_digits _ _ _ (digits_value_Itoa n Hn)) as Hall.
  assert (n = 0 ∨ 0 < n) as [->|Hpos] by lia; [done|].
  destruct (Itoa_first n Hpos) as (a & t & d & E & Hd & Hpos').
  pose proof (span_digits_app _ _ Hall Hr) as Hspan. rewrite E in *. rewrite string_app_cons in *.
  destruct (digit_chars a d Hd) as (H45 & _ & _ & _ & _ & _ & _ & _ & H48).
  unfold lex_int. rewrite H45, H48 by done. unfold digits1. rewrite Hspan. done.
Qed.

Lemma Itoa_neg n : n < 0 → Itoa n = String (byte_of 45) (Itoa (- n)).
Proof. intros Hn. destruct n as [|p|p]; [lia|lia|]. reflexivity. Qed.

Lemma lex_int_Itoa n rest : ends_number rest → lex_int (Itoa n +:+ rest) = Some (Itoa n, rest).
Proof.
  intros Hr. assert (0 <= n ∨ n < 0) as [Hn|Hn] by lia; [by apply lex_int_digits|].
  assert (Hpos : 0 < - n) by lia.
  rewrite (Itoa_neg n Hn), string_app_cons.
  pose proof (digits_value_all_digits _ _ _ (digits_value_Itoa (- n) ltac:(lia))) as Hall.
  destruct (Itoa_first (- n) Hpos) as (a & t & d & E & Hd & Hpos').
  pose proof (span_digits_app _ _ Hall Hr) as Hspan. rewrite E in *. rewrite string_app_cons in *.
  destruct (digit_chars a d Hd) as (_ & _ & _ & _ & _ & _ & _ & _ & H48).
  unfold lex_int. change (is_char 45 (byte_of 45)) with true. cbv iota beta.
  rewrite H48 by done. unfold digits1. rewrite Hspan. done.
Qed.

Lemma lex_number_Itoa n rest :
  ends_number rest → lex_number (Itoa n +:+ rest) = Some (Itoa n, rest).
Proof.
  intros Hr. unfold lex_number. rewrite lex_int_Itoa by done.
  destruct rest as [|a t].
  { simpl. by rewrite string_app_nil_r. }
  destruct (Hr a t eq_refl) as (_ & H46 & H101 & H69).
  unfold lex_frac, lex_exp. rewrite H46, H101, H69. simpl. by rewrite string_app_nil_r.
Qed.

(** The first character of a number chooses the number. *)
Definition starts_number (a : ascii) : Prop :=
  is_char 34 a = false ∧ is_char 123 a = false ∧ is_char 91 a = false ∧ is_char 116 a = false
  ∧ is_char 102 a = false ∧ is_char 110 a = false ∧ is_space a = false.

Lemma Itoa_starts n : ∃ a t, Itoa n = String a t ∧ starts_number a.
Proof.
  assert (n = 0 ∨ 0 < n ∨ n < 0) as [->|[Hn|Hn]] by lia.
  - eexists _, _. split; [done|]. done.
  - destruct (Itoa_first n Hn) as (a & t & d & E & Hd & _). exists a, t. split; [done|].
    destruct (digit_chars a d Hd) as (_ & ? & ? & ? & ? & ? & ? & ? & _). by split_and!.
  - rewrite (Itoa_neg n Hn). eexists _, _. split; [done|]. done.
Qed.

(** Text that needs no escape. *)
Definition plain_char (a : ascii) : bool :=
  (32 <=? byte_val a) && (byte_val a <? 128) && negb (is_char 34 a) && negb (is_char 92 a).
Fixpoint plain (s : string) : bool :=
  match s with "" => true | String a s => plain_char a && plain s end.

Lemma plain_app s t : plain (s +:+ t) = plain s && plain t.
Proof.
  induction s as [|a s IH]; [done|]. rewrite string_app_cons. simpl. by rewrite IH, andb_assoc.
Qed.

Lemma lex_plain s t : plain s = true → lex_string (s +:+ t) = prepend s (lex_string t).
Proof.
  induction s as [|a s IH]; intros Hs.
  { change ("" +:+ t) with t. by destruct (lex_string t) as [[]|]. }
  simpl in Hs. apply andb_true_iff in Hs as [Ha Hs]. unfold plain_char in Ha. bool_to_prop.
  rewrite string_app_cons. cbn [lex_string]. rewrite H1, H0.
  rewrite (proj2 (Z.ltb_ge _ 32)) by done. rewrite (IH Hs). by destruct (lex_string t) as [[]|].
Qed.

Lemma unquote_plain s run : plain s = true → unquote run s = sanitize (run +:+ s).
Proof.
  revert run. induction s as [|a s IH]; intros run Hs; [simpl; by rewrite string_app_nil_r|].
  simpl in Hs. apply andb_true_iff in Hs as [Ha Hs]. unfold plain_char in Ha. bool_to_prop.
  cbn [unquote]. rewrite H0, (IH _ Hs). by rewrite <-string_app_assoc.
Qed.

Lemma sanitize_plain s : plain s = true → sanitize s = s.
Proof.
  induction s as [|a s IH]; [done|]. intros Hs. simpl in Hs. apply andb_true_iff in Hs as [Ha Hs].
  unfold plain_char in Ha. bool_to_prop. unfold sanitize in *.
  rewrite decode_runes_1 by lia. simpl. rewrite (IH Hs).
  unfold encode_rune. rewrite (proj2 (Z.ltb_lt _ 128)) by done. by rewrite byte_val_of.
Qed.

Lemma digits_plain s : all_digits s = true → plain s = true.
Proof.
  induction s as [|a s IH]; [done|]. simpl. intros [Ha Hs]%andb_true_iff. rewrite (IH Hs), andb_true_r.
  bool_to_prop. destruct Ha as [d Hd]. unfold digit in Hd. case_if; [|done].
  unfold plain_char, is_char. bool_to_prop. lia.
Qed.

Lemma pad_plain k n : 0 <= n → plain (pad k n) = true.
Proof. intros Hn. by eapply digits_plain, digits_value_all_digits, TimeText.pad_value. Qed.

Lemma fraction_plain n : 0 <= n → plain (fraction 9 n) = true.
Proof.
  intros Hn. unfold fraction. destruct (n =? 0); [done|].
  destruct (TimeText.trim_zeros_spec (pad 9 n)) as [k Hk].
  pose proof (pad_plain 9 n Hn) as Hp. rewrite Hk, plain_app in Hp.
  rewrite plain_app. apply andb_true_iff in Hp as [-> _]. done.
Qed.

Lemma time_plain t : 0 <= year t → plain (FormatRFC3339Nano t) = true.
Proof.
  intros Hy. unfold FormatRFC3339Nano, format_seconds. unfold year in Hy.
  pose proof (TimeText.civil_spec (t / nanoseconds_per_day)) as Hc.
  destruct (civil_of_days (t / nanoseconds_per_day)) as [[y m] d]. cbn [fst] in Hy.
  destruct Hc as (Hm & Hd & _). set (s := (t mod nanoseconds_per_day) / Second).
  assert (Hs : 0 <= s).
  { unfold s. apply Z.div_pos; [|done]. apply Z.mod_pos_bound. done. }
  rewrite !plain_app, !pad_plain, fraction_plain;
    [done|apply Z.mod_pos_bound; done|..]; try lia.
  all: first [apply Z.mod_pos_bound; lia|apply Z.div_pos; lia].
Qed.

(** ** White space *)

Fixpoint all_space (s : string) : bool :=
  match s with "" => true | String a s => is_space a && all_space s end.

Lemma skip_ws_app w s : all_space w = true → skip_ws (w +:+ s) = skip_ws s.
Proof.
  induction w as [|a w IH]; [done|]. cbn [all_space]. intros [Ha Hw]%andb_true_iff.
  rewrite string_app_cons. cbn [skip_ws]. by rewrite Ha, (IH Hw).
Qed.

Lemma skip_ws_idem s : skip_ws (skip_ws s) = skip_ws s.
Proof. induction s as [|a s IH]; [done|]. cbn [skip_ws]. destruct (is_space a) eqn:E; [done|]. simpl. by rewrite E. Qed.

Lemma indent_space indent d : all_space (newline_indent indent d) = true.
Proof.
  unfold newline_indent. destruct indent; [|done]. simpl.
  destruct d as [|d]; [done|]. cbn [replicate].
  induction d as [|d IH]; [done|]. exact IH.
Qed.

Lemma parse_value_ws fuel depth w s :
  all_space w = true → parse_value fuel depth (w +:+ s) = parse_value fuel depth s.
Proof. intros Hw. destruct fuel; [done|]. cbn [parse_value]. by rewrite (skip_ws_app _ _ Hw). Qed.

Lemma next_of_ws close w s : all_space w = true → next_of close (w +:+ s) = next_of close s.
Proof. intros Hw. unfold next_of. by rewrite (skip_ws_app _ _ Hw). Qed.

(** Text that starts a value. *)
Definition starts_value (s : string) : Prop :=
  ∃ a t, s = String a t ∧ is_space a = false ∧ is_char 93 a = false ∧ is_char 125 a = false.

Lemma starts_value_app s t : starts_value s → starts_value (s +:+ t).
Proof. intros (a & u & -> & H). exists a, (u +:+ t). by rewrite string_app_cons. Qed.

Lemma starts_number_value a t : starts_number a → is_char 93 a = false → is_char 125 a = false →
  starts_value (String a t).
Proof. intros (_ & _ & _ & _ & _ & _ & Hs) H93 H125. by exists a, t. Qed.

Lemma render_starts indent d j : starts_value (render indent d j).
Proof.
  destruct j as [|b|n|s|t|l|l]; cbn [render].
  - by eexists _, _.
  - destruct b; by eexists _, _.
  - assert (n = 0 ∨ 0 < n ∨ n < 0) as [->|[Hn|Hn]] by lia.
    + by eexists _, _.
    + destruct (Itoa_first n Hn) as (a & t & c & -> & Hc & _). exists a, t.
      destruct (digit_chars a c Hc) as (_ & _ & _ & _ & _ & _ & _ & Hs & _).
      split_and!; [done|done|..]; unfold digit in Hc; case_if; try done; unfold is_char; bool_to_prop; lia.
    + rewrite (Itoa_neg n Hn). by eexists _, _.
  - by eexists _, _.
  - by eexists _, _.
  - destruct l; by eexists _, _.
  - destruct l; by eexists _, _.
Qed.

Lemma starts_value_skip s : starts_value s → skip_ws s = s.
Proof. intros (a & t & -> & Hs & _). cbn [skip_ws]. by rewrite Hs. Qed.

Lemma not_end close w s :
  all_space w = true → starts_value s → close = 93 ∨ close = 125 →
  ∀ rest, next_of close (w +:+ s) ≠ End_ rest.
Proof.
  intros Hw Hs Hc rest. rewrite next_of_ws by done. unfold next_of. rewrite (starts_value_skip s Hs).
  destruct Hs as (a & t & -> & _ & H93 & H125). destruct (is_char 44 a); [done|].
  by destruct Hc as [-> | ->]; rewrite ?H93, ?H125.
Qed.

Lemma ends_space w a t :
  all_space w = true → digit a = None → is_char 46 a = false → is_char 101 a = false →
  is_char 69 a = false → ends_number (w +:+ String a t).
Proof.
  intros Hw Hd H46 H101 H69 b u. destruct w as [|c w].
  - change ("" +:+ String a t) with (String a t). intros [= <- <-]. done.
  - rewrite string_app_cons. intros [= <- _]. simpl in Hw. apply andb_true_iff in Hw as [Hc _].
    unfold is_space, is_char, digit in *. bool_to_prop.
    assert (byte_val c = 32 ∨ byte_val c = 9 ∨ byte_val c = 10 ∨ byte_val c = 13) as Hv by lia.
    by destruct_or! Hv; rewrite Hv.
Qed.

(** ** The round trip *)

Definition elems_need {A} (need : A → nat) (l : list A) : nat :=
  foldr (λ x n, S (Nat.max (need x) n)) 0%nat l.
Definition max_height {A} (height : A → Z) (l : list A) : Z :=
  foldr (λ x h, Z.max (height x) h) 0 l.

(** A value is read from its text, whatever follows it. *)
Definition read_back (j : json) : Prop :=
  ∀ indent d depth fuel rest,
    times_ok j = true → (need j <= fuel)%nat → depth + height j <= maxNestingDepth →
    ends_number rest →
    parse_value fuel depth (render indent d j +:+ rest) = Some (val_of j, rest).

Lemma concat_cons2 sep x y (l : list string) :
  String.concat sep (x :: y :: l) = x +:+ sep +:+ String.concat sep (y :: l).
Proof. done. Qed.

Lemma next_comma close w s : next_of close ("," +:+ w +:+ s) = More (w +:+ s).
Proof. done. Qed.

(** The elements of an array. *)
Lemma elems_back indent d depth l x fuel rest w w' :
  Forall read_back (x :: l) → forallb times_ok (x :: l) = true →
  (elems_need need (x :: l) <= fuel)%nat → depth + max_height height (x :: l) <= maxNestingDepth →
  all_space w = true → all_space w' = true →
  parse_elems fuel depth
    (String.concat ("," +:+ w) (map (render indent d) (x :: l)) +:+ w' +:+ "]" +:+ rest)
  = Some (map val_of (x :: l), rest).
Proof.
  intros Hall Ht Hn Hh Hw Hw'. revert x fuel Hall Ht Hn Hh.
  induction l as [|y l IH]; intros x fuel Hall Ht Hn Hh;
    inversion_clear Hall as [|? ? Hx Hl]; cbn [forallb] in Ht;
    apply andb_true_iff in Ht as [Htx Htl]; cbn [elems_need max_height foldr] in Hn, Hh;
    (destruct fuel as [|fuel]; [lia|]); cbn [parse_elems map].
  - cbn [String.concat]. rewrite Hx; [|done|lia|lia|].
    2: { apply ends_space; done. }
    rewrite next_of_ws by done. done.
  - rewrite concat_cons2, <-!string_app_assoc.
    rewrite Hx; [|done|lia|lia|by apply (ends_space "")].
    rewrite next_comma.
    assert (parse_elems fuel depth
      (w +:+ (String.concat ("," +:+ w) (map (render indent d) (y :: l)) +:+ w' +:+ "]" +:+ rest))
      = Some (map val_of (y :: l), rest)) as Hrec.
    { rewrite <-(IH y fuel Hl Htl ltac:(cbn; lia) ltac:(cbn; lia)).
      destruct fuel; [done|]. cbn [parse_elems]. by rewrite parse_value_ws. }
    cbn [map] in Hrec. by rewrite Hrec.
Qed.

Definition member_text (indent : bool) (d : nat) : string * json → string :=
  λ '(k, v), quote k +:+ ":" +:+ (if indent then " " else "") +:+ render indent d v.
Definition member_val : string * json → string * value := λ '(k, v), (sanitize k, val_of v).

(** One member: its key, the colon and its value. *)
Lemma member_back indent d depth kv fuel rest :
  read_back kv.2 → times_ok kv.2 = true → (need kv.2 <= fuel)%nat →
  depth + height kv.2 <= maxNestingDepth → ends_number rest →
  parse_members (S fuel) depth (member_text indent d kv +:+ rest)
  = match next_of 125 rest with
    | End_ rest' => Some ([member_val kv], rest')
    | More rest' => match parse_members fuel depth rest' with
                    | Some (l, rest'') => Some (member_val kv :: l, rest'')
                    | None => None
                    end
    | Bad => None
    end.
Proof.
  destruct kv as [k v]. cbn [snd]. intros Hv Ht Hn Hh Hr. unfold member_text, quote.
  fold (escape k). rewrite <-!string_app_assoc.
  change (dquote +:+ (escape k +:+ (dquote +:+ (":" +:+ ((if indent then " " else "")
            +:+ (render indent d v +:+ rest))))))
    with (String quote_char (escape k +:+ String quote_char (":" +:+ ((if indent then " " else "")
            +:+ (render indent d v +:+ rest))))).
  cbn [parse_members].
  change (skip_ws (String quote_char (escape k +:+ String quote_char (":" +:+
            ((if indent then " " else "") +:+ (render indent d v +:+ rest))))))
    with (String quote_char (escape k +:+ String quote_char (":" +:+
            ((if indent then " " else "") +:+ (render indent d v +:+ rest))))).
  change (is_char 34 quote_char) with true. cbv iota beta.
  rewrite lex_escape. cbv iota beta.
  change (skip_ws (":" +:+ ((if indent then " " else "") +:+ (render indent d v +:+ rest))))
    with (String (":"%char) ((if indent then " " else "") +:+ (render indent d v +:+ rest))).
  change (is_char 58 ":"%char) with true. cbv iota beta.
  rewrite parse_value_ws by (by destruct indent). rewrite Hv by done. cbv zeta.
  pose proof (unquote_escape k [] (Forall_nil_2 _)) as Hk. change (encode_runes []) with "" in Hk.
  rewrite Hk. done.
Qed.

Lemma members_back indent d depth l x fuel rest w w' :
  Forall (λ kv, read_back kv.2) (x :: l) → forallb (λ kv, times_ok kv.2) (x :: l) = true →
  (elems_need (λ kv, need kv.2) (x :: l) <= fuel)%nat →
  depth + max_height (λ kv, height kv.2) (x :: l) <= maxNestingDepth →
  all_space w = true → all_space w' = true →
  parse_members fuel depth
    (String.concat ("," +:+ w) (map (member_text indent d) (x :: l)) +:+ w' +:+ "}" +:+ rest)
  = Some (map member_val (x :: l), rest).
Proof.
  intros Hall Ht Hn Hh Hw Hw'. revert x fuel Hall Ht Hn Hh.
  induction l as [|y l IH]; intros x fuel Hall Ht Hn Hh;
    inversion_clear Hall as [|? ? Hx Hl]; cbn [forallb] in Ht;
    apply andb_true_iff in Ht as [Htx Htl]; cbn [elems_need max_height foldr] in Hn, Hh;
    (destruct fuel as [|fuel]; [lia|]); cbn [map].
  - cbn [String.concat]. rewrite member_back; [|done|done|lia|lia|].
    2: { by apply ends_space. }
    by rewrite next_of_ws.
  - rewrite concat_cons2, <-!string_app_assoc.
    rewrite member_back; [|done|done|lia|lia|by apply (ends_space "")].
    rewrite next_comma.
    assert (parse_members fuel depth
      (w +:+ (String.concat ("," +:+ w) (map (member_text indent d) (y :: l)) +:+ w' +:+ "}" +:+ rest))
      = Some (map member_val (y :: l), rest)) as Hrec.
    { rewrite <-(IH y fuel Hl Htl ltac:(cbn; lia) ltac:(cbn; lia)).
      destruct fuel; [done|]. cbn [parse_members]. by rewrite skip_ws_app. }
    cbn [map] in Hrec. by rewrite Hrec.
Qed.

(** ** Every value *)

Lemma parse_string fuel depth t raw rest :
  lex_string t = Some (raw, rest) →
  parse_value (S fuel) depth (String quote_char t) = Some (VStr raw (unquote "" raw), rest).
Proof.
  intros H. change (parse_value (S fuel) depth (String quote_char t)) with
    (match lex_string t with
     | Some (raw, rest) => Some (VStr raw (unquote "" raw), rest) | None => None end).
  by rewrite H.
Qed.

(** Evaluate the tests on a known character. *)
Ltac known_char :=
  repeat match goal with
  | |- context [is_char ?n ?c] =>
     let b := eval vm_compute in (is_char n c) in change (is_char n c) with b
  | |- context [is_space ?c] =>
     let b := eval vm_compute in (is_space c) in change (is_space c) with b
  end; cbv iota.

Lemma parse_array fuel depth t l rest :
  depth < maxNestingDepth → (∀ r, next_of 93 t ≠ End_ r) →
  parse_elems fuel (depth + 1) t = Some (l, rest) →
  parse_value (S fuel) depth ("[" +:+ t) = Some (VArr l, rest).
Proof.
  intros Hd Ht Hl. change ("[" +:+ t) with (String "[" t). cbn [parse_value skip_ws]. known_char.
  rewrite (proj2 (Z.leb_gt _ _) Hd). destruct (next_of 93 t) as [r|r|] eqn:E; [by rewrite Hl| |by rewrite Hl].
  by destruct (Ht r).
Qed.
Lemma parse_object fuel depth t l rest :
  depth < maxNestingDepth → (∀ r, next_of 125 t ≠ End_ r) →
  parse_members fuel (depth + 1) t = Some (l, rest) →
  parse_value (S fuel) depth ("{" +:+ t) = Some (VObj l, rest).
Proof.
  intros Hd Ht Hl. change ("{" +:+ t) with (String "{" t). cbn [parse_value skip_ws]. known_char.
  rewrite (proj2 (Z.leb_gt _ _) Hd). destruct (next_of 125 t) as [r|r|] eqn:E; [by rewrite Hl| |by rewrite Hl].
  by destruct (Ht r).
Qed.
Lemma parse_empty fuel depth rest :
  depth < maxNestingDepth →
  parse_value (S fuel) depth ("[]" +:+ rest) = Some (VArr [], rest)
  ∧ parse_value (S fuel) depth ("{}" +:+ rest) = Some (VObj [], rest).
Proof.
  intros Hd. change ("[]" +:+ rest) with (String "[" (String "]" rest)).
  change ("{}" +:+ rest) with (String "{" (String "}" rest)).
  split; cbn [parse_value skip_ws]; known_char; by rewrite (proj2 (Z.leb_gt _ _) Hd).
Qed.

Lemma height_nonneg j : 0 <= height j.
Proof.
  destruct j as [| | | | |l|l]; cbn [height]; try done.
  - assert (0 <= foldr (λ x h, Z.max (height x) h) 0 l) by (induction l; cbn; lia). lia.
  - assert (0 <= foldr (λ kv h, Z.max (height kv.2) h) 0 l) by (induction l; cbn; lia). lia.
Qed.

(** The text of a list of values starts a value. *)
Lemma concat_starts {A} (f : A → string) sep x l t :
  starts_value (f x) → starts_value (String.concat sep (map f (x :: l)) +:+ t).
Proof.
  intros H. destruct l as [|y l]; cbn [map].
  - cbn [String.concat]. by apply starts_value_app.
  - rewrite concat_cons2, <-string_app_assoc. by apply starts_value_app.
Qed.

Lemma member_starts indent d kv : starts_value (member_text indent d kv).
Proof. destruct kv as [k v]. by eexists _, _. Qed.

Lemma render_back j : read_back j.
Proof.
  induction j as [|b|n|s|t|l Hl|l Hl] using json_nested_ind;
    intros indent d depth fuel rest Ht Hn Hh Hr;
    (destruct fuel as [|fuel]; [simpl in Hn; lia|]).
  - done.
  - by destruct b.
  - cbn [render]. pose proof (lex_number_Itoa n rest Hr) as Hlex.
    destruct (Itoa_starts n) as (a & u & E & Hs). rewrite E in *. rewrite string_app_cons in *.
    destruct Hs as (H34 & H123 & H91 & H116 & H102 & H110 & Hsp).
    cbn [parse_value skip_ws]. rewrite Hsp, H34, H123, H91, H116, H102, H110, Hlex. cbn [val_of].
    by rewrite E.
  - cbn [render val_of]. unfold quote. fold (escape s). rewrite <-!string_app_assoc.
    change (dquote +:+ (escape s +:+ (dquote +:+ rest)))
      with (String quote_char (escape s +:+ String quote_char rest)).
    rewrite (parse_string _ _ _ (escape s) rest) by apply lex_escape.
    do 3 f_equal. exact (unquote_escape s [] (Forall_nil_2 _)).
  - cbn [render val_of times_ok] in *. bool_to_prop.
    pose proof (time_plain t ltac:(done)) as Hp. rewrite <-!string_app_assoc.
    change (dquote +:+ (FormatRFC3339Nano t +:+ (dquote +:+ rest)))
      with (String quote_char (FormatRFC3339Nano t +:+ String quote_char rest)).
    rewrite (parse_string _ _ _ (FormatRFC3339Nano t) rest).
    + by rewrite unquote_plain, sanitize_plain.
    + rewrite lex_plain by done.
      change (lex_string (String quote_char rest)) with (Some ("", rest)). simpl.
      by rewrite string_app_nil_r.
  - destruct l as [|x l]; cbn [height] in Hh.
    { apply parse_empty. simpl in Hh. lia. }
    cbn [need] in Hn. fold (elems_need need (x :: l)) in Hn.
    fold (max_height height (x :: l)) in Hh.
    assert (0 <= max_height height (x :: l)).
    { unfold max_height. cbn [foldr]. pose proof (height_nonneg x). lia. }
    cbn [render val_of]. rewrite <-!string_app_assoc. apply parse_array; [lia| |].
    + apply not_end; [apply indent_space|apply concat_starts, render_starts|by left].
    + rewrite <-(elems_back indent (S d) (depth + 1) l x fuel rest (newline_indent indent (S d))
                   (newline_indent indent d) Hl Ht); [|lia|lia|apply indent_space..].
      destruct fuel; [done|]. cbn [parse_elems]. by rewrite parse_value_ws by apply indent_space.
  - destruct l as [|x l]; cbn [height] in Hh.
    { apply parse_empty. simpl in Hh. lia. }
    cbn [need] in Hn. fold (elems_need (λ kv : string * json, need kv.2) (x :: l)) in Hn.
    fold (max_height (λ kv : string * json, height kv.2) (x :: l)) in Hh.
    assert (0 <= max_height (λ kv : string * json, height kv.2) (x :: l)).
    { unfold max_height. cbn [foldr]. pose proof (height_nonneg x.2). lia. }
    cbn [render val_of]. fold (member_text indent (S d)). fold member_val.
    rewrite <-!string_app_assoc. apply parse_object; [lia| |].
    + apply not_end; [apply indent_space|apply concat_starts, member_starts|by right].
    + rewrite <-(members_back indent (S d) (depth + 1) l x fuel rest (newline_indent indent (S d))
                   (newline_indent indent d) Hl Ht); [|lia|lia|apply indent_space..].
      destruct fuel; [done|]. cbn [parse_members]. by rewrite skip_ws_app by apply indent_space.
Qed.

(** ** The fuel is enough *)

Lemma elems_length {A} (need : A → nat) (f : A → string) sep x l :
  (0 < String.length sep)%nat → Forall (λ y, need y <= String.length (f y))%nat (x :: l) →
  (elems_need need (x :: l) <= S (String.length (String.concat sep (map f (x :: l)))))%nat.
Proof.
  intros Hsep. revert x. induction l as [|y l IH]; intros x Hall; inversion_clear Hall as [|? ? Hx Hl].
  - cbn. lia.
  - cbn [map]. rewrite concat_cons2, !string_length_app.
    specialize (IH y Hl). cbn [map] in IH. unfold elems_need in *. cbn [foldr] in *. lia.
Qed.

Lemma starts_length s : starts_value s → (1 <= String.length s)%nat.
Proof. intros (a & t & -> & _). simpl. lia. Qed.

Lemma need_length indent d j : (need j <= String.length (render indent d j))%nat.
Proof.
  revert d. induction j as [|b|n|s|t|l Hl|l Hl] using json_nested_ind; intros d.
  1-5: apply (starts_length (render indent d _)), render_starts.
  - destruct l as [|x l]; [simpl; lia|]. cbn [need render]. rewrite !string_length_app.
    fold (elems_need need (x :: l)).
    pose proof (elems_length need (render indent (S d)) ("," +:+ newline_indent indent (S d)) x l).
    cbn [String.length] in *. rewrite string_length_app in H. cbn [String.length] in H.
    specialize (H ltac:(lia)). assert (Forall (λ y, need y <= String.length (render indent (S d) y))%nat (x :: l)).
    { eapply Forall_impl; [exact Hl|]. intros y Hy. apply Hy. }
    specialize (H H0). lia.
  - destruct l as [|x l]; [simpl; lia|]. cbn [need render]. rewrite !string_length_app.
    fold (elems_need (λ kv : string * json, need kv.2) (x :: l)). fold (member_text indent (S d)).
    pose proof (elems_length (λ kv : string * json, need kv.2) (member_text indent (S d))
                  ("," +:+ newline_indent indent (S d)) x l).
    cbn [String.length] in *. rewrite string_length_app in H. cbn [String.length] in H.
    specialize (H ltac:(lia)).
    assert (Forall (λ y, need y.2 <= String.length (member_text indent (S d) y))%nat (x :: l)).
    { eapply Forall_impl; [exact Hl|]. intros [k v] Hy. unfold member_text. rewrite !string_length_app.
      specialize (Hy (S d)). cbn [snd] in *. lia. }
    specialize (H H0). lia.
Qed.

(** Every reader leaves less than it was given. *)
Lemma skip_ws_length s : (String.length (skip_ws s) <= String.length s)%nat.
Proof. induction s as [|a s IH]; [done|]. cbn [skip_ws]. destruct (is_space a); simpl; lia. Qed.

Lemma prepend_Some p o raw rest : prepend p o = Some (raw, rest) → ∃ r, o = Some (r, rest).
Proof. destruct o as [[r t]|]; [|done]. intros [= _ ->]. by exists r. Qed.

Lemma lex_string_rest n s raw rest :
  (String.length s <= n)%nat → lex_string s = Some (raw, rest) →
  (String.length rest < String.length s)%nat.
Proof.
  revert s raw rest. induction n as [|n IH]; intros [|a s1] raw rest Hn; try done; [simpl in Hn; lia|].
  simpl in Hn. cbn [lex_string String.length].
  destruct (is_char 34 a); [intros [= _ <-]; lia|].
  destruct (is_char 92 a).
  - destruct s1 as [|b s2]; [done|]. simpl in Hn. destruct (is_char 117 b).
    + destruct s2 as [|c [|d [|e [|f s3]]]]; try done. simpl in Hn. case_match; [|done].
      intros [r Hr]%prepend_Some. apply IH in Hr; [|lia]. simpl. lia.
    + case_match; [|done]. intros [r Hr]%prepend_Some. apply IH in Hr; [|lia]. simpl. lia.
  - destruct (byte_val a <? 32); [done|]. intros [r Hr]%prepend_Some. apply IH in Hr; lia.
Qed.

Lemma span_digits_length s ds rest :
  span_digits s = (ds, rest) → String.length s = (String.length ds + String.length rest)%nat.
Proof.
  revert ds rest. induction s as [|a s IH]; intros ds rest; cbn [span_digits]; [by intros [= <- <-]|].
  case_match; [|by intros [= <- <-]]. destruct (span_digits s) as [ds' r'] eqn:E.
  intros [= <- <-]. simpl. by rewrite (IH _ _ eq_refl).
Qed.

Lemma digits1_rest s ds rest :
  digits1 s = Some (ds, rest) → (String.length rest < String.length s)%nat.
Proof.
  unfold digits1. destruct (span_digits s) as [ds' r'] eqn:E. apply span_digits_length in E.
  destruct ds' as [|a ds']; [done|]. intros [= _ <-]. simpl in E. lia.
Qed.

Lemma lex_number_rest s lit rest :
  lex_number s = Some (lit, rest) → (String.length rest < String.length s)%nat.
Proof.
  unfold lex_number. destruct (lex_int s) as [[i s1]|] eqn:E1; [|done].
  destruct (lex_frac s1) as [[f s2]|] eqn:E2; [|done].
  destruct (lex_exp s2) as [[e s3]|] eqn:E3; [|done]. intros [= _ <-].
  assert (String.length s1 < String.length s)%nat.
  { unfold lex_int in E1. destruct s as [|a t]; [done|]. destruct (is_char 45 a).
    - destruct t as [|b t']; [done|]. destruct (is_char 48 b); [injection E1 as _ <-; simpl; lia|].
      apply prepend_Some in E1 as [r E1]. apply digits1_rest in E1. simpl in *. lia.
    - destruct (is_char 48 a); [injection E1 as _ <-; simpl; lia|].
      apply prepend_Some in E1 as [r E1]. apply digits1_rest in E1. simpl in *. lia. }
  assert (String.length s2 <= String.length s1)%nat.
  { unfold lex_frac in E2. destruct s1 as [|a t]; [by injection E2 as _ <-|].
    destruct (is_char 46 a); [|by injection E2 as _ <-].
    apply prepend_Some in E2 as [r E2]. apply digits1_rest in E2. simpl. lia. }
  assert (String.length s3 <= String.length s2)%nat; [|lia].
  unfold lex_exp in E3. destruct s2 as [|a t]; [by injection E3 as _ <-|].
  destruct (_ || _); [|by injection E3 as _ <-]. destruct t as [|b t']; [done|].
  destruct (_ || _); apply prepend_Some in E3 as [r E3]; apply digits1_rest in E3; simpl in *; lia.
Qed.

Lemma next_of_rest close s rest :
  next_of close s = More rest ∨ next_of close s = End_ rest →
  (String.length rest < String.length s)%nat.
Proof.
  unfold next_of. pose proof (skip_ws_length s). destruct (skip_ws s) as [|a t]; [by intros [|]|].
  simpl in *. repeat case_match; intros [|]; simplify_eq; lia.
Qed.

(** The three readers make progress. *)
Lemma parse_rest fuel :
  (∀ d s v rest, parse_value fuel d s = Some (v, rest) → (String.length rest < String.length s)%nat)
  ∧ (∀ d s l rest, parse_elems fuel d s = Some (l, rest) → (String.length rest < String.length s)%nat)
  ∧ (∀ d s l rest, parse_members fuel d s = Some (l, rest) → (String.length rest < String.length s)%nat).
Proof.
  induction fuel as [|fuel (IHv & IHe & IHm)]; [done|]. split_and!; intros d s v rest.
  - cbn [parse_value]. pose proof (skip_ws_length s) as Hws.
    destruct (skip_ws s) as [|a t]; [done|]. simpl in Hws.
    repeat match goal with
    | |- context [if is_char ?n a then _ else _] => destruct (is_char n a)
    end.
    + destruct (lex_string t) as [[raw r]|] eqn:E; [|done]. intros [= _ <-].
      apply (lex_string_rest _ _ _ _ (Nat.le_refl _)) in E. lia.
    + case_if; [done|]. destruct (next_of 125 t) eqn:E;
        try (destruct (parse_members fuel (d + 1) t) as [[l r]|] eqn:E'; [|done];
             intros [= _ <-]; apply IHm in E'; lia).
      intros [= _ <-]. pose proof (next_of_rest 125 t rest0 (or_intror E)). lia.
    + case_if; [done|]. destruct (next_of 93 t) eqn:E;
        try (destruct (parse_elems fuel (d + 1) t) as [[l r]|] eqn:E'; [|done];
             intros [= _ <-]; apply IHe in E'; lia).
      intros [= _ <-]. pose proof (next_of_rest 93 t rest0 (or_intror E)). lia.
    + destruct (strip_prefix _ t) eqn:E; [|done]. intros [= _ <-]. apply strip_prefix_length in E. lia.
    + destruct (strip_prefix _ t) eqn:E; [|done]. intros [= _ <-]. apply strip_prefix_length in E. lia.
    + destruct (strip_prefix _ t) eqn:E; [|done]. intros [= _ <-]. apply strip_prefix_length in E. lia.
    + destruct (lex_number (String a t)) as [[lit r]|] eqn:E; [|done]. intros [= _ <-].
      apply lex_number_rest in E. simpl in E. lia.
  - cbn [parse_elems]. destruct (parse_value fuel d s) as [[x s1]|] eqn:E; [|done]. apply IHv in E.
    destruct (next_of 93 s1) as [r|r|] eqn:En; [| |done].
    + destruct (parse_elems fuel d r) as [[l r']|] eqn:E'; [|done]. intros [= _ <-]. apply IHe in E'.
      pose proof (next_of_rest 93 s1 r (or_introl En)). lia.
    + intros [= _ <-]. pose proof (next_of_rest 93 s1 r (or_intror En)). lia.
  - cbn [parse_members]. pose proof (skip_ws_length s) as Hws.
    destruct (skip_ws s) as [|a t]; [done|]. simpl in Hws. destruct (is_char 34 a); [|done].
    destruct (lex_string t) as [[raw s1]|] eqn:El; [|done].
    apply (lex_string_rest _ _ _ _ (Nat.le_refl _)) in El. pose proof (skip_ws_length s1) as Hws1.
    destruct (skip_ws s1) as [|c s2]; [done|]. simpl in Hws1. destruct (is_char 58 c); [|done].
    destruct (parse_value fuel d s2) as [[x s3]|] eqn:E; [|done]. apply IHv in E. cbv zeta.
    destruct (next_of 125 s3) as [r|r|] eqn:En; [| |done].
    + destruct (parse_members fuel d r) as [[l r']|] eqn:E'; [|done]. intros [= _ <-]. apply IHm in E'.
      pose proof (next_of_rest 125 s3 r (or_introl En)). lia.
    + intros [= _ <-]. pose proof (next_of_rest 125 s3 r (or_intror En)). lia.
Qed.

(** More fuel than [parse] gives changes nothing: the reader is never stopped by it. *)
Lemma parse_fuel_enough f :
  (∀ f' d s, (2 * String.length s + 1 <= f)%nat → (2 * String.length s + 1 <= f')%nat →
     parse_value f d s = parse_value f' d s)
  ∧ (∀ f' d s, (2 * String.length s + 2 <= f)%nat → (2 * String.length s + 2 <= f')%nat →
     parse_elems f d s = parse_elems f' d s)
  ∧ (∀ f' d s, (2 * String.length s + 2 <= f)%nat → (2 * String.length s + 2 <= f')%nat →
     parse_members f d s = parse_members f' d s).
Proof.
  induction f as [|f (IHv & IHe & IHm)]; [split_and!; intros; lia|].
  split_and!; intros [|f'] d s Hf Hf'; try lia.
  - cbn [parse_value]. pose proof (skip_ws_length s) as Hws.
    destruct (skip_ws s) as [|a t]; [done|]. simpl in Hws.
    by rewrite (IHm f' (d + 1) t), (IHe f' (d + 1) t) by lia.
  - cbn [parse_elems]. rewrite (IHv f' d s) by lia.
    destruct (parse_value f' d s) as [[x s1]|] eqn:E; [|done]. apply parse_rest in E.
    destruct (next_of 93 s1) as [r|r|] eqn:En; [|done..].
    pose proof (next_of_rest 93 s1 r (or_introl En)). by rewrite (IHe f' d r) by lia.
  - cbn [parse_members]. pose proof (skip_ws_length s) as Hws.
    destruct (skip_ws s) as [|a t]; [done|]. simpl in Hws. destruct (is_char 34 a); [|done].
    destruct (lex_string t) as [[raw s1]|] eqn:El; [|done].
    apply (lex_string_rest _ _ _ _ (Nat.le_refl _)) in El. pose proof (skip_ws_length s1) as Hws1.
    destruct (skip_ws s1) as [|c s2]; [done|]. simpl in Hws1. destruct (is_char 58 c); [|done].
    rewrite (IHv f' d s2) by lia.
    destruct (parse_value f' d s2) as [[x s3]|] eqn:E; [|done]. apply parse_rest in E. cbv zeta.
    destruct (next_of 125 s3) as [r|r|] eqn:En; [|done..].
    pose proof (next_of_rest 125 s3 r (or_introl En)). by rewrite (IHm f' d r) by lia.
Qed.

(** A document is read back, also with white space after it. *)
Lemma parse_render indent j w :
  times_ok j = true → height j <= maxNestingDepth → all_space w = true →
  parse (render indent 0 j +:+ w) = Some (val_of j).
Proof.
  intros Ht Hh Hw. unfold parse. rewrite render_back; [|done| |lia|].
  - assert (skip_ws w = "") as ->; [|by rewrite bool_decide_eq_true_2].
    rewrite <-(string_app_nil_r w). by rewrite skip_ws_app.
  - unfold parse_fuel. rewrite string_length_app. pose proof (need_length indent 0 j). lia.
  - intros a t ->. cbn [all_space] in Hw. apply andb_true_iff in Hw as [Ha _].
    unfold is_space, is_char, digit in *.
    assert (byte_val a = 32 ∨ byte_val a = 9 ∨ byte_val a = 10 ∨ byte_val a = 13) as Hv by lia.
    by destruct_or! Hv; rewrite Hv.
Qed.

End JSONValue.
