(* ===== verification/PathGuard.v ===== *)
(** * Checks on file names ([internal/security/pathguard.go])

    The functions of [path/filepath] the file uses are modelled on the components
    of a name, for a platform whose separator is the slash.  The working directory
    and the search of an executable in the PATH are inputs. *)

From S2P Require Import Prelude GoStrings.

Module PathGuard.

(** ** [path/filepath] *)

Definition slash : ascii := "/"%char.

(** [filepath.IsAbs] *)
Definition IsAbs (path : string) : bool := HasPrefix path "/".

(** One component more; the components so far are kept last first. *)
Definition clean_step (rooted : bool) (acc : list string) (c : string) : list string :=
  if bool_decide (c = "") || bool_decide (c = ".") then acc
  else if bool_decide (c = "..") then
    match acc with
    | [] => if rooted then [] else [".."]
    | last :: rest => if bool_decide (last = "..") then ".." :: acc else rest
    end
  else c :: acc.

Definition components (rooted : bool) (path : string) : list string :=
  reverse (foldl (clean_step rooted) [] (SplitByte path slash)).

Definition join_path (rooted : bool) (cs : list string) : string :=
  if rooted then "/" +:+ String.concat "/" cs
  else match cs with [] => "." | _ => String.concat "/" cs end.

(** [filepath.Clean] *)
Definition Clean (path : string) : string :=
  join_path (IsAbs path) (components (IsAbs path) path).

(** [filepath.Join] of two elements *)
Definition Join (a b : string) : string :=
  if bool_decide (a = "") then (if bool_decide (b = "") then "" else Clean b)
  else Clean (a +:+ "/" +:+ b).

(** [filepath.Abs]; [wd] is the result of [os.Getwd]. *)
Definition Abs (wd : result string string) (path : string) : result string string :=
  if IsAbs path then Ok (Clean path) else let* w := wd in Ok (Join w path).

Fixpoint strip_common (base targ : list string) : list string * list string :=
  match base, targ with
  | b :: base', t :: targ' =>
     if bool_decide (b = t) then strip_common base' targ' else (base, targ)
  | _, _ => (base, targ)
  end.

(** [filepath.Rel] *)
Definition Rel (basepath targpath : string) : result string string :=
  let base := Clean basepath in
  let targ := Clean targpath in
  let err := Err ("Rel: can't make " +:+ targpath +:+ " relative to " +:+ basepath) in
  if bool_decide (targ = base) then Ok "."
  else if negb (Bool.eqb (IsAbs base) (IsAbs targ)) then err
  else
    let '(br, tr) := strip_common (components (IsAbs base) base) (components (IsAbs targ) targ) in
    let up := match br, tr with b :: _, _ :: _ => bool_decide (b = "..") | _, _ => false end in
    if up then err else Ok (String.concat "/" (replicate (length br) ".." ++ tr)).

(** ** Operations *)

Section Guards.
Context (wd : result string string) (lookPath : string → result string string).

(** [ValidateFilesystemPath] *)
Definition ValidateFilesystemPath (path field : string) : result string string :=
  let cleaned := Clean (TrimSpace path) in
  if bool_decide (cleaned = ".") || bool_decide (cleaned = "")
  then Err (field +:+ " está vacío")
  else if contains_byte "000"%char cleaned
  then Err (field +:+ " contiene caracteres no válidos")
  else match Abs wd cleaned with
       | Err e => Err ("normalizar " +:+ field +:+ ": " +:+ e)
       | Ok abs => Ok abs
       end.

(** [ValidatePathInsideBase] *)
Definition ValidatePathInsideBase (base path field : string) : result string string :=
  let* baseAbs := ValidateFilesystemPath base "directorio base" in
  let candidate := TrimSpace path in
  if bool_decide (candidate = "") then Err (field +:+ " está vacío")
  else
    let candidate := if negb (IsAbs candidate) then Join baseAbs candidate else candidate in
    let* candidateAbs := ValidateFilesystemPath candidate field in
    match Rel baseAbs candidateAbs with
    | Err e => Err ("comparar " +:+ field +:+ " con directorio base: " +:+ e)
    | Ok rel =>
       if bool_decide (rel = "..") || HasPrefix rel "../"
       then Err (field +:+ " queda fuera del directorio permitido")
       else Ok candidateAbs
    end.

(** [ValidateExecutable] *)
Definition ValidateExecutable (binary : string) : result string string :=
  let value := TrimSpace binary in
  if bool_decide (value = "") then Err "el ejecutable está vacío"
  else if contains_byte "000"%char value then Err "el ejecutable contiene caracteres no válidos"
  else if contains_byte slash value || contains_byte "092"%char value
  then ValidateFilesystemPath value "ejecutable"
  else match lookPath value with
       | Err e => Err ("resolver ejecutable " +:+ value +:+ ": " +:+ e)
       | Ok resolved => Ok resolved
       end.

End Guards.

Example clean_dots : Clean "/a/./b//../../../c/" = "/c".
Proof. by vm_compute. Qed.
Example clean_relative : Clean "../a/../../b" = "../../b".
Proof. by vm_compute. Qed.
Example rel_up : Rel "/a/b" "/a/c/d" = Ok "../c/d".
Proof. by vm_compute. Qed.

(** ** Components *)

(** A component of a clean absolute name. *)
Definition plain (c : string) : Prop :=
  c ≠ "" ∧ c ≠ "." ∧ c ≠ ".." ∧ contains_byte slash c = false.

Lemma SplitByte_cons c s : ∃ p ps, SplitByte s c = p :: ps.
Proof.
  induction s as [|a s (p & ps & IH)]; simpl; [by eauto|].
  rewrite IH. case_bool_decide; eauto.
Qed.

Lemma SplitByte_free c s : Forall (λ p, contains_byte c p = false) (SplitByte s c).
Proof.
  induction s as [|a s IH]; simpl; [by repeat constructor|].
  case_bool_decide as E; [by constructor|].
  destruct (SplitByte s c) as [|p ps]; constructor; simpl.
  - by rewrite bool_decide_eq_false_2.
  - done.
  - rewrite bool_decide_eq_false_2 by done. by apply Forall_cons in IH as [-> _].
  - by apply Forall_cons in IH as [_ ?].
Qed.

Lemma SplitByte_app c s t :
  SplitByte (s +:+ String c t) c = SplitByte s c ++ SplitByte t c.
Proof.
  induction s as [|a s IH]; simpl; [by rewrite bool_decide_eq_true_2|].
  change (String a s +:+ String c t) with (String a (s +:+ String c t)). simpl.
  rewrite IH. case_bool_decide; [done|].
  destruct (SplitByte_cons c s) as (p & ps & ->). done.
Qed.

Lemma SplitByte_none c s : contains_byte c s = false → SplitByte s c = [s].
Proof.
  induction s as [|a s IH]; [done|]. simpl. rewrite orb_false_iff, bool_decide_eq_false.
  intros [? ?]. rewrite bool_decide_eq_false_2 by done. by rewrite IH.
Qed.

Lemma SplitByte_concat c cs :
  Forall (λ p, contains_byte c p = false) cs → cs ≠ [] →
  SplitByte (String.concat (String c "") cs) c = cs.
Proof.
  induction cs as [|p cs IH]; intros Hf Hne; [done|].
  apply Forall_cons in Hf as [Hp Hf]. destruct cs as [|q cs].
  - simpl. by apply SplitByte_none.
  - change (String.concat (String c "") (p :: q :: cs))
      with (p +:+ String c (String.concat (String c "") (q :: cs))).
    rewrite SplitByte_app, SplitByte_none by done. by rewrite IH.
Qed.

Lemma clean_plain_foldl acc cs :
  Forall plain cs → foldl (clean_step true) acc cs = reverse cs ++ acc.
Proof.
  revert acc. induction cs as [|c cs IH]; intros acc Hf; [done|].
  apply Forall_cons in Hf as [(H1 & H2 & H3 & _) Hf]. simpl.
  unfold clean_step at 2. rewrite !bool_decide_eq_false_2 by done. simpl.
  rewrite IH by done. by rewrite reverse_cons, <-app_assoc.
Qed.

Lemma foldl_clean_plain acc l :
  Forall (λ p, contains_byte slash p = false) l → Forall plain acc →
  Forall plain (foldl (clean_step true) acc l).
Proof.
  revert acc. induction l as [|c l IH]; intros acc Hl Ha; [done|].
  apply Forall_cons in Hl as [Hc Hl]. simpl. apply IH; [done|]. unfold clean_step.
  case_bool_decide; simpl; [done|]. case_bool_decide; simpl; [done|]. case_bool_decide.
  - destruct acc as [|x acc]; [done|]. apply Forall_cons in Ha as [Hx Ha].
    rewrite bool_decide_eq_false_2; [done|]. by destruct Hx as (_ & _ & ? & _).
  - by constructor.
Qed.

Lemma components_plain s : Forall plain (components true s).
Proof.
  unfold components. apply Forall_reverse, foldl_clean_plain; [apply SplitByte_free|constructor].
Qed.

Lemma plain_free cs : Forall plain cs → Forall (λ p, contains_byte slash p = false) cs.
Proof. intros Hf. eapply Forall_impl; [exact Hf|]. by intros c (_ & _ & _ & ?). Qed.

Lemma SplitByte_join cs :
  Forall plain cs →
  SplitByte (join_path true cs) slash = "" :: match cs with [] => [""] | _ => cs end.
Proof.
  intros Hf. unfold join_path. change ("/" +:+ String.concat "/" cs)
    with (String slash (String.concat (String slash "") cs)). simpl.
  f_equal. destruct cs as [|c cs]; [done|]. apply SplitByte_concat; [|done].
  by apply plain_free.
Qed.

Lemma components_join cs : Forall plain cs → components true (join_path true cs) = cs.
Proof.
  intros Hf. unfold components. rewrite SplitByte_join by done. simpl.
  destruct cs as [|c cs]; [done|]. rewrite clean_plain_foldl by done.
  by rewrite app_nil_r, reverse_involutive.
Qed.

Lemma Clean_rooted s : IsAbs s = true → Clean s = join_path true (components true s).
Proof. unfold Clean. by intros ->. Qed.

Lemma IsAbs_join cs : IsAbs (join_path true cs) = true.
Proof. done. Qed.

Lemma Clean_join cs : Forall plain cs → Clean (join_path true cs) = join_path true cs.
Proof. intros Hf. rewrite Clean_rooted by done. by rewrite components_join. Qed.

(** ** Containment *)

(** The name is the directory itself or lies below it. *)
Definition below (base path : string) : Prop :=
  path = base ∨ ∃ t, path = (if bool_decide (base = "/") then "/" else base +:+ "/") +:+ t.

Lemma join_app bc rest :
  bc ≠ [] → rest ≠ [] →
  join_path true (bc ++ rest) = join_path true bc +:+ "/" +:+ String.concat "/" rest.
Proof.
  intros Hb Hr. unfold join_path.
  assert (H : ∀ bc, bc ≠ [] →
    String.concat "/" (bc ++ rest) = String.concat "/" bc +:+ "/" +:+ String.concat "/" rest).
  { clear bc Hb. intros bc. induction bc as [|b bc IH]; intros Hb; [done|].
    destruct bc as [|b' bc]; [by destruct rest|].
    change (b +:+ "/" +:+ String.concat "/" ((b' :: bc) ++ rest)
      = (b +:+ "/" +:+ String.concat "/" (b' :: bc)) +:+ "/" +:+ String.concat "/" rest).
    rewrite IH by done. by rewrite <-!string_app_assoc. }
  rewrite H by done. by rewrite <-string_app_assoc.
Qed.

Lemma join_root_nil cs : Forall plain cs → join_path true cs = "/" ↔ cs = [].
Proof.
  intros Hf. split; [|by intros ->]. intros E.
  rewrite <-(components_join cs) by done. by rewrite E.
Qed.

Lemma below_components bc rc :
  Forall plain bc → Forall plain rc →
  below (join_path true bc) (join_path true rc) ↔ ∃ rest, rc = bc ++ rest.
Proof.
  intros Hb Hr. unfold below. split.
  - intros [E|[t E]].
    + exists []. apply (f_equal (components true)) in E.
      rewrite !components_join in E by done. by rewrite app_nil_r.
    + destruct bc as [|b bc]; [by exists rc|].
      rewrite bool_decide_eq_false_2 in E by (rewrite join_root_nil by done; done).
      apply (f_equal (λ s, SplitByte s slash)) in E.
      rewrite <-string_app_assoc in E. change ("/" +:+ t) with (String slash t) in E.
      rewrite SplitByte_app, !SplitByte_join in E by done. injection E as E.
      destruct rc as [|r rc]; [|by exists (SplitByte t slash)].
      injection E as E1 E2. apply Forall_cons in Hb as [(? & _) _]. congruence.
  - intros [rest ->]. destruct rest as [|x rest]; [left; by rewrite app_nil_r|right].
    destruct bc as [|b bc]; [by exists (String.concat "/" (x :: rest))|].
    rewrite bool_decide_eq_false_2 by (rewrite join_root_nil by done; done).
    exists (String.concat "/" (x :: rest)). rewrite join_app by done.
    by rewrite string_app_assoc.
Qed.

Lemma strip_common_spec bc rc br tr :
  strip_common bc rc = (br, tr) →
  ∃ p, bc = p ++ br ∧ rc = p ++ tr
     ∧ match br, tr with b :: _, t :: _ => b ≠ t | _, _ => True end.
Proof.
  revert rc. induction bc as [|b bc IH]; intros rc; simpl.
  { intros [= <- <-]. by exists []. }
  destruct rc as [|r rc]; [intros [= <- <-]; by exists []|]. case_bool_decide as E.
  - intros (p & -> & -> & H)%IH. subst. by exists (r :: p).
  - intros [= <- <-]. by exists [].
Qed.

Lemma app_prefix_of (bc p br tr : list string) rest :
  bc = p ++ br → bc ++ rest = p ++ tr →
  match br, tr with b :: _, t :: _ => b ≠ t | _, _ => True end → br = [].
Proof.
  intros -> E H. rewrite <-app_assoc in E. apply (inj (app p)) in E. subst tr.
  by destruct br.
Qed.

Lemma concat_plain_not_up tr :
  Forall plain tr →
  bool_decide (String.concat "/" tr = "..") || HasPrefix (String.concat "/" tr) "../" = false.
Proof.
  intros Hf. destruct tr as [|t tr]; [done|].
  pose proof (SplitByte_concat slash (t :: tr) (plain_free _ Hf)) as Hs.
  apply Forall_cons in Hf as [(_ & _ & Ht & _) _].
  apply orb_false_iff. split.
  - apply bool_decide_eq_false. intros E. change (String slash "") with "/" in Hs.
    rewrite E in Hs. by injection (Hs ltac:(done)) as <-.
  - apply not_true_is_false. intros [x E]%HasPrefix_spec. change (String slash "") with "/" in Hs.
    rewrite E in Hs. change ("../" +:+ x) with (".." +:+ String slash x) in Hs.
    rewrite SplitByte_app in Hs. by injection (Hs ltac:(done)) as <-.
Qed.

Lemma up_detected (cs : list string) :
  bool_decide (String.concat "/" (".." :: cs) = "..")
  || HasPrefix (String.concat "/" (".." :: cs)) "../" = true.
Proof.
  destruct cs as [|c cs]; [done|]. apply orb_true_iff. right. apply HasPrefix_spec.
  by exists (String.concat "/" (c :: cs)).
Qed.

(** The relative name climbs out of the base exactly when the base is not a prefix. *)
Lemma Rel_escapes bc rc :
  Forall plain bc → Forall plain rc →
  ∃ rel, Rel (join_path true bc) (join_path true rc) = Ok rel
       ∧ (bool_decide (rel = "..") || HasPrefix rel "../" = false ↔ ∃ rest, rc = bc ++ rest).
Proof.
  intros Hb Hr. unfold Rel. rewrite !Clean_join, !IsAbs_join, !components_join by done.
  case_bool_decide as E.
  { exists ".". split; [done|]. apply (f_equal (components true)) in E.
    rewrite !components_join in E by done. subst. split; [|done]. exists []. by rewrite app_nil_r. }
  simpl. destruct (strip_common bc rc) as [br tr] eqn:Es.
  apply strip_common_spec in Es as (p & Hp1 & Hp2 & Hne).
  destruct br as [|b br].
  - eexists. split; [done|]. simpl. split; [|].
    + intros _. exists tr. by rewrite Hp2, Hp1, app_nil_r.
    + intros _. apply concat_plain_not_up. rewrite Hp2 in Hr. by apply Forall_app in Hr as [_ ?].
  - assert (Hb' : plain b) by (rewrite Hp1 in Hb; apply Forall_app in Hb as [_ [? _]%Forall_cons]; done).
    exists (String.concat "/" (replicate (length (b :: br)) ".." ++ tr)). split.
    + rewrite bool_decide_eq_false_2 by (by destruct Hb' as (_ & _ & ? & _)).
      by destruct tr.
    + split; [intros Hf|intros [rest Hrest]].
      * exfalso. revert Hf. simpl replicate. simpl app. by rewrite up_detected.
      * rewrite Hrest in Hp2. by pose proof (app_prefix_of _ _ _ _ _ Hp1 Hp2 Hne).
Qed.

(** [os.Getwd] returns a rooted name. *)
Definition rooted_wd (wd : result string string) : Prop := ∀ w, wd = Ok w → IsAbs w = true.

Lemma Clean_abs s : IsAbs s = true → ∃ cs, Forall plain cs ∧ Clean s = join_path true cs.
Proof. intros Hs. exists (components true s). by rewrite Clean_rooted; auto using components_plain. Qed.

Lemma IsAbs_app s t : IsAbs s = true → IsAbs (s +:+ t) = true.
Proof.
  unfold IsAbs. rewrite !HasPrefix_spec. intros [x ->]. exists (x +:+ t). by rewrite string_app_assoc.
Qed.

Lemma VFP_abs wd path field r :
  rooted_wd wd → ValidateFilesystemPath wd path field = Ok r →
  ∃ cs, Forall plain cs ∧ r = join_path true cs.
Proof.
  intros Hwd. unfold ValidateFilesystemPath, Abs. do 2 (case_if; [done|]).
  case_if; [intros [= <-]; by apply Clean_abs|].
  destruct wd as [w|e]; [|done]. intros [= <-]. specialize (Hwd w eq_refl).
  unfold Join. destruct (bool_decide_reflect (w = "")) as [->|_]; [done|].
  by apply Clean_abs, IsAbs_app.
Qed.

(** ** Where a name leads *)

(** The components of the file that a name means in the working directory [w]. *)
Definition resolve (w path : string) : list string :=
  components true (if IsAbs path then path else w +:+ "/" +:+ path).

(** A component of a clean relative name. *)
Definition relative_component (c : string) : Prop :=
  c ≠ "" ∧ c ≠ "." ∧ contains_byte slash c = false.

Lemma clean_relative_foldl acc l :
  Forall (λ p, contains_byte slash p = false) l → Forall relative_component acc →
  Forall relative_component (foldl (clean_step false) acc l).
Proof.
  revert acc. induction l as [|c l IH]; intros acc Hl Ha; [done|].
  apply Forall_cons in Hl as [Hc Hl]. simpl. apply IH; [done|]. unfold clean_step.
  case_bool_decide; simpl; [done|]. case_bool_decide; simpl; [done|]. case_bool_decide.
  - assert (relative_component "..") by (by split_and!). destruct acc as [|x acc]; [by repeat constructor|].
    case_bool_decide; [by constructor|]. by apply Forall_cons in Ha as [_ Ha].
  - constructor; [by split_and!|done].
Qed.

Lemma components_relative x : Forall relative_component (components false x).
Proof. apply Forall_reverse, clean_relative_foldl; [apply SplitByte_free|constructor]. Qed.

(** Cleaning a relative name first does not change where the steps lead. *)
Lemma foldl_clean_relative acc l :
  Forall (λ p, contains_byte slash p = false) l →
  foldl (clean_step true) acc (reverse (foldl (clean_step false) [] l))
  = foldl (clean_step true) acc l.
Proof.
  induction l as [|c l IH] using rev_ind; intros Hl; [done|].
  apply Forall_app in Hl as [Hl _]. rewrite !foldl_app. cbn [foldl].
  rewrite <-(IH Hl). pose proof (clean_relative_foldl [] l Hl (Forall_nil_2 _)) as HR.
  set (R := foldl (clean_step false) [] l) in *.
  unfold clean_step at 2. destruct (bool_decide (c = "") || bool_decide (c = ".")) eqn:E1.
  { unfold clean_step at 2. by rewrite E1. }
  destruct (bool_decide_reflect (c = "..")) as [->|Hc].
  - destruct R as [|x R]; [done|]. destruct (bool_decide_reflect (x = "..")) as [Hx|Hx].
    + by rewrite (reverse_cons (x :: R)), foldl_app.
    + rewrite reverse_cons, foldl_app. cbn [foldl]. apply Forall_cons in HR as [(Hx1 & Hx2 & _) _].
      set (B := foldl (clean_step true) acc (reverse R)).
      assert (E : clean_step true B x = x :: B).
      { unfold clean_step. by rewrite !bool_decide_eq_false_2. }
      rewrite E. unfold clean_step. simpl. by rewrite bool_decide_eq_false_2.
  - by rewrite reverse_cons, foldl_app.
Qed.

Lemma SplitByte_relative cs :
  cs ≠ [] → Forall relative_component cs → SplitByte (String.concat "/" cs) slash = cs.
Proof.
  intros Hne Hf. change "/" with (String slash ""). destruct cs as [|c cs]; [done|].
  apply SplitByte_concat; [|done]. eapply Forall_impl; [exact Hf|]. by intros x (_ & _ & ?).
Qed.

Lemma IsAbs_relative c cs :
  Forall relative_component (c :: cs) → IsAbs (String.concat "/" (c :: cs)) = false.
Proof.
  intros [(H1 & _ & H3) _]%Forall_cons. destruct c as [|a c]; [done|]. simpl in H3.
  unfold IsAbs. destruct (HasPrefix _ "/") eqn:E; [|done]. apply HasPrefix_spec in E as [t Ht].
  destruct cs; simpl in Ht; injection Ht as -> _; done.
Qed.

Lemma resolve_Clean w x : resolve w (Clean x) = resolve w x.
Proof.
  unfold resolve, Clean. destruct (IsAbs x) eqn:Ex.
  { rewrite IsAbs_join. apply components_join, components_plain. }
  pose proof (components_relative x) as Hr. unfold join_path.
  assert (H : ∀ y, IsAbs y = false → foldl (clean_step true) (foldl (clean_step true) []
      (SplitByte w slash)) (SplitByte y slash)
      = foldl (clean_step true) (foldl (clean_step true) [] (SplitByte w slash)) (SplitByte x slash) →
    components true (if IsAbs y then y else w +:+ "/" +:+ y) = components true (w +:+ "/" +:+ x)).
  { intros y -> Hy. unfold components. change ("/" +:+ ?z) with (String slash z).
    by rewrite !SplitByte_app, !foldl_app, Hy. }
  rewrite <-(foldl_clean_relative _ (SplitByte x slash)) in H by apply SplitByte_free.
  change (reverse (foldl (clean_step false) [] (SplitByte x slash))) with (components false x) in H.
  destruct (components false x) as [|c cs] eqn:Ec; [by apply H|].
  apply H; [by apply IsAbs_relative|]. by rewrite SplitByte_relative.
Qed.

(** C32: a validated name stays inside its base directory.  Provided the working
    directory is rooted, [ValidatePathInsideBase] accepts a name exactly when it is
    not empty, the base and the name (taken relative to the base unless absolute)
    are valid, and the result is the base or a name below it; the result is
    absolute, clean and without any dot-dot component. *)
Theorem path_inside_base (wd : result string string) (base path field r : string) :
  rooted_wd wd →
  (ValidatePathInsideBase wd base path field = Ok r ↔
     TrimSpace path ≠ ""
     ∧ ∃ b, ValidateFilesystemPath wd base "directorio base" = Ok b
          ∧ ValidateFilesystemPath wd
              (if IsAbs (TrimSpace path) then TrimSpace path else Join b (TrimSpace path)) field
            = Ok r
          ∧ below b r)
  ∧ (ValidatePathInsideBase wd base path field = Ok r →
     IsAbs r = true ∧ Clean r = r ∧ ".." ∉ SplitByte r slash).
Proof.
  intros Hwd. set (p := TrimSpace path).
  assert (Hiff : ValidatePathInsideBase wd base path field = Ok r ↔
     p ≠ "" ∧ ∃ b, ValidateFilesystemPath wd base "directorio base" = Ok b
       ∧ ValidateFilesystemPath wd (if IsAbs p then p else Join b p) field = Ok r ∧ below b r).
  { unfold ValidatePathInsideBase. fold p.
    destruct (ValidateFilesystemPath wd base _) as [b|e] eqn:Eb; [|naive_solver].
    destruct (VFP_abs _ _ _ _ Hwd Eb) as (bc & Hbc & ->).
    case_bool_decide; [naive_solver|].
    replace (if negb (IsAbs p) then Join (join_path true bc) p else p)
      with (if IsAbs p then p else Join (join_path true bc) p) by by destruct (IsAbs p).
    destruct (ValidateFilesystemPath wd _ field) as [c|e] eqn:Ec.
    2: { split; [done|]. intros (_ & b & [= <-] & Hc & _).
         exact (eq_trans (eq_sym Ec) Hc). }
    destruct (VFP_abs _ _ _ _ Hwd Ec) as (rc & Hrc & ->).
    destruct (Rel_escapes bc rc Hbc Hrc) as (rel & -> & Hrel).
    rewrite <-(below_components bc rc) in Hrel by done.
    split.
    - case_if; [done|]. intros [= <-]. split; [done|]. eexists. split_and!; [done..|].
      by apply Hrel.
    - intros (_ & b & [= <-] & Hc & Hbelow). injection (eq_trans (eq_sym Ec) Hc) as <-.
      apply Hrel in Hbelow. by rewrite Hbelow. }
  split; [done|]. intros (_ & b & _ & (rc & Hrc & ->)%VFP_abs & _)%Hiff; [|done].
  split_and!; [done|by apply Clean_join|]. rewrite SplitByte_join by done.
  intros [?|Hin]%elem_of_cons; [done|]. destruct rc as [|c rc].
  - by apply list_elem_of_singleton in Hin.
  - rewrite Forall_forall in Hrc. by destruct (Hrc _ Hin) as (_ & _ & ? & _).
Qed.

Lemma path_inside_base_witness :
  ValidatePathInsideBase (Ok "/srv") "data" "keys/../student" "usuario" = Ok "/srv/data/student"
  ∧ Clean "/srv/data/student" = "/srv/data/student".
Proof.
  destruct (path_inside_base (Ok "/srv") "data" "keys/../student" "usuario" "/srv/data/student")
    as [H1 H2].
  - by intros w [= <-].
  - assert (H : ValidatePathInsideBase (Ok "/srv") "data" "keys/../student" "usuario"
      = Ok "/srv/data/student") by by vm_compute.
    split; [exact H|]. by destruct (H2 H) as (_ & ? & _).
Defined.

End PathGuard.
