(* ===== verification/Disk.v ===== *)
(** * Files by name

    What the SSH client and the host key loader use of package [os]: the contents of
    regular files by cleaned absolute name, and what each call answers.  The outcome of a
    call is an input: it may fail, and a write may stop in the middle. *)

From S2P Require Import Prelude GoStrings.

Module Disk.

Abbreviation disk := (gmap string string) (only parsing).

Definition no_such_file (path : string) : string :=
  "open " +:+ path +:+ ": no such file or directory".

(** How a write goes: all of it, an error before the file is touched, or an error after
    some bytes. *)
Inductive write := Written | Refused (err : string) | Short (n : nat) (err : string).

Definition write_err (w : write) : option string :=
  match w with Written => None | Refused e | Short _ e => Some e end.

(** [os.WriteFile]: the file is created or truncated before the first byte. *)
Definition WriteFile (w : write) (path data : string) (σ : disk) : option string * disk :=
  (write_err w,
   match w with
   | Written => <[path := data]> σ
   | Refused _ => σ
   | Short n _ => <[path := str_take n data]> σ
   end).

(** [os.OpenFile] with [O_APPEND|O_WRONLY], which does not create the file, and one
    write. *)
Inductive appended := NotOpened (err : string) | Appended | NotWritten (err : string).

Definition AppendFile (w : write) (path data : string) (σ : disk) : appended * disk :=
  match σ !! path with
  | None => (NotOpened (no_such_file path), σ)
  | Some old =>
     match w with
     | Written => (Appended, <[path := old +:+ data]> σ)
     | Refused e => (NotOpened e, σ)
     | Short n e => (NotWritten e, <[path := old +:+ str_take n data]> σ)
     end
  end.

(** [os.Stat]: what the code tells apart. *)
Inductive stat := Exists | Missing | StatError (err : string).
Definition Stat (fault : option string) (path : string) (σ : disk) : stat :=
  match fault with
  | Some e => StatError e
  | None => match σ !! path with Some _ => Exists | None => Missing end
  end.

(** [os.ReadFile] *)
Definition ReadFile (fault : option string) (path : string) (σ : disk) : result string string :=
  match fault with
  | Some e => Err e
  | None => match σ !! path with Some c => Ok c | None => Err (no_such_file path) end
  end.

(** ** Facts *)

Lemma WriteFile_other w path data σ q :
  q ≠ path → (WriteFile w path data σ).2 !! q = σ !! q.
Proof. intros H. destruct w; [|done|]; cbn [WriteFile snd]; by rewrite lookup_insert_ne. Qed.

End Disk.
