(* ===== verification/Certificates.v ===== *)
(** * The certificate of the control API ([ensureCertificatePair] of
    [internal/controlplane/httpapi/server.go])

    A pair of files that does not load is replaced.  Keys, certificates and their check
    are parameters ([TLSLibrary]), relied on only in that a certificate made with a key
    loads together with it.  Two names are two files. *)

From S2P Require Import Prelude GoStrings Disk.

Module Certificates.
Import Disk.
Local Open Scope Z_scope.

(** The fields of the template that vary. *)
Record template := mkTemplate {
  SerialNumber : Z;
  NotBefore : Time;
  NotAfter : Time;
  IPAddresses : list string;
  DNSNames : list string;
}.

Class TLSLibrary := {
  LoadX509KeyPair : string → string → option string;
  ParseIP : string → option string;
  CreateCertificate : template → string → result string string;
  certPEM : string → string;
  keyPEM : string → string;
  pair_loads tpl priv der :
    CreateCertificate tpl priv = Ok der → LoadX509KeyPair (certPEM der) (keyPEM priv) = None;
}.

(** What the system answers. *)
Record calls := mkCalls {
  mkdir_cert : option string;
  mkdir_key : option string;
  stat_cert : option string;
  stat_key : option string;
  load_fault : option string;
  write_cert : write;
  write_key : write;
}.
Definition no_faults : calls := mkCalls None None None None None Written Written.

(** What the generator of random numbers and the clock answer. *)
Record entropy := mkEntropy {
  rsa_key : result string string;
  serial : result string Z;
  now_before : Time;
  now_after : Time;
}.

Section Pair.
Context `{TL : TLSLibrary}.

(** [fileExists] *)
Definition fileExists (fault : option string) (path : string) (σ : disk) : bool :=
  match Stat fault path σ with Exists => true | _ => false end.

(** The hosts of the certificate: addresses and names. *)
Definition add_hosts (hosts : list string) (tpl : template) : template :=
  foldl (λ tpl h,
    match ParseIP h with
    | Some ip => mkTemplate (SerialNumber tpl) (NotBefore tpl) (NotAfter tpl)
                   (IPAddresses tpl ++ [ip]) (DNSNames tpl)
    | None => mkTemplate (SerialNumber tpl) (NotBefore tpl) (NotAfter tpl)
                (IPAddresses tpl) (DNSNames tpl ++ [h])
    end) tpl hosts.

Definition Hour : Duration := 60 * Minute.

(** The template of a new certificate. *)
Definition pair_template (en : entropy) (n : Z) (hosts : list string) : template :=
  add_hosts hosts
    (mkTemplate n (Add (now_before en) (- Hour)) (Add (now_after en) (365 * 24 * Hour)) [] []).

(** A new pair: the certificate is written before the key. *)
Definition generate_pair (c : calls) (en : entropy) (certPath keyPath : string) (hosts : list string)
    (σ : disk) : option string * disk :=
  match rsa_key en with
  | Err e => (Some e, σ)
  | Ok priv =>
     match serial en with
     | Err e => (Some e, σ)
     | Ok n =>
        match CreateCertificate (pair_template en n hosts) priv with
        | Err e => (Some e, σ)
        | Ok der =>
           let '(err, σ) := WriteFile (write_cert c) certPath (certPEM der) σ in
           match err with
           | Some e => (Some e, σ)
           | None => WriteFile (write_key c) keyPath (keyPEM priv) σ
           end
        end
     end
  end.

(** [tls.LoadX509KeyPair] of the files: no error. *)
Definition loads (fault : option string) (certPath keyPath : string) (σ : disk) : bool :=
  match fault, σ !! certPath, σ !! keyPath with
  | None, Some cert, Some key =>
     match LoadX509KeyPair cert key with None => true | Some _ => false end
  | _, _, _ => false
  end.

(** [ensureCertificatePair] *)
Definition ensureCertificatePair (c : calls) (en : entropy) (certPath keyPath : string)
    (hosts : list string) (σ : disk) : option string * disk :=
  if bool_decide (certPath = "") || bool_decide (keyPath = "")
  then (Some "la ruta del certificado está vacía", σ)
  else match mkdir_cert c with
  | Some e => (Some e, σ)
  | None =>
     match mkdir_key c with
     | Some e => (Some e, σ)
     | None =>
        if fileExists (stat_cert c) certPath σ && fileExists (stat_key c) keyPath σ
           && loads (load_fault c) certPath keyPath σ
        then (None, σ)
        else generate_pair c en certPath keyPath hosts σ
     end
  end.

(** ** Facts *)

Lemma loads_exist certPath keyPath σ :
  loads None certPath keyPath σ = true →
  fileExists None certPath σ = true ∧ fileExists None keyPath σ = true.
Proof using Type.
  unfold loads, fileExists, Stat. destruct (σ !! certPath); [|done]. by destruct (σ !! keyPath).
Qed.

(** A generation that succeeds leaves a pair that loads. *)
Lemma generated_pair_loads c en certPath keyPath hosts σ :
  certPath ≠ keyPath → (generate_pair c en certPath keyPath hosts σ).1 = None →
  loads None certPath keyPath (generate_pair c en certPath keyPath hosts σ).2 = true.
Proof using Type.
  intros Hne. unfold generate_pair. destruct (rsa_key en) as [priv|]; [|done].
  destruct (serial en) as [n|]; [|done].
  destruct (CreateCertificate _ priv) as [der|] eqn:Hd; [|done].
  unfold WriteFile at 1 3. destruct (write_cert c); cbn [write_err]; try done.
  unfold WriteFile. destruct (write_key c); cbn [write_err fst snd]; try done. intros _.
  unfold loads. rewrite lookup_insert_ne, !lookup_insert_eq by done.
  by rewrite (pair_loads _ _ _ Hd).
Qed.

Lemma generate_pair_other c en certPath keyPath hosts σ q :
  q ≠ certPath → q ≠ keyPath → (generate_pair c en certPath keyPath hosts σ).2 !! q = σ !! q.
Proof using Type.
  intros Hc Hk. unfold generate_pair. destruct (rsa_key en) as [priv|]; [|done].
  destruct (serial en) as [n|]; [|done].
  destruct (CreateCertificate _ priv) as [der|]; [|done].
  pose proof (WriteFile_other (write_cert c) certPath (certPEM der) σ q Hc) as H.
  destruct (WriteFile (write_cert c) certPath (certPEM der) σ) as [[e|] σ']; [exact H|].
  cbn [snd] in H. rewrite <-H. by apply WriteFile_other.
Qed.

(** What a start does, in terms of the pair on disk. *)
Lemma ensure_cases c en certPath keyPath hosts σ :
  certPath ≠ "" → keyPath ≠ "" →
  let res := ensureCertificatePair c en certPath keyPath hosts σ in
  (∃ e, res = (Some e, σ))
  ∨ (res = (None, σ) ∧ loads None certPath keyPath σ = true)
  ∨ (res = generate_pair c en certPath keyPath hosts σ
     ∧ (c = no_faults → loads None certPath keyPath σ = false)).
Proof using Type.
  intros Hc Hk. cbv zeta. unfold ensureCertificatePair.
  rewrite (bool_decide_eq_false_2 _ Hc), (bool_decide_eq_false_2 _ Hk). cbn [orb].
  destruct (mkdir_cert c) as [e|] eqn:E1; [left; eauto|].
  destruct (mkdir_key c) as [e|] eqn:E2; [left; eauto|]. right.
  destruct (_ && _ && _) eqn:E.
  - left. split; [done|]. apply andb_true_iff in E as [_ E]. unfold loads in *.
    by destruct (load_fault c).
  - right. split; [done|]. intros ->. cbn [stat_cert stat_key load_fault no_faults] in E.
    destruct (loads None certPath keyPath σ) eqn:L; [|done].
    destruct (loads_exist _ _ _ L) as [H1 H2]. by rewrite H1, H2 in E.
Qed.

Lemma ensure_keeps en certPath keyPath hosts σ :
  certPath ≠ "" → keyPath ≠ "" → loads None certPath keyPath σ = true →
  ensureCertificatePair no_faults en certPath keyPath hosts σ = (None, σ).
Proof using Type.
  intros Hc Hk L. unfold ensureCertificatePair.
  rewrite (bool_decide_eq_false_2 _ Hc), (bool_decide_eq_false_2 _ Hk).
  destruct (loads_exist _ _ _ L) as [H1 H2]. cbn [orb no_faults mkdir_cert mkdir_key stat_cert stat_key load_fault].
  by rewrite H1, H2, L.
Qed.

(** What a generation without faults of the disk answers and writes. *)
Lemma generate_pair_no_faults en certPath keyPath hosts σ priv n :
  rsa_key en = Ok priv → serial en = Ok n →
  generate_pair no_faults en certPath keyPath hosts σ
  = match CreateCertificate (pair_template en n hosts) priv with
    | Ok der => (None, <[keyPath := keyPEM priv]> (<[certPath := certPEM der]> σ))
    | Err e => (Some e, σ)
    end.
Proof using Type.
  intros Hr Hs. unfold generate_pair. rewrite Hr, Hs. by destruct (CreateCertificate _ priv).
Qed.

Lemma ensure_replaces en certPath keyPath hosts σ :
  certPath ≠ "" → keyPath ≠ "" → loads None certPath keyPath σ = false →
  ensureCertificatePair no_faults en certPath keyPath hosts σ
  = generate_pair no_faults en certPath keyPath hosts σ.
Proof using Type.
  intros Hc Hk L. unfold ensureCertificatePair.
  rewrite (bool_decide_eq_false_2 _ Hc), (bool_decide_eq_false_2 _ Hk).
  cbn [orb no_faults mkdir_cert mkdir_key stat_cert stat_key load_fault].
  by rewrite L, andb_false_r.
Qed.

End Pair.

(** ** A library to try *)

Definition is_ascii (s : string) : bool :=
  forallb (λ c, Nat.ltb (Ascii.nat_of_ascii c) 128) (String.list_ascii_of_string s).

#[export] Instance demo_tls : TLSLibrary | 100.
Proof.
  refine {|
    LoadX509KeyPair c k :=
      if bool_decide (strip_prefix "cert:" c = strip_prefix "key:" k)
         && bool_decide (is_Some (strip_prefix "cert:" c)) then None else Some "mismatch";
    ParseIP h := if HasPrefix h "127." then Some h else None;
    CreateCertificate tpl priv :=
      if bool_decide (SerialNumber tpl < 0) then Err "x509: serial number must be positive"
      else if forallb is_ascii (DNSNames tpl) then Ok priv
      else Err "x509: cannot be encoded as an IA5String";
    certPEM der := "cert:" +:+ der;
    keyPEM priv := "key:" +:+ priv |}.
  intros tpl priv der Hd. assert (der = priv) as ->.
  { destruct (bool_decide _); [done|]. destruct (forallb _ _); [|done]. by injection Hd. }
  cbn. by rewrite bool_decide_eq_true_2.
Defined.

(** ** The properties *)

(** C40: The files other than the two of the pair are never touched, and whenever no error
    is reported the pair on disk loads and later starts without faults keep it.  When the
    system calls of a start do not fail, a pair that loads is kept as it is, and every
    other pair, also one that an earlier start left half written, is replaced by the
    new key and the certificate made with it from the template of this start (the serial
    number, the dates and the hosts); when that certificate cannot be made, its error is
    reported and the disk is left as it was. *)
Theorem certificate_pair_recovers `{TL : TLSLibrary} (c : calls) (en : entropy)
    (certPath keyPath : string) (hosts : list string) (σ : gmap string string) :
  certPath ≠ "" → keyPath ≠ "" → certPath ≠ keyPath →
  let '(err, σ') := ensureCertificatePair c en certPath keyPath hosts σ in
  (∀ q, q ≠ certPath → q ≠ keyPath → σ' !! q = σ !! q)
  ∧ (err = None → loads None certPath keyPath σ' = true
                  ∧ ∀ en' hosts', ensureCertificatePair no_faults en' certPath keyPath hosts' σ'
                                  = (None, σ'))
  ∧ (c = no_faults →
     if loads None certPath keyPath σ then err = None ∧ σ' = σ
     else ∀ priv n, rsa_key en = Ok priv → serial en = Ok n →
       match CreateCertificate (pair_template en n hosts) priv with
       | Ok der => err = None ∧ σ' = <[keyPath := keyPEM priv]> (<[certPath := certPEM der]> σ)
       | Err e => err = Some e ∧ σ' = σ
       end).
Proof.
  intros Hc Hk Hne.
  pose proof (ensure_keeps en certPath keyPath hosts σ Hc Hk) as Hkeep.
  pose proof (ensure_replaces en certPath keyPath hosts σ Hc Hk) as Hnew.
  pose proof (ensure_cases c en certPath keyPath hosts σ Hc Hk) as Hcases.
  pose proof (generate_pair_other c en certPath keyPath hosts σ) as Hother.
  pose proof (generated_pair_loads c en certPath keyPath hosts σ Hne) as Hloads.
  destruct (ensureCertificatePair c en certPath keyPath hosts σ) as [err σ'] eqn:E.
  assert (Hall : (∀ q, q ≠ certPath → q ≠ keyPath → σ' !! q = σ !! q)
                 ∧ (err = None → loads None certPath keyPath σ' = true)).
  { destruct Hcases as [(e & [= -> ->])|[[[= -> ->] L]|[Hg _]]]; [done|done|].
    rewrite <-Hg in Hother, Hloads. cbn [fst snd] in *. auto. }
  destruct Hall as [Ho Hl]. split; [done|]. split.
  { intros He. split; [auto|]. intros en' hosts'. apply ensure_keeps; auto. }
  intros ->. destruct (loads None certPath keyPath σ) eqn:L.
  - rewrite (Hkeep eq_refl) in E. by injection E as <- <-.
  - intros priv n Hr Hs. rewrite (Hnew eq_refl), (generate_pair_no_faults _ _ _ _ _ _ _ Hr Hs) in E.
    destruct (CreateCertificate _ priv); by injection E as <- <-.
Qed.

(** A pair of which only the certificate was written; and a host name that the library
    does not put into a certificate. *)
Lemma certificate_pair_recovers_witness :
  let en := mkEntropy (Ok "k2") (Ok 7) 0 0 in
  let res := ensureCertificatePair no_faults en "tls.crt" "tls.key" ["localhost"]
               {["tls.crt" := "cert:k1"]} in
  let bad := ensureCertificatePair no_faults en "tls.crt" "tls.key" ["ñ"]
               {["tls.crt" := "cert:k1"]} in
  res.1 = None ∧ loads None "tls.crt" "tls.key" res.2 = true
  ∧ bad = (Some "x509: cannot be encoded as an IA5String", {["tls.crt" := "cert:k1"]}).
Proof.
  intros en res bad. unfold res, bad.
  pose proof (certificate_pair_recovers no_faults en "tls.crt" "tls.key" ["localhost"]
    {["tls.crt" := "cert:k1"]} ltac:(done) ltac:(done) ltac:(done)) as H.
  pose proof (certificate_pair_recovers no_faults en "tls.crt" "tls.key" ["ñ"]
    {["tls.crt" := "cert:k1"]} ltac:(done) ltac:(done) ltac:(done)) as B.
  destruct (ensureCertificatePair _ en _ _ ["localhost"] _) as [err σ'].
  destruct (ensureCertificatePair _ en _ _ ["ñ"] _) as [err2 σ2].
  destruct H as (_ & Hl & Hr). destruct (Hr eq_refl "k2" 7 eq_refl eq_refl) as [He _].
  destruct B as (_ & _ & Bn). destruct (Bn eq_refl "k2" 7 eq_refl eq_refl) as [-> ->].
  split; [exact He|]. split; [|done]. by apply Hl.
Defined.

End Certificates.
