(* ===== verification/HostKeys.v ===== *)
(** * The host key of the server ([internal/crypto/hostkeys/loader.go])

    The key is read from its file, which is created with a new key when there is none.
    Cryptography and its encodings are parameters ([KeyLibrary]): a key, its DER bytes and
    a signer are strings.  That the key stays the same relies on nothing of them;
    [KeyLibraryLaws] is what the rest relies on: what was encoded is decoded, and a PEM
    text that lacks more than its last newline is not taken for a block. *)

From S2P Require Import Prelude GoStrings PathGuard Disk.

Module HostKeys.
Import Disk.

Class KeyLibrary := {
  pem_encode : string → string;
  pem_decode : string → option string;
  pkcs8_marshal : string → result string string;
  pkcs8_parse : string → result string string;
  NewSignerFromKey : string → result string string;
}.

Class KeyLibraryLaws `{KeyLibrary} := {
  pem_back der : pem_decode (pem_encode der) = Some der;
  pem_incomplete der n :
    (S n < String.length (pem_encode der))%nat → pem_decode (str_take n (pem_encode der)) = None;
  pkcs8_back key der : pkcs8_marshal key = Ok der → pkcs8_parse der = Ok key;
}.

(** What the system calls answer. *)
Record calls := mkCalls {
  mkdir_fault : option string;
  stat_fault : option string;
  write_outcome : write;
  read_fault : option string;
}.
Definition no_faults : calls := mkCalls None None Written None.

Section Loader.
Context `{KL : KeyLibrary} (wd : result string string).

(** [generateEd25519Key]; [key] is the result of [ed25519.GenerateKey]. *)
Definition generateEd25519Key (w : write) (key : result string string) (path : string)
    (σ : disk) : option string * disk :=
  match key with
  | Err e => (Some ("generate ed25519 host key: " +:+ e), σ)
  | Ok privateKey =>
     match pkcs8_marshal privateKey with
     | Err e => (Some ("marshal PKCS8 host key: " +:+ e), σ)
     | Ok der =>
        let '(err, σ) := WriteFile w path (pem_encode der) σ in
        (match err with Some e => Some ("write host key: " +:+ e) | None => None end, σ)
     end
  end.

(** The contents of the file. *)
Definition parse_signer (raw : string) : result string string :=
  match pem_decode raw with
  | None => Err "invalid PEM in host key file"
  | Some bytes =>
     match pkcs8_parse bytes with
     | Err e => Err ("parse PKCS8 host key: " +:+ e)
     | Ok key => match NewSignerFromKey key with
                 | Err e => Err ("build ssh signer: " +:+ e)
                 | Ok signer => Ok signer
                 end
     end
  end.

(** A key is generated when there is no file. *)
Definition ensure_key (c : calls) (key : result string string) (safePath : string) (σ : disk)
    : option string * disk :=
  match Stat (stat_fault c) safePath σ with
  | Missing => generateEd25519Key (write_outcome c) key safePath σ
  | StatError e => (Some ("stat host key: " +:+ e), σ)
  | Exists => (None, σ)
  end.

(** [LoadOrCreateSigner] *)
Definition LoadOrCreateSigner (c : calls) (key : result string string) (path : string)
    (σ : disk) : result string string * disk :=
  if bool_decide (path = "") then (Err "ssh host key path is empty", σ)
  else match PathGuard.ValidateFilesystemPath wd path "ssh host key" with
  | Err e => (Err e, σ)
  | Ok safePath =>
     match mkdir_fault c with
     | Some e => (Err ("create host key directory: " +:+ e), σ)
     | None =>
        let '(err, σ) := ensure_key c key safePath σ in
        match err with
        | Some e => (Err e, σ)
        | None => match ReadFile (read_fault c) safePath σ with
                  | Err e => (Err ("read host key: " +:+ e), σ)
                  | Ok raw => (parse_signer raw, σ)
                  end
        end
     end
  end.

(** ** What the loader does *)

(** A file that is there is only read. *)
Lemma existing_key c key path safePath raw σ :
  path ≠ "" → PathGuard.ValidateFilesystemPath wd path "ssh host key" = Ok safePath →
  σ !! safePath = Some raw →
  (LoadOrCreateSigner c key path σ).2 = σ
  ∧ LoadOrCreateSigner no_faults key path σ = (parse_signer raw, σ).
Proof using Type.
  intros Hp Hv Hr. unfold LoadOrCreateSigner. rewrite (bool_decide_eq_false_2 (path = "") Hp), Hv.
  unfold ensure_key. cbn [mkdir_fault stat_fault read_fault no_faults]. unfold Stat, ReadFile. rewrite Hr.
  split; [|by rewrite Hr]. destruct (mkdir_fault c); [done|]. destruct (stat_fault c); [done|].
  destruct (read_fault c); [done|]. by rewrite Hr.
Qed.

(** A file that is not there: what is left of the generation. *)
Lemma generated_key w key path σ :
  let res := generateEd25519Key w key path σ in
  (∀ q, q ≠ path → res.2 !! q = σ !! q)
  ∧ (res.1 = None → ∃ k der, key = Ok k ∧ pkcs8_marshal k = Ok der
                    ∧ res.2 = <[path := pem_encode der]> σ).
Proof using Type.
  unfold generateEd25519Key. destruct key as [k|e]; [|by split].
  destruct (pkcs8_marshal k) as [der|e] eqn:Hm; [|by split].
  pose proof (WriteFile_other w path (pem_encode der) σ) as Ho.
  destruct (WriteFile w path (pem_encode der) σ) as [err σ'] eqn:Hw. cbn [fst snd] in *.
  split; [exact Ho|]. intros He. exists k, der. split_and!; [done..|].
  injection Hw as <- <-. by destruct w.
Qed.

(** What a load that succeeds leaves on disk is read as the same signer. *)
Lemma loaded_key c key path safePath s σ :
  path ≠ "" → PathGuard.ValidateFilesystemPath wd path "ssh host key" = Ok safePath →
  (LoadOrCreateSigner c key path σ).1 = Ok s →
  ∃ raw, (LoadOrCreateSigner c key path σ).2 !! safePath = Some raw ∧ parse_signer raw = Ok s.
Proof using Type.
  intros Hp Hv. unfold LoadOrCreateSigner. rewrite (bool_decide_eq_false_2 (path = "") Hp), Hv.
  destruct (mkdir_fault c); [done|]. destruct (ensure_key c key safePath σ) as [[e|] σ']; [done|].
  unfold ReadFile. destruct (read_fault c); [done|].
  destruct (σ' !! safePath) as [raw|] eqn:Hr; [|done]. cbn [fst snd]. eauto.
Qed.

Lemma LoadOrCreateSigner_other c key path safePath σ :
  PathGuard.ValidateFilesystemPath wd path "ssh host key" = Ok safePath →
  ∀ q, q ≠ safePath → (LoadOrCreateSigner c key path σ).2 !! q = σ !! q.
Proof using Type.
  intros Hv q Hq. unfold LoadOrCreateSigner. destruct (bool_decide (path = "")); [done|].
  rewrite Hv. destruct (mkdir_fault c); [done|].
  assert (Ho : (ensure_key c key safePath σ).2 !! q = σ !! q).
  { unfold ensure_key. destruct (Stat _ _ _); [done| |done]. by apply generated_key. }
  destruct (ensure_key c key safePath σ) as [[e|] σ']; [done|].
  by destruct (ReadFile _ _ _).
Qed.

End Loader.

(** ** A library to try *)

(** Each byte after a mark, and an end. *)
Fixpoint marked (s : string) : string :=
  match s with "" => "E" | String a s => String "x" (String a (marked s)) end.
Fixpoint unmarked (s : string) : option string :=
  match s with
  | String c s =>
     if bool_decide (c = "E"%char) then Some ""
     else match s with
          | String a s => match unmarked s with Some r => Some (String a r) | None => None end
          | "" => None
          end
  | "" => None
  end.

Lemma unmarked_back s : unmarked (marked s) = Some s.
Proof. induction s as [|a s IH]; [done|]. cbn. by rewrite IH. Qed.

Lemma unmarked_incomplete s n :
  (n < String.length (marked s))%nat → unmarked (str_take n (marked s)) = None.
Proof.
  revert n. induction s as [|a s IH]; intros [|[|n]]; cbn; try done; [lia..|].
  intros H. by rewrite IH by lia.
Qed.

#[export] Instance demo_library : KeyLibrary | 100.
Proof.
  exact {|
    pem_encode := marked;
    pem_decode := unmarked;
    pkcs8_marshal k := Ok ("der:" +:+ k);
    pkcs8_parse b := match strip_prefix "der:" b with Some k => Ok k | None => Err "asn1" end;
    NewSignerFromKey k := Ok ("signer:" +:+ k);
  |}.
Defined.

#[export] Instance demo_laws : KeyLibraryLaws | 100.
Proof.
  split; [exact unmarked_back| |by intros k der [= <-]].
  intros der n Hn. apply unmarked_incomplete. cbn in Hn. lia.
Qed.

(** ** The properties *)

(** C39: The host key is stable, whatever the cryptographic library does: a file that
    exists is never written; nothing else on disk changes; and once a signer was obtained,
    every later start whose calls succeed obtains the same one, whatever key it would have
    generated. *)
Theorem host_key_stable `{KL : KeyLibrary} (wd : result string string) (path safePath : string)
    (c : calls) (key key' : result string string) (σ : gmap string string) :
  path ≠ "" → PathGuard.ValidateFilesystemPath wd path "ssh host key" = Ok safePath →
  let '(r, σ') := LoadOrCreateSigner wd c key path σ in
  (is_Some (σ !! safePath) → σ' = σ)
  ∧ (∀ q, q ≠ safePath → σ' !! q = σ !! q)
  ∧ (∀ s, r = Ok s → LoadOrCreateSigner wd no_faults key' path σ' = (Ok s, σ')).
Proof.
  intros Hp Hv. pose proof (loaded_key wd c key path safePath) as Hl.
  pose proof (λ raw, existing_key wd c key path safePath raw σ Hp Hv) as He.
  pose proof (LoadOrCreateSigner_other wd c key path safePath σ Hv) as Ho.
  specialize (λ s, Hl s σ Hp Hv) as Hl'.
  destruct (LoadOrCreateSigner wd c key path σ) as [r σ']. cbn [fst snd] in *. split_and!.
  - intros [raw Hr]. by apply (He raw Hr).
  - exact Ho.
  - intros s Hs. destruct (Hl' s Hs) as (raw & Hr & Hk).
    destruct (existing_key wd c key' path safePath raw σ' Hp Hv Hr) as [_ ->]. by rewrite Hk.
Qed.

Lemma host_key_stable_witness :
  let σ := (LoadOrCreateSigner (Ok "/srv") no_faults (Ok "k1") "keys/host" ∅).2 in
  LoadOrCreateSigner (Ok "/srv") no_faults (Ok "k2") "keys/host" σ = (Ok "signer:k1", σ).
Proof.
  intros σ. pose proof (host_key_stable (Ok "/srv") "keys/host" "/srv/keys/host" no_faults (Ok "k1")
    (Ok "k2") ∅ ltac:(done) eq_refl) as H.
  unfold σ. destruct (LoadOrCreateSigner _ no_faults (Ok "k1") _ ∅) as [r σ'] eqn:E.
  apply H. vm_compute in E. congruence.
Defined.

(** A first start that generates a key uses the one it generated. *)
Lemma new_host_key `{KL : KeyLibraryLaws} (wd : result string string) (path safePath k der : string)
    (σ : gmap string string) :
  path ≠ "" → PathGuard.ValidateFilesystemPath wd path "ssh host key" = Ok safePath →
  σ !! safePath = None → pkcs8_marshal k = Ok der →
  (LoadOrCreateSigner wd no_faults (Ok k) path σ).1
  = match NewSignerFromKey k with Ok s => Ok s | Err e => Err ("build ssh signer: " +:+ e) end.
Proof.
  intros Hp Hv Hn Hm. unfold LoadOrCreateSigner.
  rewrite (bool_decide_eq_false_2 (path = "") Hp), Hv. unfold ensure_key, Stat.
  cbn [mkdir_fault stat_fault write_outcome no_faults]. rewrite Hn. unfold generateEd25519Key.
  rewrite Hm. cbn [WriteFile write_err ReadFile read_fault no_faults]. unfold ReadFile.
  rewrite lookup_insert_eq. cbn [fst]. unfold parse_signer. rewrite pem_back, (pkcs8_back k der Hm).
  done.
Qed.

(** A first start that is cut off while it writes the key leaves a file with which no
    later start succeeds: it is not generated again and it is not a key. *)
Lemma torn_host_key_stays `{KL : KeyLibraryLaws} (wd : result string string)
    (path safePath k der err : string) (n : nat) (c : calls) (key' : result string string)
    (σ : gmap string string) :
  path ≠ "" → PathGuard.ValidateFilesystemPath wd path "ssh host key" = Ok safePath →
  σ !! safePath = None → pkcs8_marshal k = Ok der → (S n < String.length (pem_encode der))%nat →
  let '(r, σ') := LoadOrCreateSigner wd (mkCalls None None (Short n err) None) (Ok k) path σ in
  r = Err ("write host key: " +:+ err)
  ∧ LoadOrCreateSigner wd no_faults key' path σ' = (Err "invalid PEM in host key file", σ')
  ∧ is_ok (LoadOrCreateSigner wd c key' path σ').1 = false.
Proof.
  intros Hp Hv Hn Hm Hl. unfold LoadOrCreateSigner at 1.
  rewrite (bool_decide_eq_false_2 (path = "") Hp), Hv. unfold ensure_key, Stat.
  cbn [mkdir_fault stat_fault write_outcome]. rewrite Hn. unfold generateEd25519Key. rewrite Hm.
  cbn [WriteFile write_err]. split; [done|].
  set (σ' := <[safePath := _]> σ).
  assert (Hr : σ' !! safePath = Some (str_take n (pem_encode der))) by apply lookup_insert_eq.
  assert (Hpar : parse_signer (str_take n (pem_encode der)) = Err "invalid PEM in host key file").
  { unfold parse_signer. by rewrite pem_incomplete. }
  split.
  - destruct (existing_key wd c key' path safePath _ σ' Hp Hv Hr) as [_ ->]. by rewrite Hpar.
  - destruct (LoadOrCreateSigner wd c key' path σ').1 as [s|] eqn:E; [|done].
    destruct (loaded_key wd c key' path safePath s σ' Hp Hv E) as (raw & Hr' & Hk).
    destruct (existing_key wd c key' path safePath _ σ' Hp Hv Hr) as [Hs _].
    rewrite Hs, Hr in Hr'. injection Hr' as <-. by rewrite Hpar in Hk.
Qed.

Lemma torn_host_key_stays_witness :
  let res := LoadOrCreateSigner (Ok "/srv") (mkCalls None None (Short 3 "no space left") None)
               (Ok "k1") "keys/host" ∅ in
  LoadOrCreateSigner (Ok "/srv") no_faults (Ok "k2") "keys/host" res.2
  = (Err "invalid PEM in host key file", res.2).
Proof.
  intros res. unfold res.
  pose proof (torn_host_key_stays (Ok "/srv") "keys/host" "/srv/keys/host" "k1" "der:k1"
    "no space left" 3 no_faults (Ok "k2") ∅ ltac:(done) eq_refl eq_refl eq_refl) as H.
  destruct (LoadOrCreateSigner _ _ (Ok "k1") _ ∅) as [r σ']. apply H. cbn. lia.
Defined.

End HostKeys.
