(* ===== verification/KnownHosts.v ===== *)
(** * Known hosts ([internal/client/knownhostscb/hostkey.go])

    The callback that decides on the key of a host.  The format of the file and its lookup
    are those of [golang.org/x/crypto/ssh/knownhosts], a parameter ([KnownHostsLibrary]);
    [KnownHostsLaws] is what is relied on: a line added to a complete file makes the host
    known with exactly its key.  The public keys are any type with equality, that of the
    library. *)

From S2P Require Import Prelude GoStrings PathGuard Disk.

Module KnownHosts.
Import Disk.

(** ** The library *)

Section Library.
Context {K : Type}.

(** [*knownhosts.KeyError], with the keys that are known for the host, or another error. *)
Inductive check_error := KeyError (want : list K) (text : string) | OtherError (text : string).

Definition check_text (e : check_error) : string :=
  match e with KeyError _ t | OtherError t => t end.

(** [errors.As(err, &keyErr) && len(keyErr.Want) == 0] *)
Definition unknown_host (e : check_error) : bool :=
  match e with KeyError [] _ => true | _ => false end.

(** The lookup of a host name, a remote address and a key. *)
Definition lookup_key : Type := string → string → K → option check_error.

End Library.
Arguments check_error : clear implicits.
Arguments lookup_key : clear implicits.

Class KnownHostsLibrary (K : Type) := {
  load : string → result string (lookup_key K);
  Line : string → K → string;
}.

Definition newline : string := String "010" "".

(** A file whose last line is complete. *)
Fixpoint complete (s : string) : bool :=
  match s with
  | "" => true
  | String a "" => bool_decide (a = "010"%char)
  | String _ s => complete s
  end.

(** The letters of an address without what has a meaning in the file. *)
Definition plain_byte (a : ascii) : bool :=
  ((48 <=? byte_val a) && (byte_val a <=? 58) || (65 <=? byte_val a) && (byte_val a <=? 90)
   || (97 <=? byte_val a) && (byte_val a <=? 122) || bool_decide (a = "."%char)
   || bool_decide (a = "-"%char))%Z.
Fixpoint plain (s : string) : bool :=
  match s with "" => true | String a s => plain_byte a && plain s end.

(** An address of such letters with a host: it does not begin with the port. *)
Definition plain_address (s : string) : bool :=
  match s with "" => false | String a _ => negb (bool_decide (a = ":"%char)) && plain s end.

Class KnownHostsLaws {K : Type} `{KnownHostsLibrary K} := {
  line_recorded c check h r k t :
    load c = Ok check → complete c = true → plain_address h = true →
    check h r k = Some (KeyError [] t) →
    ∃ check', load (c +:+ Line h k +:+ newline) = Ok check'
      ∧ (∀ r', is_ok (SplitHostPort r') = true → check' h r' k = None)
      ∧ (∀ r' k', k' ≠ k → ∃ e, check' h r' k' = Some e ∧ unknown_host e = false);
  line_complete h k : plain_address h = true → complete (Line h k +:+ newline) = true;
}.

(** ** The callback *)

Definition callback (K : Type) : Type :=
  string → string → K → write → disk → option string * disk.

(** What the system calls of [New] answer. *)
Record calls := mkCalls {
  mkdir_fault : option string;
  stat_fault : option string;
  create_outcome : write;
  open_fault : option string;
}.
Definition no_faults : calls := mkCalls None None Written None.

Section Callback.
Context {K : Type} `{KH : KnownHostsLibrary K} (wd : result string string).

(** [ssh.InsecureIgnoreHostKey] *)
Definition InsecureIgnoreHostKey : callback K := λ _ _ _ _ σ, (None, σ).

(** The callback of the library. *)
Definition strict_callback (base : lookup_key K) : callback K := λ hostname remote key _ σ,
  (check_text <$> base hostname remote key, σ).

(** The callback that adds unknown hosts. *)
Definition accepting_callback (safePath : string) (base : lookup_key K) : callback K :=
  λ hostname remote key w σ,
    match base hostname remote key with
    | None => (None, σ)
    | Some err =>
       if unknown_host err then
         match AppendFile w safePath (Line hostname key +:+ newline) σ with
         | (NotOpened e, σ) => (Some ("abrir known_hosts para anexar: " +:+ e), σ)
         | (NotWritten e, σ) => (Some ("agregar entrada a known_hosts: " +:+ e), σ)
         | (Appended, σ) => (None, σ)
         end
       else (Some (check_text err), σ)
    end.

(** The file is created empty when there is none. *)
Definition ensure_file (c : calls) (safePath : string) (σ : disk) : option string * disk :=
  match Stat (stat_fault c) safePath σ with
  | Missing =>
     let '(err, σ) := WriteFile (create_outcome c) safePath "" σ in
     (match err with Some e => Some ("crear archivo known_hosts: " +:+ e) | None => None end, σ)
  | StatError e => (Some ("consultar archivo known_hosts: " +:+ e), σ)
  | Exists => (None, σ)
  end.

(** [New] *)
Definition New (c : calls) (path : string) (strict acceptUnknown : bool) (σ : disk)
    : result string (callback K) * disk :=
  if negb strict then (Ok InsecureIgnoreHostKey, σ)
  else if bool_decide (TrimSpace path = "") then (Err "la ruta de known_hosts está vacía", σ)
  else match PathGuard.ValidateFilesystemPath wd path "known_hosts" with
  | Err e => (Err e, σ)
  | Ok safePath =>
     match mkdir_fault c with
     | Some e => (Err ("crear directorio known_hosts: " +:+ e), σ)
     | None =>
        let '(err, σ) := ensure_file c safePath σ in
        match err with
        | Some e => (Err e, σ)
        | None =>
           match (let* raw := ReadFile (open_fault c) safePath σ in load raw) with
           | Err e => (Err ("cargar callback de known_hosts: " +:+ e), σ)
           | Ok base =>
              (Ok (if negb acceptUnknown then strict_callback base
                   else accepting_callback safePath base), σ)
           end
        end
     end
  end.

(** ** What the callbacks do *)

(** A known host with another key is refused and nothing is written. *)
Lemma callback_mismatch acceptUnknown safePath base h r k w σ e :
  base h r k = Some e → unknown_host e = false →
  (if negb acceptUnknown then strict_callback base else accepting_callback safePath base) h r k w σ
  = (Some (check_text e), σ).
Proof using Type.
  intros Hb Hu. destruct acceptUnknown; cbn [negb].
  - unfold accepting_callback. by rewrite Hb, Hu.
  - unfold strict_callback. by rewrite Hb.
Qed.

(** What the callback of a strict [New] accepts: a key that the file has for the host, or
    one of a host that the file does not have, when that is allowed. *)
Definition vouched (acceptUnknown : bool) (base : lookup_key K) (h : string) (k : K) : Prop :=
  ∃ r, base h r k = None
       ∨ acceptUnknown = true ∧ ∃ t, base h r k = Some (KeyError [] t).

Lemma callback_accepts acceptUnknown safePath base h r k w σ σ' :
  (if negb acceptUnknown then strict_callback base else accepting_callback safePath base) h r k w σ
    = (None, σ') → vouched acceptUnknown base h k.
Proof using Type.
  intros H. exists r. destruct acceptUnknown; cbn [negb] in H.
  - unfold accepting_callback in H. destruct (base h r k) as [e|]; [right|by left].
    split; [done|]. destruct (unknown_host e) eqn:Hu; [|done].
    destruct e as [[|x want] t|t]; try done. by eexists.
  - unfold strict_callback in H. destruct (base h r k); [done|by left].
Qed.

(** The file that [New] loads. *)
Lemma New_loads c path safePath acceptUnknown σ cb σ' :
  PathGuard.ValidateFilesystemPath wd path "known_hosts" = Ok safePath →
  New c path true acceptUnknown σ = (Ok cb, σ') →
  σ' = <[safePath := default "" (σ !! safePath)]> σ
  ∧ ∃ base, load (default "" (σ !! safePath)) = Ok base
    ∧ cb = (if negb acceptUnknown then strict_callback base
            else accepting_callback safePath base).
Proof using Type.
  intros Hv. unfold New. cbn [negb]. destruct (bool_decide (TrimSpace path = "")); [done|].
  rewrite Hv. destruct (mkdir_fault c); [done|]. unfold ensure_file, Stat.
  destruct (stat_fault c); [done|]. destruct (σ !! safePath) as [old|] eqn:Ho.
  - unfold ReadFile. destruct (open_fault c); [done|]. rewrite Ho. cbn [default].
    destruct (load old) as [base|] eqn:Hl; [|done]. intros [= <- <-].
    rewrite insert_id by done. eauto.
  - unfold WriteFile. destruct (create_outcome c); cbn [write_err]; try done.
    unfold ReadFile. destruct (open_fault c); [done|]. rewrite lookup_insert_eq. cbn [default].
    destruct (load "") as [base|] eqn:Hl; [|done]. intros [= <- <-]. eauto.
Qed.

(** [New] creates at most an empty file. *)
Lemma New_disk c path strict acceptUnknown σ q raw :
  (New c path strict acceptUnknown σ).2 !! q = Some raw →
  σ !! q = Some raw ∨ σ !! q = None ∧ raw = "".
Proof using Type.
  unfold New. destruct strict; [|by left]. cbn [negb].
  destruct (bool_decide (TrimSpace path = "")); [by left|].
  destruct (PathGuard.ValidateFilesystemPath _ _ _) as [safePath|]; [|by left].
  destruct (mkdir_fault c); [by left|].
  assert (He : (ensure_file c safePath σ).2 !! q = Some raw →
    σ !! q = Some raw ∨ σ !! q = None ∧ raw = "").
  { unfold ensure_file, Stat. destruct (stat_fault c); [by left|].
    destruct (σ !! safePath) eqn:Es; [by left|].
    destruct (create_outcome c) as [|e|n e]; cbn [WriteFile write_err snd]; [|by left|];
      (destruct (decide (q = safePath)) as [->|Hq];
       [rewrite lookup_insert_eq; intros [= <-]; right; split; [done|by try destruct n]
       |rewrite lookup_insert_ne by done; by left]). }
  destruct (ensure_file c safePath σ) as [[e|] σ']; [exact He|].
  by destruct (let* raw := _ in _).
Qed.

Lemma complete_app s t : complete s = true → complete t = true → complete (s +:+ t) = true.
Proof.
  induction s as [|a s IH]; [done|]. intros Hs Ht. rewrite string_app_cons.
  destruct s as [|b s].
  - destruct t as [|b t]; [exact Hs|]. exact Ht.
  - specialize (IH Hs Ht). cbn [complete] in *. exact IH.
Qed.

End Callback.

(** ** A library to try

    A key is a string; a line is a host, a space and the bytes of the key as pairs of
    letters. *)

Module Plain.

Definition nibble (n : Z) : ascii := byte_of (97 + n).
Fixpoint letters (s : string) : string :=
  match s with
  | "" => ""
  | String a s => String (nibble (byte_val a / 16)) (String (nibble (byte_val a mod 16)) (letters s))
  end.

Definition entries (c : string) : list (string * string) :=
  omap (λ l, match CutByte l " "%char with (h, k, true) => Some (h, k) | _ => None end)
    (SplitByte c "010"%char).

Definition check (es : list (string * string)) : lookup_key string := λ h r k,
  if is_ok (SplitHostPort r) then
    match filter (λ e, e.1 = h) es with
    | [] => Some (KeyError [] "knownhosts: key is unknown")
    | ((_, k') :: _) as known =>
       if bool_decide (k' = letters k) then None
       else Some (KeyError known.*2 "knownhosts: key mismatch")
    end
  else Some (OtherError "knownhosts: SplitHostPort").

#[export] Instance library : KnownHostsLibrary string | 100 := {|
  load c := Ok (check (entries c));
  Line h k := h +:+ " " +:+ letters k;
|}.

Lemma nibble_inj m n : (0 <= m < 16)%Z → (0 <= n < 16)%Z → nibble m = nibble n → m = n.
Proof.
  intros Hm Hn H. apply (f_equal byte_val) in H. unfold nibble in H.
  rewrite !byte_of_val in H by lia. lia.
Qed.

Lemma letters_inj s t : letters s = letters t → s = t.
Proof.
  revert t. induction s as [|a s IH]; intros [|b t] H; try done. cbn [letters] in H.
  injection H as H1 H2 H3. pose proof (byte_val_range a). pose proof (byte_val_range b).
  apply nibble_inj in H1; [|Z.to_euclidean_division_equations; lia..].
  apply nibble_inj in H2; [|apply Z.mod_pos_bound; lia..].
  assert (byte_val a = byte_val b) as Hab.
  { rewrite (Z.div_mod (byte_val a) 16), (Z.div_mod (byte_val b) 16) by lia. lia. }
  rewrite (IH _ H3). f_equal. rewrite <-(byte_val_of a), Hab. apply byte_val_of.
Qed.

Lemma letters_free c s : (byte_val c < 97)%Z → contains_byte c (letters s) = false.
Proof.
  intros Hc. induction s as [|a s IH]; [done|]. cbn [letters contains_byte]. rewrite IH.
  pose proof (byte_val_range a).
  assert (∀ n, (0 <= n < 16)%Z → nibble n ≠ c) as Hn.
  { intros n Hn <-. unfold nibble in Hc. rewrite byte_of_val in Hc by lia. lia. }
  rewrite !bool_decide_eq_false_2; [done|apply Hn, Z.mod_pos_bound; lia|].
  apply Hn. Z.to_euclidean_division_equations; lia.
Qed.

Lemma plain_byte_free c s : plain_byte c = false → plain s = true → contains_byte c s = false.
Proof.
  intros Hc. induction s as [|a s IH]; [done|]. cbn [plain contains_byte].
  intros [Ha Hs]%andb_true_iff. rewrite (IH Hs). rewrite bool_decide_eq_false_2; [done|]. congruence.
Qed.

(** A complete file is a number of lines. *)
Lemma complete_lines c t :
  complete c = true → entries (c +:+ t) = entries c ++ entries t.
Proof.
  intros Hc. assert (c = "" ∨ ∃ c', c = c' +:+ newline) as [->|[c' ->]]; [|done|].
  { induction c as [|a c IH]; [by left|]. right. destruct c as [|b c].
    - exists "". cbn in Hc. apply bool_decide_eq_true in Hc. by subst.
    - destruct (IH Hc) as [?|[c' Hc']]; [done|]. exists (String a c'). by rewrite Hc'. }
  unfold entries, newline. rewrite <-string_app_assoc.
  change (String "010" "" +:+ t) with (String "010" t).
  rewrite (PathGuard.SplitByte_app _ c' t), (PathGuard.SplitByte_app _ c' "").
  rewrite !omap_app. cbn [SplitByte omap list_omap CutByte]. by rewrite app_nil_r.
Qed.

Lemma entries_line h k :
  plain h = true → entries (Line h k +:+ newline) = [(h, letters k)].
Proof.
  intros Hh. unfold entries, newline. cbn [Line library].
  rewrite (PathGuard.SplitByte_app "010"%char (h +:+ " " +:+ letters k) "").
  rewrite PathGuard.SplitByte_none.
  2: { rewrite !contains_byte_app, (plain_byte_free "010"%char h eq_refl Hh), letters_free by done. done. }
  cbn [SplitByte app omap list_omap]. change (" " +:+ letters k) with (String " " (letters k)).
  rewrite CutByte_app by (by apply plain_byte_free). done.
Qed.

Lemma plain_address_plain h : plain_address h = true → plain h = true.
Proof. destruct h as [|a h]; [done|]. by intros [_ H]%andb_true_iff. Qed.

#[export] Instance laws : KnownHostsLaws (K := string) | 100.
Proof.
  split.
  - intros c chk h r k t Hl Hc Hp%plain_address_plain Hchk. cbn [load library] in *. injection Hl as <-.
    eexists. split; [reflexivity|]. rewrite complete_lines, entries_line by done.
    assert (filter (λ e, e.1 = h) (entries c) = []) as E.
    { unfold check in Hchk. destruct (is_ok _); [|done].
      destruct (filter (λ e, e.1 = h) (entries c)) as [|[h' k'] es]; [done|].
      by destruct (bool_decide (k' = letters k)). }
    split.
    + intros r' Hr. unfold check. rewrite Hr, filter_app, E, filter_cons_True by done.
      cbn [app]. by rewrite bool_decide_eq_true_2.
    + intros r' k' Hk. unfold check. destruct (is_ok (SplitHostPort r')); [|by eexists].
      rewrite filter_app, E, filter_cons_True by done. cbn [app].
      rewrite bool_decide_eq_false_2; [by eexists|]. by intros ?%letters_inj.
  - intros h k _. cbn [Line library].
    assert (∀ s, complete (s +:+ newline) = true) as H; [|apply H].
    induction s as [|a s IH]; [done|]. rewrite string_app_cons. cbn [complete].
    by destruct (s +:+ newline) eqn:E; [destruct s|].
Qed.

End Plain.

End KnownHosts.
