(* ===== verification/Client.v ===== *)
(** * The SSH client ([internal/client/sshclient/client.go], [cmd/client/main.go])

    [Run] with every call it makes, as a log of events.  [ssh.Dial] is a parameter: any
    finite program that asks the host key callback, offers credentials and gives a
    connection or an error; [handshake_ok] is what the library documents, that it asks
    the callback about the address dialled, offers only the methods it was given, offers
    nothing and gives no connection before the callback accepted a key, and that an error
    of the callback ends the handshake.  Which keys the callback accepts, and which
    methods there are, is what the code decides.  What the connection answers is an
    input. *)

From S2P Require Import Prelude GoStrings PathGuard Disk KnownHosts.

Module Client.
Import Disk KnownHosts.

Record Config := mkConfig {
  Addr : string;
  User : string;
  Password : string;
  IdentityFile : string;
  KnownHostsPath : string;
  StrictHostKey : bool;
  AcceptUnknownHost : bool;
  Command : string;
}.

Inductive AuthMethod := PublicKeys (signer : string) | PasswordAuth (password : string).

(** ** Handshakes *)

Section Handshake.
Context {K : Type}.

Inductive handshake :=
| Dialed (r : result string unit)
| CheckHost (hostname remote : string) (key : K) (next : option string → handshake)
| Offer (m : AuthMethod) (next : bool → handshake).

(** Credentials and connections come after the callback accepted a key of [addr];
    [checked] says whether it has. *)
Inductive handshake_ok (addr : string) (methods : list AuthMethod) : bool → handshake → Prop :=
| ok_failed checked e : handshake_ok addr methods checked (Dialed (Err e))
| ok_connected : handshake_ok addr methods true (Dialed (Ok tt))
| ok_check checked r k next :
    (∀ e, ∃ t, next (Some e) = Dialed (Err t)) → handshake_ok addr methods true (next None) →
    handshake_ok addr methods checked (CheckHost addr r k next)
| ok_offer m next :
    m ∈ methods → (∀ b, handshake_ok addr methods true (next b)) →
    handshake_ok addr methods true (Offer m next).

Inductive event :=
| EvDial (addr user : string)
| EvHost (hostname : string) (key : K) (verdict : option string)
| EvOffer (m : AuthMethod)
| EvSession
| EvExec (command : string)
| EvPrint (output : string)
| EvShell
| EvWait
| EvCloseSession
| EvCloseClient.

End Handshake.
Arguments handshake : clear implicits.
Arguments event : clear implicits.

(** What the system and the server answer. *)
Record answers := mkAnswers {
  host_calls : KnownHosts.calls;
  identity_fault : option string;
  append_outcomes : list write;
  accepts : AuthMethod → bool;
  session_err : option string;
  exec : string → string * option string;
  shell_err : option string;
  wait_err : option string;
}.

Section Client.
Context {K : Type} `{KH : KnownHostsLibrary K} (wd : result string string).
Context (ParsePrivateKey : string → result string string).
Context (dial : string → string → list AuthMethod → handshake K).

(** [ssh.Dial] with a callback: one outcome of a write per question. *)
Fixpoint run_handshake (cb : callback K) (acc : AuthMethod → bool) (ws : list write) (p : handshake K)
    (σ : disk) : result string unit * disk * list (event K) :=
  match p with
  | Dialed r => (r, σ, [])
  | CheckHost hostname remote key next =>
     let '(err, σ) := cb hostname remote key (hd Written ws) σ in
     let '(r, σ, log) := run_handshake cb acc (tl ws) (next err) σ in
     (r, σ, EvHost hostname key err :: log)
  | Offer m next =>
     let '(r, σ, log) := run_handshake cb acc ws (next (acc m)) σ in (r, σ, EvOffer m :: log)
  end.

(** [loadSigner] *)
Definition loadSigner (fault : option string) (path : string) (σ : disk) : result string string :=
  let* safePath := PathGuard.ValidateFilesystemPath wd path "clave privada SSH" in
  match ReadFile fault safePath σ with
  | Err e => Err ("leer clave privada " +:+ safePath +:+ ": " +:+ e)
  | Ok raw =>
     match ParsePrivateKey raw with
     | Err e => Err ("interpretar clave privada " +:+ safePath +:+ ": " +:+ e)
     | Ok signer => Ok signer
     end
  end.

(** The authentication methods: the identity before the password. *)
Definition auth_methods (fault : option string) (cfg : Config) (σ : disk)
    : result string (list AuthMethod) :=
  let* keys :=
    if bool_decide (TrimSpace (IdentityFile cfg) = "") then Ok []
    else let* signer := loadSigner fault (IdentityFile cfg) σ in Ok [PublicKeys signer] in
  let methods := keys ++ (if bool_decide (Password cfg = "") then [] else [PasswordAuth (Password cfg)]) in
  match methods with
  | [] => Err "no hay un método de autenticación configurado; proporciona contraseña o archivo de identidad"
  | _ => Ok methods
  end.

(** What is done with a session: one command, or a shell. *)
Definition use_session (a : answers) (cfg : Config) : option string * list (event K) :=
  if bool_decide (TrimSpace (Command cfg) = "") then
    match shell_err a with
    | Some e => (Some ("falló el inicio de la shell: " +:+ e), [EvShell])
    | None => (wait_err a, [EvShell; EvWait])
    end
  else
    let '(output, err) := exec a (Command cfg) in
    (match err with Some e => Some ("falló la ejecución remota: " +:+ e) | None => None end,
     EvExec (Command cfg) :: if (0 <? len output)%Z then [EvPrint output] else []).

(** What is done with a connection; the deferred calls close the session and then the
    client. *)
Definition use_client (a : answers) (cfg : Config) : option string * list (event K) :=
  let '(err, log) :=
    match session_err a with
    | Some e => (Some ("crear sesión SSH: " +:+ e), [])
    | None =>
       let '(err, log) := use_session a cfg in (err, EvSession :: log ++ [EvCloseSession])
    end in
  (err, log ++ [EvCloseClient]).

(** [Run] *)
Definition Run (a : answers) (cfg : Config) (σ : disk) : option string * disk * list (event K) :=
  if bool_decide (TrimSpace (Addr cfg) = "")
  then (Some "la dirección del cliente SSH está vacía", σ, [])
  else if bool_decide (TrimSpace (User cfg) = "")
  then (Some "el usuario del cliente SSH está vacío", σ, [])
  else
    let '(hostKeyCallback, σ) :=
      New wd (host_calls a) (KnownHostsPath cfg) (StrictHostKey cfg) (AcceptUnknownHost cfg) σ in
    match hostKeyCallback with
    | Err e => (Some e, σ, [])
    | Ok cb =>
       match auth_methods (identity_fault a) cfg σ with
       | Err e => (Some e, σ, [])
       | Ok methods =>
          let '(r, σ, log) :=
            run_handshake cb (accepts a) (append_outcomes a)
              (dial (Addr cfg) (User cfg) methods) σ in
          let log := EvDial (Addr cfg) (User cfg) :: log in
          match r with
          | Err e => (Some ("falló la conexión SSH: " +:+ e), σ, log)
          | Ok _ => let '(err, log') := use_client a cfg in (err, σ, log ++ log')
          end
       end
    end.

(** ** What happens in a handshake *)

(** Something after which the client has shown credentials or used the connection. *)
Definition trusting (e : event K) : bool :=
  match e with
  | EvOffer _ | EvSession | EvExec _ | EvShell => true
  | _ => false
  end.

(** The keys the callback was asked about, with its answers. *)
Definition hosts (log : list (event K)) : list (K * option string) :=
  omap (λ e, match e with EvHost _ k v => Some (k, v) | _ => None end) log.

(** In a log, nothing is trusted before a key of [addr] was accepted, nothing happens
    after one was refused, and only the methods are offered. *)
Record orderly (addr : string) (methods : list AuthMethod) (checked : bool) (log : list (event K))
    : Prop := {
  ord_trust pre e post : log = pre ++ e :: post → trusting e = true →
    checked = true ∨ ∃ k, EvHost addr k None ∈ pre;
  ord_stop pre h k t post : log = pre ++ EvHost h k (Some t) :: post → post = [];
  ord_addr h k v : EvHost h k v ∈ log → h = addr;
  ord_offer m : EvOffer m ∈ log → m ∈ methods;
}.

Lemma orderly_nil addr methods checked : orderly addr methods checked [].
Proof using Type.
  split; try (intros *; by rewrite elem_of_nil); intros pre *; intros H; by destruct pre.
Qed.

Lemma orderly_offer addr methods m log :
  m ∈ methods → orderly addr methods true log → orderly addr methods true (EvOffer m :: log).
Proof using Type.
  intros Hm [H1 H2 H3 H4]. split.
  - intros pre e post _ _. by left.
  - intros [|e pre] h k t post H; simplify_eq/=. by eapply H2.
  - intros h k v [?|?]%elem_of_cons; [done|]. by eapply H3.
  - intros m' [?|?]%elem_of_cons; [by simplify_eq|]. by apply H4.
Qed.

Lemma orderly_accept addr methods checked k log :
  orderly addr methods true log → orderly addr methods checked (EvHost addr k None :: log).
Proof using Type.
  intros [H1 H2 H3 H4]. split.
  - intros [|e pre] e' post H He; simplify_eq/=. right. exists k. by left.
  - intros [|e pre] h k' t post H; simplify_eq/=. by eapply H2.
  - intros h k' v [?|?]%elem_of_cons; [by simplify_eq|]. by eapply H3.
  - intros m' [?|?]%elem_of_cons; [done|]. by apply H4.
Qed.

Lemma orderly_refuse addr methods checked k t :
  orderly addr methods checked [EvHost addr k (Some t)].
Proof using Type.
  split.
  - intros [|e [|e' pre]] e'' post H He; by simplify_eq/=.
  - intros [|e [|e' pre]] h k' t' post H; by simplify_eq/=.
  - intros h k' v ?%list_elem_of_singleton. by simplify_eq.
  - intros m ?%list_elem_of_singleton. done.
Qed.

Lemma orderly_dial addr methods a u log :
  orderly addr methods false log → orderly addr methods false (EvDial a u :: log).
Proof using Type.
  intros [H1 H2 H3 H4]. split.
  - intros [|e pre] e' post H He; simplify_eq/=. right.
    destruct (H1 pre e' post eq_refl He) as [?|[k ?]]; [done|]. exists k. by right.
  - intros [|e pre] h k t post H; simplify_eq/=. by eapply H2.
  - intros h k v [?|?]%elem_of_cons; [done|]. by eapply H3.
  - intros m [?|?]%elem_of_cons; [done|]. by apply H4.
Qed.

(** The use of a connection after a handshake that accepted a key and refused none. *)
Lemma orderly_use addr methods log log' k :
  orderly addr methods false log → EvHost addr k None ∈ log →
  (∀ h k t, EvHost h k (Some t) ∉ log) →
  (∀ e, e ∈ log' → (∀ h k v, e ≠ EvHost h k v) ∧ (∀ m, e ≠ EvOffer m)) →
  orderly addr methods false (log ++ log').
Proof using Type.
  intros [H1 H2 H3 H4] Hk Hno Hu. split.
  - intros pre e post [(l & -> & E)|(l & -> & E)]%app_eq_inv He.
    + destruct l as [|e' l]; cbn in E.
      * rewrite app_nil_r in Hk. right. by exists k.
      * injection E as <- ->. exact (H1 pre e l eq_refl He).
    + right. exists k. apply elem_of_app. by left.
  - intros pre h k' t post H. destruct (Hno h k' t).
    assert (EvHost h k' (Some t) ∈ log ++ log') as [?|Hin]%elem_of_app;
      [rewrite H; apply elem_of_app; right; left|done|]. by destruct (proj1 (Hu _ Hin) h k' (Some t)).
  - intros h k' v [?|Hin]%elem_of_app; [by eapply H3|]. by destruct (proj1 (Hu _ Hin) h k' v).
  - intros m [?|Hin]%elem_of_app; [by apply H4|]. by destruct (proj2 (Hu _ Hin) m).
Qed.

Lemma handshake_log addr methods checked p :
  handshake_ok addr methods checked p → ∀ cb acc ws σ,
  let '(r, _, log) := run_handshake cb acc ws p σ in
  orderly addr methods checked log
  ∧ (is_ok r = true → (checked = true ∨ ∃ k, EvHost addr k None ∈ log)
                      ∧ ∀ h k t, EvHost h k (Some t) ∉ log).
Proof using Type.
  induction 1 as [checked e| |checked r k next Hn Hok IH|m next Hm Hok IH]; intros cb acc ws σ;
    cbn [run_handshake].
  - split; [apply orderly_nil|done].
  - split; [apply orderly_nil|]. intros _. split; [by left|].
    intros h k t H. by apply elem_of_nil in H.
  - destruct (cb addr r k (hd Written ws) σ) as [[e|] σ1].
    + destruct (Hn e) as [t ->]. cbn [run_handshake]. split; [apply orderly_refuse|done].
    + specialize (IH cb acc (tl ws) σ1).
      destruct (run_handshake cb acc (tl ws) (next None) σ1) as [[r' σ'] log].
      destruct IH as [Ho Hr]. split; [by apply orderly_accept|]. intros Hk.
      destruct (Hr Hk) as [_ Hno]. split; [right; exists k; by left|].
      intros h k' t [?|?]%elem_of_cons; [done|]. by eapply Hno.
  - specialize (IH (acc m) cb acc ws σ).
    destruct (run_handshake cb acc ws (next (acc m)) σ) as [[r' σ'] log].
    destruct IH as [Ho Hr]. split; [by apply orderly_offer|]. intros Hk.
    destruct (Hr Hk) as [_ Hno]. split; [by left|].
    intros h k' t [?|?]%elem_of_cons; [done|]. by eapply Hno.
Qed.

(** What is accepted satisfies what the callback checks. *)
Lemma handshake_accepted (Q : string → K → Prop) cb acc p :
  (∀ h r k w σ σ', cb h r k w σ = (None, σ') → Q h k) →
  ∀ ws σ h k, EvHost h k None ∈ (run_handshake cb acc ws p σ).2 → Q h k.
Proof using Type.
  intros Hcb. induction p as [r|h' r' k' next IH|m next IH]; intros ws σ h k;
    cbn [run_handshake].
  - by intros ?%elem_of_nil.
  - destruct (cb h' r' k' (hd Written ws) σ) as [err σ1] eqn:E.
    specialize (IH err (tl ws) σ1 h k).
    destruct (run_handshake cb acc (tl ws) (next err) σ1) as [[r σ'] log]. cbn [snd] in *.
    intros [?|?]%elem_of_cons; [simplify_eq; by eapply Hcb|]. by apply IH.
  - specialize (IH (acc m) ws σ h k).
    destruct (run_handshake cb acc ws (next (acc m)) σ) as [[r σ'] log]. cbn [snd] in *.
    intros [?|?]%elem_of_cons; [done|]. by apply IH.
Qed.

(** A handshake that asks nothing writes nothing, and one that asks once writes what the
    callback does then. *)
Lemma handshake_silent cb acc p ws σ :
  hosts (run_handshake cb acc ws p σ).2 = [] → (run_handshake cb acc ws p σ).1.2 = σ.
Proof using Type.
  revert ws σ. induction p as [r|h' r' k' next IH|m next IH]; intros ws σ; cbn [run_handshake].
  - done.
  - destruct (cb h' r' k' (hd Written ws) σ) as [err σ1].
    by destruct (run_handshake cb acc (tl ws) (next err) σ1) as [[r σ'] log].
  - specialize (IH (acc m) ws σ).
    destruct (run_handshake cb acc ws (next (acc m)) σ) as [[r σ'] log]. exact IH.
Qed.

Lemma handshake_once addr methods checked p cb acc ws σ k v :
  handshake_ok addr methods checked p →
  hosts (run_handshake cb acc ws p σ).2 = [(k, v)] →
  ∃ r w, cb addr r k w σ = (v, (run_handshake cb acc ws p σ).1.2).
Proof using Type.
  intros Hp. revert ws σ. induction Hp as [checked e| |checked r k' next Hn Hok IH|m next Hm Hok IH];
    intros ws σ; cbn [run_handshake]; try done.
  - destruct (cb addr r k' (hd Written ws) σ) as [err σ1] eqn:E.
    pose proof (handshake_silent cb acc (next err) (tl ws) σ1) as Hs.
    destruct (run_handshake cb acc (tl ws) (next err) σ1) as [[r' σ'] log]. cbn [fst snd] in *.
    intros H. cbn in H. injection H as -> -> Hh. rewrite (Hs Hh). eauto.
  - specialize (IH (acc m) ws σ).
    destruct (run_handshake cb acc ws (next (acc m)) σ) as [[r' σ'] log]. exact IH.
Qed.

(** ** What happens in a run *)

Lemma use_client_hosts a cfg : hosts (use_client a cfg).2 = [].
Proof using Type.
  unfold use_client, use_session, hosts. destruct (session_err a); [done|].
  destruct (bool_decide _).
  - by destruct (shell_err a).
  - destruct (exec a (Command cfg)) as [out err]. by destruct (0 <? len out)%Z.
Qed.

Lemma use_client_events a cfg e :
  e ∈ (use_client a cfg).2 → (∀ h k v, e ≠ EvHost h k v) ∧ (∀ m, e ≠ EvOffer m).
Proof using Type.
  clear dial ParsePrivateKey wd KH.
  unfold use_client, use_session. destruct (session_err a); [|destruct (bool_decide _)].
  - cbn [snd]. set_solver.
  - destruct (shell_err a); cbn [snd]; set_solver.
  - destruct (exec a (Command cfg)) as [out err]. destruct (0 <? len out)%Z; cbn [snd]; set_solver.
Qed.

Lemma use_client_dials a cfg addr user : EvDial addr user ∉ (use_client a cfg).2.
Proof using Type.
  clear dial ParsePrivateKey wd KH.
  unfold use_client, use_session. destruct (session_err a); [|destruct (bool_decide _)].
  - cbn [snd]. set_solver.
  - destruct (shell_err a); cbn [snd]; set_solver.
  - destruct (exec a (Command cfg)) as [out err]. destruct (0 <? len out)%Z; cbn [snd]; set_solver.
Qed.

Lemma handshake_no_dial cb acc p ws σ addr user :
  EvDial addr user ∉ (run_handshake cb acc ws p σ).2.
Proof using Type.
  revert ws σ. induction p as [r|h r k next IH|m next IH]; intros ws σ; cbn [run_handshake].
  - apply not_elem_of_nil.
  - destruct (cb h r k (hd Written ws) σ) as [err σ1]. specialize (IH err (tl ws) σ1).
    destruct (run_handshake cb acc (tl ws) (next err) σ1) as [[r' σ'] log].
    by intros [?|?]%elem_of_cons.
  - specialize (IH (acc m) ws σ). destruct (run_handshake cb acc ws (next (acc m)) σ) as [[r' σ'] log].
    by intros [?|?]%elem_of_cons.
Qed.

(** A run that did anything went through a handshake. *)
Lemma Run_dials a cfg σ err σ' log :
  Run a cfg σ = (err, σ', log) → log ≠ [] →
  ∃ cb σ1 methods r log1,
    New wd (host_calls a) (KnownHostsPath cfg) (StrictHostKey cfg) (AcceptUnknownHost cfg) σ
      = (Ok cb, σ1)
    ∧ auth_methods (identity_fault a) cfg σ1 = Ok methods
    ∧ run_handshake cb (accepts a) (append_outcomes a) (dial (Addr cfg) (User cfg) methods) σ1
      = (r, σ', log1)
    ∧ log = EvDial (Addr cfg) (User cfg) :: log1
            ++ (if is_ok r then (use_client a cfg).2 else [])
    ∧ (is_ok r = false → is_Some err).
Proof using Type.
  unfold Run. destruct (bool_decide (TrimSpace (Addr cfg) = "")); [by intros [= <- <- <-]|].
  destruct (bool_decide (TrimSpace (User cfg) = "")); [by intros [= <- <- <-]|].
  destruct (New _ _ _ _ _ _) as [[cb|e] σ1]; [|by intros [= <- <- <-]].
  destruct (auth_methods (identity_fault a) cfg σ1) as [methods|e] eqn:Ham; [|by intros [= <- <- <-]].
  destruct (run_handshake _ _ _ _ _) as [[r σ2] log1] eqn:Hh.
  intros H _. exists cb, σ1, methods, r, log1. split_and!; [done|done| | |];
    destruct r as [[]|e]; try destruct (use_client a cfg) as [err' log'];
    simplify_eq; cbn [is_ok snd]; rewrite ?app_nil_r; eauto; done.
Qed.

Hypothesis dial_ok : ∀ addr user methods, handshake_ok addr methods false (dial addr user methods).

Lemma Run_orderly a cfg σ :
  ∃ methods, orderly (Addr cfg) methods false (Run a cfg σ).2.
Proof using dial_ok.
  destruct (Run a cfg σ) as [[err σ'] log] eqn:H. cbn [snd].
  destruct (decide (log = [])) as [->|Hne]; [exists []; apply orderly_nil|].
  destruct (Run_dials _ _ _ _ _ _ H Hne) as (cb & σ1 & methods & r & log1 & _ & _ & Hh & -> & _).
  exists methods.
  pose proof (handshake_log _ _ _ _ (dial_ok (Addr cfg) (User cfg) methods) cb (accepts a)
                (append_outcomes a) σ1) as Ho.
  rewrite Hh in Ho. destruct Ho as [Ho Hr].
  apply orderly_dial. destruct (is_ok r) eqn:E; [|by rewrite app_nil_r].
  destruct (Hr eq_refl) as [[?|[k Hk]] Hno]; [done|].
  by apply (orderly_use _ _ _ _ k); [..|apply use_client_events].
Qed.

(** The key of an identity file. *)
Definition identity_of (cfg : Config) (σ : disk) (m : AuthMethod) : Prop :=
  ∃ path raw signer,
    PathGuard.ValidateFilesystemPath wd (IdentityFile cfg) "clave privada SSH" = Ok path
    ∧ σ !! path = Some raw ∧ ParsePrivateKey raw = Ok signer ∧ m = PublicKeys signer.

(** The methods are those of the configuration. *)
Lemma auth_methods_from fault cfg σ methods m :
  auth_methods fault cfg σ = Ok methods → m ∈ methods →
  m = PasswordAuth (Password cfg) ∧ Password cfg ≠ "" ∨ identity_of cfg σ m.
Proof using Type.
  unfold auth_methods. intros H Hm.
  assert (Hp : m ∈ (if bool_decide (Password cfg = "") then [] else [PasswordAuth (Password cfg)])
               → m = PasswordAuth (Password cfg) ∧ Password cfg ≠ "").
  { clear H. case_bool_decide; [by intros ?%elem_of_nil|]. by intros ->%list_elem_of_singleton. }
  destruct (bool_decide (TrimSpace _ = "")).
  { cbn in H. destruct (if bool_decide (Password cfg = "") then _ else _); simplify_eq. left. auto. }
  unfold loadSigner in H. destruct (PathGuard.ValidateFilesystemPath _ _ _) as [path|] eqn:Ev; [|done].
  cbn in H. unfold ReadFile in H. destruct fault; [done|].
  destruct (σ !! path) as [raw|] eqn:Er; [|done]. destruct (ParsePrivateKey raw) as [s|] eqn:Hk; [|done].
  cbn in H. simplify_eq. apply elem_of_cons in Hm as [->|Hm]; [right|left; auto].
  by exists path, raw, s.
Qed.

Lemma Run_offers a cfg σ m :
  EvOffer m ∈ (Run a cfg σ).2 →
  m = PasswordAuth (Password cfg) ∧ Password cfg ≠ ""
  ∨ ∃ path raw signer,
      PathGuard.ValidateFilesystemPath wd (IdentityFile cfg) "clave privada SSH" = Ok path
      ∧ (σ !! path = Some raw ∨ σ !! path = None ∧ raw = "")
      ∧ ParsePrivateKey raw = Ok signer ∧ m = PublicKeys signer.
Proof using dial_ok.
  destruct (Run a cfg σ) as [[err σ'] log] eqn:H. cbn [snd]. intros Hm.
  assert (Hne : log ≠ []) by (intros ->; by apply elem_of_nil in Hm).
  destruct (Run_dials _ _ _ _ _ _ H Hne) as (cb & σ1 & methods & r & log1 & Hn & Ha & Hh & -> & _).
  assert (Hin : m ∈ methods).
  { pose proof (handshake_log _ _ _ _ (dial_ok (Addr cfg) (User cfg) methods) cb (accepts a)
                  (append_outcomes a) σ1) as Ho.
    rewrite Hh in Ho. destruct Ho as [Ho _]. apply (ord_offer _ _ _ _ Ho).
    apply elem_of_cons in Hm as [?|[?|Hm]%elem_of_app]; [done|done|].
    destruct (is_ok r); [|by apply elem_of_nil in Hm].
    by destruct (proj2 (use_client_events _ _ _ Hm) m). }
  destruct (auth_methods_from _ _ _ _ m Ha Hin) as [?|(path & raw & sg & H1 & H2 & H3 & H4)];
    [by left|right].
  exists path, raw, sg. split_and!; try done. eapply New_disk. by rewrite Hn.
Qed.

Lemma Run_dial_config a cfg σ addr user :
  EvDial addr user ∈ (Run a cfg σ).2 → addr = Addr cfg ∧ user = User cfg.
Proof using dial_ok.
  destruct (Run a cfg σ) as [[err σ'] log] eqn:H. cbn [snd]. intros Hm.
  assert (Hne : log ≠ []) by (intros ->; by apply elem_of_nil in Hm).
  destruct (Run_dials _ _ _ _ _ _ H Hne) as (cb & σ1 & methods & r & log1 & _ & _ & Hh & -> & _).
  assert (Hno : ∀ a u, EvDial a u ∉ log1).
  { intros a' u' Hin.
    assert (Hx : EvDial a' u' ∈ (run_handshake cb (accepts a) (append_outcomes a)
      (dial (Addr cfg) (User cfg) methods) σ1).2) by (by rewrite Hh).
    revert Hx. apply handshake_no_dial. }
  apply elem_of_cons in Hm as [?|[Hm|Hm]%elem_of_app]; [by simplify_eq|by destruct (Hno addr user)|].
  destruct (is_ok r); [|by apply elem_of_nil in Hm]. by destruct (use_client_dials a cfg addr user).
Qed.

(** A key that a strict run accepts is vouched for by the known hosts file. *)
Lemma Run_vouched a cfg σ h k :
  StrictHostKey cfg = true → EvHost h k None ∈ (Run a cfg σ).2 →
  ∃ safePath base,
    PathGuard.ValidateFilesystemPath wd (KnownHostsPath cfg) "known_hosts" = Ok safePath
    ∧ load (default "" (σ !! safePath)) = Ok base ∧ vouched (AcceptUnknownHost cfg) base h k.
Proof using Type.
  destruct (Run a cfg σ) as [[err σ'] log] eqn:H. cbn [snd]. intros Hst Hm.
  assert (Hne : log ≠ []) by (intros ->; by apply elem_of_nil in Hm).
  destruct (Run_dials _ _ _ _ _ _ H Hne) as (cb & σ1 & methods & r & log1 & Hn & _ & Hr & -> & _).
  rewrite Hst in Hn.
  destruct (PathGuard.ValidateFilesystemPath wd (KnownHostsPath cfg) "known_hosts")
    as [safePath|e] eqn:Hv.
  2: { unfold New in Hn. cbn [negb] in Hn. rewrite Hv in Hn. by destruct (bool_decide _). }
  destruct (New_loads wd _ _ _ _ _ _ _ Hv Hn) as (_ & base & Hl & ->).
  exists safePath, base. split_and!; [done..|].
  apply elem_of_cons in Hm as [?|[Hm|Hm]%elem_of_app]; [done| |].
  2: { destruct (is_ok r); [|by apply elem_of_nil in Hm].
       by destruct (proj1 (use_client_events _ _ _ Hm) h k None). }
  refine (handshake_accepted (vouched (AcceptUnknownHost cfg) base) _ (accepts a) _ _
            (append_outcomes a) σ1 h k _); [|rewrite Hr; exact Hm].
  intros h' r' k' w σ0 σ0'. apply callback_accepts.
Qed.

(** A run whose only question was answered yes, for a host that was not known, adds the
    line of the key to the file. *)
Lemma first_use a cfg σ safePath base k :
  PathGuard.ValidateFilesystemPath wd (KnownHostsPath cfg) "known_hosts" = Ok safePath →
  StrictHostKey cfg = true → load (default "" (σ !! safePath)) = Ok base →
  (∀ r k', base (Addr cfg) r k' ≠ None) → hosts (Run a cfg σ).2 = [(k, None)] →
  (Run a cfg σ).1.2 !! safePath
    = Some (default "" (σ !! safePath) +:+ Line (Addr cfg) k +:+ newline)
  ∧ ∃ r t, base (Addr cfg) r k = Some (KeyError [] t).
Proof using dial_ok.
  intros Hv Hst Hl Hun. destruct (Run a cfg σ) as [[err σ'] log] eqn:H. cbn [fst snd]. intros Hh.
  assert (Hne : log ≠ []) by (by intros ->).
  destruct (Run_dials _ _ _ _ _ _ H Hne) as (cb & σ1 & methods & r & log1 & Hn & _ & Hr & -> & _).
  rewrite Hst in Hn. destruct (New_loads wd _ _ _ _ _ _ _ Hv Hn) as (Hσ & base' & Hl' & ->).
  rewrite Hl in Hl'. simplify_eq.
  assert (Hh1 : hosts log1 = [(k, None)]).
  { unfold hosts in *. cbn [omap list_omap] in Hh. rewrite omap_app in Hh.
    assert (omap (λ e, match e with EvHost _ k v => Some (k, v) | _ => None end)
              (if is_ok r then (use_client a cfg).2 else []) = []) as E.
    { destruct (is_ok r); [apply use_client_hosts|done]. }
    rewrite E, app_nil_r in Hh. exact Hh. }
  destruct (handshake_once (Addr cfg) methods false (dial (Addr cfg) (User cfg) methods)
    _ _ (append_outcomes a) _ k None (dial_ok _ _ _) ltac:(rewrite Hr; exact Hh1)) as (rem & w & Hcb).
  rewrite Hr in Hcb. cbn [fst snd] in Hcb. pose proof (Hun rem k) as Hnn.
  destruct (base' (Addr cfg) rem k) as [e|] eqn:Hb; [|done].
  destruct (unknown_host e) eqn:Hu.
  2: { rewrite (callback_mismatch _ _ _ _ _ _ _ _ e Hb Hu) in Hcb. done. }
  destruct (AcceptUnknownHost cfg); cbn [negb] in Hcb.
  2: { unfold strict_callback in Hcb. rewrite Hb in Hcb. done. }
  split.
  - unfold accepting_callback, AppendFile in Hcb. rewrite Hb, Hu, lookup_insert_eq in Hcb.
    destruct w; simplify_eq. by rewrite lookup_insert_eq.
  - destruct e as [[|x want] t|t]; try done. eauto.
Qed.

(** The keys a run accepts when the file knows the host with one key. *)
Lemma pinned_run `{!EqDecision K} a cfg σ safePath c base k :
  PathGuard.ValidateFilesystemPath wd (KnownHostsPath cfg) "known_hosts" = Ok safePath →
  StrictHostKey cfg = true → σ !! safePath = Some c → load c = Ok base →
  (∀ r' k', k' ≠ k → ∃ e, base (Addr cfg) r' k' = Some e ∧ unknown_host e = false) →
  ∀ h k', EvHost h k' None ∈ (Run a cfg σ).2 → k' = k.
Proof using dial_ok.
  intros Hv Hst Hc Hl Hpin h k'. destruct (Run a cfg σ) as [[err σ'] log] eqn:H. cbn [snd]. intros Hm.
  assert (Hne : log ≠ []) by (intros ->; by apply elem_of_nil in Hm).
  destruct (Run_dials _ _ _ _ _ _ H Hne) as (cb & σ1 & methods & r & log1 & Hn & _ & Hr & -> & _).
  rewrite Hst in Hn. destruct (New_loads wd _ _ _ _ _ _ _ Hv Hn) as (Hσ & base' & Hl' & ->).
  rewrite Hc in Hl'. change (load c = Ok base') in Hl'. assert (base' = base) as -> by congruence.
  apply elem_of_cons in Hm as [?|[Hm|Hm]%elem_of_app]; [done| |].
  2: { destruct (is_ok r); [|by apply elem_of_nil in Hm].
       by destruct (proj1 (use_client_events _ _ _ Hm) h k' None). }
  pose proof (handshake_log _ _ _ _ (dial_ok (Addr cfg) (User cfg) methods)
    (if negb (AcceptUnknownHost cfg) then strict_callback base else accepting_callback safePath base)
    (accepts a) (append_outcomes a) σ1) as Ho.
  rewrite Hr in Ho. destruct Ho as [Ho _]. pose proof (ord_addr _ _ _ _ Ho _ _ _ Hm) as ->.
  refine (handshake_accepted (λ h k', h = Addr cfg → k' = k) _ (accepts a) _ _
            (append_outcomes a) σ1 (Addr cfg) k' _ eq_refl); [|rewrite Hr; exact Hm].
  intros h r0 k0 w σ0 σ0' Hcb ->. destruct (decide (k0 = k)) as [|Hk]; [done|].
  destruct (Hpin r0 k0 Hk) as (e & Hb & Hu).
  by rewrite (callback_mismatch _ _ _ _ _ _ _ _ e Hb Hu) in Hcb.
Qed.

End Client.

(** ** A server to try *)

Definition offers (methods : list AuthMethod) : handshake string :=
  foldr (λ m next, Offer m (λ ok, if ok : bool then Dialed (Ok tt) else next))
    (Dialed (Err "ssh: unable to authenticate")) methods.

(** One question about the host, and the methods until one is accepted. *)
Definition server_with (key : string) (addr user : string) (methods : list AuthMethod) : handshake string :=
  CheckHost addr "10.0.0.5:22" key
    (λ err, match err with
            | Some e => Dialed (Err ("ssh: handshake failed: " +:+ e))
            | None => offers methods
            end).

Lemma server_with_ok key addr user methods :
  handshake_ok addr methods false (server_with key addr user methods).
Proof.
  constructor; [by eexists|].
  assert (∀ ms, ms ⊆ methods → handshake_ok addr methods true (offers ms)) as H; [|by apply H].
  induction ms as [|m ms IH]; intros Hs; cbn [offers foldr]; [constructor|].
  constructor; [apply Hs; by left|]. intros []; [constructor|]. apply IH.
  intros m' Hm. apply Hs. by right.
Qed.

Definition demo_config : Config :=
  mkConfig "host.lab:22" "ana" "secret" "" "known_hosts" true true "status".
Definition demo_answers : answers :=
  mkAnswers KnownHosts.no_faults None [] (λ _, true) None (λ _, ("ok", None)) None None.
Definition demo_run (key : string) (σ : gmap string string) :=
  Run (KH := Plain.library) (Ok "/home/ana") Ok (server_with key) demo_answers demo_config σ.

(** ** The properties *)

(** C17: whom the client trusts.  Let [ssh.Dial] do what it documents with the callback
    and the methods it is given.  The client dials the configured address; with strict
    checking, before it offers a credential or uses the connection, a key of that address
    was accepted which the known hosts file has for it, or, only when unknown hosts are
    to be accepted, a key of a host that the file does not have; and only the configured
    password is ever offered, or the key in the configured identity file. *)
Theorem client_trusts_host_first {K : Type} `{KH : KnownHostsLibrary K} (wd : result string string)
    (ParsePrivateKey : string → result string string)
    (dial : string → string → list AuthMethod → handshake K)
    (a : answers) (cfg : Config) (σ : gmap string string) :
  (∀ addr user methods, handshake_ok addr methods false (dial addr user methods)) →
  let log := (Run wd ParsePrivateKey dial a cfg σ).2 in
  (∀ addr user, EvDial addr user ∈ log → addr = Addr cfg ∧ user = User cfg)
  ∧ (StrictHostKey cfg = true → ∀ pre e post, log = pre ++ e :: post → trusting e = true →
     ∃ safePath base k,
       PathGuard.ValidateFilesystemPath wd (KnownHostsPath cfg) "known_hosts" = Ok safePath
       ∧ load (default "" (σ !! safePath)) = Ok base
       ∧ EvHost (Addr cfg) k None ∈ pre ∧ vouched (AcceptUnknownHost cfg) base (Addr cfg) k)
  ∧ (∀ m, EvOffer m ∈ log →
       m = PasswordAuth (Password cfg) ∧ Password cfg ≠ ""
       ∨ ∃ path raw signer,
           PathGuard.ValidateFilesystemPath wd (IdentityFile cfg) "clave privada SSH" = Ok path
           ∧ (σ !! path = Some raw ∨ σ !! path = None ∧ raw = "")
           ∧ ParsePrivateKey raw = Ok signer ∧ m = PublicKeys signer).
Proof.
  intros Hd log. split_and!.
  - intros addr user. by apply Run_dial_config.
  - intros Hst pre e post Hlog He.
    destruct (Run_orderly wd ParsePrivateKey dial Hd a cfg σ) as [methods Ho].
    destruct (ord_trust _ _ _ _ Ho pre e post Hlog He) as [?|[k Hk]]; [done|].
    destruct (Run_vouched wd ParsePrivateKey dial a cfg σ (Addr cfg) k Hst) as (safePath & base & H).
    { fold log. rewrite Hlog. apply elem_of_app. by left. }
    exists safePath, base, k. naive_solver.
  - intros m. by apply Run_offers.
Qed.

Lemma client_trusts_host_first_witness :
  ∃ safePath base k,
    PathGuard.ValidateFilesystemPath (Ok "/home/ana") "known_hosts" "known_hosts" = Ok safePath
    ∧ load (KnownHostsLibrary := Plain.library) (default "" ((∅ : gmap string string) !! safePath)) = Ok base
    ∧ EvHost "host.lab:22" k None
       ∈ [EvDial "host.lab:22" "ana"; EvHost "host.lab:22" "K1" None]
    ∧ vouched true base "host.lab:22" k.
Proof.
  destruct (client_trusts_host_first (KH := Plain.library) (Ok "/home/ana") Ok (server_with "K1")
    demo_answers demo_config ∅ (server_with_ok "K1")) as (_ & H & _).
  refine (H eq_refl [EvDial "host.lab:22" "ana"; EvHost "host.lab:22" "K1" None]
            (EvOffer (PasswordAuth "secret")) _ _ eq_refl).
  vm_compute. reflexivity.
Defined.

(** C18: trust on first use.  Let the known hosts file end in a newline (or be missing or
    empty) and not know the host, and let the address consist of letters, digits, dots,
    hyphens and colons and have a host before its port.  After a strict run in which the
    one key asked about was accepted, every later strict run to the same address with the
    file as the first left it, also to an impostor and also when unknown hosts are
    accepted, offers nothing and uses no connection before that same key was accepted. *)
Theorem first_use_pins_key {K : Type} `{!EqDecision K} `{KL : KnownHostsLaws K} (wd : result string string)
    (ParsePrivateKey : string → result string string)
    (dial dial' : string → string → list AuthMethod → handshake K)
    (a a' : answers) (cfg cfg' : Config) (σ : gmap string string) (safePath : string) (k : K)
    (base : lookup_key K) :
  (∀ addr user methods, handshake_ok addr methods false (dial addr user methods)) →
  (∀ addr user methods, handshake_ok addr methods false (dial' addr user methods)) →
  PathGuard.ValidateFilesystemPath wd (KnownHostsPath cfg) "known_hosts" = Ok safePath →
  StrictHostKey cfg = true → plain_address (Addr cfg) = true →
  complete (default "" (σ !! safePath)) = true → load (default "" (σ !! safePath)) = Ok base →
  (∀ r k', base (Addr cfg) r k' ≠ None) →
  hosts (Run wd ParsePrivateKey dial a cfg σ).2 = [(k, None)] →
  KnownHostsPath cfg' = KnownHostsPath cfg → Addr cfg' = Addr cfg → StrictHostKey cfg' = true →
  let σ1 := (Run wd ParsePrivateKey dial a cfg σ).1.2 in
  ∀ pre e post,
    (Run wd ParsePrivateKey dial' a' cfg' σ1).2 = pre ++ e :: post → trusting e = true →
    EvHost (Addr cfg) k None ∈ pre.
Proof.
  intros Hd Hd' Hv Hst Hp Hc Hl Hun Hh Hpath Haddr Hst' σ1 pre e post Hlog He.
  destruct (first_use wd ParsePrivateKey dial Hd a cfg σ safePath base k Hv Hst Hl Hun Hh)
    as (Hfile & r & t & Hb). fold σ1 in Hfile.
  destruct (line_recorded _ _ _ _ _ _ Hl Hc Hp Hb) as (base' & Hl' & _ & Hpin).
  destruct (Run_orderly wd ParsePrivateKey dial' Hd' a' cfg' σ1) as [methods Ho].
  destruct (ord_trust _ _ _ _ Ho pre e post Hlog He) as [?|[k' Hk']]; [done|].
  rewrite <-Hpath in Hv. rewrite <-Haddr in *.
  assert (k' = k) as ->; [|done].
  apply (pinned_run wd ParsePrivateKey dial' Hd' a' cfg' σ1 safePath _ base' k Hv Hst' Hfile Hl' Hpin
           (Addr cfg')). rewrite Hlog. apply elem_of_app. by left.
Qed.

Lemma first_use_pins_key_witness :
  let σ1 := (demo_run "K1" ∅).1.2 in
  EvHost "host.lab:22" "K1" None
    ∈ [EvDial "host.lab:22" "ana"; EvHost "host.lab:22" "K1" None]
  ∧ (demo_run "K2" σ1).2
    = [EvDial "host.lab:22" "ana";
       EvHost "host.lab:22" "K2" (Some "knownhosts: key mismatch")].
Proof.
  split; [|vm_compute; reflexivity].
  refine (first_use_pins_key (KL := Plain.laws) (Ok "/home/ana") Ok (server_with "K1")
    (server_with "K1") demo_answers demo_answers demo_config demo_config ∅
    "/home/ana/known_hosts" "K1" (Plain.check []) (server_with_ok "K1") (server_with_ok "K1")
    eq_refl eq_refl eq_refl eq_refl eq_refl _ _ eq_refl eq_refl eq_refl _
    (EvOffer (PasswordAuth "secret")) _ _ eq_refl).
  - intros r k'. unfold Plain.check. by destruct (is_ok _).
  - vm_compute. reflexivity.
  - vm_compute. reflexivity.
Defined.

(** A line is appended as it is: when the file does not end in a newline it becomes part
    of the last line, whose host is not known any more, and the new host is not known
    either. *)
Lemma last_line_is_spoiled :
  let path := "/home/ana/known_hosts" in
  let old := Line (KnownHostsLibrary := Plain.library) "old.lab:22" "K0" in
  let σ1 := (demo_run "K1" {[path := old]}).1.2 in
  let verdict c h k := Plain.check (Plain.entries c) h "10.0.0.5:22" k in
  (demo_run "K1" {[path := old]}).1.1 = None
  ∧ verdict old "old.lab:22" "K0" = None
  ∧ option_map unknown_host (verdict (default "" (σ1 !! path)) "old.lab:22" "K0") = Some false
  ∧ option_map unknown_host (verdict (default "" (σ1 !! path)) "host.lab:22" "K1") = Some true.
Proof. vm_compute. done. Qed.

End Client.
