(* ===== verification/ClientMain.v ===== *)
(** * The program of the client ([cmd/client/main.go])

    The command line as package [flag] reads it, and the exit of the program.  The text of
    the usage is not modelled. *)

From S2P Require Import Prelude GoStrings GoParse PathGuard Disk KnownHosts Client.

Module ClientMain.
Import GoParse Client.

(** [userHomeDir]; the argument is the result of [os.UserHomeDir]. *)
Definition userHomeDir (home : result string string) : string :=
  match home with Ok h => h | Err _ => "." end.

(** The defaults of the flags. *)
Definition defaults (home : string) : Config :=
  mkConfig "localhost:2222" "student" "" ""
    (PathGuard.Join (PathGuard.Join home ".ssh") "known_hosts") true true "".

(** ** Package [flag] *)

Inductive setter :=
| TextFlag (set : string → Config → Config)
| BoolFlag (set : bool → Config → Config).

(** The flags that are defined. *)
Definition flags : list (string * setter) :=
  [("addr", TextFlag (λ x c, mkConfig x (User c) (Password c) (IdentityFile c) (KnownHostsPath c)
      (StrictHostKey c) (AcceptUnknownHost c) (Command c)));
   ("user", TextFlag (λ x c, mkConfig (Addr c) x (Password c) (IdentityFile c) (KnownHostsPath c)
      (StrictHostKey c) (AcceptUnknownHost c) (Command c)));
   ("password", TextFlag (λ x c, mkConfig (Addr c) (User c) x (IdentityFile c) (KnownHostsPath c)
      (StrictHostKey c) (AcceptUnknownHost c) (Command c)));
   ("identity", TextFlag (λ x c, mkConfig (Addr c) (User c) (Password c) x (KnownHostsPath c)
      (StrictHostKey c) (AcceptUnknownHost c) (Command c)));
   ("known-hosts", TextFlag (λ x c, mkConfig (Addr c) (User c) (Password c) (IdentityFile c) x
      (StrictHostKey c) (AcceptUnknownHost c) (Command c)));
   ("strict-host-key", BoolFlag (λ b c, mkConfig (Addr c) (User c) (Password c) (IdentityFile c)
      (KnownHostsPath c) b (AcceptUnknownHost c) (Command c)));
   ("accept-unknown-host", BoolFlag (λ b c, mkConfig (Addr c) (User c) (Password c)
      (IdentityFile c) (KnownHostsPath c) (StrictHostKey c) b (Command c)));
   ("cmd", TextFlag (λ x c, mkConfig (Addr c) (User c) (Password c) (IdentityFile c)
      (KnownHostsPath c) (StrictHostKey c) (AcceptUnknownHost c) x))].

Fixpoint find_flag {A} (name : string) (fs : list (string * A)) : option A :=
  match fs with
  | [] => None
  | (n, s) :: fs => if bool_decide (n = name) then Some s else find_flag name fs
  end.

(** What one argument is: the name of a flag comes after one or two dashes. *)
Inductive argument := NotFlag | Terminator | BadSyntax | Flag (name : string) (value : option string).

Definition named (name : string) : argument :=
  match name with
  | "" => BadSyntax
  | String a _ =>
     if bool_decide (a = "-"%char) || bool_decide (a = "="%char) then BadSyntax
     else let '(n, v, has) := CutByte name "="%char in Flag n (if has then Some v else None)
  end.

Definition read_argument (s : string) : argument :=
  match s with
  | String "-" "" => NotFlag
  | String "-" (String "-" "") => Terminator
  | String "-" (String "-" name) => named name
  | String "-" name => named name
  | _ => NotFlag
  end.

Inductive outcome := Parsed (c : Config) (rest : list string) | Exit (code : Z).

(** [flag.Parse]: an error ends the program. *)
Fixpoint Parse (c : Config) (args : list string) : outcome :=
  match args with
  | [] => Parsed c []
  | s :: rest =>
     match read_argument s with
     | NotFlag => Parsed c args
     | Terminator => Parsed c rest
     | BadSyntax => Exit 2
     | Flag name value =>
        match find_flag name flags with
        | None => Exit (if bool_decide (name = "help") || bool_decide (name = "h") then 0 else 2)
        | Some (BoolFlag set) =>
           match ParseBool (default "true" value) with
           | Some b => Parse (set b c) rest
           | None => Exit 2
           end
        | Some (TextFlag set) =>
           match value, rest with
           | Some v, _ => Parse (set v c) rest
           | None, v :: rest => Parse (set v c) rest
           | None, [] => Exit 2
           end
        end
     end
  end.

(** ** The program *)

Section Main.
Context {K : Type} `{KH : KnownHosts.KnownHostsLibrary K} (wd : result string string).
Context (ParsePrivateKey : string → result string string).
Context (dial : string → string → list AuthMethod → handshake K).

(** What the program does: its exit code, its errors on stderr and the log of the client. *)
Record ending := mkEnding { code : Z; stderr : option string; log : list (event K) }.

(** [main] *)
Definition main (args : list string) (home : result string string) (a : answers)
    (σ : gmap string string) : ending * gmap string string :=
  match Parse (defaults (userHomeDir home)) args with
  | Exit code => (mkEnding code None [], σ)
  | Parsed cfg _ =>
     let '(err, σ, log) := Run wd ParsePrivateKey dial a cfg σ in
     match err with
     | Some e => (mkEnding 1 (Some ("sentinelops-client: " +:+ e +:+ KnownHosts.newline)) log, σ)
     | None => (mkEnding 0 None log, σ)
     end
  end.

End Main.

(** ** What a command line means *)

(** An argument that turns a flag off. *)
Definition turns_off (name s : string) : bool :=
  match read_argument s with
  | Flag n (Some v) => bool_decide (n = name) && bool_decide (ParseBool v = Some false)
  | _ => false
  end.

(** A flag changes its own field only. *)
Lemma strict_only_by_flag name s c :
  find_flag name flags = Some s →
  match s with
  | TextFlag set => ∀ x, StrictHostKey (set x c) = StrictHostKey c
  | BoolFlag set => name = "strict-host-key" ∨ ∀ b, StrictHostKey (set b c) = StrictHostKey c
  end.
Proof.
  unfold flags. cbn [find_flag].
  repeat match goal with |- context [bool_decide (?n = name)] =>
           destruct (bool_decide_reflect (n = name)) as [<-|_]; [intros [= <-]; cbn; auto|] end.
  done.
Qed.

Lemma Parse_strict c args c' rest :
  Parse c args = Parsed c' rest → StrictHostKey c' = false →
  StrictHostKey c = false ∨ ∃ s, s ∈ args ∧ turns_off "strict-host-key" s = true.
Proof.
  revert c rest. induction args as [args IH] using (induction_ltof1 _ length). unfold ltof in IH.
  intros c rest. destruct args as [|s args]; cbn [Parse]; [intros [= <- <-]; by left|].
  destruct (read_argument s) as [| | |name value] eqn:Hs; try (intros [= <- <-]; by left).
  destruct (find_flag name flags) as [st|] eqn:Hf; [|done].
  pose proof (strict_only_by_flag name st c Hf) as Ho. destruct st as [set|set].
  - assert (Hgo : ∀ x l, (length l < length (s :: args))%nat → l ⊆ s :: args →
              Parse (set x c) l = Parsed c' rest → StrictHostKey c' = false →
              StrictHostKey c = false ∨ ∃ s', s' ∈ s :: args ∧ turns_off "strict-host-key" s' = true).
    { intros x l Hl Hsub HP Hst. destruct (IH l Hl (set x c) rest HP Hst) as [H|(s' & Hin & Hoff)].
      - left. by rewrite Ho in H.
      - right. exists s'. split; [by apply Hsub|done]. }
    destruct value as [v|]; [|destruct args as [|v args]; [done|]].
    + apply Hgo; [simpl; lia|]. intros ?. by right.
    + apply Hgo; [simpl; lia|]. intros ?. by do 2 right.
  - destruct (ParseBool (default "true" value)) as [b|] eqn:Hb; [|done]. intros HP Hst.
    destruct (IH args ltac:(simpl; lia) (set b c) rest HP Hst) as [H|(s' & Hin & Hoff)].
    2: { right. exists s'. split; [by right|done]. }
    destruct Ho as [->|Ho]; [|left; by rewrite Ho in H].
    vm_compute in Hf. injection Hf as <-. cbn in H. subst b. right. exists s. split; [by left|].
    unfold turns_off. rewrite Hs. destruct value as [v|]; [|done].
    rewrite !bool_decide_eq_true_2 by done. done.
Qed.

(** The arguments that set every flag. *)
Definition print_bool (b : bool) : string := if b then "true" else "false".
Definition arguments (c : Config) : list string :=
  ["-addr=" +:+ Addr c; "-user=" +:+ User c; "-password=" +:+ Password c;
   "-identity=" +:+ IdentityFile c; "-known-hosts=" +:+ KnownHostsPath c;
   "-strict-host-key=" +:+ print_bool (StrictHostKey c);
   "-accept-unknown-host=" +:+ print_bool (AcceptUnknownHost c); "-cmd=" +:+ Command c].

Lemma Parse_arguments c cfg rest : Parse c (arguments cfg ++ rest) = Parse cfg rest.
Proof. destruct cfg as [addr user pw id kh [] [] cmd]; reflexivity. Qed.

(** ** The properties *)

(** The host key of the server is not checked only when the command line says so: an
    argument gives the flag [strict-host-key] a value that reads as false. *)
Lemma strict_unless_told (args rest : list string) (home : result string string) (cfg : Config) :
  Parse (defaults (userHomeDir home)) args = Parsed cfg rest → StrictHostKey cfg = false →
  ∃ s, s ∈ args ∧ turns_off "strict-host-key" s = true.
Proof. intros HP Hs. by destruct (Parse_strict _ _ _ _ HP Hs). Qed.

Lemma strict_unless_told_witness :
  ∃ s, s ∈ ["-user"; "ana"; "--strict-host-key=0"; "x"]
       ∧ turns_off "strict-host-key" s = true.
Proof.
  eapply (strict_unless_told _ ["x"] (Ok "/home/ana")); [vm_compute; reflexivity|reflexivity].
Defined.

(** Every configuration is what its arguments mean, whatever its texts: the command
    line that gives each flag its value is read back as that configuration. *)
Lemma command_line_round_trip (home : result string string) (cfg : Config)
    (rest : list string) :
  match rest with s :: _ => read_argument s = NotFlag | [] => True end →
  Parse (defaults (userHomeDir home)) (arguments cfg ++ rest) = Parsed cfg rest.
Proof.
  intros Hr. rewrite Parse_arguments. destruct rest as [|s rest]; [done|]. cbn [Parse]. by rewrite Hr.
Qed.

Lemma command_line_round_trip_witness :
  let cfg := mkConfig "a b" "-x" "p=q" "" "/k" false true "--" in
  Parse (defaults ".") (arguments cfg ++ ["tail"; "-h"]) = Parsed cfg ["tail"; "-h"].
Proof. intros cfg. apply (command_line_round_trip (Err "") cfg ["tail"; "-h"]). reflexivity. Defined.

End ClientMain.
