(* ===== verification/Telemetry.v ===== *)
(** * Tracing and logging ([internal/telemetry], [internal/observability])

    How the provider of traces is configured, what spans say, and how the correlation id
    of a request travels from one server to the next.  OpenTelemetry is a parameter where
    its answer matters: the creation of resources and exporters, the rules for members of
    the baggage, and the headers its propagators write. *)

From Stdlib Require Import Floats.SpecFloat.
From S2P Require Import Prelude GoStrings.

Module Telemetry.

Definition tracerName : string := "sentinelops".

(** ** The provider *)

Record Config := mkConfig {
  Enabled_ : bool;
  ServiceName : string;
  ServiceVersion : string;
  Environment : string;
  Exporter : string;
  Endpoint : string;
  Insecure : bool;
  SampleRate : spec_float;
}.

Inductive exporter :=
| StdoutExporter
| GRPCExporter (endpoint : string) (insecure : bool)
| HTTPExporter (endpoint : string) (insecure : bool).

Inductive sampler := NeverSample | AlwaysSample | TraceIDRatioBased (rate : spec_float).

Record resource := mkResource {
  service_name : string;
  service_version : string;
  deployment_environment : string;
  host_name : string;
}.

(** [sdktrace.TracerProvider], with the options it is made with. *)
Record TracerProvider := mkTracerProvider {
  tp_resource : resource;
  tp_exporter : exporter;
  tp_batch_timeout : Duration;
  tp_export_timeout : Duration;
  tp_sampler : sampler;
}.

(** A tracer is that of the library, or of a provider with a version. *)
Inductive tracer := GlobalTracer (name : string) | ProviderTracer (name version : string).

Record Provider := mkProvider {
  enabled : bool;
  tracer_ : tracer;
  tp : option TracerProvider;
}.

(** The variables of the package and of the library. *)
Record state := mkState {
  globalProvider : option Provider;
  otel_provider : option TracerProvider;
  otel_propagators : list string;
}.

Definition initial : state := mkState (Some (mkProvider false (GlobalTracer tracerName) None)) None [].

Definition or_default (s d : string) : string :=
  let s := TrimSpace s in if bool_decide (s = "") then d else s.

(** [hostname]; the argument is the result of [os.Hostname]. *)
Definition hostname (name : result string string) : string :=
  match name with
  | Ok n => if bool_decide (TrimSpace n = "") then "desconocido" else n
  | Err _ => "desconocido"
  end.

(** [newSampler]: comparisons of floats. *)
Definition newSampler (rate : spec_float) : sampler :=
  if SFleb rate (S754_zero false) then NeverSample
  else if SFleb (binary_normalize 53 1024 1 0 false) rate then AlwaysSample
  else TraceIDRatioBased rate.

(** [newExporter]; [create] is the error of making an exporter. *)
Definition newExporter (create : exporter → option string) (cfg : Config) : result string exporter :=
  let make e := match create e with Some err => Err err | None => Ok e end in
  let kind := TrimSpace (ToLower (Exporter cfg)) in
  let kind := if bool_decide (kind = "") then "stdout" else kind in
  if bool_decide (kind = "stdout") then make StdoutExporter
  else if bool_decide (kind = "jaeger") || bool_decide (kind = "otlp-grpc")
  then make (GRPCExporter (or_default (Endpoint cfg) "localhost:4317") (Insecure cfg))
  else if bool_decide (kind = "otlp-http")
  then make (HTTPExporter (or_default (Endpoint cfg) "localhost:4318") (Insecure cfg))
  else Err ("exportador de telemetría no soportado: " +:+ Exporter cfg).

(** [Init] *)
Definition Init (resource_err : option string) (create : exporter → option string)
    (host : result string string) (cfg : Config) (st : state) : result string Provider * state :=
  if negb (Enabled_ cfg) then
    let p := mkProvider false (GlobalTracer tracerName) None in
    (Ok p, mkState (Some p) (otel_provider st) (otel_propagators st))
  else
    let serviceVersion := or_default (ServiceVersion cfg) "dev" in
    match resource_err with
    | Some e => (Err ("crear recurso de telemetría: " +:+ e), st)
    | None =>
       let res := mkResource (or_default (ServiceName cfg) "sentinelops") serviceVersion
                    (or_default (Environment cfg) "dev") (hostname host) in
       match newExporter create cfg with
       | Err e => (Err e, st)
       | Ok e =>
          let t := mkTracerProvider res e (5 * Second) (10 * Second) (newSampler (SampleRate cfg)) in
          let p := mkProvider true (ProviderTracer tracerName serviceVersion) (Some t) in
          (Ok p, mkState (Some p) (Some t) ["tracecontext"; "baggage"])
       end
    end.

(** [Tracer] *)
Definition Tracer (st : state) : tracer :=
  match globalProvider st with
  | None => GlobalTracer tracerName
  | Some p => tracer_ p
  end.

(** [Enabled] *)
Definition Enabled (st : state) : bool :=
  match globalProvider st with None => false | Some p => enabled p end.

(** [Shutdown] *)
Definition Shutdown (close : TracerProvider → option string) (p : option Provider)
    : option string :=
  match p with
  | None => None
  | Some p => match tp p with None => None | Some t => close t end
  end.

(** ** Spans *)

Inductive attribute := AString (s : string) | AInt (n : Z).
Inductive kind := SpanKindServer | SpanKindInternal.
Inductive code := CodeOk | CodeError.

(** What is asked of a span after its start. *)
Inductive call :=
| RecordError (err : string)
| SetStatus (c : code) (description : string)
| SetAttribute (key : string) (v : attribute).

Record Span := mkSpan {
  name : string;
  span_kind : kind;
  attributes : list (string * attribute);
  calls : list call;
}.

(** [Tracer().Start] with a kind and attributes *)
Definition Start (n : string) (k : kind) (l : list (string * attribute)) : Span :=
  mkSpan n k l [].

Definition tell (s : Span) (cs : list call) : Span :=
  mkSpan (name s) (span_kind s) (attributes s) (calls s ++ cs).

Definition StartSessionSpan (transport sessionID remoteAddr : string) : Span :=
  Start (transport +:+ ".session") SpanKindServer
    [("session.id", AString sessionID); ("network.transport", AString "tcp");
     ("network.protocol.name", AString transport); ("net.peer.address", AString remoteAddr)].

Definition StartAuthSpan (method username remoteAddr : string) : Span :=
  Start "auth.authenticate" SpanKindInternal
    [("auth.method", AString method); ("enduser.id", AString username);
     ("net.peer.address", AString remoteAddr)].

Definition StartValidationSpan (validatorType : string) (inputLength : Z) : Span :=
  Start "security.validate_input" SpanKindInternal
    [("validator.type", AString validatorType); ("input.length", AInt inputLength)].

Definition StartCommandSpan (command sessionID username : string) : Span :=
  Start "command.execute" SpanKindInternal
    [("command.name", AString command); ("session.id", AString sessionID);
     ("enduser.id", AString username)].

Definition StartForwardingSpan (direction source destination sessionID : string) : Span :=
  Start "ssh.forwarding" SpanKindInternal
    [("ssh.forward.direction", AString direction); ("ssh.forward.source", AString source);
     ("ssh.forward.destination", AString destination); ("session.id", AString sessionID)].

(** [SetSpanError], [SetSpanOK] and [AddDuration]; a nil span or error is [None]. *)
Definition SetSpanError (span : option Span) (err : option string) : option Span :=
  match span, err with
  | Some s, Some e => Some (tell s [RecordError e; SetStatus CodeError e])
  | _, _ => span
  end.

Definition SetSpanOK (span : option Span) (message : string) : option Span :=
  match span with Some s => Some (tell s [SetStatus CodeOk message]) | None => None end.

(** [Duration.Milliseconds] *)
Definition Milliseconds (d : Duration) : Z := Z.quot d 1000000.

Definition AddDuration (now : Time) (span : option Span) (started : Time) (attrName : string)
    : option Span :=
  match span with
  | None => None
  | Some s =>
     if bool_decide (attrName = "") then span
     else Some (tell s [SetAttribute attrName (AInt (Milliseconds (Sub now started)))])
  end.

(** [PeerParts] *)
Definition PeerParts (addr : string) : string * string :=
  match SplitHostPort addr with Ok (host, port) => (host, port) | Err _ => (addr, "") end.

(** ** Logging *)

Inductive level := LevelDebug | LevelInfo | LevelWarn | LevelError.

(** The level of [NewLogger]. *)
Definition NewLogger (l : string) : level :=
  let l := ToLower l in
  if bool_decide (l = "debug") then LevelDebug
  else if bool_decide (l = "warn") then LevelWarn
  else if bool_decide (l = "error") then LevelError
  else LevelInfo.

(** ** Correlation

    The headers of a request or a response by canonical name. *)

Abbreviation header := (gmap string string) (only parsing).

Definition upper (a : ascii) : ascii :=
  if ((97 <=? byte_val a) && (byte_val a <=? 122))%Z then byte_of (byte_val a - 32) else a.
Fixpoint canonical_from (start : bool) (s : string) : string :=
  match s with
  | "" => ""
  | String a s => String (if start then upper a else byte_lower a)
                    (canonical_from (bool_decide (a = "-"%char)) s)
  end.
(** [http.CanonicalHeaderKey] of a valid name *)
Definition CanonicalHeaderKey (s : string) : string := canonical_from true s.
Definition Get (h : header) (k : string) : string := default "" (h !! CanonicalHeaderKey k).
Definition Set_ (h : header) (k v : string) : header := <[CanonicalHeaderKey k := v]> h.

Definition CorrelationIDHeader : string := "X-Correlation-ID".
Definition TraceIDHeader : string := "X-Trace-ID".
Definition CorrelationBaggageKey : string := "correlation.id".

(** What a context carries: the baggage, the active span and its trace id when the
    context of the span is valid. *)
Record Context := mkContext {
  baggage : gmap string string;
  active : option Span;
  trace_id : option string;
}.

(** The library: the value a member keeps ([None] when it is refused), whether a baggage
    of one member is within the limits, and what the propagators write. *)
Class Propagation := {
  NewMember : string → string → option string;
  NewBaggage : string → string → bool;
  Inject : Context → gmap string string → gmap string string;
  inject_other ctx h k : k = CanonicalHeaderKey CorrelationIDHeader → Inject ctx h !! k = h !! k;
}.

Section Correlation.
Context `{PR : Propagation}.

(** [ContextWithCorrelationID]; [fresh] is the result of [NewCorrelationID].  The baggage
    is replaced by one with this member. *)
Definition ContextWithCorrelationID (fresh : string) (ctx : Context) (correlationID : string)
    : Context :=
  let correlationID := if bool_decide (correlationID = "") then fresh else correlationID in
  match NewMember CorrelationBaggageKey correlationID with
  | None => ctx
  | Some v =>
     if NewBaggage CorrelationBaggageKey v
     then mkContext {[CorrelationBaggageKey := v]} (active ctx) (trace_id ctx)
     else ctx
  end.

(** [ExtractCorrelationID] *)
Definition ExtractCorrelationID (ctx : Context) : string :=
  default "" (baggage ctx !! CorrelationBaggageKey).

(** [InjectTracingHeaders] *)
Definition InjectTracingHeaders (ctx : Context) (h : header) : header :=
  let h := Inject ctx h in
  let correlationID := ExtractCorrelationID ctx in
  if bool_decide (correlationID = "") then h else Set_ h CorrelationIDHeader correlationID.

(** [AnnotateSpanWithCorrelation] *)
Definition AnnotateSpanWithCorrelation (ctx : Context) : Context :=
  let correlationID := ExtractCorrelationID ctx in
  if bool_decide (correlationID = "") then ctx
  else mkContext (baggage ctx)
         ((λ s, tell s [SetAttribute "correlation.id" (AString correlationID)]) <$> active ctx)
         (trace_id ctx).

(** [HTTPMiddleware]: [ctx] is the context of the request as [otelhttp] made it, [next]
    the handler, which gets the context and the headers of the response. *)
Definition HTTPMiddleware {A} (fresh1 fresh2 : string) (next : Context → header → A) (ctx : Context)
    (request response : header) : A :=
  let correlationID := Get request CorrelationIDHeader in
  let correlationID := if bool_decide (correlationID = "") then fresh1 else correlationID in
  let ctx := ContextWithCorrelationID fresh2 ctx correlationID in
  let span := (λ s, tell s [SetAttribute "correlation.id" (AString correlationID);
                            SetAttribute "http.request_id" (AString correlationID)]) <$> active ctx in
  let ctx := mkContext (baggage ctx) span (trace_id ctx) in
  let response := Set_ response CorrelationIDHeader correlationID in
  let response := match trace_id ctx with
                  | Some id => Set_ response TraceIDHeader id
                  | None => response
                  end in
  next ctx response.

(** ** Facts *)

Lemma Get_Set h k v : Get (Set_ h k v) k = v.
Proof using Type. unfold Get, Set_. by rewrite lookup_insert_eq. Qed.

(** A plain id is kept as it is. *)
Definition kept (id : string) : Prop :=
  NewMember CorrelationBaggageKey id = Some id ∧ NewBaggage CorrelationBaggageKey id = true.

Lemma Extract_Context fresh ctx id :
  id ≠ "" → kept id → ExtractCorrelationID (ContextWithCorrelationID fresh ctx id) = id.
Proof using Type.
  intros Hid [Hm Hb]. unfold ContextWithCorrelationID. rewrite bool_decide_eq_false_2 by done.
  rewrite Hm, Hb. unfold ExtractCorrelationID. cbn [baggage]. by rewrite lookup_singleton_eq.
Qed.

(** Whatever the caller's baggage held is gone when the id is added. *)
Lemma baggage_is_replaced fresh ctx id k :
  id ≠ "" → kept id → k ≠ CorrelationBaggageKey →
  baggage (ContextWithCorrelationID fresh ctx id) !! k = None.
Proof using Type.
  intros Hid [Hm Hb] Hk. unfold ContextWithCorrelationID. rewrite bool_decide_eq_false_2 by done.
  rewrite Hm, Hb. cbn [baggage]. by rewrite lookup_singleton_ne.
Qed.

End Correlation.

(** ** The properties *)

(** A library that keeps ids of letters, digits and dashes. *)
Definition id_byte (a : ascii) : bool :=
  (bool_decide (a = "-"%char) || (48 <=? byte_val a) && (byte_val a <=? 57)
   || (97 <=? byte_val a) && (byte_val a <=? 122))%Z.
Fixpoint id_bytes (s : string) : bool :=
  match s with "" => true | String a s => id_byte a && id_bytes s end.

#[export] Instance plain_ids : Propagation | 100.
Proof.
  refine {| NewMember _ v := if id_bytes v then Some v else None;
            NewBaggage _ v := (len v <? 4096)%Z;
            Inject ctx h := <["Traceparent" := default "" (trace_id ctx)]> h |}.
  intros ctx h k ->. by rewrite lookup_insert_ne.
Defined.

(** The correlation id of a request travels: what a server puts into the headers of
    its own request to another is, behind the other's middleware, the id of the context
    of the handler and the one the response shows; a request without an id gets a fresh
    one, and the trace id is shown exactly when there is a valid one. *)
Lemma correlation_travels `{PR : Propagation} (ctx ctx' : Context) (fresh1 fresh2 : string)
    (request response : gmap string string) :
  let sent := InjectTracingHeaders ctx request in
  let id := if bool_decide (ExtractCorrelationID ctx = "") then Get request CorrelationIDHeader
            else ExtractCorrelationID ctx in
  let id := if bool_decide (id = "") then fresh1 else id in
  fresh1 ≠ "" → kept id →
  HTTPMiddleware fresh1 fresh2
    (λ c h, (ExtractCorrelationID c, Get h CorrelationIDHeader, h !! CanonicalHeaderKey TraceIDHeader))
    ctx' sent response
  = (id, id, match trace_id ctx' with
             | Some t => Some t
             | None => response !! CanonicalHeaderKey TraceIDHeader
             end).
Proof.
  intros sent id0 id Hf Hk.
  assert (Hne : id ≠ "") by (unfold id; by case_bool_decide).
  assert (Hget : Get sent CorrelationIDHeader = id0).
  { unfold sent, InjectTracingHeaders, id0. case_bool_decide as E; [|by rewrite Get_Set].
    unfold Get. by rewrite inject_other. }
  unfold HTTPMiddleware. rewrite Hget. fold id.
  assert (Htr : trace_id (ContextWithCorrelationID fresh2 ctx' id) = trace_id ctx').
  { unfold ContextWithCorrelationID. destruct (NewMember _ _); [|done]. by destruct (NewBaggage _ _). }
  pose proof (Extract_Context fresh2 ctx' id Hne Hk) as Hx. unfold ExtractCorrelationID in *.
  cbn [baggage trace_id]. rewrite Hx, Htr. destruct (trace_id ctx') as [t|]; f_equal.
  - f_equal. unfold Get, Set_. rewrite lookup_insert_ne by done. by rewrite lookup_insert_eq.
  - unfold Set_. by rewrite lookup_insert_eq.
  - f_equal. apply Get_Set.
  - unfold Set_. by rewrite lookup_insert_ne.
Qed.

Lemma correlation_travels_witness :
  let ctx := mkContext {[CorrelationBaggageKey := "abc-1"]} None (Some "t1") in
  HTTPMiddleware "f1" "f2"
    (λ c h, (ExtractCorrelationID c, Get h CorrelationIDHeader, h !! CanonicalHeaderKey TraceIDHeader))
    (mkContext ∅ None (Some "t2")) (InjectTracingHeaders ctx ∅) ∅
  = ("abc-1", "abc-1", Some "t2").
Proof.
  intros ctx. apply (correlation_travels ctx (mkContext ∅ None (Some "t2")) "f1" "f2" ∅ ∅); [done|].
  vm_compute. done.
Defined.

(** What initialisation does: on an error nothing changes; otherwise the provider is
    enabled as configured, its names are not empty, and the connection is insecure only
    when that is asked for. *)
Lemma Init_spec resource_err create host cfg st :
  let '(r, st') := Init resource_err create host cfg st in
  match r with
  | Err _ => st' = st
  | Ok p =>
     globalProvider st' = Some p ∧ Enabled st' = Enabled_ cfg
     ∧ match tp p with
       | None => Enabled_ cfg = false
       | Some t => service_name (tp_resource t) ≠ "" ∧ host_name (tp_resource t) ≠ ""
                   ∧ match tp_exporter t with
                     | StdoutExporter => True
                     | GRPCExporter e i | HTTPExporter e i => e ≠ "" ∧ i = Insecure cfg
                     end
       end
  end.
Proof.
  unfold Init. destruct (Enabled_ cfg) eqn:He; [|done]. cbn [negb].
  assert (Hd : ∀ s d, d ≠ "" → or_default s d ≠ "").
  { intros s d Hd. unfold or_default. by case_bool_decide. }
  destruct resource_err; [done|]. destruct (newExporter create cfg) as [e|] eqn:Hx; [|done].
  cbn [globalProvider]. split; [done|]. split; [done|]. cbn [tp tp_resource service_name host_name tp_exporter].
  split; [by apply Hd|]. split.
  { unfold hostname. destruct host as [n|]; [|done]. case_bool_decide; [done|]. intros ->. done. }
  unfold newExporter in Hx.
  repeat match type of Hx with context [if ?b then _ else _] => destruct b end; try done;
    destruct (create _); simplify_eq; try done; split; try done; by apply Hd.
Qed.

End Telemetry.
