(* ===== verification/Validator.v ===== *)
(** * Validation of the input lines
    ([internal/security/validator.go], [grpc_validator.go],
    [grpc_validator_disabled.go])

    Running the external program and calling the gRPC service are parameters:
    each call of [Validate] receives what the outside world answers to it. *)

From S2P Require Import Prelude GoStrings PathGuard.

Module Validator.

(** ** Data *)

(** An error of [Validate]: a plain error, or an [*ExternalRuntimeError]. *)
Inductive verror :=
| Rejected (msg : string)
| ExternalRuntimeError (binary msg : string).

#[export] Instance verror_eq_dec : EqDecision verror.
Proof. solve_decision. Defined.

(** [Error] *)
Definition Error (e : verror) : string :=
  match e with
  | Rejected msg => msg
  | ExternalRuntimeError binary msg =>
     "fallo de ejecución del validador externo (" +:+ binary +:+ "): " +:+ msg
  end.

(** What [cmd.Run] ends with: success, or an error with its text, the exit code
    if the process ran, and what it wrote to standard error. *)
Inductive run_result :=
| RunOk
| RunError (exitCode : option Z) (stderr err : string).

(** The reply of the remote validator. *)
Record rpc_reply := mkReply { Valid : bool; Reason : string }.

Record world := mkWorld {
  wd : result string string;
  lookPath : string → result string string;
  cmdRun : string → string → run_result;
  dial : string → result string unit;
  validateInput : string → string → result string rpc_reply;
}.

Record Options := mkOptions {
  Mode : string;
  ExternalEnabled : bool;
  ExternalBinary : string;
  FailOpen : bool;
  GRPCAddr : string;
  GRPCTimeout : Duration;
  GRPCFailOpen : bool;
}.

(** [StaticRuleValidator] *)
Record StaticRuleValidator := mkStatic { maxLength : Z; forbidden : list string }.

(** [ExternalProcessValidator] *)
Record ExternalProcessValidator := mkProcess { binary : string }.

(** [GRPCValidator]; the program never sets its [conn] and [client]. *)
Record GRPCValidator := mkGRPC { addr : string; timeout : Duration }.

(** The implementations of [InputValidator]; a nil interface is [None]. *)
Inductive InputValidator :=
| VStatic (v : StaticRuleValidator)
| VProcess (v : ExternalProcessValidator)
| VGRPC (v : GRPCValidator)
| VHybrid (internal external : option InputValidator) (failOpen : bool).

(** ** Operations *)

(** [(v *StaticRuleValidator) Validate] *)
Definition ValidateStatic (v : StaticRuleValidator) (input : string) : option verror :=
  let trimmed := TrimSpace input in
  if bool_decide (trimmed = "") then Some (Rejected "no se permite una entrada vacía")
  else if (maxLength v <? len trimmed)%Z
  then Some (Rejected ("la entrada supera " +:+ Itoa (maxLength v) +:+ " caracteres"))
  else match list_find (λ token, Contains trimmed token = true) (forbidden v) with
       | Some (_, token) => Some (Rejected ("se detectó un token prohibido: " +:+ token))
       | None => None
       end.

(** [(v *ExternalProcessValidator) Validate] *)
Definition ValidateProcess (w : world) (v : ExternalProcessValidator) (input : string)
    : option verror :=
  match PathGuard.ValidateExecutable (wd w) (lookPath w) (binary v) with
  | Err e => Some (Rejected e)
  | Ok bin =>
     match cmdRun w bin input with
     | RunOk => None
     | RunError exitCode stderr err =>
        let message := TrimSpace stderr in
        let message := if bool_decide (message = "") then err else message in
        if bool_decide (exitCode = Some 10%Z) then Some (Rejected message)
        else Some (ExternalRuntimeError (binary v) message)
     end
  end.

(** [(v *GRPCValidator) Validate], with [clientForRequest] *)
Definition clientForRequest (w : world) (v : GRPCValidator) : result string unit :=
  dial w (addr v).
Definition ValidateGRPC (w : world) (v : GRPCValidator) (input : string) : option verror :=
  match clientForRequest w v with
  | Err e => Some (ExternalRuntimeError "input-guard-grpc" e)
  | Ok _ =>
     match validateInput w (addr v) input with
     | Err e => Some (ExternalRuntimeError "input-guard-grpc" e)
     | Ok resp =>
        if Valid resp then None
        else
          let reason := TrimSpace (Reason resp) in
          Some (Rejected (if bool_decide (reason = "")
                          then "entrada rechazada por validador gRPC" else reason))
     end
  end.

(** [Validate], by the dynamic type; the last case is
    [(v *HybridValidator) Validate]. *)
Fixpoint Validate (w : world) (v : InputValidator) (input : string) : option verror :=
  match v with
  | VStatic v => ValidateStatic v input
  | VProcess v => ValidateProcess w v input
  | VGRPC v => ValidateGRPC w v input
  | VHybrid internal external failOpen =>
     match match internal with Some i => Validate w i input | None => None end with
     | Some e => Some e
     | None =>
        match external with
        | None => None
        | Some x =>
           match Validate w x input with
           | None => None
           | Some (ExternalRuntimeError b m) =>
              if failOpen then None else Some (ExternalRuntimeError b m)
           | Some e => Some e
           end
        end
     end
  end.

(** [NewDefaultValidator] *)
Definition NewDefaultValidator : InputValidator :=
  VStatic (mkStatic 120 ["&&"; "||"; "../"; "$("; "`"; ";"]).

(** [NewHybridValidator] *)
Definition NewHybridValidator (internal external : InputValidator) (failOpen : bool)
    : InputValidator := VHybrid (Some internal) (Some external) failOpen.

(** [buildGRPCValidator] with and without the build tag [grpcvalidator] *)
Definition buildGRPCValidator_enabled (opts : Options) : option InputValidator :=
  let a := TrimSpace (GRPCAddr opts) in
  if bool_decide (a = "") then None
  else Some (VGRPC (mkGRPC a (if (GRPCTimeout opts <=? 0)%Z then (2 * Second)%Z
                              else GRPCTimeout opts))).
Definition buildGRPCValidator_disabled (_ : Options) : option InputValidator := None.
Definition buildGRPCValidator (grpcvalidator : bool) (opts : Options) : option InputValidator :=
  if grpcvalidator then buildGRPCValidator_enabled opts else buildGRPCValidator_disabled opts.

(** [NewValidator] *)
Definition NewValidator (grpcvalidator : bool) (opts : Options) : InputValidator :=
  let internal := NewDefaultValidator in
  let mode := ToLower (TrimSpace (Mode opts)) in
  match (if bool_decide (mode = "grpc") then buildGRPCValidator grpcvalidator opts else None) with
  | Some g => NewHybridValidator internal g (GRPCFailOpen opts)
  | None =>
     if negb (ExternalEnabled opts) || bool_decide (TrimSpace (ExternalBinary opts) = "")
     then internal
     else NewHybridValidator internal (VProcess (mkProcess (TrimSpace (ExternalBinary opts))))
            (FailOpen opts)
  end.

(** ** Properties *)

(** The inputs the internal rules let through. *)
Definition statically_safe (input : string) : Prop :=
  let trimmed := TrimSpace input in
  trimmed ≠ "" ∧ (len trimmed <= 120)%Z
  ∧ ∀ token, token ∈ ["&&"; "||"; "../"; "$("; "`"; ";"] →
      ¬ ∃ l r, trimmed = l +:+ token +:+ r.

Lemma default_validator_spec w input :
  Validate w NewDefaultValidator input = None ↔ statically_safe input.
Proof.
  unfold NewDefaultValidator, statically_safe. simpl. unfold ValidateStatic. simpl maxLength.
  case_bool_decide; [naive_solver|].
  destruct (Z.ltb_spec 120 (len (TrimSpace input))) as [Hl|Hl].
  { split; [done|]. intros (_ & ? & _). lia. }
  destruct (list_find _ _) as [[i token]|] eqn:E.
  - split; [done|]. intros (_ & _ & Hno). apply list_find_Some in E as (E1 & E2 & _).
    exfalso. apply (Hno token); [by eapply list_elem_of_lookup_2|]. by apply Contains_spec.
  - split; [|done]. intros _. split_and!; [done|lia|]. intros token Hin Hc.
    apply list_find_None in E. rewrite Forall_forall in E. apply (E token Hin).
    by apply Contains_spec.
Qed.

(** The external part of a configuration, and whether it fails open. *)
Definition external_of (grpcvalidator : bool) (opts : Options) : option (InputValidator * bool) :=
  match (if bool_decide (ToLower (TrimSpace (Mode opts)) = "grpc")
         then buildGRPCValidator grpcvalidator opts else None) with
  | Some g => Some (g, GRPCFailOpen opts)
  | None =>
     if negb (ExternalEnabled opts) || bool_decide (TrimSpace (ExternalBinary opts) = "")
     then None
     else Some (VProcess (mkProcess (TrimSpace (ExternalBinary opts))), FailOpen opts)
  end.

(** C33: what the configured validator accepts.  Whatever the configuration and
    whatever the external validators answer, an input is accepted exactly when it
    passes the internal rules (not empty, at most 120 bytes and none of the
    forbidden tokens anywhere, once trimmed) and either no external validator is
    configured, or it accepts, or it fails to run and its fail-open option is
    set.  In particular failing open never admits an input the internal rules
    reject, nor one the external validator rejects. *)
Theorem validator_accepts_iff (grpcvalidator : bool) (opts : Options) (w : world)
    (input : string) :
  Validate w (NewValidator grpcvalidator opts) input = None ↔
  statically_safe input
  ∧ match external_of grpcvalidator opts with
    | None => True
    | Some (x, failOpen) =>
       Validate w x input = None
       ∨ failOpen = true ∧ ∃ b m, Validate w x input = Some (ExternalRuntimeError b m)
    end.
Proof.
  assert (Hhyb : ∀ x failOpen,
    Validate w (NewHybridValidator NewDefaultValidator x failOpen) input = None ↔
    statically_safe input ∧ (Validate w x input = None
      ∨ failOpen = true ∧ ∃ b m, Validate w x input = Some (ExternalRuntimeError b m))).
  { intros x failOpen. rewrite <-(default_validator_spec w).
    unfold NewHybridValidator. cbn [Validate].
    destruct (Validate w NewDefaultValidator input); [naive_solver|].
    destruct (Validate w x input) as [[m|b m]|]; [naive_solver| |naive_solver].
    destruct failOpen; naive_solver. }
  unfold NewValidator, external_of. case_match; [apply Hhyb|].
  case_if; [|apply Hhyb]. rewrite (default_validator_spec w). tauto.
Qed.

(** A missing or failing external validator.  Without the fail-open option an
    external validator that cannot run makes every input rejected: the server fails
    closed. *)
Lemma validator_fails_closed (grpcvalidator : bool) (opts : Options) (w : world)
    (input : string) (x : InputValidator) :
  external_of grpcvalidator opts = Some (x, false) →
  (∀ bin i, ∃ code e err, cmdRun w bin i = RunError code e err) →
  (∀ a, ∃ e, dial w a = Err e) →
  Validate w (NewValidator grpcvalidator opts) input ≠ None.
Proof.
  unfold external_of, NewValidator. intros Hx Hrun Hdial.
  assert (Hext : Validate w x input ≠ None).
  { case_match eqn:Eg.
    - injection Hx as <- _. case_if; [|done]. unfold buildGRPCValidator in Eg.
      destruct grpcvalidator; [|done]. unfold buildGRPCValidator_enabled in Eg.
      case_if; [done|]. injection Eg as <-. cbn. unfold ValidateGRPC, clientForRequest.
      cbn. destruct (Hdial (TrimSpace (GRPCAddr opts))) as [e ->]. done.
    - case_if; [done|]. injection Hx as <- _. cbn. unfold ValidateProcess.
      destruct (PathGuard.ValidateExecutable _ _ _) as [bin|]; [|done].
      destruct (Hrun bin input) as (code & e & err & ->). by case_if. }
  assert (Hh : ∀ failOpen, failOpen = false →
    Validate w (NewHybridValidator NewDefaultValidator x failOpen) input ≠ None).
  { intros failOpen ->. unfold NewHybridValidator. cbn [Validate].
    destruct (Validate w NewDefaultValidator input); [done|].
    by destruct (Validate w x input) as [[?|? ?]|]. }
  case_match eqn:Eg; [injection Hx as -> ?; by apply Hh|].
  case_if; [done|]. injection Hx as <- ?. by apply Hh.
Qed.

Definition dead_world : world :=
  mkWorld (Ok "/srv") (λ b, Err "not found") (λ _ _, RunError None "" "no such file")
    (λ _, Err "connection refused") (λ _ _, Err "unavailable").
Definition demo_options : Options := mkOptions "binary" true "guard/bin" false "" 0 false.

Lemma validator_fails_closed_witness :
  Validate dead_world (NewValidator false demo_options) "help" ≠ None.
Proof.
  apply (validator_fails_closed false demo_options dead_world "help"
           (VProcess (mkProcess "guard/bin"))).
  - by vm_compute.
  - intros bin i. by eexists _, _, _.
  - intros a. by eexists.
Defined.

End Validator.
