(* ===== verification/Config.v ===== *)
(** * Configuration ([internal/config/config.go])

    The record [Config], the reading of the environment file and of the environment,
    and the defaults, under the names of the source.  The environment of the process is
    a finite map; the contents of files and the bytes of [crypto/rand] are inputs. *)

From Stdlib Require Import Floats.SpecFloat.
From S2P Require Import Prelude GoStrings Secrets GoParse GoFloat PathGuard.

Module Config.

Record t := mkConfig {
  AppName : string;
  AppVersion : string;
  Environment : string;
  Profile : string;
  Transport : string;
  ListenAddr : string;
  SSHListenAddr : string;
  SSHHostKeyPath : string;
  SSHServerVersion : string;
  SSHAuthorizedKeysDir : string;
  SSHPasswordAuthEnabled : bool;
  SSHPublicKeyAuthEnable : bool;
  SSHLocalForwardEnabled : bool;
  SSHForwardAllowlist : string;
  SSHLocalAllowedRoles : string;
  SSHRemoteForwardEnabled : bool;
  SSHRemoteBindAllowlist : string;
  SSHRemoteAllowedRoles : string;
  ControlAPIEnabled : bool;
  ControlAPIAddr : string;
  ControlAPICertPath : string;
  ControlAPIKeyPath : string;
  ControlAPIUser : string;
  ControlAPIPassword : string;
  ControlAPICertHosts : string;
  MetricsAddr : string;
  LogLevel : string;
  Banner : string;
  ReadTimeout : Duration;
  IdleTimeout : Duration;
  WriteTimeout : Duration;
  AuthEnabled : bool;
  AuthMaxAttempts : Z;
  AuthRateLimitEnabled : bool;
  AuthRateLimitMaxFailures : Z;
  AuthRateLimitWindow : Duration;
  AuthRateLimitLockout : Duration;
  ProjectRoot : string;
  StatePersistenceEnabled : bool;
  StatePersistenceDir : string;
  StateSessionsPath : string;
  StateTunnelsPath : string;
  ExternalAuditEnabled : bool;
  ExternalAuditCommand : string;
  ExternalAuditScript : string;
  ExternalValidatorOn : bool;
  ExternalValidatorBin : string;
  ExternalValidatorOpen : bool;
  ValidatorMode : string;
  ValidatorGRPCAddr : string;
  ValidatorGRPCTimeout : Duration;
  ValidatorGRPCFailOpen : bool;
  PolicyEnabled : bool;
  PolicyMode : string;
  PolicyBinary : string;
  PolicyDir : string;
  PolicyURL : string;
  PolicyTimeout : Duration;
  PolicyCacheEnabled : bool;
  PolicyCacheTTL : Duration;
  TelemetryEnabled : bool;
  TelemetryExporter : string;
  TelemetryEndpoint : string;
  TelemetryInsecure : bool;
  TelemetrySampleRate : spec_float;
  StoreType : string;
  PostgresHost : string;
  PostgresPort : Z;
  PostgresDB : string;
  PostgresUser : string;
  PostgresPassword : string;
  PostgresSSLMode : string;
  PostgresPoolSize : Z;
  RedisAddr : string;
  RedisPassword : string;
  RedisDB : Z;
  RedisPoolSize : Z;
}.

(** ** Reading a variable *)

Definition getEnv (env : GoParse.environ) (key fallback : string) : string :=
  match env !! key with
  | Some value => if bool_decide (value = "") then fallback else value
  | None => fallback
  end.

(** A value of another type: the fallback if the variable is unset, empty or does not
    parse. *)
Definition getParsed {A : Type} (parse : string → option A) (env : GoParse.environ)
    (key : string) (fallback : A) : A :=
  match env !! key with
  | Some value => if bool_decide (value = "") then fallback else default fallback (parse value)
  | None => fallback
  end.

Definition getDuration := getParsed GoParse.ParseDuration.
Definition getBool := getParsed GoParse.ParseBool.
Definition getInt := getParsed Atoi.
Definition getFloat := getParsed GoFloat.ParseFloat.

(** ** The environment file *)

(** A line of the file as an assignment: none for blank lines, comments, lines without
    an equals sign and empty names. *)
Definition assignment (text : string) : option (string * string) :=
  let line := TrimSpace text in
  if bool_decide (line = "") || HasPrefix line "#" then None
  else let '(key, value, ok) := CutByte line "="%char in
       if negb ok then None
       else let key := TrimSpace key in
            let value := GoParse.TrimQuotes (TrimSpace value) in
            if bool_decide (key = "") then None else Some (key, value).

(** A variable that is set to a non-empty value is kept. *)
Definition assign (env : GoParse.environ) (kv : string * string) : GoParse.environ :=
  match env !! kv.1 with
  | Some current => if bool_decide (current = "") then GoParse.Setenv kv.1 kv.2 env else env
  | None => GoParse.Setenv kv.1 kv.2 env
  end.

(** The assignments [os.Setenv] accepts. *)
Definition accepted (kv : string * string) : bool :=
  negb (contains_byte (byte_of 0) kv.1 || contains_byte (byte_of 0) kv.2).

(** The non-empty values a variable is given: by the environment, then by the file. *)
Definition given (env : GoParse.environ) (kvs : list (string * string)) (key : string)
    : list string :=
  filter (λ v, v ≠ "")
    (option_list (env !! key) ++ (filter (λ kv, kv.1 = key ∧ accepted kv = true) kvs).*2).

Lemma contains_byte_mid c l s r :
  contains_byte c (l +:+ s +:+ r) = false → contains_byte c s = false.
Proof.
  rewrite !contains_byte_app. intros H.
  apply orb_false_iff in H as [_ H]. by apply orb_false_iff in H as [H _].
Qed.

Lemma CutByte_free s c : contains_byte c (CutByte s c).1.1 = false.
Proof.
  induction s as [|a s IH]; [done|]. simpl. case_bool_decide; [done|].
  destruct (CutByte s c) as [[b r] ok]. simpl in *. rewrite IH.
  by rewrite bool_decide_eq_false_2.
Qed.

Lemma assignment_name text key value :
  assignment text = Some (key, value) → key ≠ "" ∧ contains_byte "="%char key = false.
Proof.
  unfold assignment. destruct (_ || HasPrefix _ _); [done|].
  pose proof (CutByte_free (TrimSpace text) "="%char) as Hf.
  destruct (CutByte (TrimSpace text) "="%char) as [[k v] ok]. simpl in Hf.
  destruct ok; simpl; [|done]. case_bool_decide as Hk; [done|]. intros [= <- _]. split; [done|].
  destruct (TrimSpace_factor k) as (l & r & E). rewrite E in Hf. by eapply contains_byte_mid.
Qed.

Lemma given_assign env kv kvs key :
  kv.1 ≠ "" → contains_byte "="%char kv.1 = false →
  head (given (assign env kv) kvs key) = head (given env (kv :: kvs) key).
Proof.
  destruct kv as [k v]. simpl. intros Hk He. unfold given, assign. simpl.
  assert (Hset : GoParse.Setenv k v env = if accepted (k, v) then <[k := v]> env else env).
  { unfold GoParse.Setenv, accepted. rewrite bool_decide_eq_false_2, He by done. simpl.
    by destruct (contains_byte _ k || contains_byte _ v). }
  rewrite filter_cons, Hset. destruct (decide (key = k)) as [->|Hne].
  - destruct (accepted (k, v)) eqn:Ha;
      [rewrite decide_True by done|rewrite decide_False by naive_solver].
    2: { destruct (env !! k) as [cur|] eqn:E; [case_bool_decide|]; by rewrite E. }
    simpl. destruct (env !! k) as [cur|] eqn:E; [case_bool_decide as Hc|].
    + subst cur. by rewrite lookup_insert_eq.
    + rewrite E. simpl. by rewrite !filter_cons, !decide_True by done.
    + by rewrite lookup_insert_eq.
  - rewrite decide_False by (simpl; naive_solver).
    assert (Hl : (if accepted (k, v) then <[k:=v]> env else env) !! key = env !! key).
    { destruct (accepted _); [|done]. by rewrite lookup_insert_ne. }
    destruct (env !! k); [case_bool_decide|]; by rewrite ?Hl.
Qed.

Lemma given_foldl kvs env key :
  Forall (λ kv, kv.1 ≠ "" ∧ contains_byte "="%char kv.1 = false) kvs →
  head (given (foldl assign env kvs) [] key) = head (given env kvs key).
Proof.
  intros H. revert env. induction H as [|kv kvs [H1 H2] H IH]; intros env; [done|].
  simpl. rewrite IH. by apply given_assign.
Qed.

Section Load.
(** The contents of a file, if it can be opened, the working directory, and the random
    source. *)
Context (readFile : string → option string) (wd : result string string)
        (rand : Secrets.rand_read).

Definition loadEnvFileIfExists (path : string) (env : GoParse.environ) : GoParse.environ :=
  if bool_decide (TrimSpace path = "") then env
  else match PathGuard.ValidateFilesystemPath wd path "archivo de entorno" with
  | Err _ => env
  | Ok safePath =>
     match readFile safePath with
     | None => env
     | Some contents => foldl assign env (omap assignment (GoParse.Lines contents))
     end
  end.

(** ** [Load] *)

(** The configuration, the environment afterwards and what is logged; an error is the
    panic of a failing random source. *)
Definition Load (env0 : GoParse.environ) : result string (t * GoParse.environ * list string) :=
  let env := loadEnvFileIfExists (getEnv env0 "APP_ENV_FILE" ".env.local") env0 in
  let stateDir := getEnv env "APP_STATE_PERSISTENCE_DIR" "data/state" in
  let password := getEnv env "APP_CONTROL_API_PASSWORD" "" in
  let* '(controlPassword, logged) :=
    (if bool_decide (password = "") then
       let* generated := Secrets.GeneratePassword rand 24 in
       Ok (generated, [Secrets.LogGeneratedCredential "API de control"
                         (getEnv env "APP_CONTROL_API_USER" "admin") generated])
     else Ok (password, [])) in
  Ok ({|
    AppName := getEnv env "APP_NAME" "sentinelops";
    AppVersion := getEnv env "APP_VERSION" "dev";
    Environment := getEnv env "APP_ENV" "dev";
    Profile := getEnv env "APP_PROFILE" "hardened";
    Transport := getEnv env "APP_TRANSPORT" "tcp";
    ListenAddr := getEnv env "APP_ADDR" ":2323";
    SSHListenAddr := getEnv env "APP_SSH_ADDR" ":2222";
    SSHHostKeyPath := getEnv env "APP_SSH_HOST_KEY_PATH" "data/ssh/host_ed25519_key";
    SSHServerVersion := getEnv env "APP_SSH_SERVER_VERSION" "SSH-2.0-SentinelOps";
    SSHAuthorizedKeysDir := getEnv env "APP_SSH_AUTHORIZED_KEYS_DIR" "data/ssh/authorized_keys";
    SSHPasswordAuthEnabled := getBool env "APP_SSH_PASSWORD_AUTH_ENABLED" true;
    SSHPublicKeyAuthEnable := getBool env "APP_SSH_PUBLICKEY_AUTH_ENABLED" true;
    SSHLocalForwardEnabled := getBool env "APP_SSH_LOCAL_FORWARD_ENABLED" true;
    SSHForwardAllowlist := getEnv env "APP_SSH_FORWARD_ALLOWLIST" "127.0.0.1:9000,localhost:9000";
    SSHLocalAllowedRoles := getEnv env "APP_SSH_LOCAL_ALLOWED_ROLES" "student,teacher,auditor,admin";
    SSHRemoteForwardEnabled := getBool env "APP_SSH_REMOTE_FORWARD_ENABLED" false;
    SSHRemoteBindAllowlist := getEnv env "APP_SSH_REMOTE_BIND_ALLOWLIST" "127.0.0.1:10080,127.0.0.1:10443";
    SSHRemoteAllowedRoles := getEnv env "APP_SSH_REMOTE_ALLOWED_ROLES" "teacher,auditor,admin";
    ControlAPIEnabled := getBool env "APP_CONTROL_API_ENABLED" true;
    ControlAPIAddr := getEnv env "APP_CONTROL_API_ADDR" ":9443";
    ControlAPICertPath := getEnv env "APP_CONTROL_API_CERT_PATH" "data/controlplane/tls.crt";
    ControlAPIKeyPath := getEnv env "APP_CONTROL_API_KEY_PATH" "data/controlplane/tls.key";
    ControlAPIUser := getEnv env "APP_CONTROL_API_USER" "admin";
    ControlAPIPassword := controlPassword;
    ControlAPICertHosts := getEnv env "APP_CONTROL_API_CERT_HOSTS" "localhost,127.0.0.1";
    MetricsAddr := getEnv env "METRICS_ADDR" ":9000";
    LogLevel := getEnv env "LOG_LEVEL" "info";
    Banner := getEnv env "APP_BANNER" "SentinelOps - Laboratorio Seguro de Acceso Remoto";
    ReadTimeout := getDuration env "READ_TIMEOUT" (30 * Second)%Z;
    IdleTimeout := getDuration env "IDLE_TIMEOUT" (5 * Minute)%Z;
    WriteTimeout := getDuration env "WRITE_TIMEOUT" (10 * Second)%Z;
    AuthEnabled := getBool env "APP_AUTH_ENABLED" true;
    AuthMaxAttempts := getInt env "APP_AUTH_MAX_ATTEMPTS" 3;
    AuthRateLimitEnabled := getBool env "APP_AUTH_RATE_LIMIT_ENABLED" true;
    AuthRateLimitMaxFailures := getInt env "APP_AUTH_RATE_LIMIT_MAX_FAILURES" 5;
    AuthRateLimitWindow := getDuration env "APP_AUTH_RATE_LIMIT_WINDOW" (1 * Minute)%Z;
    AuthRateLimitLockout := getDuration env "APP_AUTH_RATE_LIMIT_LOCKOUT" (1 * Minute)%Z;
    ProjectRoot := getEnv env "APP_PROJECT_ROOT" ".";
    StatePersistenceEnabled := getBool env "APP_STATE_PERSISTENCE_ENABLED" false;
    StatePersistenceDir := stateDir;
    StateSessionsPath := getEnv env "APP_STATE_SESSIONS_PATH" (PathGuard.Join stateDir "sessions.json");
    StateTunnelsPath := getEnv env "APP_STATE_TUNNELS_PATH" (PathGuard.Join stateDir "tunnels.json");
    ExternalAuditEnabled := getBool env "EXTERNAL_AUDIT_ENABLED" true;
    ExternalAuditCommand := getEnv env "EXTERNAL_AUDIT_COMMAND" "python3";
    ExternalAuditScript := getEnv env "EXTERNAL_AUDIT_SCRIPT" "tools/audit/audit.py";
    ExternalValidatorOn := getBool env "EXTERNAL_VALIDATOR_ENABLED" true;
    ExternalValidatorBin := getEnv env "EXTERNAL_VALIDATOR_BINARY" "rust/input-guard/target/release/input-guard";
    ExternalValidatorOpen := getBool env "EXTERNAL_VALIDATOR_FAIL_OPEN" false;
    ValidatorMode := getEnv env "VALIDATOR_MODE" "binary";
    ValidatorGRPCAddr := getEnv env "VALIDATOR_GRPC_ADDR" "localhost:50051";
    ValidatorGRPCTimeout := getDuration env "VALIDATOR_GRPC_TIMEOUT" (2 * Second)%Z;
    ValidatorGRPCFailOpen := getBool env "VALIDATOR_GRPC_FAIL_OPEN" false;
    PolicyEnabled := getBool env "OPA_POLICY_ENABLED" true;
    PolicyMode := getEnv env "OPA_POLICY_MODE" "exec";
    PolicyBinary := getEnv env "OPA_BINARY" "opa";
    PolicyDir := getEnv env "OPA_POLICY_DIR" "policies/kubernetes";
    PolicyURL := getEnv env "OPA_POLICY_URL" "http://localhost:8181";
    PolicyTimeout := getDuration env "OPA_POLICY_TIMEOUT" (2 * Second)%Z;
    PolicyCacheEnabled := getBool env "OPA_POLICY_CACHE_ENABLED" true;
    PolicyCacheTTL := getDuration env "OPA_POLICY_CACHE_TTL" (30 * Second)%Z;
    TelemetryEnabled := getBool env "OTEL_TRACES_ENABLED" false;
    TelemetryExporter := getEnv env "OTEL_EXPORTER_TYPE" "stdout";
    TelemetryEndpoint := getEnv env "OTEL_EXPORTER_ENDPOINT" "localhost:4317";
    TelemetryInsecure := getBool env "OTEL_EXPORTER_INSECURE" true;
    TelemetrySampleRate := getFloat env "OTEL_SAMPLE_RATE" (GoParse.float64 1);
    StoreType := getEnv env "STORE_TYPE" "memory";
    PostgresHost := getEnv env "POSTGRES_HOST" "localhost";
    PostgresPort := getInt env "POSTGRES_PORT" 5432;
    PostgresDB := getEnv env "POSTGRES_DB" "sentinelops";
    PostgresUser := getEnv env "POSTGRES_USER" "sentinelops";
    PostgresPassword := getEnv env "POSTGRES_PASSWORD" "";
    PostgresSSLMode := getEnv env "POSTGRES_SSLMODE" "disable";
    PostgresPoolSize := getInt env "POSTGRES_POOL_SIZE" 10;
    RedisAddr := getEnv env "REDIS_ADDR" "localhost:6379";
    RedisPassword := getEnv env "REDIS_PASSWORD" "";
    RedisDB := getInt env "REDIS_DB" 0;
    RedisPoolSize := getInt env "REDIS_POOL_SIZE" 10 |}, env, logged).

(** ** Where a value comes from *)

(** The assignments of the environment file, in order. *)
Definition file_assignments (path : string) : list (string * string) :=
  if bool_decide (TrimSpace path = "") then []
  else match PathGuard.ValidateFilesystemPath wd path "archivo de entorno" with
  | Err _ => []
  | Ok safePath => default [] ((omap assignment ∘ GoParse.Lines) <$> readFile safePath)
  end.

Lemma loadEnv_foldl path env :
  loadEnvFileIfExists path env = foldl assign env (file_assignments path).
Proof using Type.
  unfold loadEnvFileIfExists, file_assignments. case_bool_decide; [done|].
  destruct (PathGuard.ValidateFilesystemPath _ _ _) as [p|]; [|done].
  by destruct (readFile p).
Qed.

Lemma getEnv_given env key fallback :
  getEnv env key fallback = default fallback (head (given env [] key)).
Proof using Type.
  unfold getEnv, given. destruct (env !! key) as [v|]; [|done]. simpl.
  rewrite filter_cons. case_bool_decide; [subst; by rewrite decide_False by (intros []; done)|].
  by rewrite decide_True.
Qed.

(** The precedence of the environment over the file.  After the file is loaded, a
    variable has the first non-empty value among the one the process was started with
    and the ones the lines of the file assign to it, from the top; the fallback is used
    only when there is none.  Blank lines, comments and lines that are no assignment
    have no effect, nor has a file that cannot be opened. *)
Lemma environment_precedence (path : string) (env : GoParse.environ) (key fallback : string) :
  getEnv (loadEnvFileIfExists path env) key fallback
  = default fallback (head (given env (file_assignments path) key)).
Proof using Type.
  rewrite getEnv_given, loadEnv_foldl, given_foldl; [done|].
  unfold file_assignments. case_bool_decide; [by constructor|].
  destruct (PathGuard.ValidateFilesystemPath _ _ _) as [p|]; [|by constructor].
  destruct (readFile p) as [raw|]; [|by constructor]. simpl.
  apply Forall_forall. intros [k v] (text & _ & Ha)%list_elem_of_omap. simpl.
  by eapply assignment_name.
Qed.

(** ** What a configuration can contain *)

(** The environment says a boolean under a name. *)
Definition says (env : GoParse.environ) (key : string) (b : bool) : Prop :=
  ∃ v, env !! key = Some v ∧ GoParse.ParseBool v = Some b.

Lemma getBool_says env key fallback b :
  b ≠ fallback → getBool env key fallback = b ↔ says env key b.
Proof using Type.
  intros Hb. unfold getBool, getParsed, says. destruct (env !! key) as [v|].
  - case_bool_decide as Hv.
    + subst v. split; [congruence|]. intros (v & [= <-] & H). discriminate H.
    + split.
      * intros H. exists v. split; [done|]. destruct (GoParse.ParseBool v); simpl in H; congruence.
      * intros (v' & [= <-] & H). by rewrite H.
  - split; [congruence|]. by intros (v & ? & _).
Qed.

(** Protection is switched off only on purpose.  In every configuration that is
    loaded, the password of the control API is not empty; login and its rate limit are
    off, and remote forwarding or a validator that fails open are on, exactly when the
    environment says so with a boolean that parses; a misspelt value leaves the
    protection on. *)
Lemma protections_explicit (env0 : GoParse.environ) (c : t) (env : GoParse.environ)
    (logged : list string) :
  (∀ n bs, rand n = Ok bs → length bs = n) →
  Load env0 = Ok (c, env, logged) →
  ControlAPIPassword c ≠ ""
  ∧ (AuthEnabled c = false ↔ says env "APP_AUTH_ENABLED" false)
  ∧ (AuthRateLimitEnabled c = false ↔ says env "APP_AUTH_RATE_LIMIT_ENABLED" false)
  ∧ (ExternalValidatorOn c = false ↔ says env "EXTERNAL_VALIDATOR_ENABLED" false)
  ∧ (ExternalValidatorOpen c = true ↔ says env "EXTERNAL_VALIDATOR_FAIL_OPEN" true)
  ∧ (ValidatorGRPCFailOpen c = true ↔ says env "VALIDATOR_GRPC_FAIL_OPEN" true)
  ∧ (SSHRemoteForwardEnabled c = true ↔ says env "APP_SSH_REMOTE_FORWARD_ENABLED" true)
  ∧ (PolicyEnabled c = false ↔ says env "OPA_POLICY_ENABLED" false).
Proof using Type.
  intros Hr. unfold Load. set (e := loadEnvFileIfExists _ _).
  destruct (if bool_decide _ then _ else _) as [[pw lg]|] eqn:Ep; [|done].
  intros [= <- <- <-]. simpl. split; [|split_and!; by apply getBool_says].
  case_bool_decide as Hp; [|by simplify_eq].
  destruct (Secrets.GeneratePassword rand 24) as [g|] eqn:Eg; [|done]. simplify_eq.
  apply Secrets.GeneratePassword_length in Eg; [|by apply Hr]. by intros ->.
Qed.

End Load.

(** The configuration when nothing is set but the password of the control API. *)
Definition defaults (controlPassword : string) : t := {|
  AppName := "sentinelops";
  AppVersion := "dev";
  Environment := "dev";
  Profile := "hardened";
  Transport := "tcp";
  ListenAddr := ":2323";
  SSHListenAddr := ":2222";
  SSHHostKeyPath := "data/ssh/host_ed25519_key";
  SSHServerVersion := "SSH-2.0-SentinelOps";
  SSHAuthorizedKeysDir := "data/ssh/authorized_keys";
  SSHPasswordAuthEnabled := true;
  SSHPublicKeyAuthEnable := true;
  SSHLocalForwardEnabled := true;
  SSHForwardAllowlist := "127.0.0.1:9000,localhost:9000";
  SSHLocalAllowedRoles := "student,teacher,auditor,admin";
  SSHRemoteForwardEnabled := false;
  SSHRemoteBindAllowlist := "127.0.0.1:10080,127.0.0.1:10443";
  SSHRemoteAllowedRoles := "teacher,auditor,admin";
  ControlAPIEnabled := true;
  ControlAPIAddr := ":9443";
  ControlAPICertPath := "data/controlplane/tls.crt";
  ControlAPIKeyPath := "data/controlplane/tls.key";
  ControlAPIUser := "admin";
  ControlAPIPassword := controlPassword;
  ControlAPICertHosts := "localhost,127.0.0.1";
  MetricsAddr := ":9000";
  LogLevel := "info";
  Banner := "SentinelOps - Laboratorio Seguro de Acceso Remoto";
  ReadTimeout := (30 * Second)%Z;
  IdleTimeout := (5 * Minute)%Z;
  WriteTimeout := (10 * Second)%Z;
  AuthEnabled := true;
  AuthMaxAttempts := 3;
  AuthRateLimitEnabled := true;
  AuthRateLimitMaxFailures := 5;
  AuthRateLimitWindow := (1 * Minute)%Z;
  AuthRateLimitLockout := (1 * Minute)%Z;
  ProjectRoot := ".";
  StatePersistenceEnabled := false;
  StatePersistenceDir := "data/state";
  StateSessionsPath := "data/state/sessions.json";
  StateTunnelsPath := "data/state/tunnels.json";
  ExternalAuditEnabled := true;
  ExternalAuditCommand := "python3";
  ExternalAuditScript := "tools/audit/audit.py";
  ExternalValidatorOn := true;
  ExternalValidatorBin := "rust/input-guard/target/release/input-guard";
  ExternalValidatorOpen := false;
  ValidatorMode := "binary";
  ValidatorGRPCAddr := "localhost:50051";
  ValidatorGRPCTimeout := (2 * Second)%Z;
  ValidatorGRPCFailOpen := false;
  PolicyEnabled := true;
  PolicyMode := "exec";
  PolicyBinary := "opa";
  PolicyDir := "policies/kubernetes";
  PolicyURL := "http://localhost:8181";
  PolicyTimeout := (2 * Second)%Z;
  PolicyCacheEnabled := true;
  PolicyCacheTTL := (30 * Second)%Z;
  TelemetryEnabled := false;
  TelemetryExporter := "stdout";
  TelemetryEndpoint := "localhost:4317";
  TelemetryInsecure := true;
  TelemetrySampleRate := GoParse.float64 1;
  StoreType := "memory";
  PostgresHost := "localhost";
  PostgresPort := 5432;
  PostgresDB := "sentinelops";
  PostgresUser := "sentinelops";
  PostgresPassword := "";
  PostgresSSLMode := "disable";
  PostgresPoolSize := 10;
  RedisAddr := "localhost:6379";
  RedisPassword := "";
  RedisDB := 0;
  RedisPoolSize := 10 |}.

(** With an empty environment but for that password, and no file, these are the values. *)
Lemma Load_defaults wd rand pw :
  pw ≠ "" →
  Load (λ _, None) wd rand {["APP_CONTROL_API_PASSWORD" := pw]}
  = Ok (defaults pw, {["APP_CONTROL_API_PASSWORD" := pw]}, []).
Proof.
  intros Hpw. unfold Load.
  assert (He : ∀ p, loadEnvFileIfExists (λ _, None) wd p {["APP_CONTROL_API_PASSWORD" := pw]}
                    = {["APP_CONTROL_API_PASSWORD" := pw]}).
  { intros p. unfold loadEnvFileIfExists. case_bool_decide; [done|].
    by destruct (PathGuard.ValidateFilesystemPath _ _ _). }
  rewrite He.
  assert (Hg : getEnv {["APP_CONTROL_API_PASSWORD" := pw]} "APP_CONTROL_API_PASSWORD" "" = pw).
  { unfold getEnv. rewrite lookup_singleton_eq. by rewrite bool_decide_eq_false_2. }
  rewrite Hg, bool_decide_eq_false_2 by done. reflexivity.
Qed.

(** A random source of zero bytes. *)
Definition zero_rand : Secrets.rand_read := λ n, Ok (replicate n (byte_of 0)).

Definition demo_env : GoParse.environ :=
  {["APP_AUTH_ENABLED" := "nope"; "APP_SSH_REMOTE_FORWARD_ENABLED" := "T"]}.

Definition demo_load : result string (t * GoParse.environ * list string) :=
  Load (λ _, None) (Ok "/srv") zero_rand demo_env.

Lemma protections_explicit_witness :
  match demo_load with
  | Ok (c, env, _) =>
     AuthEnabled c && SSHRemoteForwardEnabled c = true
     ∧ (AuthEnabled c = false ↔ says env "APP_AUTH_ENABLED" false)
  | Err _ => False
  end.
Proof.
  assert (Hb : match demo_load with
               | Ok (c, _, _) => AuthEnabled c && SSHRemoteForwardEnabled c
               | Err _ => false
               end = true) by by vm_compute.
  destruct demo_load as [[[c env] logged]|e] eqn:E; [|discriminate Hb].
  split; [exact Hb|].
  apply (protections_explicit (λ _, None) (Ok "/srv") zero_rand demo_env c env logged); [|exact E].
  intros n bs [= <-]. by rewrite length_replicate.
Defined.

End Config.
