(* ===== verification/PolicyService.v ===== *)
(** * Policy evaluation ([internal/policy/checker.go], [input.go], [opa.go])

    Open Policy Agent is outside the program: the temporary file, the process, the
    HTTP exchange, the digest and the decoding of the replies are inputs of each
    evaluation.  The state is the cache of decisions of the HTTP runner. *)

From S2P Require Import Prelude GoStrings GoTime JSON PathGuard Config.

Module PolicyService.

(** ** Data *)

Record Result := mkResult {
  Status : string;
  RProfile : string;
  EvaluatedRules : Z;
  Denies : list string;
  Warnings : list string;
  Timestamp : Time;
}.

Record OPARunner := mkOPARunner { Binary : string; PolicyDir : string }.

Record cachedDecision := mkDecision {
  CDenies : list string;
  CWarnings : list string;
  ExpiresAt : Time;
}.

#[export] Instance cachedDecision_eq_dec : EqDecision cachedDecision.
Proof. solve_decision. Defined.

Record HTTPRunner := mkHTTPRunner {
  BaseURL : string;
  HTTPTimeout : Duration;
  CacheEnabled : bool;
  CacheTTL : Duration;
  cache : gmap string cachedDecision;
}.

(** The implementations of [ExternalRunner]. *)
Inductive ExternalRunner :=
| ROPA (r : OPARunner)
| RHTTP (r : HTTPRunner).

(** [Service]; a nil runner is [None]. *)
Record Service := mkService { externalRunner : option ExternalRunner }.

(** ** The outside world *)

(** What a process leaves: its standard output, or standard error and the text of
    the error. *)
Inductive exec_result := ExecOk (stdout : string) | ExecError (stderr err : string).

Inductive http_result :=
| HTTPError (err : string)
| HTTPReadError (err : string)
| HTTPReply (status : Z) (body : string).

Record world := mkWorld {
  wd : result string string;
  lookPath : string → result string string;
  (** The name of the temporary file with the encoded input, or the error of the
      step that fails. *)
  tempInput : json → result string string;
  opaExec : string → list string → exec_result;
  (** [json.Unmarshal] into the anonymous structs of [extractOPAStrings] (the
      values of the expressions of each result) and [extractOPAHTTPStrings]. *)
  decodeExec : string → result string (list (list json));
  decodeHTTP : string → result string json;
  post : string → json → http_result;
  sha256hex : string → string;
}.

(** ** Helpers *)

(** [fmt.Sprint] of a decoded number or boolean. *)
Definition Sprint (v : json) : string := render false 0 v.

Definition sort_strings (l : list string) : list string := merge_sort String.le l.

(** [normalizeOPAValue] *)
Definition normalizeOPAValue (value : json) : list string :=
  match value with
  | JNull => []
  | JString v => [v]
  | JArr l => sort_strings (omap (λ item, match item with JString s => Some s | _ => None end) l)
  | JObj l => sort_strings l.*1
  | v => [Sprint v]
  end.

(** [cloneStrings] *)
Definition cloneStrings (items : list string) : list string := items.

(** [extractOPAStrings] and [extractOPAHTTPStrings] *)
Definition extractOPAStrings (w : world) (raw : string) : result string (list string) :=
  let* res := decodeExec w raw in
  match res with
  | [] | [] :: _ => Ok []
  | (value :: _) :: _ => Ok (normalizeOPAValue value)
  end.
Definition extractOPAHTTPStrings (w : world) (raw : string) : result string (list string) :=
  let* res := decodeHTTP w raw in Ok (normalizeOPAValue res).

(** [BuildDeploymentInput] *)
Definition BuildDeploymentInput (profile : string) : json :=
  let insecure := bool_decide (profile = "insecure") in
  let image := if insecure then "sentinelops:latest" else "sentinelops:1.0.0" in
  let privileged := insecure in
  let runAsNonRoot := negb insecure in
  let allowPrivilegeEscalation := insecure in
  let readOnlyRootFilesystem := negb insecure in
  JMap [("apiVersion", JString "apps/v1");
        ("kind", JString "Deployment");
        ("metadata", JMap [("name", JString "sentinelops");
                           ("labels", JMap [("app", JString "sentinelops");
                                            ("profile", JString profile)])]);
        ("spec", JMap [("template", JMap [("spec", JMap [("containers",
           JArr [JMap [("name", JString "server");
                       ("image", JString image);
                       ("securityContext",
                        JMap [("privileged", JBool privileged);
                              ("runAsNonRoot", JBool runAsNonRoot);
                              ("allowPrivilegeEscalation", JBool allowPrivilegeEscalation);
                              ("readOnlyRootFilesystem", JBool readOnlyRootFilesystem)])]])])])])].

(** ** The runner that executes the binary *)

(** [(r *OPARunner) eval] *)
Definition eval (w : world) (r : OPARunner) (inputFile query : string)
    : result string (list string) :=
  let* binary := PathGuard.ValidateExecutable (wd w) (lookPath w) (Binary r) in
  let* policyDir := PathGuard.ValidateFilesystemPath (wd w) (PolicyDir r)
                      "directorio de políticas OPA" in
  let* safeInput := PathGuard.ValidateFilesystemPath (wd w) inputFile "entrada temporal OPA" in
  match opaExec w binary ["eval"; "--format=json"; "--data"; policyDir; "--input"; safeInput;
                          query] with
  | ExecError stderr err =>
     let msg := TrimSpace stderr in
     let msg := if bool_decide (msg = "") then err else msg in
     Err ("opa eval falló para " +:+ query +:+ ": " +:+ msg)
  | ExecOk stdout =>
     match extractOPAStrings w stdout with
     | Err e => Err ("parsear salida de OPA para " +:+ query +:+ ": " +:+ e)
     | Ok items => Ok items
     end
  end.

(** [(r *OPARunner) Check] *)
Definition CheckOPA (w : world) (r : OPARunner) (input : json)
    : result string (list string * list string) :=
  let* inputFile := tempInput w input in
  let* denies := eval w r inputFile "data.kubernetes.security.deny" in
  let* warnings := eval w r inputFile "data.kubernetes.security.warn" in
  Ok (denies, warnings).

(** ** The runner that asks a sidecar *)

Record HTTPRunnerOptions := mkHTTPOptions {
  OBaseURL : string;
  OTimeout : Duration;
  OCacheEnabled : bool;
  OCacheTTL : Duration;
}.

(** [NewHTTPRunner] *)
Definition NewHTTPRunner (options : HTTPRunnerOptions) : HTTPRunner :=
  mkHTTPRunner (TrimRightByte (TrimSpace (OBaseURL options)) "/"%char)
    (if (OTimeout options <=? 0)%Z then 2 * Second else OTimeout options)%Z
    (OCacheEnabled options)
    (if (OCacheTTL options <=? 0)%Z then 30 * Second else OCacheTTL options)%Z ∅.

(** [buildCacheKey] *)
Definition buildCacheKey (w : world) (input : json) : result string string :=
  match Marshal input with
  | Err e => Err ("serializar cache key de política: " +:+ e)
  | Ok body => Ok (sha256hex w body)
  end.

Definition with_cache (r : HTTPRunner) (c : gmap string cachedDecision) : HTTPRunner :=
  mkHTTPRunner (BaseURL r) (HTTPTimeout r) (CacheEnabled r) (CacheTTL r) c.

(** [getCached]: an expired decision is removed. *)
Definition getCached (r : HTTPRunner) (now : Time) (key : string)
    : option cachedDecision * HTTPRunner :=
  match cache r !! key with
  | None => (None, r)
  | Some d =>
     if After now (ExpiresAt d) then (None, with_cache r (delete key (cache r)))
     else (Some (mkDecision (cloneStrings (CDenies d)) (cloneStrings (CWarnings d))
                   (ExpiresAt d)), r)
  end.

(** [setCached] *)
Definition setCached (r : HTTPRunner) (key : string) (d : cachedDecision) : HTTPRunner :=
  with_cache r (<[key := mkDecision (cloneStrings (CDenies d)) (cloneStrings (CWarnings d))
                           (ExpiresAt d)]> (cache r)).

(** [querySet] *)
Definition querySet (w : world) (r : HTTPRunner) (path : string) (input : json)
    : result string (list string) :=
  let payload := JMap [("input", input)] in
  match Marshal payload with
  | Err e => Err ("serializar entrada OPA: " +:+ e)
  | Ok _ =>
     match post w (BaseURL r +:+ "/v1/data/" +:+ path) payload with
     | HTTPError e => Err ("consultar OPA sidecar: " +:+ e)
     | HTTPReadError e => Err ("leer respuesta OPA: " +:+ e)
     | HTTPReply status body =>
        if negb (status =? 200)%Z
        then Err ("OPA sidecar respondió " +:+ Itoa status +:+ ": " +:+ TrimSpace body)
        else match extractOPAHTTPStrings w body with
             | Err e => Err ("parsear respuesta OPA sidecar para " +:+ path +:+ ": " +:+ e)
             | Ok items => Ok items
             end
     end
  end.

(** The two queries of one evaluation. *)
Definition queryBoth (w : world) (r : HTTPRunner) (input : json)
    : result string (list string * list string) :=
  let* denies := querySet w r "kubernetes/security/deny" input in
  let* warnings := querySet w r "kubernetes/security/warn" input in
  Ok (denies, warnings).

(** [(r *HTTPRunner) Check]; [now] and [now'] are the clock when the cache is read
    and when the decision is stored. *)
Definition CheckHTTP (w : world) (r : HTTPRunner) (now now' : Time) (input : json)
    : result string (list string * list string) * HTTPRunner :=
  if bool_decide (BaseURL r = "") then (Ok ([], []), r)
  else match buildCacheKey w input with
  | Err e => (Err e, r)
  | Ok key =>
     let '(hit, r) := if CacheEnabled r then getCached r now key else (None, r) in
     match hit with
     | Some d => (Ok (cloneStrings (CDenies d), cloneStrings (CWarnings d)), r)
     | None =>
        match queryBoth w r input with
        | Err e => (Err e, r)
        | Ok (denies, warnings) =>
           (Ok (denies, warnings),
            if CacheEnabled r
            then setCached r key (mkDecision denies warnings (Add now' (CacheTTL r))) else r)
        end
     end
  end.

(** ** The service *)

(** [NewExternalRunner] *)
Definition NewExternalRunner (cfg : Config.t) : option ExternalRunner :=
  if negb (Config.PolicyEnabled cfg) then None
  else
    let mode := ToLower (TrimSpace (Config.PolicyMode cfg)) in
    if bool_decide (mode = "http") || bool_decide (mode = "sidecar") then
      if bool_decide (TrimSpace (Config.PolicyURL cfg) = "") then None
      else Some (RHTTP (NewHTTPRunner
              (mkHTTPOptions (Config.PolicyURL cfg) (Config.PolicyTimeout cfg)
                 (Config.PolicyCacheEnabled cfg) (Config.PolicyCacheTTL cfg))))
    else if bool_decide (mode = "exec") || bool_decide (mode = "binary")
            || bool_decide (mode = "") then
      if bool_decide (TrimSpace (Config.PolicyBinary cfg) = "")
         || bool_decide (TrimSpace (Config.PolicyDir cfg) = "") then None
      else Some (ROPA (mkOPARunner (TrimSpace (Config.PolicyBinary cfg))
                         (TrimSpace (Config.PolicyDir cfg))))
    else None.

(** [NewService] *)
Definition NewService (r : option ExternalRunner) : Service := mkService r.

(** [Check] of the runner behind the interface *)
Definition CheckRunner (w : world) (x : ExternalRunner) (now now' : Time) (input : json)
    : result string (list string * list string) * ExternalRunner :=
  match x with
  | ROPA r => (CheckOPA w r input, x)
  | RHTTP r => let '(res, r') := CheckHTTP w r now now' input in (res, RHTTP r')
  end.

(** [(s *Service) Check]; [now0] is the time stamp. *)
Definition Check (w : world) (s : Service) (now0 now now' : Time) (profile : string)
    : Result * Service :=
  match externalRunner s with
  | None =>
     (mkResult "warn" profile 4 []
        ["OPA runner no configurado; no se evaluaron políticas externas"] now0, s)
  | Some x =>
     let '(res, x') := CheckRunner w x now now' (BuildDeploymentInput profile) in
     let s' := mkService (Some x') in
     match res with
     | Err e =>
        (mkResult "warn" profile 4 [] ["No se pudo evaluar Rego/OPA: " +:+ e] now0, s')
     | Ok (denies, warnings) =>
        let status := if (0 <? length denies)%nat then "fail"
                      else if (0 <? length warnings)%nat then "warn" else "pass" in
        (mkResult status profile 4 denies warnings now0, s')
     end
  end.

(** ** Properties *)

(** The status of an evaluation.  [Check] reports a failure exactly when a deny
    rule fired, and a pass exactly when a runner is configured and evaluated the
    deployment of the profile without a deny and without a warning: an evaluation
    that could not be made is never reported as a pass. *)
Lemma policy_status_exact (w : world) (s : Service) (now0 now now' : Time)
    (profile : string) :
  let r := (Check w s now0 now now' profile).1 in
  (Status r = "fail" ↔ Denies r ≠ [])
  ∧ (Status r = "pass" ↔
       ∃ x, externalRunner s = Some x
          ∧ (CheckRunner w x now now' (BuildDeploymentInput profile)).1 = Ok ([], []))
  ∧ (Status r = "warn" ↔ Denies r = [] ∧ Warnings r ≠ [])
  ∧ RProfile r = profile.
Proof.
  unfold Check. destruct (externalRunner s) as [x|].
  2: { simpl. split_and!; [done| |done..]. split; [done|]. by intros (x & ? & _). }
  destruct (CheckRunner w x now now' _) as [res x'] eqn:E.
  assert (Hpass : (∃ y, Some x = Some y
      ∧ (CheckRunner w y now now' (BuildDeploymentInput profile)).1 = Ok ([], []))
    ↔ res = Ok ([], [])).
  { split; [|intros ->; exists x; split; [done|by rewrite E]].
    intros (y & [= <-] & Hy). by rewrite E in Hy. }
  rewrite Hpass. destruct res as [[denies warnings]|e]; simpl; [|split_and!; intuition discriminate].
  destruct denies as [|d ds]; [destruct warnings as [|v vs]|]; simpl; split_and!;
    intuition discriminate.
Qed.

(** One call of the HTTP runner: what the world answers and the clock. *)
Record call := mkCall { cw : world; cnow : Time; cnow' : Time; cinput : json }.

Definition do_call (r : HTTPRunner) (c : call)
    : result string (list string * list string) * HTTPRunner :=
  CheckHTTP (cw c) r (cnow c) (cnow' c) (cinput c).

Definition after (r : HTTPRunner) (cs : list call) : HTTPRunner :=
  foldl (λ r c, (do_call r c).2) r cs.

(** Every cached decision was given by the sidecar for a past input with that key. *)
Definition cache_ok (H : string → string) (r0 : HTTPRunner) (past : list call)
    (r : HTTPRunner) : Prop :=
  BaseURL r = BaseURL r0 ∧ CacheTTL r = CacheTTL r0 ∧
  ∀ key d, cache r !! key = Some d →
    ∃ c body, c ∈ past ∧ Marshal (cinput c) = Ok body ∧ key = H body
      ∧ queryBoth (cw c) r0 (cinput c) = Ok (CDenies d, CWarnings d)
      ∧ ExpiresAt d = Add (cnow' c) (CacheTTL r0).

Lemma queryBoth_base w r r' input : BaseURL r = BaseURL r' → queryBoth w r input = queryBoth w r' input.
Proof. unfold queryBoth, querySet. by intros ->. Qed.

Lemma cache_ok_mono H r0 past past' r r' :
  cache_ok H r0 past r → (∀ c, c ∈ past → c ∈ past') → BaseURL r' = BaseURL r →
  CacheTTL r' = CacheTTL r → cache r' ⊆ cache r → cache_ok H r0 past' r'.
Proof.
  intros (H1 & H2 & H3) Hp Hb Ht Hc. split_and!; [congruence..|]. intros key d Hk.
  destruct (H3 key d) as (c & body & ? & ?); [by eapply lookup_weaken|].
  exists c, body. split; [by apply Hp|done].
Qed.

(** What a call answers, and that the invariant holds after it. *)
Lemma do_call_ok H r0 past r c res r' :
  cache_ok H r0 past r → sha256hex (cw c) = H → do_call r c = (res, r') →
  cache_ok H r0 (past ++ [c]) r'
  ∧ ∀ answer, res = Ok answer → BaseURL r0 ≠ "" →
      queryBoth (cw c) r0 (cinput c) = Ok answer
      ∨ ∃ c' body body', c' ∈ past ∧ Marshal (cinput c) = Ok body
          ∧ Marshal (cinput c') = Ok body' ∧ H body = H body'
          ∧ queryBoth (cw c') r0 (cinput c') = Ok answer
          ∧ (cnow c <= Add (cnow' c') (CacheTTL r0))%Z.
Proof.
  intros Hok HH Hc. pose proof Hok as (Hb & Ht & Hk).
  assert (Hsub : ∀ r1, cache_ok H r0 past r1 → cache_ok H r0 (past ++ [c]) r1).
  { intros r1 H1. eapply cache_ok_mono; [exact H1| |done..]. intros c' ?. apply elem_of_app. by left. }
  unfold do_call, CheckHTTP, buildCacheKey in Hc. rewrite HH, Hb in Hc.
  case_bool_decide; [simplify_eq; split; [by apply Hsub|done]|].
  destruct (Marshal (cinput c)) as [body|e] eqn:Em; [|simplify_eq; split; [by apply Hsub|done]].
  destruct (if CacheEnabled r then getCached r (cnow c) (H body) else (None, r))
    as [hit r1] eqn:Eg.
  assert (Hr1 : cache_ok H r0 past r1
    ∧ ∀ d, hit = Some d → cache r !! H body = Some d ∧ (cnow c <= ExpiresAt d)%Z).
  { destruct (CacheEnabled r); [|by simplify_eq]. unfold getCached in Eg.
    destruct (cache r !! H body) as [d|] eqn:Ek; [|by simplify_eq].
    destruct (After (cnow c) (ExpiresAt d)) eqn:Ea; simplify_eq.
    - split; [|done]. eapply cache_ok_mono; [exact Hok|done..|]. apply delete_subseteq.
    - split; [done|]. intros d' [= <-]. unfold After in Ea. bool_to_prop. by destruct d. }
  destruct Hr1 as [Hr1 Hhit]. destruct hit as [d|].
  - simplify_eq. split; [by apply Hsub|]. intros answer [= <-] _. right.
    destruct (Hhit d eq_refl) as [Hd Ha]. destruct (Hk _ _ Hd) as (c' & b' & ? & ? & ? & ? & He).
    exists c', body, b'. rewrite <-He. split_and!; try done.
  - rewrite (queryBoth_base _ r1 r0) in Hc by apply Hr1.
    destruct (queryBoth (cw c) r0 (cinput c)) as [[ds ws]|e] eqn:Eq;
      [|simplify_eq; split; [by apply Hsub|done]].
    simplify_eq. split; [|by intros answer [= <-] _; left].
    destruct (CacheEnabled r1); [|by apply Hsub]. destruct Hr1 as (Hb1 & Ht1 & Hk1).
    split_and!; [done..|]. intros key d. simpl. rewrite lookup_insert. case_decide.
    + intros [= <-]. exists c, body. rewrite <-Ht1. split_and!; try done.
      apply elem_of_app. right. by left.
    + intros (c' & b' & ? & ?)%Hk1. exists c', b'. split; [|done]. apply elem_of_app. by left.
Qed.

Lemma cache_ok_after H r0 past r cs :
  cache_ok H r0 past r → Forall (λ c, sha256hex (cw c) = H) cs →
  cache_ok H r0 (past ++ cs) (after r cs).
Proof.
  revert past r. induction cs as [|c cs IH]; intros past r Hok Hf; [by rewrite app_nil_r|].
  apply Forall_cons in Hf as [Hc Hf]. simpl.
  destruct (do_call r c) as [res r'] eqn:E.
  destruct (do_call_ok H r0 past r c res r' Hok Hc E) as [Hok' _].
  change (c :: cs) with ([c] ++ cs). rewrite app_assoc. by apply IH.
Qed.

(** C34: the cache never invents a decision.  Take a new HTTP runner and any
    sequence of evaluations, whose serialized inputs the digest does not confuse.
    Every answer is what the sidecar answers now, or what it answered to an earlier
    evaluation with the same serialized input whose time to live has not elapsed. *)
Theorem policy_cache_fresh (H : string → string) (url : string) (timeout ttl : Duration)
    (enabled : bool) (cs : list call) (c : call) (answer : list string * list string) :
  let r0 := NewHTTPRunner (mkHTTPOptions url timeout enabled ttl) in
  Forall (λ c, sha256hex (cw c) = H) (cs ++ [c]) →
  (∀ c1 c2 b1 b2, c1 ∈ cs ++ [c] → c2 ∈ cs ++ [c] →
     Marshal (cinput c1) = Ok b1 → Marshal (cinput c2) = Ok b2 → H b1 = H b2 → b1 = b2) →
  BaseURL r0 ≠ "" →
  (do_call (after r0 cs) c).1 = Ok answer →
  queryBoth (cw c) r0 (cinput c) = Ok answer
  ∨ ∃ c', c' ∈ cs ∧ Marshal (cinput c') = Marshal (cinput c)
      ∧ queryBoth (cw c') r0 (cinput c') = Ok answer
      ∧ (cnow c <= Add (cnow' c') (CacheTTL r0))%Z.
Proof.
  intros r0 Hf Hinj Hb Ha. apply Forall_app in Hf as [Hf1 Hf2].
  assert (H0 : cache_ok H r0 [] r0) by (by split_and!).
  pose proof (cache_ok_after H r0 [] r0 cs H0 Hf1) as Hok. rewrite app_nil_l in Hok.
  destruct (do_call (after r0 cs) c) as [res r'] eqn:E.
  rewrite Forall_singleton in Hf2.
  destruct (do_call_ok H r0 cs _ c res r' Hok Hf2 E) as [_ Hans].
  destruct (Hans answer Ha Hb) as [?|(c' & b & b' & Hin & Hm & Hm' & HH & Hq & Ht)]; [by left|].
  right. exists c'. split_and!; try done. rewrite Hm, Hm'. f_equal.
  apply (Hinj c' c); [apply elem_of_app; by left|apply elem_of_app; right; by left|done..].
Qed.

Definition demo_world (deny : list string) : world :=
  mkWorld (Ok "/srv") (λ b, Ok b) (λ _, Ok "/tmp/in.json") (λ _ _, ExecOk "") (λ _, Ok [])
    (λ raw, Ok (JArr (JString <$> deny))) (λ _ _, HTTPReply 200 "{}") (λ s, s).
Definition demo_cached_call : call :=
  mkCall (demo_world ["second"]) (12 * Second) (12 * Second) (BuildDeploymentInput "hardened").
Definition demo_first_call : call :=
  mkCall (demo_world ["first"]) (10 * Second) (11 * Second) (BuildDeploymentInput "hardened").

Lemma policy_cache_fresh_witness :
  (do_call (after (NewHTTPRunner (mkHTTPOptions "http://opa" 0 true 0)) [demo_first_call]) demo_cached_call).1
    = Ok (["first"], ["first"])
  ∧ (queryBoth (demo_world ["second"]) (NewHTTPRunner (mkHTTPOptions "http://opa" 0 true 0))
       (BuildDeploymentInput "hardened") = Ok (["first"], ["first"])
     ∨ ∃ c', c' ∈ [demo_first_call] ∧ Marshal (cinput c') = Marshal (cinput demo_cached_call)
       ∧ queryBoth (cw c') (NewHTTPRunner (mkHTTPOptions "http://opa" 0 true 0)) (cinput c')
         = Ok (["first"], ["first"])
       ∧ (cnow demo_cached_call <= Add (cnow' c') (CacheTTL (NewHTTPRunner (mkHTTPOptions "http://opa" 0 true 0))))%Z).
Proof.
  assert (E : (do_call (after (NewHTTPRunner (mkHTTPOptions "http://opa" 0 true 0)) [demo_first_call])
    demo_cached_call).1 = Ok (["first"], ["first"])) by by vm_compute.
  split; [exact E|].
  apply (policy_cache_fresh (λ s, s) "http://opa" 0 0 true [demo_first_call] demo_cached_call).
  - by repeat constructor.
  - by intros.
  - by vm_compute.
  - exact E.
Defined.

End PolicyService.
