(* ===== verification/AuditService.v ===== *)
(** * Audit reports ([internal/audit/report.go], [internal/audit/external.go])

    The external audit script is outside the program: running it and decoding
    what it prints are inputs of each report. *)

From S2P Require Import Prelude GoStrings PathGuard Config Session.

Module AuditService.

(** ** Data *)

Record Finding := mkFinding {
  ID : string;
  Severity : string;
  Category : string;
  Source : string;
  Message : string;
  Recommendation : string;
}.

#[export] Instance Finding_eq_dec : EqDecision Finding.
Proof. solve_decision. Defined.

Record Report := mkReport {
  Status : string;
  Profile : string;
  SessionID : string;
  Username : string;
  Timestamp : Time;
  TotalFindings : Z;
  Findings : list Finding;
}.

Record CommandRunner := mkRunner { Command : string; Script : string; RunnerRoot : string }.

(** [Service]; a nil runner is [None]. *)
Record Service := mkService { externalRunner : option CommandRunner }.

(** What the process leaves. *)
Inductive exec_result := ExecOk (stdout : string) | ExecError (stdout stderr err : string).

Record world := mkWorld {
  wd : result string string;
  lookPath : string → result string string;
  auditExec : string → list string → exec_result;
  decodeFindings : string → result string (list Finding);
}.

(** ** Operations *)

(** [NewExternalRunner] *)
Definition NewExternalRunner (cfg : Config.t) : option CommandRunner :=
  if negb (Config.ExternalAuditEnabled cfg)
     || bool_decide (TrimSpace (Config.ExternalAuditCommand cfg) = "")
     || bool_decide (TrimSpace (Config.ExternalAuditScript cfg) = "")
  then None
  else Some (mkRunner (TrimSpace (Config.ExternalAuditCommand cfg))
               (TrimSpace (Config.ExternalAuditScript cfg))
               (TrimSpace (Config.ProjectRoot cfg))).

(** [NewService] *)
Definition NewService (r : option CommandRunner) : Service := mkService r.

(** [(r *CommandRunner) Run] *)
Definition RunExternal (w : world) (r : CommandRunner) (profile : string)
    : result string (list Finding) :=
  let projectRoot := if bool_decide (RunnerRoot r = "") then "." else RunnerRoot r in
  let* command := PathGuard.ValidateExecutable (wd w) (lookPath w) (Command r) in
  let* script := PathGuard.ValidateFilesystemPath (wd w) (Script r)
                   "script de auditoría externa" in
  match auditExec w command [script; "--profile"; profile; "--project-root"; projectRoot] with
  | ExecError stdout stderr err =>
     let msg := TrimSpace stderr in
     let msg := if bool_decide (msg = "") then TrimSpace stdout else msg in
     let msg := if bool_decide (msg = "") then err else msg in
     Err ("external audit failed: " +:+ msg)
  | ExecOk stdout =>
     match decodeFindings w stdout with
     | Err e => Err ("parse external audit output: " +:+ e)
     | Ok findings => Ok findings
     end
  end.

(** [baseFindings] *)
Definition baseFindings (cfg : Config.t) : list Finding :=
  (if bool_decide (Config.Profile cfg = "insecure") then
     [mkFinding "APP-001" "high" "container" "internal-go"
        "El perfil insecure permite configuraciones débiles de contenedor."
        "Usar el perfil hardened y aplicar securityContext restrictivo.";
      mkFinding "APP-002" "critical" "runtime" "internal-go"
        "Se detecta posibilidad de escalamiento por configuración permisiva."
        "Deshabilitar privilegios innecesarios y forzar allowPrivilegeEscalation=false.";
      mkFinding "APP-003" "medium" "supply-chain" "internal-go"
        "El perfil inseguro está pensado para demostración y no para operación real."
        "Versionar imágenes y evitar tags mutables."]
   else [])
  ++ (if negb (Config.AuthEnabled cfg) then
        [mkFinding "APP-004" "medium" "identity" "internal-go"
           "La autenticación interactiva está deshabilitada."
           "Habilitar APP_AUTH_ENABLED=true en entornos de laboratorio controlado."]
      else []).

Definition external_failure (e : string) : Finding :=
  mkFinding "AUD-EXT-001" "low" "tooling" "internal-go"
    ("No se pudo ejecutar la auditoría externa: " +:+ e)
    "Verificar Python 3 y la ruta configurada en EXTERNAL_AUDIT_SCRIPT.".

(** [(s *Service) Run] *)
Definition Run (w : world) (s : Service) (now : Time) (cfg : Config.t) (sess : Session.t)
    : Report :=
  let findings := baseFindings cfg in
  let findings :=
    match externalRunner s with
    | Some r =>
       if Config.ExternalAuditEnabled cfg then
         match RunExternal w r (Config.Profile cfg) with
         | Err e => findings ++ [external_failure e]
         | Ok ext => findings ++ ext
         end
       else findings
    | None => findings
    end in
  mkReport (if (0 <? length findings)%nat then "fail" else "pass") (Config.Profile cfg)
    (Session.ID sess) (Session.Username sess) now (Z.of_nat (length findings)) findings.

(** ** Properties *)

(** What a passing audit means.  [Run] reports a pass exactly when the profile is
    not the insecure one, authentication is enabled, and the external audit, if one
    is configured and enabled, ran and found nothing: a failing audit tool is a
    finding, never a pass.  The count is the number of findings, and the findings of
    the program come before the external ones. *)
Lemma audit_pass_iff (w : world) (s : Service) (now : Time) (cfg : Config.t)
    (sess : Session.t) :
  let r := Run w s now cfg sess in
  (Status r = "pass" ↔
     Config.Profile cfg ≠ "insecure" ∧ Config.AuthEnabled cfg = true
     ∧ (Config.ExternalAuditEnabled cfg = true →
        ∀ x, externalRunner s = Some x → RunExternal w x (Config.Profile cfg) = Ok []))
  ∧ (Status r = "pass" ↔ Findings r = []) ∧ (Status r = "pass" ∨ Status r = "fail")
  ∧ TotalFindings r = Z.of_nat (length (Findings r))
  ∧ ∃ ext, Findings r = baseFindings cfg ++ ext.
Proof.
  assert (Hbase : baseFindings cfg = [] ↔
    Config.Profile cfg ≠ "insecure" ∧ Config.AuthEnabled cfg = true).
  { unfold baseFindings. case_bool_decide; destruct (Config.AuthEnabled cfg); simpl; naive_solver. }
  set (ext := match externalRunner s with
    | Some x => if Config.ExternalAuditEnabled cfg then
                  match RunExternal w x (Config.Profile cfg) with
                  | Err e => [external_failure e] | Ok ext => ext end
                else []
    | None => [] end).
  assert (Hext : ext = [] ↔ (Config.ExternalAuditEnabled cfg = true →
    ∀ x, externalRunner s = Some x → RunExternal w x (Config.Profile cfg) = Ok [])).
  { unfold ext. destruct (externalRunner s) as [x|]; [|naive_solver].
    destruct (Config.ExternalAuditEnabled cfg); [|naive_solver].
    destruct (RunExternal w x (Config.Profile cfg)) eqn:E; split; intros H.
    - intros _ y [= <-]. by rewrite E, H.
    - specialize (H eq_refl x eq_refl). congruence.
    - done.
    - specialize (H eq_refl x eq_refl). congruence. }
  assert (Hf : Findings (Run w s now cfg sess) = baseFindings cfg ++ ext).
  { unfold Run, ext. simpl. repeat case_match; by rewrite ?app_nil_r. }
  assert (Hs : Status (Run w s now cfg sess)
    = if (0 <? length (baseFindings cfg ++ ext))%nat then "fail" else "pass").
  { by rewrite <-Hf. }
  cbv zeta. rewrite Hs. split_and!; [| | |done|by exists ext].
  - rewrite <-Hext, (assoc (∧)), <-Hbase.
    destruct (baseFindings cfg), ext; simpl; intuition discriminate.
  - rewrite Hf. by destruct (baseFindings cfg ++ ext).
  - destruct (baseFindings cfg ++ ext); simpl; auto.
Qed.

End AuditService.
