(* ===== verification/Commands.v ===== *)
(** * The commands of a session ([internal/commands])

    The commands are the implementations of the [Command] interface; their methods
    dispatch on the implementation.  A command may change the tunnels (through the
    [Controller] interface of the manager) and the decision cache of the policy
    service: this is the state it receives and returns. *)

From S2P Require Import Prelude GoStrings GoTime JSON Access Session Tunnels Config.
From S2P Require Import PolicyService AuditService.

Module Commands.

(** ** Data *)

Inductive Command :=
| HelpCommand
| StatusCommand
| WhoAmICommand
| DateCommand
| ProfileCommand
| AuditCommand
| PolicyCommand
| TunnelsCommand.

#[export] Instance Command_eq_dec : EqDecision Command.
Proof. solve_decision. Defined.

Record Registry := mkRegistry { lookup_ : gmap string Command; ordered : list Command }.

(** [Runtime]; its forwarding controller is part of the state. *)
Record Runtime := mkRuntime {
  RSession : Session.t;
  RConfig : Config.t;
  RRegistry : Registry;
}.

(** The objects the commands share.  [Forwarding] is nil ([None]) or a controller. *)
Record state (M : Type) := mkState {
  Forwarding : option M;
  policyService : PolicyService.Service;
  auditService : AuditService.Service;
}.
Arguments mkState {M} _ _ _.
Arguments Forwarding {M} _.
Arguments policyService {M} _.
Arguments auditService {M} _.

(** What a command reads from outside: the clock (one reading per call of
    [time.Now] or [time.Since], in order), the local zone, and the external tools. *)
Record env := mkEnv {
  clock : nat → Time;
  zone : Z;
  policyWorld : PolicyService.world;
  auditWorld : AuditService.world;
}.

(** ** Names *)

(** The four methods of a command that return a constant. *)
Record manual := mkManual {
  MName : string;
  MAliases : list string;
  MDescription : string;
  MUsage : string;
}.

Definition HelpCommand_manual : manual :=
  mkManual "help" ["?"; "h"] "Muestra la lista de comandos disponibles"
    "help".
Definition StatusCommand_manual : manual :=
  mkManual "status" ["info"] "Muestra estado de la sesión y del perfil activo"
    "status".
Definition WhoAmICommand_manual : manual :=
  mkManual "whoami" ["me"; "identity"] "Muestra la identidad autenticada y el rol de la sesión"
    "whoami".
Definition DateCommand_manual : manual :=
  mkManual "date" ["d"; "time"] "Devuelve fecha y hora del servidor en formato RFC3339"
    "date".
Definition ProfileCommand_manual : manual :=
  mkManual "profile" ["mode"] "Muestra el perfil operativo actual del laboratorio"
    "profile".
Definition AuditCommand_manual : manual :=
  mkManual "audit" ["report"] "Ejecuta una auditoría interna y externa del perfil activo"
    "audit [text|json]".
Definition PolicyCommand_manual : manual :=
  mkManual "policy" ["policies"] "Evalúa reglas Rego reales sobre el perfil activo"
    "policy [text|json]".
Definition TunnelsCommand_manual : manual :=
  mkManual "tunnels" ["forwards"; "forwardlist"] "Muestra o administra túneles SSH activos"
    "tunnels [mine|all|close <id>]".

Definition manual_of (c : Command) : manual :=
  match c with
  | HelpCommand => HelpCommand_manual
  | StatusCommand => StatusCommand_manual
  | WhoAmICommand => WhoAmICommand_manual
  | DateCommand => DateCommand_manual
  | ProfileCommand => ProfileCommand_manual
  | AuditCommand => AuditCommand_manual
  | PolicyCommand => PolicyCommand_manual
  | TunnelsCommand => TunnelsCommand_manual
  end.

Definition Name (c : Command) : string := MName (manual_of c).
Definition Aliases (c : Command) : list string := MAliases (manual_of c).
Definition Description (c : Command) : string := MDescription (manual_of c).
Definition Usage (c : Command) : string := MUsage (manual_of c).

(** ** The registry *)

(** The loop of [NewRegistry]; [seen] are the primary names met so far. *)
Definition register (acc : Registry * gset string) (cmd : Command) : Registry * gset string :=
  let '(r, seen) := acc in
  let primary := ToLower (Name cmd) in
  let '(ordered', seen') :=
    if bool_decide (primary ∈ seen) then (ordered r, seen)
    else (ordered r ++ [cmd], {[primary]} ∪ seen) in
  let lookup' := <[primary := cmd]> (lookup_ r) in
  (mkRegistry (foldl (λ l alias, <[ToLower alias := cmd]> l) lookup' (Aliases cmd)) ordered',
   seen').

(** [NewRegistry] *)
Definition NewRegistry (cmds : list Command) : Registry :=
  (foldl register (mkRegistry ∅ [], ∅) cmds).1.

(** [Find] *)
Definition Find (r : Registry) (name : string) : option Command := lookup_ r !! ToLower name.

(** [List] *)
Definition List (r : Registry) : list Command := ordered r.

(** The registry of [cmd/server/main.go]. *)
Definition commandRegistry : Registry :=
  NewRegistry [HelpCommand; StatusCommand; WhoAmICommand; DateCommand; ProfileCommand;
               AuditCommand; PolicyCommand; TunnelsCommand].

(** ** Text *)

Definition nl : string := String (byte_of 10) "".
Definition newline : ascii := byte_of 10.

(** The verb [%-8s]: the width counts characters. *)
Fixpoint spaces (n : nat) : string := match n with O => "" | S n => String " " (spaces n) end.
Definition pad_right (width : nat) (s : string) : string :=
  s +:+ spaces (width - length (decode_runes s)).

(** [strings.EqualFold] with a word of ASCII letters: besides the two cases of a
    letter, the long s and the Kelvin sign fold to [s] and [k]. *)
Definition fold_rune (r : Z) : Z :=
  if (r =? 383)%Z then 115%Z else if (r =? 8490)%Z then 107%Z
  else if (65 <=? r)%Z && (r <=? 90)%Z then (r + 32)%Z else r.
Definition EqualFold (s word : string) : bool :=
  bool_decide ((fold_rune <$> decode_runes s) = (fold_rune <$> decode_runes word)).

Definition bool_text (b : bool) : string := if b then "true" else "false".
Definition lines (ls : list string) : string := String.concat "" ls.

(** ** Execution *)

(** [(HelpCommand) Execute] *)
Definition ExecuteHelp (r : Registry) : string :=
  "Comandos de SentinelOps:" +:+ nl
  +:+ lines ((λ cmd, "- " +:+ pad_right 8 (Name cmd) +:+ " " +:+ Description cmd +:+ nl
                     +:+ "  uso: " +:+ Usage cmd +:+ nl) <$> List r)
  +:+ "- quit     Cierra la sesión" +:+ nl +:+ "  uso: quit".

(** [(StatusCommand) Execute] *)
Definition ExecuteStatus (e : env) (rt : Runtime) : string :=
  "app=" +:+ Config.AppName (RConfig rt) +:+ nl
  +:+ "environment=" +:+ Config.Environment (RConfig rt) +:+ nl
  +:+ "profile=" +:+ Config.Profile (RConfig rt) +:+ nl
  +:+ "session_id=" +:+ Session.ID (RSession rt) +:+ nl
  +:+ "remote_addr=" +:+ Session.RemoteAddr (RSession rt) +:+ nl
  +:+ "connected_at=" +:+ FormatRFC3339 0 (Session.ConnectedAt (RSession rt)) +:+ nl
  +:+ "uptime=" +:+ format_duration (Round (Session.Uptime (clock e 0) (RSession rt)) Second) +:+ nl
  +:+ "commands_executed=" +:+ Itoa (Session.CommandCount (RSession rt)).

(** [(WhoAmICommand) Execute] *)
Definition ExecuteWhoAmI (rt : Runtime) : string :=
  let s := RSession rt in
  let authAt := if Session.IsAuthenticated s
                then FormatRFC3339 0 (Session.AuthenticatedAt s) else "not_authenticated" in
  "username=" +:+ Session.Username s +:+ nl +:+ "role=" +:+ Session.Role s +:+ nl
  +:+ "authenticated=" +:+ bool_text (Session.IsAuthenticated s) +:+ nl
  +:+ "authenticated_at=" +:+ authAt +:+ nl +:+ "session_id=" +:+ Session.ID s.

(** [(DateCommand) Execute] *)
Definition ExecuteDate (e : env) : string := FormatRFC3339 (zone e) (clock e 0).

(** [(ProfileCommand) Execute] *)
Definition ExecuteProfile (rt : Runtime) : string :=
  "active_profile=" +:+ Config.Profile (RConfig rt).

(** [renderTunnels] *)
Definition renderTunnel (e : env) (i : nat) (t : Tunnels.Tunnel) : string :=
  "- id=" +:+ Tunnels.ID t +:+ " direction=" +:+ Tunnels.Direction t
  +:+ " session_id=" +:+ Tunnels.SessionID t +:+ " username=" +:+ Tunnels.Username t
  +:+ " bind=" +:+ Tunnels.Bind t +:+ " target=" +:+ Tunnels.Target t
  +:+ " origin=" +:+ Tunnels.Origin t
  +:+ " started_at=" +:+ FormatRFC3339 0 (Tunnels.StartedAt t)
  +:+ " uptime=" +:+ format_duration (Round (Sub (clock e i) (Tunnels.StartedAt t)) Second)
  +:+ nl.

Definition renderTunnels (e : env) (items : list Tunnels.Tunnel) : string :=
  if (length items =? 0)%nat then "active_tunnels=0"
  else TrimRightByte
         ("active_tunnels=" +:+ Itoa (Z.of_nat (length items)) +:+ nl
          +:+ lines (imap (renderTunnel e) items)) newline.

(** The JSON of a policy result and of an audit report. *)
Definition result_json (r : PolicyService.Result) : json :=
  JObj [("status", JString (PolicyService.Status r));
        ("profile", JString (PolicyService.RProfile r));
        ("evaluated_rules", JInt (PolicyService.EvaluatedRules r));
        ("denies", JArr (JString <$> PolicyService.Denies r));
        ("warnings", JArr (JString <$> PolicyService.Warnings r));
        ("timestamp", JTime (PolicyService.Timestamp r))].

Definition finding_json (f : AuditService.Finding) : json :=
  JObj [("id", JString (AuditService.ID f)); ("severity", JString (AuditService.Severity f));
        ("category", JString (AuditService.Category f));
        ("source", JString (AuditService.Source f));
        ("message", JString (AuditService.Message f));
        ("recommendation", JString (AuditService.Recommendation f))].

Definition report_json (r : AuditService.Report) : json :=
  JObj [("status", JString (AuditService.Status r));
        ("profile", JString (AuditService.Profile r));
        ("session_id", JString (AuditService.SessionID r));
        ("username", JString (AuditService.Username r));
        ("timestamp", JTime (AuditService.Timestamp r));
        ("total_findings", JInt (AuditService.TotalFindings r));
        ("findings", JArr (finding_json <$> AuditService.Findings r))].

Definition wants_json (args : list string) : bool :=
  match args with a :: _ => EqualFold a "json" | [] => false end.

Definition bullets (items : list string) : string :=
  lines ((λ i, "- " +:+ i +:+ nl) <$> items).

(** The text of [(PolicyCommand) Execute] *)
Definition policy_text (r : PolicyService.Result) : string :=
  TrimRightByte
    ("policy_status=" +:+ PolicyService.Status r +:+ nl
     +:+ "profile=" +:+ PolicyService.RProfile r +:+ nl
     +:+ "evaluated_rules=" +:+ Itoa (PolicyService.EvaluatedRules r) +:+ nl
     +:+ (if (length (PolicyService.Denies r) =? 0)%nat then "denies=none" +:+ nl
          else "denies:" +:+ nl +:+ bullets (PolicyService.Denies r))
     +:+ (if (length (PolicyService.Warnings r) =? 0)%nat then "warnings=none"
          else "warnings:" +:+ nl +:+ bullets (PolicyService.Warnings r))) newline.

(** The text of [(AuditCommand) Execute] *)
Definition audit_text (r : AuditService.Report) : string :=
  let head :=
    "audit_status=" +:+ AuditService.Status r +:+ nl
    +:+ "profile=" +:+ AuditService.Profile r +:+ nl
    +:+ "session_id=" +:+ AuditService.SessionID r +:+ nl
    +:+ "username=" +:+ AuditService.Username r +:+ nl
    +:+ "total_findings=" +:+ Itoa (AuditService.TotalFindings r) +:+ nl in
  if (length (AuditService.Findings r) =? 0)%nat then head +:+ "findings=none"
  else TrimRightByte
    (head +:+ "findings:" +:+ nl
     +:+ lines ((λ f, "- [" +:+ AuditService.Severity f +:+ "] " +:+ AuditService.ID f
                      +:+ " | " +:+ AuditService.Category f +:+ " | source="
                      +:+ AuditService.Source f +:+ " | " +:+ AuditService.Message f
                      +:+ " | recommendation=" +:+ AuditService.Recommendation f +:+ nl)
                <$> AuditService.Findings r)) newline.

Section Execute.
Context {M : Type} `{C : !Tunnels.Controller M}.

Definition output : Type := result string string * state M * list Tunnels.effect.

Definition say (st : state M) (text : string) : output := (Ok text, st, []).

(** [(TunnelsCommand) Execute] *)
Definition ExecuteTunnels (e : env) (rt : Runtime) (args : list string) (st : state M) : output :=
  match Forwarding st with
  | None => say st ("active_tunnels=0" +:+ nl +:+ "forwarding=disabled")
  | Some m =>
     let role := Session.Role (RSession rt) in
     let username := Session.Username (RSession rt) in
     match args with
     | [] =>
        if Access.CanViewAllTunnels role
        then say st (renderTunnels e (Tunnels.ctl_snapshot m))
        else say st (renderTunnels e (Tunnels.ctl_snapshot_by m username))
     | a :: rest =>
        let verb := ToLower (TrimSpace a) in
        if bool_decide (verb = "mine")
        then say st (renderTunnels e (Tunnels.ctl_snapshot_by m username))
        else if bool_decide (verb = "all") then
          if negb (Access.CanViewAllTunnels role)
          then say st "Acceso denegado: tu rol no puede ver todos los túneles."
          else say st (renderTunnels e (Tunnels.ctl_snapshot m))
        else if bool_decide (verb = "close") then
          match rest with
          | [] => say st "Uso: tunnels close <id>"
          | b :: _ =>
             let id := TrimSpace b in
             match Tunnels.ctl_get m id with
             | None => say st ("Túnel no encontrado: " +:+ id)
             | Some tunnel =>
                if negb (Access.CanCloseTunnel role username (Tunnels.Username tunnel))
                then say st "Acceso denegado: no puedes cerrar este túnel."
                else
                  let '(ok, m', eff) := Tunnels.ctl_close m id in
                  let st' := mkState (Some m') (policyService st) (auditService st) in
                  (Ok ((if ok then "Túnel cerrado: " else "No se pudo cerrar el túnel: ") +:+ id),
                   st', eff)
             end
          end
        else say st "Uso: tunnels [mine|all|close <id>]"
     end
  end.

(** [(PolicyCommand) Execute] *)
Definition ExecutePolicy (e : env) (rt : Runtime) (args : list string) (st : state M) : output :=
  let '(r, svc) := PolicyService.Check (policyWorld e) (policyService st) (clock e 0)
                     (clock e 1) (clock e 2) (Config.Profile (RConfig rt)) in
  let st' := mkState (Forwarding st) svc (auditService st) in
  (if wants_json args then MarshalIndent (result_json r) else Ok (policy_text r), st', []).

(** [(AuditCommand) Execute] *)
Definition ExecuteAudit (e : env) (rt : Runtime) (args : list string) (st : state M) : output :=
  let r := AuditService.Run (auditWorld e) (auditService st) (clock e 0) (RConfig rt)
             (RSession rt) in
  (if wants_json args then MarshalIndent (report_json r) else Ok (audit_text r), st, []).

(** [Execute] *)
Definition Execute (c : Command) (e : env) (rt : Runtime) (args : list string) (st : state M)
    : output :=
  match c with
  | HelpCommand => say st (ExecuteHelp (RRegistry rt))
  | StatusCommand => say st (ExecuteStatus e rt)
  | WhoAmICommand => say st (ExecuteWhoAmI rt)
  | DateCommand => say st (ExecuteDate e)
  | ProfileCommand => say st (ExecuteProfile rt)
  | AuditCommand => ExecuteAudit e rt args st
  | PolicyCommand => ExecutePolicy e rt args st
  | TunnelsCommand => ExecuteTunnels e rt args st
  end.

End Execute.

(** ** The registry answers with the last command registered under a name *)

Definition names (c : Command) : list string := ToLower <$> (Name c :: Aliases c).
Definition answers (name : string) (c : Command) : Prop := ToLower name ∈ names c.

#[export] Instance answers_dec name c : Decision (answers name c).
Proof. unfold answers. apply _. Defined.

Lemma foldl_insert_const {V} (v : V) (ks : list string) (m : gmap string V) k :
  foldl (λ l alias, <[ToLower alias := v]> l) m ks !! k
  = if decide (k ∈ ToLower <$> ks) then Some v else m !! k.
Proof.
  revert m. induction ks as [|k0 ks IH]; intros m; [done|].
  rewrite fmap_cons. cbn [foldl]. rewrite IH, lookup_insert.
  repeat case_decide; try done; exfalso; set_solver.
Qed.

Lemma register_find acc cmd name :
  Find (register acc cmd).1 name
  = if decide (answers name cmd) then Some cmd else Find acc.1 name.
Proof.
  destruct acc as [r seen]. unfold register, Find, answers, names.
  case_bool_decide; simpl; rewrite foldl_insert_const, lookup_insert;
    repeat case_decide; rewrite ?elem_of_cons in *; try done; exfalso; naive_solver.
Qed.

Lemma find_foldl acc cmds name :
  Find (foldl register acc cmds).1 name
  = match last (filter (answers name) cmds) with Some c => Some c | None => Find acc.1 name end.
Proof.
  revert acc. induction cmds as [|c cmds IH]; intros acc; [done|]. simpl.
  rewrite IH, register_find, filter_cons. case_decide; [|done].
  rewrite last_cons. by destruct (last _).
Qed.

(** Looking up a command.  [Find] is insensitive to case and returns the last of
    the given commands that has the name as its name or as an alias, and nothing when
    none has. *)
Lemma find_last_registered (cmds : list Command) (name : string) :
  Find (NewRegistry cmds) name = last (filter (answers name) cmds).
Proof.
  unfold NewRegistry. rewrite find_foldl. destruct (last _); [done|].
  unfold Find. apply lookup_empty.
Qed.

(** The commands of the server do not shadow one another.  In the registry of
    the server every command is found by its name and by each of its aliases in any
    case, nothing else finds it, the words that end a session are not commands, and
    each command is listed once in the order of registration. *)
Lemma command_registry_unambiguous (name : string) (c : Command) :
  (Find commandRegistry name = Some c ↔ answers name c)
  ∧ (ToLower name ∈ ["quit"; "exit"; "q"] → Find commandRegistry name = None)
  ∧ List commandRegistry
    = [HelpCommand; StatusCommand; WhoAmICommand; DateCommand; ProfileCommand; AuditCommand;
       PolicyCommand; TunnelsCommand].
Proof.
  split_and!.
  - split.
    + unfold commandRegistry, NewRegistry. rewrite find_foldl.
      set (cmds := [_; _; _; _; _; _; _; _]). destruct (last _) as [c'|] eqn:E.
      * intros [= <-]. apply last_Some in E as [l E].
        assert (Hin : c' ∈ filter (answers name) cmds) by (rewrite E; set_solver).
        by apply list_elem_of_filter in Hin as [? _].
      * unfold Find. cbn [fst lookup_]. by rewrite lookup_empty.
    + unfold Find, answers. generalize (ToLower name). intros k Hk.
      destruct c; vm_compute in Hk;
        repeat (apply elem_of_cons in Hk as [->|Hk]; [by vm_compute|]);
        by apply elem_of_nil in Hk.
  - unfold Find. generalize (ToLower name). intros k Hk.
    repeat (apply elem_of_cons in Hk as [->|Hk]; [by vm_compute|]). by apply elem_of_nil in Hk.
  - by vm_compute.
Qed.

(** ** Who may do what with the tunnels *)

Section Authority.
Context {M : Type} `{C : !Tunnels.Controller M}.

(** The session may close the tunnel: it is an administrator's, or the owner's. *)
Definition may_close (s : Session.t) (tun : Tunnels.Tunnel) : Prop :=
  Access.CanCloseTunnel (Session.Role s) (Session.Username s) (Tunnels.Username tun) = true.

Lemma ExecuteTunnels_close e rt args st m out m' eff :
  Forwarding st = Some m →
  ExecuteTunnels e rt args st = (out, mkState (Some m') (policyService st) (auditService st), eff) →
  m' = m ∧ eff = []
  ∨ ∃ verb raw rest tun, args = verb :: raw :: rest ∧ ToLower (TrimSpace verb) = "close"
      ∧ Tunnels.ctl_get m (TrimSpace raw) = Some tun ∧ may_close (RSession rt) tun
      ∧ Tunnels.ctl_close m (TrimSpace raw) = (true, m', eff).
Proof.
  intros Hm. unfold ExecuteTunnels, say. rewrite Hm.
  assert (Hsame : ∀ text : string,
    ((Ok text : result string string), st, @nil Tunnels.effect)
      = (out, mkState (Some m') (policyService st) (auditService st), eff) → m' = m ∧ eff = []).
  { intros text [= _ Hst <-]. split; [|done]. rewrite Hst in Hm. by injection Hm. }
  destruct args as [|a rest]; [case_if; intros ?%Hsame; by left|].
  case_bool_decide as Hv; [intros ?%Hsame; by left|].
  case_bool_decide as Hv2; [case_if; intros ?%Hsame; by left|].
  case_bool_decide as Hv3; [|intros ?%Hsame; by left].
  destruct rest as [|b rest]; [intros ?%Hsame; by left|].
  destruct (Tunnels.ctl_get m (TrimSpace b)) as [tun|] eqn:Eg; [|intros ?%Hsame; by left].
  destruct (Access.CanCloseTunnel _ _ _) eqn:Ec; simpl; [|intros ?%Hsame; by left].
  destruct (Tunnels.ctl_close m (TrimSpace b)) as [[ok m1] eff1] eqn:Ek.
  intros [= _ <- <-]. right. exists a, b, rest, tun. split_and!; try done.
  pose proof (Tunnels.ctl_close_found m (TrimSpace b)) as Hf. rewrite Ek, Eg in Hf. simpl in Hf.
  by rewrite Ek, (proj2 Hf) by eauto.
Qed.

(** The only command that touches the tunnels is [tunnels]. *)
Lemma Execute_forwarding c e rt args st out st' eff :
  Execute c e rt args st = (out, st', eff) → c ≠ TunnelsCommand →
  Forwarding st' = Forwarding st ∧ eff = [].
Proof.
  intros H Hc. destruct c; try done; simpl in H; unfold say in H; simplify_eq; try done.
  - unfold ExecuteAudit in H. by simplify_eq.
  - unfold ExecutePolicy in H. destruct (PolicyService.Check _ _ _ _ _ _). by simplify_eq.
Qed.

Lemma ExecuteTunnels_shape e rt args st out st' eff :
  ExecuteTunnels e rt args st = (out, st', eff) →
  policyService st' = policyService st ∧ auditService st' = auditService st
  ∧ (Forwarding st = None → st' = st ∧ eff = [])
  ∧ (is_Some (Forwarding st) → is_Some (Forwarding st')).
Proof.
  unfold ExecuteTunnels, say. destruct (Forwarding st) as [m|] eqn:Em.
  - repeat case_match; intros [= <- <- <-]; by split_and!; try rewrite Em; eauto.
  - intros [= <- <- <-]. by split_and!; try rewrite Em; eauto.
Qed.

End Authority.

(** C19: who can close a tunnel from a session.  Whatever the command, its arguments
    and the controller, either the tunnels are as before and no stop function is called,
    or the command is [tunnels close] with the identifier of a tunnel that was there, of
    a session of an administrator or of the owner of that tunnel (the names compared
    after trimming and lower-casing, and not empty); and then exactly the named tunnel is
    gone, no other changed and none appeared. *)
Theorem close_needs_authority {M : Type} `{C : !Tunnels.Controller M} (c : Command) (e : env)
    (rt : Runtime) (args : list string) (st st' : state M) (m m' : M)
    (out : result string string) (eff : list Tunnels.effect) :
  Execute c e rt args st = (out, st', eff) →
  Forwarding st = Some m → Forwarding st' = Some m' →
  (m' = m ∧ eff = [])
  ∨ ∃ verb raw rest tun, c = TunnelsCommand ∧ args = verb :: raw :: rest
      ∧ ToLower (TrimSpace verb) = "close" ∧ Tunnels.ctl_get m (TrimSpace raw) = Some tun
      ∧ (Access.normalize (Session.Role (RSession rt)) = "admin"
         ∨ Access.normalize (Session.Username (RSession rt)) ≠ ""
           ∧ Access.normalize (Session.Username (RSession rt))
             = Access.normalize (Tunnels.Username tun))
      ∧ ∀ id', Tunnels.ctl_get m' id'
               = if decide (TrimSpace raw = id') then None else Tunnels.ctl_get m id'.
Proof.
  intros H Hm Hm'. destruct (decide (c = TunnelsCommand)) as [->|Hc].
  2: { destruct (Execute_forwarding _ _ _ _ _ _ _ _ H Hc) as [Hf ->]. left. split; [congruence|done]. }
  simpl in H. pose proof (ExecuteTunnels_shape _ _ _ _ _ _ _ H) as (Hp & Ha & _).
  assert (Hst : st' = mkState (Some m') (policyService st) (auditService st)).
  { destruct st'; simpl in *. by subst. }
  rewrite Hst in H.
  destruct (ExecuteTunnels_close _ _ _ _ _ _ _ _ Hm H)
    as [?|(verb & raw & rest & tun & Hargs & Hverb & Hg & Hc & Hk)]; [by left|right].
  exists verb, raw, rest, tun. split_and!; [done..| |].
  - by apply Access.CanCloseTunnel_spec.
  - intros id'. pose proof (Tunnels.ctl_close_get m (TrimSpace raw) id') as Hcg.
    by rewrite Hk in Hcg.
Qed.

Definition demo_manager : Tunnels.t :=
  let '(_, m, _) := Tunnels.OpenLocal (Tunnels.NewManager (Tunnels.mkHooks true true))
                      (5 * Second) "sess-000001" "Student" "127.0.0.1:9000" "10.0.0.7:4000"
                      (Some 1%nat) in
  let '(_, m, _) := Tunnels.OpenRemote m (6 * Second) "sess-000002" "teacher"
                      "127.0.0.1:10080" "10.0.0.8:4000" (Some 2%nat) in m.
Definition demo_session (user role : string) : Session.t :=
  Session.SetIdentity (3 * Second) user role (Session.New 0 (2 * Second) "10.0.0.7:5000").1.
Definition demo_runtime (user role : string) : Runtime :=
  mkRuntime (demo_session user role) (Config.defaults "secret") commandRegistry.
Definition demo_env : env :=
  mkEnv (λ _, 20 * Second)%Z 0 (PolicyService.demo_world [])
    (AuditService.mkWorld (Ok "/srv") (λ b, Ok b) (λ _ _, AuditService.ExecOk "") (λ _, Ok [])).
Definition demo_state : state Tunnels.t :=
  mkState (Some demo_manager) (PolicyService.NewService None) (AuditService.NewService None).

Lemma close_needs_authority_witness :
  let r := Execute TunnelsCommand demo_env (demo_runtime "student" "student")
             ["close"; "tun-000001"] demo_state in
  ∃ m', Forwarding r.1.2 = Some m' ∧ Tunnels.ctl_get m' "tun-000001" = None
    ∧ Tunnels.ctl_get m' "tun-000002" = Tunnels.ctl_get demo_manager "tun-000002".
Proof.
  assert (Hg : (λ m', Tunnels.ctl_get m' "tun-000001") <$>
    Forwarding (Execute TunnelsCommand demo_env (demo_runtime "student" "student")
                  ["close"; "tun-000001"] demo_state).1.2 = Some None) by by vm_compute.
  destruct (Execute TunnelsCommand demo_env (demo_runtime "student" "student")
              ["close"; "tun-000001"] demo_state) as [[out st'] eff] eqn:E.
  cbn [fst snd] in *. destruct (Forwarding st') as [m'|] eqn:Em; [|discriminate Hg].
  injection Hg as Hg. exists m'. split; [done|]. split; [exact Hg|].
  destruct (close_needs_authority TunnelsCommand demo_env (demo_runtime "student" "student")
    ["close"; "tun-000001"] demo_state st' demo_manager m' out eff E eq_refl Em)
    as [[-> _]|(verb & raw & rest & tun & _ & Hargs & _ & _ & _ & Hk)]; [reflexivity|].
  injection Hargs as <- <- <-. rewrite Hk. by rewrite decide_False by by vm_compute.
Defined.

(** C20: listings leak nothing.  A session whose role may not see every tunnel gets
    the same answer from [tunnels], [tunnels mine] and [tunnels all] whatever tunnels
    the other users have: if two controllers show it the same tunnels of its own, the
    two answers are equal. *)
Theorem listing_noninterference {M : Type} `{C : !Tunnels.Controller M} (e : env)
    (rt : Runtime) (args : list string) (st1 st2 : state M) (m1 m2 : M) :
  Access.CanViewAllTunnels (Session.Role (RSession rt)) = false →
  Forwarding st1 = Some m1 → Forwarding st2 = Some m2 →
  Tunnels.ctl_snapshot_by m1 (Session.Username (RSession rt))
    = Tunnels.ctl_snapshot_by m2 (Session.Username (RSession rt)) →
  (∀ verb rest, args = verb :: rest → ToLower (TrimSpace verb) ≠ "close") →
  (Execute TunnelsCommand e rt args st1).1.1 = (Execute TunnelsCommand e rt args st2).1.1.
Proof.
  intros Hr H1 H2 Hs Hv. simpl. unfold ExecuteTunnels. rewrite H1, H2, Hr, Hs.
  destruct args as [|verb rest]; [done|].
  rewrite (bool_decide_eq_false_2 (_ = "close")) by by eapply Hv.
  by repeat case_if.
Qed.

Lemma listing_noninterference_witness :
  (Execute TunnelsCommand demo_env (demo_runtime "student" "student") ["all"] demo_state).1.1
  = (Execute TunnelsCommand demo_env (demo_runtime "student" "student") ["all"]
       (mkState (Some (Tunnels.Close demo_manager "tun-000002").1.2)
          (PolicyService.NewService None) (AuditService.NewService None))).1.1.
Proof.
  apply (listing_noninterference demo_env (demo_runtime "student" "student") ["all"] demo_state
           (mkState (Some (Tunnels.Close demo_manager "tun-000002").1.2)
              (PolicyService.NewService None) (AuditService.NewService None))
           demo_manager (Tunnels.Close demo_manager "tun-000002").1.2).
  - by vm_compute.
  - done.
  - done.
  - by vm_compute.
  - intros verb rest [= <- <-]. by vm_compute.
Defined.

Example tunnels_mine_text :
  (Execute TunnelsCommand demo_env (demo_runtime "student" "student") [] demo_state).1.1
  = Ok ("active_tunnels=1" +:+ nl +:+
        "- id=tun-000001 direction=local session_id=sess-000001 username=Student bind= target=127.0.0.1:9000 origin=10.0.0.7:4000 started_at=0001-01-01T00:00:05Z uptime=15s").
Proof. by vm_compute. Qed.

End Commands.
