(* ===== verification/JSONDecode.v ===== *)
(** * JSON values decoded into Go values

    How [json.Unmarshal] fills a value: [null] leaves it, a value of another kind is an
    error, the members of an object go to the fields with their name (or, if there is
    none, with their name in another case) and the others are ignored.  A member that
    comes twice is decoded over the first one.  An error anywhere makes the whole call an
    error; the text of the message is not modelled. *)

From S2P Require Import Prelude GoStrings GoTime TimeText JSON JSONParse JSONValue Commands.

Module JSONDecode.
Import JSONParse JSONValue.
Local Open Scope Z_scope.

(** A decoder changes a value; [None] is an error. *)
Definition decoder (A : Type) : Type := A → value → option A.

Definition dec_string : decoder string := λ old v,
  match v with VNull => Some old | VStr _ s => Some s | _ => None end.

(** [strconv.ParseInt] on the text of a number: no fraction, no exponent, 64 bits. *)
Definition int_literal (lit : string) : option Z :=
  let '(sign, ds) := match lit with
                     | String a t => if is_char 45 a then (-1, t) else (1, lit)
                     | "" => (1, "")
                     end in
  match ds with
  | "" => None
  | _ => match digits_value 0 ds with
         | Some n => if bool_decide (in_int64 (sign * n)) then Some (sign * n) else None
         | None => None
         end
  end.

Definition dec_int : decoder Z := λ old v,
  match v with VNull => Some old | VNum lit => int_literal lit | _ => None end.

(** [Time.UnmarshalJSON] sees the text of the string, escapes and all. *)
Definition dec_time : decoder Time := λ old v,
  match v with VNull => Some old | VStr raw _ => TimeText.ParseRFC3339 raw | _ => None end.

(** A pointer: [null] makes it nil. *)
Definition dec_ptr {A} (zero : A) (dec : decoder A) : decoder (option A) := λ old v,
  match v with
  | VNull => Some None
  | _ => match dec (default zero old) v with Some a => Some (Some a) | None => None end
  end.

(** The elements of a slice are decoded over those that are there. *)
Fixpoint dec_elems {A} (zero : A) (dec : decoder A) (old : list A) (l : list value)
    : option (list A) :=
  match l with
  | [] => Some []
  | v :: l =>
     match dec (hd zero old) v, dec_elems zero dec (tl old) l with
     | Some a, Some r => Some (a :: r)
     | _, _ => None
     end
  end.
Definition dec_slice {A} (zero : A) (dec : decoder A) : decoder (list A) := λ old v,
  match v with
  | VNull => Some []
  | VArr l => dec_elems zero dec old l
  | _ => None
  end.

(** A struct: its fields by name, in order. *)
Definition fields (R : Type) : Type := list (string * decoder R).

Definition on_field {R A} (get : R → A) (set : R → A → R) (dec : decoder A) : decoder R :=
  λ r v, match dec (get r) v with Some a => Some (set r a) | None => None end.

Fixpoint find_field {R} (same : string → bool) (fs : fields R) : option (decoder R) :=
  match fs with
  | [] => None
  | (n, d) :: fs => if same n then Some d else find_field same fs
  end.

(** The exact name first, then the name in another case. *)
Definition lookup_field {R} (fs : fields R) (k : string) : option (decoder R) :=
  match find_field (String.eqb k) fs with
  | Some d => Some d
  | None => find_field (Commands.EqualFold k) fs
  end.

Fixpoint dec_members {R} (fs : fields R) (r : R) (l : list (string * value)) : option R :=
  match l with
  | [] => Some r
  | (k, v) :: l =>
     match lookup_field fs k with
     | None => dec_members fs r l
     | Some d => match d r v with Some r' => dec_members fs r' l | None => None end
     end
  end.

Definition dec_struct {R} (fs : fields R) : decoder R := λ r v,
  match v with VNull => Some r | VObj l => dec_members fs r l | _ => None end.

(** [json.Unmarshal] into a zero value *)
Definition json_error : string := "json".
Definition Unmarshal {A} (zero : A) (dec : decoder A) (data : string) : result string A :=
  match parse data with
  | None => Err json_error
  | Some v => match dec zero v with Some a => Ok a | None => Err json_error end
  end.

(** ** What was written is decoded *)

Lemma int_literal_Itoa n : in_int64 n → int_literal (Itoa n) = Some n.
Proof.
  intros Hn. unfold int_literal. assert (n = 0 ∨ 0 < n ∨ n < 0) as [->|[Hp|Hp]] by lia.
  - done.
  - pose proof (digits_value_Itoa n ltac:(lia)) as Hd.
    destruct (Itoa_first n Hp) as (a & t & d & E & Ha & _). rewrite E in *.
    destruct (digit_chars a d Ha) as [-> _]. rewrite Hd, Z.mul_1_l.
    by rewrite bool_decide_eq_true_2.
  - rewrite (Itoa_neg n Hp). pose proof (digits_value_Itoa (- n) ltac:(lia)) as Hd.
    destruct (Itoa_first (- n) ltac:(lia)) as (a & t & d & E & Ha & _). rewrite E in *.
    change (is_char 45 (byte_of 45)) with true. cbv iota beta. rewrite Hd.
    replace (-1 * - n) with n by lia. by rewrite bool_decide_eq_true_2.
Qed.

Lemma dec_string_written old s : dec_string old (val_of (JString s)) = Some (sanitize s).
Proof. done. Qed.
Lemma dec_int_written old n : in_int64 n → dec_int old (val_of (JInt n)) = Some n.
Proof. apply int_literal_Itoa. Qed.
Lemma dec_time_written old t :
  0 <= year t <= 9999 → dec_time old (val_of (JTime t)) = Some t.
Proof. apply TimeText.ParseRFC3339_format. Qed.

(** The elements of a slice, when each is decoded as [f]. *)
Lemma dec_slice_written {A} (zero : A) dec (item : A → json) (f : A → A) (l : list A) :
  (∀ x, x ∈ l → dec zero (val_of (item x)) = Some (f x)) →
  dec_slice zero dec [] (val_of (JArr (item <$> l))) = Some (f <$> l).
Proof.
  intros H. cbn [val_of dec_slice]. induction l as [|x l IH]; [done|].
  cbn [fmap list_fmap map dec_elems hd tl]. rewrite (H x) by left.
  assert (dec_elems zero dec [] (map val_of (item <$> l)) = Some (f <$> l)) as Hl.
  { apply IH. intros y Hy. apply H. by right. }
  change (list_fmap A json item l) with (item <$> l). by rewrite Hl.
Qed.

Definition year_ok (t : Time) : Prop := 0 <= year t <= 9999.

Lemma time_ok_year t : times_ok (JTime t) = true ↔ year_ok t.
Proof. unfold year_ok. cbn [times_ok]. rewrite andb_true_iff, !Z.leb_le. lia. Qed.

(** One member that was written under a plain name. *)
Lemma dec_members_written {R} (fs : fields R) r k j l d r' :
  plain k = true → lookup_field fs k = Some d → d r (val_of j) = Some r' →
  dec_members fs r (map member_val ((k, j) :: l)) = dec_members fs r' (map member_val l).
Proof.
  intros Hk Hd Hr. cbn [map dec_members member_val]. rewrite (sanitize_plain k Hk), Hd. by rewrite Hr.
Qed.

Lemma on_field_written {R A} (get : R → A) (set : R → A → R) (dec : decoder A) r j a :
  dec (get r) (val_of j) = Some a → on_field get set dec r (val_of j) = Some (set r a).
Proof. intros H. unfold on_field. by rewrite H. Qed.

(** The members of an object one after the other. *)
Ltac read_member :=
  lazymatch goal with
  | |- context [dec_members _ _ (map member_val ((_, ?j) :: _))] =>
     erewrite dec_members_written;
     [|reflexivity|reflexivity
      |apply on_field_written;
       lazymatch j with
       | JString _ => apply dec_string_written
       | JTime _ => apply dec_time_written; assumption
       | JInt _ => apply dec_int_written; assumption
       end];
     lazymatch goal with
     | |- context [dec_members _ ?r _] => let r' := eval cbn -[sanitize] in r in change r with r'
     end
  end.

(** Reading a document that was written. *)
Lemma Unmarshal_written {A} (zero : A) dec indent j w :
  times_ok j = true → height j <= maxNestingDepth → all_space w = true →
  Unmarshal zero dec (render indent 0 j +:+ w)
  = match dec zero (val_of j) with Some a => Ok a | None => Err json_error end.
Proof. intros Ht Hh Hw. unfold Unmarshal. by rewrite parse_render. Qed.

End JSONDecode.
