(* ===== verification/StoreJSON.v ===== *)
(** * The records of the store as JSON ([internal/store/store.go])

    What [json.Marshal] writes for a [Session], a [Tunnel] and an [AuditEntry], with the
    names of their tags, and what [json.Unmarshal] makes of it.  The values of a [JSONMap]
    are opaque: what is written for one and what is made of a value are inputs
    ([AnyValues]). *)

From S2P Require Import Prelude GoStrings GoTime TimeText JSON JSONParse JSONValue JSONDecode MemoryStore.

Module StoreJSON.
Import JSONParse JSONValue JSONDecode MemoryStore.
Local Open Scope Z_scope.

(** An [any]: it may have no JSON, and a number may be too large to be read. *)
Class AnyValues := {
  any_json : nat → option json;
  any_of : value → option nat;
}.

Section Codec.
Context `{AV : AnyValues}.

(** ** Writing *)

Fixpoint all_some {A B} (f : A → option B) (l : list A) : option (list B) :=
  match l with
  | [] => Some []
  | x :: l => match f x, all_some f l with Some y, Some r => Some (y :: r) | _, _ => None end
  end.

Definition map_json (v : JSONMap) : option json :=
  match v with
  | None => Some JNull
  | Some m =>
     match all_some (λ '(k, n), match any_json n with Some j => Some (k, j) | None => None end)
             (map_to_list m) with
     | Some l => Some (JMap l)
     | None => None
     end
  end.

(** [omitempty] *)
Definition time_member (k : string) (t : option Time) : list (string * json) :=
  match t with Some t => [(k, JTime t)] | None => [] end.

Definition session_json (s : Session) (md : json) : json :=
  JObj ([("id", JString (SessID s)); ("username", JString (Username s)); ("role", JString (Role s));
         ("remote_addr", JString (RemoteAddr s)); ("created_at", JTime (CreatedAt s));
         ("last_active", JTime (LastActive s))]
        ++ time_member "closed_at" (ClosedAt s)
        ++ [("status", JString (Status s)); ("metadata", md)]).

Definition tunnel_json (t : Tunnel) (md : json) : json :=
  JObj ([("id", JString (TunID t)); ("session_id", JString (TunSessionID t));
         ("type", JString (TunType t)); ("local_addr", JString (TunLocalAddr t));
         ("remote_addr", JString (TunRemoteAddr t)); ("created_at", JTime (TunCreatedAt t))]
        ++ time_member "closed_at" (TunClosedAt t)
        ++ [("bytes_sent", JInt (BytesSent t)); ("bytes_recv", JInt (BytesRecv t));
            ("status", JString (TunStatus t)); ("metadata", md)]).

Definition audit_json (e : AuditEntry) (md : json) : json :=
  JObj [("id", JString (AuditID e)); ("timestamp", JTime (Timestamp e));
        ("correlation_id", JString (CorrelationID e)); ("trace_id", JString (TraceID e));
        ("action", JString (Action e)); ("username", JString (AuditUsername e));
        ("role", JString (AuditRole e)); ("resource", JString (Resource e));
        ("result", JString (Result e)); ("details", md); ("source_ip", JString (SourceIP e))].

(** [json.Marshal] *)
Definition marshal_with {A} (doc : A → JSONMap) (write : A → json → json) (a : A)
    : result string string :=
  match map_json (doc a) with
  | None => Err json_error
  | Some md => Marshal (write a md)
  end.
Definition marshal_session : Session → result string string := marshal_with Metadata session_json.
Definition marshal_tunnel : Tunnel → result string string := marshal_with TunMetadata tunnel_json.
Definition marshal_audit : AuditEntry → result string string := marshal_with Details audit_json.

(** ** Reading *)

(** Into a map: the members are added to those that are there. *)
Fixpoint dec_entries (m : gmap string nat) (l : list (string * value)) : option (gmap string nat) :=
  match l with
  | [] => Some m
  | (k, v) :: l => match any_of v with Some n => dec_entries (<[k := n]> m) l | None => None end
  end.
Definition dec_map : decoder JSONMap := λ old v,
  match v with
  | VNull => Some None
  | VObj l => match dec_entries (default ∅ old) l with Some m => Some (Some m) | None => None end
  | _ => None
  end.

Definition session_decs : fields Session :=
  let f := mkSession in
  [("id", on_field SessID (λ s x, f x (Username s) (Role s) (RemoteAddr s) (CreatedAt s)
      (LastActive s) (ClosedAt s) (Status s) (Metadata s)) dec_string);
   ("username", on_field Username (λ s x, f (SessID s) x (Role s) (RemoteAddr s) (CreatedAt s)
      (LastActive s) (ClosedAt s) (Status s) (Metadata s)) dec_string);
   ("role", on_field Role (λ s x, f (SessID s) (Username s) x (RemoteAddr s) (CreatedAt s)
      (LastActive s) (ClosedAt s) (Status s) (Metadata s)) dec_string);
   ("remote_addr", on_field RemoteAddr (λ s x, f (SessID s) (Username s) (Role s) x (CreatedAt s)
      (LastActive s) (ClosedAt s) (Status s) (Metadata s)) dec_string);
   ("created_at", on_field CreatedAt (λ s x, f (SessID s) (Username s) (Role s) (RemoteAddr s) x
      (LastActive s) (ClosedAt s) (Status s) (Metadata s)) dec_time);
   ("last_active", on_field LastActive (λ s x, f (SessID s) (Username s) (Role s) (RemoteAddr s)
      (CreatedAt s) x (ClosedAt s) (Status s) (Metadata s)) dec_time);
   ("closed_at", on_field ClosedAt (λ s x, f (SessID s) (Username s) (Role s) (RemoteAddr s)
      (CreatedAt s) (LastActive s) x (Status s) (Metadata s)) (dec_ptr 0 dec_time));
   ("status", on_field Status (λ s x, f (SessID s) (Username s) (Role s) (RemoteAddr s)
      (CreatedAt s) (LastActive s) (ClosedAt s) x (Metadata s)) dec_string);
   ("metadata", on_field Metadata (λ s x, f (SessID s) (Username s) (Role s) (RemoteAddr s)
      (CreatedAt s) (LastActive s) (ClosedAt s) (Status s) x) dec_map)].

Definition tunnel_decs : fields Tunnel :=
  let f := mkTunnel in
  [("id", on_field TunID (λ t x, f x (TunSessionID t) (TunType t) (TunLocalAddr t)
      (TunRemoteAddr t) (TunCreatedAt t) (TunClosedAt t) (BytesSent t) (BytesRecv t)
      (TunStatus t) (TunMetadata t)) dec_string);
   ("session_id", on_field TunSessionID (λ t x, f (TunID t) x (TunType t) (TunLocalAddr t)
      (TunRemoteAddr t) (TunCreatedAt t) (TunClosedAt t) (BytesSent t) (BytesRecv t)
      (TunStatus t) (TunMetadata t)) dec_string);
   ("type", on_field TunType (λ t x, f (TunID t) (TunSessionID t) x (TunLocalAddr t)
      (TunRemoteAddr t) (TunCreatedAt t) (TunClosedAt t) (BytesSent t) (BytesRecv t)
      (TunStatus t) (TunMetadata t)) dec_string);
   ("local_addr", on_field TunLocalAddr (λ t x, f (TunID t) (TunSessionID t) (TunType t) x
      (TunRemoteAddr t) (TunCreatedAt t) (TunClosedAt t) (BytesSent t) (BytesRecv t)
      (TunStatus t) (TunMetadata t)) dec_string);
   ("remote_addr", on_field TunRemoteAddr (λ t x, f (TunID t) (TunSessionID t) (TunType t)
      (TunLocalAddr t) x (TunCreatedAt t) (TunClosedAt t) (BytesSent t) (BytesRecv t)
      (TunStatus t) (TunMetadata t)) dec_string);
   ("created_at", on_field TunCreatedAt (λ t x, f (TunID t) (TunSessionID t) (TunType t)
      (TunLocalAddr t) (TunRemoteAddr t) x (TunClosedAt t) (BytesSent t) (BytesRecv t)
      (TunStatus t) (TunMetadata t)) dec_time);
   ("closed_at", on_field TunClosedAt (λ t x, f (TunID t) (TunSessionID t) (TunType t)
      (TunLocalAddr t) (TunRemoteAddr t) (TunCreatedAt t) x (BytesSent t) (BytesRecv t)
      (TunStatus t) (TunMetadata t)) (dec_ptr 0 dec_time));
   ("bytes_sent", on_field BytesSent (λ t x, f (TunID t) (TunSessionID t) (TunType t)
      (TunLocalAddr t) (TunRemoteAddr t) (TunCreatedAt t) (TunClosedAt t) x (BytesRecv t)
      (TunStatus t) (TunMetadata t)) dec_int);
   ("bytes_recv", on_field BytesRecv (λ t x, f (TunID t) (TunSessionID t) (TunType t)
      (TunLocalAddr t) (TunRemoteAddr t) (TunCreatedAt t) (TunClosedAt t) (BytesSent t) x
      (TunStatus t) (TunMetadata t)) dec_int);
   ("status", on_field TunStatus (λ t x, f (TunID t) (TunSessionID t) (TunType t)
      (TunLocalAddr t) (TunRemoteAddr t) (TunCreatedAt t) (TunClosedAt t) (BytesSent t)
      (BytesRecv t) x (TunMetadata t)) dec_string);
   ("metadata", on_field TunMetadata (λ t x, f (TunID t) (TunSessionID t) (TunType t)
      (TunLocalAddr t) (TunRemoteAddr t) (TunCreatedAt t) (TunClosedAt t) (BytesSent t)
      (BytesRecv t) (TunStatus t) x) dec_map)].

Definition audit_decs : fields AuditEntry :=
  let f := mkAudit in
  [("id", on_field AuditID (λ e x, f x (Timestamp e) (CorrelationID e) (TraceID e) (Action e)
      (AuditUsername e) (AuditRole e) (Resource e) (Result e) (Details e) (SourceIP e)) dec_string);
   ("timestamp", on_field Timestamp (λ e x, f (AuditID e) x (CorrelationID e) (TraceID e) (Action e)
      (AuditUsername e) (AuditRole e) (Resource e) (Result e) (Details e) (SourceIP e)) dec_time);
   ("correlation_id", on_field CorrelationID (λ e x, f (AuditID e) (Timestamp e) x (TraceID e)
      (Action e) (AuditUsername e) (AuditRole e) (Resource e) (Result e) (Details e) (SourceIP e))
      dec_string);
   ("trace_id", on_field TraceID (λ e x, f (AuditID e) (Timestamp e) (CorrelationID e) x (Action e)
      (AuditUsername e) (AuditRole e) (Resource e) (Result e) (Details e) (SourceIP e)) dec_string);
   ("action", on_field Action (λ e x, f (AuditID e) (Timestamp e) (CorrelationID e) (TraceID e) x
      (AuditUsername e) (AuditRole e) (Resource e) (Result e) (Details e) (SourceIP e)) dec_string);
   ("username", on_field AuditUsername (λ e x, f (AuditID e) (Timestamp e) (CorrelationID e)
      (TraceID e) (Action e) x (AuditRole e) (Resource e) (Result e) (Details e) (SourceIP e))
      dec_string);
   ("role", on_field AuditRole (λ e x, f (AuditID e) (Timestamp e) (CorrelationID e) (TraceID e)
      (Action e) (AuditUsername e) x (Resource e) (Result e) (Details e) (SourceIP e)) dec_string);
   ("resource", on_field Resource (λ e x, f (AuditID e) (Timestamp e) (CorrelationID e) (TraceID e)
      (Action e) (AuditUsername e) (AuditRole e) x (Result e) (Details e) (SourceIP e)) dec_string);
   ("result", on_field Result (λ e x, f (AuditID e) (Timestamp e) (CorrelationID e) (TraceID e)
      (Action e) (AuditUsername e) (AuditRole e) (Resource e) x (Details e) (SourceIP e)) dec_string);
   ("details", on_field Details (λ e x, f (AuditID e) (Timestamp e) (CorrelationID e) (TraceID e)
      (Action e) (AuditUsername e) (AuditRole e) (Resource e) (Result e) x (SourceIP e)) dec_map);
   ("source_ip", on_field SourceIP (λ e x, f (AuditID e) (Timestamp e) (CorrelationID e) (TraceID e)
      (Action e) (AuditUsername e) (AuditRole e) (Resource e) (Result e) (Details e) x) dec_string)].

Definition zero_session : Session := mkSession "" "" "" "" 0 0 None "" None.
Definition zero_tunnel : Tunnel := mkTunnel "" "" "" "" "" 0 None 0 0 "" None.
Definition zero_audit : AuditEntry := mkAudit "" 0 "" "" "" "" "" "" "" None "".

Definition unmarshal_session : string → result string Session :=
  Unmarshal zero_session (dec_struct session_decs).
Definition unmarshal_tunnel : string → result string Tunnel :=
  Unmarshal zero_tunnel (dec_struct tunnel_decs).
Definition unmarshal_audit : string → result string AuditEntry :=
  Unmarshal zero_audit (dec_struct audit_decs).

(** ** What comes back *)

(** A map as it is read back: through the JSON of its values. *)
Definition view (v : JSONMap) : option JSONMap :=
  match map_json v with
  | Some md => if height md <? maxNestingDepth then dec_map None (val_of md) else None
  | None => None
  end.

Definition clean_session (s : Session) (md : JSONMap) : Session :=
  mkSession (sanitize (SessID s)) (sanitize (Username s)) (sanitize (Role s))
    (sanitize (RemoteAddr s)) (CreatedAt s) (LastActive s) (ClosedAt s) (sanitize (Status s)) md.
Definition clean_tunnel (t : Tunnel) (md : JSONMap) : Tunnel :=
  mkTunnel (sanitize (TunID t)) (sanitize (TunSessionID t)) (sanitize (TunType t))
    (sanitize (TunLocalAddr t)) (sanitize (TunRemoteAddr t)) (TunCreatedAt t) (TunClosedAt t)
    (BytesSent t) (BytesRecv t) (sanitize (TunStatus t)) md.
Definition clean_audit (e : AuditEntry) (md : JSONMap) : AuditEntry :=
  mkAudit (sanitize (AuditID e)) (Timestamp e) (sanitize (CorrelationID e)) (sanitize (TraceID e))
    (sanitize (Action e)) (sanitize (AuditUsername e)) (sanitize (AuditRole e))
    (sanitize (Resource e)) (sanitize (Result e)) md (sanitize (SourceIP e)).

Lemma view_spec v v' :
  view v = Some v' →
  ∃ md, map_json v = Some md ∧ height md < maxNestingDepth ∧ dec_map None (val_of md) = Some v'.
Proof.
  unfold view. destruct (map_json v) as [md|]; [|done]. destruct (Z.ltb_spec (height md) maxNestingDepth); [|done].
  eauto.
Qed.

Lemma dec_ptr_time t : year_ok t → dec_ptr 0 dec_time None (val_of (JTime t)) = Some (Some t).
Proof.
  intros H. pose proof (dec_time_written 0 t H) as E. unfold dec_ptr. cbn [val_of default] in *.
  by rewrite E.
Qed.

(** Marshalling is refused only for times and opaque values. *)
Lemma marshal_with_ok {A} (doc : A → JSONMap) write (a : A) data md :
  map_json (doc a) = Some md → marshal_with doc write a = Ok data →
  times_ok (write a md) = true ∧ data = render false 0 (write a md) +:+ "".
Proof.
  intros Hm. unfold marshal_with. rewrite Hm. unfold Marshal.
  destruct (times_ok (write a md)) eqn:E; [|done]. intros H. split; [done|].
  rewrite string_app_nil_r. congruence.
Qed.

(** A member whose decoding is known. *)
Ltac read_as H :=
  erewrite dec_members_written;
  [|reflexivity|reflexivity|apply on_field_written; exact H];
  lazymatch goal with
  | |- context [dec_members _ ?r _] => let r' := eval cbn -[sanitize] in r in change r with r'
  end.

Lemma times_ok_member l k t : times_ok (JObj l) = true → (k, JTime t) ∈ l → year_ok t.
Proof.
  cbn [times_ok]. intros H Hin. rewrite forallb_forall in H. apply time_ok_year.
  apply (H (k, JTime t)). by apply list_elem_of_In.
Qed.

Ltac year_of Ht t :=
  assert (year_ok t) by (eapply (times_ok_member _ _ t Ht); repeat (left || right)).

Lemma session_back s data v' :
  view (Metadata s) = Some v' → marshal_session s = Ok data →
  unmarshal_session data = Ok (clean_session s v').
Proof.
  intros (md & Hm & Hh & Hd)%view_spec Hs.
  apply (marshal_with_ok _ _ _ _ md Hm) in Hs as [Ht ->].
  unfold unmarshal_session. rewrite Unmarshal_written; [|done| |done].
  2: { unfold session_json. destruct (ClosedAt s); cbn [height app time_member foldr snd];
       unfold maxNestingDepth in *; lia. }
  unfold session_json in *. year_of Ht (CreatedAt s). year_of Ht (LastActive s).
  cbn [dec_struct val_of]. fold member_val. unfold clean_session.
  destruct (ClosedAt s) as [c|] eqn:Ec; cbn [app time_member] in *.
  - year_of Ht c. do 6 read_member. read_as (dec_ptr_time c ltac:(assumption)).
    read_member. read_as Hd. done.
  - do 7 read_member. read_as Hd. done.
Qed.

Lemma tunnel_back t data v' :
  view (TunMetadata t) = Some v' → in_int64 (BytesSent t) → in_int64 (BytesRecv t) →
  marshal_tunnel t = Ok data → unmarshal_tunnel data = Ok (clean_tunnel t v').
Proof.
  intros (md & Hm & Hh & Hd)%view_spec Hbs Hbr Hs.
  apply (marshal_with_ok _ _ _ _ md Hm) in Hs as [Ht ->].
  unfold unmarshal_tunnel. rewrite Unmarshal_written; [|done| |done].
  2: { unfold tunnel_json. destruct (TunClosedAt t); cbn [height app time_member foldr snd];
       unfold maxNestingDepth in *; lia. }
  unfold tunnel_json in *. year_of Ht (TunCreatedAt t).
  cbn [dec_struct val_of]. fold member_val. unfold clean_tunnel.
  destruct (TunClosedAt t) as [c|] eqn:Ec; cbn [app time_member] in *.
  - year_of Ht c. do 6 read_member. read_as (dec_ptr_time c ltac:(assumption)).
    do 3 read_member. read_as Hd. done.
  - do 9 read_member. read_as Hd. done.
Qed.

Lemma audit_back e data v' :
  view (Details e) = Some v' → marshal_audit e = Ok data →
  unmarshal_audit data = Ok (clean_audit e v').
Proof.
  intros (md & Hm & Hh & Hd)%view_spec Hs.
  apply (marshal_with_ok _ _ _ _ md Hm) in Hs as [Ht ->].
  unfold unmarshal_audit. rewrite Unmarshal_written; [|done| |done].
  2: { unfold audit_json. cbn [height foldr snd]. unfold maxNestingDepth in *. lia. }
  unfold audit_json in *. year_of Ht (Timestamp e).
  cbn [dec_struct val_of]. fold member_val. unfold clean_audit.
  do 9 read_member. read_as Hd. read_member. done.
Qed.

(** Text that is UTF-8 comes back as it is. *)
Definition utf8 (s : string) : bool := String.eqb (sanitize s) s.

Lemma utf8_sanitize s : utf8 s = true → sanitize s = s.
Proof. apply String.eqb_eq. Qed.

End Codec.
End StoreJSON.
