(* ===== verification/Redis.v ===== *)
(** * The Redis commands the store sends

    This file has the commands the sources send and their documented meaning on one key
    space ([exec]): strings, sets and streams, each key with an optional time at which it
    goes, [WRONGTYPE] errors, and the script of the attempts.

    The server itself is not part of the sources and is a parameter ([Redis]): what it
    does with a command, how it rounds the time to live, and the ids it gives to the
    entries of a stream.  It is relied on only in that a command with arguments in the
    documented range has the documented meaning.  A transaction runs every command and
    does not roll back.  The order of [SMEMBERS] is [range]'s.

    A client is a program of requests ([prog]); each request has the server's clock, other
    clients act before it, and its answer may be lost. *)

From S2P Require Import Prelude GoStrings.

Module Redis.
Local Open Scope Z_scope.

Definition Millisecond : Duration := 1000000.

(** ** The key space *)

Inductive content :=
| RString (s : string)
| RSet (ms : gmap string unit)
| RStream (entries : list (gmap string string)).

Record entry := mkEntry { held : content; expires : option Time }.

Abbreviation server := (gmap string entry) (only parsing).

(** A key whose time is over is gone. *)
Definition live (now : Time) (e : entry) : bool :=
  match expires e with Some t => now <? t | None => true end.
Definition get (now : Time) (σ : server) (k : string) : option content :=
  match σ !! k with Some e => if live now e then Some (held e) else None | None => None end.
Definition expiry (now : Time) (σ : server) (k : string) : option Time :=
  match σ !! k with Some e => if live now e then expires e else None | None => None end.

(** ** Commands *)

(** How long a value is kept: the argument of [client.Set]. *)
Inductive keep := Forever | Keep | For (d : Duration).

Inductive cmd :=
| SET (k v : string) (x : keep)
| GET (k : string)
| DEL (k : string)
| SADD (k m : string)
| SREM (k m : string)
| SMEMBERS (k : string)
| TTL (k : string)
| ATTEMPT (k : string) (ttl : Z)
| XADD (k : string) (maxlen : nat) (fields : gmap string string)
| XREVRANGE (k : string) (count : nat).

Inductive rerror := WRONGTYPE | InvalidExpire | NotInteger | Network (err : string).

#[export] Instance rerror_eq_dec : EqDecision rerror.
Proof. solve_decision. Defined.

(** A missing key is [RNil] ([redis.Nil]). *)
Inductive reply :=
| RNil
| ROk
| RBulk (s : string)
| RInt (n : Z)
| RMembers (ms : list string)
| REntries (es : list (gmap string string))
| RError (e : rerror).

(** How the server and the client round: the time to live in seconds, and the time a
    value is kept, in milliseconds; and the id of an entry that is added to a stream. *)
Class RedisValues := {
  kept_for : Duration → Duration;
  kept_for_close d : 0 < d → 0 < kept_for d ∧ Z.abs (kept_for d - d) < Millisecond;
  kept_for_exact d : 0 < d → d mod Millisecond = 0 → kept_for d = d;
  ttl_seconds : Duration → Z;
  ttl_seconds_close d : 0 < d → 0 <= ttl_seconds d ∧ Z.abs (ttl_seconds d * Second - d) <= Second;
  stream_id : Time → list (gmap string string) → string;
}.

Section Server.
Context `{MR : MapRange} `{RV : RedisValues}.

(** The script of [IncrementAttempts]: a key that is not there is set to 1 and given its
    time, one that is there is incremented and keeps its time.  [INCR] takes a number
    that is written the way the server writes it. *)
Definition attempt (now : Time) (k : string) (ttl : Z) (σ : server) : reply * server :=
  match get now σ k with
  | None =>
     if ttl <=? 0 then (RError InvalidExpire, σ)
     else (RInt 1, <[k := mkEntry (RString "1") (Some (now + ttl * Second))]> σ)
  | Some (RString s) =>
     match Atoi s with
     | Some n =>
        if bool_decide (Itoa n = s) && bool_decide (in_int64 (n + 1))
        then (RInt (n + 1), <[k := mkEntry (RString (Itoa (n + 1))) (expiry now σ k)]> σ)
        else (RError NotInteger, σ)
     | None => (RError NotInteger, σ)
     end
  | Some _ => (RError WRONGTYPE, σ)
  end.

Definition exec (now : Time) (c : cmd) (σ : server) : reply * server :=
  match c with
  | SET k v x =>
     let t := match x with
              | Forever => None
              | Keep => expiry now σ k
              | For d => Some (now + kept_for d)
              end in
     (ROk, <[k := mkEntry (RString v) t]> σ)
  | GET k =>
     (match get now σ k with
      | None => RNil
      | Some (RString s) => RBulk s
      | Some _ => RError WRONGTYPE
      end, σ)
  | DEL k => (RInt (match get now σ k with Some _ => 1 | None => 0 end), delete k σ)
  | SADD k m =>
     match get now σ k with
     | None => (RInt 1, <[k := mkEntry (RSet {[m := tt]}) None]> σ)
     | Some (RSet ms) =>
        (RInt (match ms !! m with Some _ => 0 | None => 1 end),
         <[k := mkEntry (RSet (<[m := tt]> ms)) (expiry now σ k)]> σ)
     | Some _ => (RError WRONGTYPE, σ)
     end
  | SREM k m =>
     match get now σ k with
     | None => (RInt 0, σ)
     | Some (RSet ms) =>
        let ms' := delete m ms in
        (RInt (match ms !! m with Some _ => 1 | None => 0 end),
         if bool_decide (ms' = ∅) then delete k σ
         else <[k := mkEntry (RSet ms') (expiry now σ k)]> σ)
     | Some _ => (RError WRONGTYPE, σ)
     end
  | SMEMBERS k =>
     (match get now σ k with
      | None => RMembers []
      | Some (RSet ms) => RMembers (range ms).*1
      | Some _ => RError WRONGTYPE
      end, σ)
  | TTL k =>
     (match get now σ k with
      | None => RInt (-2)
      | Some _ => RInt (match expiry now σ k with
                        | Some t => ttl_seconds (t - now)
                        | None => -1
                        end)
      end, σ)
  | ATTEMPT k ttl => attempt now k ttl σ
  | XADD k maxlen fs =>
     match get now σ k with
     | None => (RBulk (stream_id now []), <[k := mkEntry (RStream [fs]) None]> σ)
     | Some (RStream es) =>
        let es' := es ++ [fs] in
        (RBulk (stream_id now es),
         <[k := mkEntry (RStream (drop (length es' - maxlen) es')) (expiry now σ k)]> σ)
     | Some _ => (RError WRONGTYPE, σ)
     end
  | XREVRANGE k n =>
     (match get now σ k with
      | None => REntries []
      | Some (RStream es) => REntries (take n (rev es))
      | Some _ => RError WRONGTYPE
      end, σ)
  end.

End Server.

(** A transaction runs every command, also after one that fails. *)
Fixpoint exec_all (ex : cmd → server → reply * server) (cs : list cmd) (σ : server)
    : list reply * server :=
  match cs with
  | [] => ([], σ)
  | c :: cs =>
     let '(r, σ1) := ex c σ in
     let '(rs, σ2) := exec_all ex cs σ1 in (r :: rs, σ2)
  end.

(** ** The server *)

(** The times a value is kept and the lengths are positive. *)
Definition cmd_ok (c : cmd) : bool :=
  match c with
  | SET _ _ (For d) => 0 <? d
  | XADD _ n _ | XREVRANGE _ n => Nat.ltb 0 n
  | _ => true
  end.

Class Redis := {
  redis_values :: RedisValues;
  redis_exec `{MapRange} : Time → cmd → server → reply * server;
  command_documented `{MapRange} now c σ :
    cmd_ok c = true → redis_exec now c σ = exec now c σ;
}.

(** ** Programs of requests *)

Inductive prog (A : Type) :=
| Ret (a : A)
| Request (cs : list cmd) (k : result rerror (list reply) → prog A).
Arguments Ret {A}.
Arguments Request {A}.

Fixpoint bind {A B} (p : prog A) (f : A → prog B) : prog B :=
  match p with Ret a => f a | Request cs k => Request cs (λ r, bind (k r) f) end.

Inductive verdict := Answered | Unsent (err : string) | Unheard (err : string).
Record event := mkEvent { clock : Time; others : server → server; outcome : verdict }.

Section Run.
Context `{MR : MapRange} `{RD : Redis}.

Definition request (e : event) (cs : list cmd) (σ : server) : result rerror (list reply) * server :=
  let σ := others e σ in
  match outcome e with
  | Unsent err => (Err (Network err), σ)
  | Unheard err => (Err (Network err), (exec_all (redis_exec (clock e)) cs σ).2)
  | Answered => let '(rs, σ') := exec_all (redis_exec (clock e)) cs σ in (Ok rs, σ')
  end.

(** One event per request; when there are no more, the program is alone at time [now]. *)
Fixpoint run {A} (now : Time) (p : prog A) (es : list event) (σ : server) : A * server :=
  match p with
  | Ret a => (a, σ)
  | Request cs k =>
     let '(r, σ') := request (hd (mkEvent now id Answered) es) cs σ in
     run now (k r) (tl es) σ'
  end.

Lemma exec_all_documented now cs σ :
  forallb cmd_ok cs = true → exec_all (redis_exec now) cs σ = exec_all (exec now) cs σ.
Proof.
  revert σ. induction cs as [|c cs IH]; intros σ; [done|]. cbn [forallb exec_all].
  intros [Hc Hcs]%andb_true_iff. rewrite command_documented by done.
  destruct (exec now c σ) as [r σ1]. by rewrite IH.
Qed.

Lemma run_request {A} now cs (k : result rerror (list reply) → prog A) σ :
  forallb cmd_ok cs = true →
  run now (Request cs k) [] σ
  = run now (k (Ok (exec_all (exec now) cs σ).1)) [] (exec_all (exec now) cs σ).2.
Proof.
  intros Hcs. cbn [run hd tl]. unfold request. cbn [others outcome clock]. unfold id.
  rewrite exec_all_documented by done. by destruct (exec_all (exec now) cs σ).
Qed.

End Run.

(** A server that rounds to the nearest second. *)
Definition second_values : RedisValues.
Proof.
  refine {| kept_for d := if d <? Millisecond then Millisecond else d / Millisecond * Millisecond;
            ttl_seconds d := (d + 500 * Millisecond) / Second;
            stream_id now es := Itoa now |}; intros d Hd.
  - unfold Millisecond. destruct (Z.ltb_spec d 1000000); [lia|].
    Z.to_euclidean_division_equations. lia.
  - unfold Millisecond in *. intros Hm. destruct (Z.ltb_spec d 1000000);
      Z.to_euclidean_division_equations; lia.
  - unfold Millisecond, Second. split; [apply Z.div_pos; lia|].
    Z.to_euclidean_division_equations. lia.
Defined.

#[export] Instance nearest_second : Redis | 100 :=
  {| redis_values := second_values; redis_exec MR := @exec MR second_values;
     command_documented _ _ _ _ _ := eq_refl |}.

End Redis.
