(* ===== verification/RedisStore.v ===== *)
(** * The Redis store ([internal/store/redis.go])

    The operations of [RedisStore] as programs of requests.  The store also has a
    [MemoryStore], which nothing fills: listings without a user or a session read it.
    [uuid] and the times are the results of [uuid.New().String()] and of the calls of
    [time.Now], in order. *)

From S2P Require Import Prelude GoStrings MemoryStore StoreJSON Redis.

Module RedisStore.
Import MemoryStore StoreJSON Redis.
Local Open Scope Z_scope.

(** ** Keys *)

Definition sessionKey (id : string) : string := "session:" +:+ id.
Definition userSessionsKey (username : string) : string := "user:sessions:" +:+ username.
Definition tunnelKey (id : string) : string := "tunnel:" +:+ id.
Definition sessionTunnelsKey (id : string) : string := "session:tunnels:" +:+ id.
Definition rateLimitKey (key : string) : string := "ratelimit:" +:+ key.
Definition rateLimitLockKey (key : string) : string := "ratelimit:lock:" +:+ key.

Definition audit_stream : string := "audit:log".

Definition limitOrDefault (limit fallback : Z) : Z := if 0 <? limit then limit else fallback.

Definition Hour : Duration := 60 * Minute.
Definition day : Duration := 24 * Hour.

(** ** Errors *)

Inductive error :=
| NotFound
| RedisError (e : rerror)
| JSONError (e : string)
| Unexpected.

#[export] Instance error_eq_dec : EqDecision error.
Proof. solve_decision. Defined.

(** The error of a reply, and of a transaction: its first one. *)
Definition reply_err (r : reply) : option error :=
  match r with RError e => Some (RedisError e) | _ => None end.
Fixpoint first_err (rs : list reply) : option error :=
  match rs with
  | [] => None
  | r :: rs => match reply_err r with Some e => Some e | None => first_err rs end
  end.
Definition tx_err (r : result rerror (list reply)) : option error :=
  match r with Err e => Some (RedisError e) | Ok rs => first_err rs end.

(** One command and its reply. *)
Definition send {A} (c : cmd) (k : reply → prog A) : prog A :=
  Request [c] (λ r, k match r with Err e => RError e | Ok (x :: _) => x | Ok [] => RNil end).

(** [client.Set]: no time for zero, [KEEPTTL] for -1. *)
Definition keep_of (d : Duration) : keep :=
  if 0 <? d then For d else if d =? -1 then Keep else Forever.

Section Store.
Context `{MR : MapRange} `{AV : AnyValues}.

(** ** Sessions *)

(** [CreateSession] *)
Definition CreateSession (uuid : string) (now : Time) (sess : Session)
    : prog (option error * Session) :=
  let sess :=
    mkSession (if bool_decide (SessID sess = "") then uuid else SessID sess) (Username sess)
      (Role sess) (RemoteAddr sess) now now (ClosedAt sess)
      (if bool_decide (Status sess = "") then "active" else Status sess) (Metadata sess) in
  match marshal_session sess with
  | Err e => Ret (Some (JSONError e), sess)
  | Ok data =>
     Request [SET (sessionKey (SessID sess)) data (keep_of day);
              SADD (userSessionsKey (Username sess)) (SessID sess)]
       (λ r, Ret (tx_err r, sess))
  end.

(** A value that is read: a missing key is [ErrNotFound]. *)
Definition read_as {A} (unmarshal : string → result string A) (r : reply) : result error A :=
  match r with
  | RNil => Err NotFound
  | RBulk data => match unmarshal data with Ok a => Ok a | Err e => Err (JSONError e) end
  | RError e => Err (RedisError e)
  | _ => Err Unexpected
  end.

(** [GetSession] *)
Definition GetSession (id : string) : prog (result error Session) :=
  send (GET (sessionKey id)) (λ r, Ret (read_as unmarshal_session r)).

(** [UpdateSession] *)
Definition UpdateSession (now : Time) (sess : Session) : prog (option error * Session) :=
  let sess := with_LastActive sess now in
  match marshal_session sess with
  | Err e => Ret (Some (JSONError e), sess)
  | Ok data => send (SET (sessionKey (SessID sess)) data (keep_of day))
                 (λ r, Ret (reply_err r, sess))
  end.

(** [DeleteSession] *)
Definition DeleteSession (id : string) : prog (option error) :=
  bind (GetSession id) (λ r,
    match r with
    | Err e => Ret (Some e)
    | Ok sess =>
       Request [DEL (sessionKey id); SREM (userSessionsKey (Username sess)) id]
         (λ r, Ret (tx_err r))
    end).

(** [SMembers(...).Result()] *)
Definition members (r : reply) : result error (list string) :=
  match r with
  | RMembers ids => Ok ids
  | RError e => Err (RedisError e)
  | _ => Err Unexpected
  end.

(** The loop over the ids: one that cannot be read is passed over. *)
Fixpoint collect {A} (get : string → prog (result error A)) (wanted : A → bool)
    (ids : list string) (acc : list A) : prog (list A) :=
  match ids with
  | [] => Ret acc
  | id :: ids =>
     bind (get id) (λ r,
       match r with
       | Err _ => collect get wanted ids acc
       | Ok a => collect get wanted ids (if wanted a then acc ++ [a] else acc)
       end)
  end.

(** [ListSessions]; [None] is the panic of the window. *)
Definition ListSessions (memory : MemoryStore.t) (f : SessionFilter)
    : prog (option (result error (list Session))) :=
  if bool_decide (SFUsername f = "")
  then Ret (Ok <$> MemoryStore.ListSessions memory f)
  else send (SMEMBERS (userSessionsKey (SFUsername f))) (λ r,
    match members r with
    | Err e => Ret (Some (Err e))
    | Ok ids =>
       bind (collect GetSession (λ s, crit (SFStatus f) (Status s)) ids [])
         (λ l, Ret (Ok <$> applySessionWindow l (SFLimit f) (SFOffset f)))
    end).

(** [CountActiveSessions] *)
Definition CountActiveSessions (memory : MemoryStore.t) (username : string)
    : prog (option (result error Z)) :=
  bind (ListSessions memory (mkSessionFilter username "active" None "" 0 0)) (λ r,
    Ret (match r with
         | Some (Ok l) => Some (Ok (Z.of_nat (length l)))
         | Some (Err e) => Some (Err e)
         | None => None
         end)).

(** [TouchSession] *)
Definition TouchSession (now : Time) (id : string) : prog (option error) :=
  bind (GetSession id) (λ r,
    match r with
    | Err e => Ret (Some e)
    | Ok sess => bind (UpdateSession now sess) (λ r, Ret r.1)
    end).

(** ** Tunnels *)

(** [CreateTunnel] *)
Definition CreateTunnel (uuid : string) (now : Time) (tun : Tunnel)
    : prog (option error * Tunnel) :=
  let tun :=
    mkTunnel (if bool_decide (TunID tun = "") then uuid else TunID tun) (TunSessionID tun)
      (TunType tun) (TunLocalAddr tun) (TunRemoteAddr tun) now (TunClosedAt tun)
      (BytesSent tun) (BytesRecv tun)
      (if bool_decide (TunStatus tun = "") then "active" else TunStatus tun)
      (TunMetadata tun) in
  match marshal_tunnel tun with
  | Err e => Ret (Some (JSONError e), tun)
  | Ok data =>
     Request [SET (tunnelKey (TunID tun)) data (keep_of day);
              SADD (sessionTunnelsKey (TunSessionID tun)) (TunID tun)]
       (λ r, Ret (tx_err r, tun))
  end.

(** [GetTunnel] *)
Definition GetTunnel (id : string) : prog (result error Tunnel) :=
  send (GET (tunnelKey id)) (λ r, Ret (read_as unmarshal_tunnel r)).

(** [UpdateTunnel] *)
Definition UpdateTunnel (tun : Tunnel) : prog (option error) :=
  match marshal_tunnel tun with
  | Err e => Ret (Some (JSONError e))
  | Ok data => send (SET (tunnelKey (TunID tun)) data (keep_of day)) (λ r, Ret (reply_err r))
  end.

(** [DeleteTunnel] *)
Definition DeleteTunnel (id : string) : prog (option error) :=
  bind (GetTunnel id) (λ r,
    match r with
    | Err e => Ret (Some e)
    | Ok tun =>
       Request [DEL (tunnelKey id); SREM (sessionTunnelsKey (TunSessionID tun)) id]
         (λ r, Ret (tx_err r))
    end).

(** [ListTunnels] *)
Definition ListTunnels (memory : MemoryStore.t) (f : TunnelFilter)
    : prog (option (result error (list Tunnel))) :=
  if bool_decide (TFSessionID f = "")
  then Ret (Ok <$> MemoryStore.ListTunnels memory f)
  else send (SMEMBERS (sessionTunnelsKey (TFSessionID f))) (λ r,
    match members r with
    | Err e => Ret (Some (Err e))
    | Ok ids =>
       bind (collect GetTunnel
               (λ t, crit (TFType f) (TunType t) && crit (TFStatus f) (TunStatus t)) ids [])
         (λ l, Ret (Ok <$> applyTunnelWindow l (TFLimit f) (TFOffset f)))
    end).

(** [DeleteTunnelsBySession]: the ids are returned also with the error. *)
Definition DeleteTunnelsBySession (sessionID : string) : prog (list string * option error) :=
  send (SMEMBERS (sessionTunnelsKey sessionID)) (λ r,
    match members r with
    | Err e => Ret ([], Some e)
    | Ok ids =>
       Request (((λ id, DEL (tunnelKey id)) <$> ids) ++ [DEL (sessionTunnelsKey sessionID)])
         (λ r, Ret (ids, tx_err r))
    end).

(** ** Attempts *)

(** [int(window.Seconds())], for windows whose seconds a float64 holds exactly. *)
Definition seconds (window : Duration) : Z := window `quot` Second.

(** [IncrementAttempts] *)
Definition IncrementAttempts (key : string) (window : Duration) : prog (Z * option error) :=
  send (ATTEMPT (rateLimitKey key) (seconds window)) (λ r,
    Ret (match r with
         | RInt n => (n, None)
         | RError e => (0, Some (RedisError e))
         | _ => (0, Some Unexpected)
         end)).

(** [GetAttempts]: [Int()] reads the number in the string. *)
Definition GetAttempts (key : string) : prog (Z * option error) :=
  send (GET (rateLimitKey key)) (λ r,
    Ret (match r with
         | RNil => (0, None)
         | RBulk s => match Atoi s with Some n => (n, None) | None => (0, Some Unexpected) end
         | RError e => (0, Some (RedisError e))
         | _ => (0, Some Unexpected)
         end)).

(** [ResetAttempts] *)
Definition ResetAttempts (key : string) : prog (option error) :=
  Request [DEL (rateLimitKey key); DEL (rateLimitLockKey key)] (λ r, Ret (tx_err r)).

(** [IsLocked]: [TTL] in seconds, negative when there is none. *)
Definition IsLocked (key : string) (_ : Duration) : prog (bool * option error) :=
  send (TTL (rateLimitLockKey key)) (λ r,
    Ret (match r with
         | RInt n => (0 <? n, None)
         | RError e => (false, Some (RedisError e))
         | _ => (false, Some Unexpected)
         end)).

(** [Lock] *)
Definition Lock (key : string) (duration : Duration) : prog (option error) :=
  send (SET (rateLimitLockKey key) "locked" (keep_of duration)) (λ r, Ret (reply_err r)).

(** ** The audit log *)

(** [AppendAuditLog] *)
Definition AppendAuditLog (uuid : string) (now : Time) (e : AuditEntry)
    : prog (option error * AuditEntry) :=
  let e := mkAudit (if bool_decide (AuditID e = "") then uuid else AuditID e) now
             (CorrelationID e) (TraceID e) (Action e) (AuditUsername e) (AuditRole e)
             (Resource e) (Result e) (Details e) (SourceIP e) in
  match marshal_audit e with
  | Err err => Ret (Some (JSONError err), e)
  | Ok data => send (XADD audit_stream (Z.to_nat 10000) {["data" := data]}) (λ r, Ret (reply_err r, e))
  end.

(** The loop over the entries of the stream. *)
Definition entry_matches (f : AuditFilter) (e : AuditEntry) : bool :=
  crit (AFUsername f) (AuditUsername e) && crit (AFAction f) (Action e)
  && crit (AFResult f) (Result e).
Fixpoint read_entries (f : AuditFilter) (es : list (gmap string string)) : list AuditEntry :=
  match es with
  | [] => []
  | fs :: es =>
     match fs !! "data" with
     | None => read_entries f es
     | Some raw =>
        match unmarshal_audit raw with
        | Err _ => read_entries f es
        | Ok e => if entry_matches f e then e :: read_entries f es else read_entries f es
        end
     end
  end.

(** [QueryAuditLog] *)
Definition QueryAuditLog (f : AuditFilter) : prog (option (result error (list AuditEntry))) :=
  send (XREVRANGE audit_stream (Z.to_nat (limitOrDefault (AFLimit f) 1000))) (λ r,
    Ret (match r with
         | REntries es =>
            Ok <$> applyAuditWindow (read_entries f es) (AFLimit f) (AFOffset f)
         | RError e => Some (Err (RedisError e))
         | _ => Some (Err Unexpected)
         end)).

(** [CleanupInactiveSessions] and [CleanupOldAuditLogs] do nothing. *)
Definition CleanupInactiveSessions (_ : Duration) : prog (Z * option error) := Ret (0, None).
Definition CleanupOldAuditLogs (_ : Duration) : prog (Z * option error) := Ret (0, None).

End Store.

(** ** Connecting *)

Record RedisConfig := mkRedisConfig { Addr : string; Password : string; DB : Z; PoolSize : Z }.

(** The store: the options of its client and its memory. *)
Record RedisStore := mkRedisStore { client : RedisConfig; memory : MemoryStore.t }.

(** [NewRedisStore]: [ping] is the error of the first [PING] of a client. *)
Definition NewRedisStore (ping : RedisConfig → option string) (cfg : RedisConfig)
    : result string RedisStore :=
  let cfg := mkRedisConfig (if bool_decide (Addr cfg = "") then "localhost:6379" else Addr cfg)
               (Password cfg) (DB cfg) (if PoolSize cfg <=? 0 then 10 else PoolSize cfg) in
  match ping cfg with
  | Some err => Err ("conectando a Redis: " +:+ err)
  | None => Ok (mkRedisStore cfg NewMemoryStore)
  end.

(** [Health] and [Close] hand on the error of the client. *)
Definition Health (ping : option string) : option string := ping.
Definition Close (close : option string) : option string := close.

End RedisStore.
