(* ===== verification/RedisProps.v ===== *)
(** * Properties of the Redis store

    What an operation answers after others at other times of the server's clock, which
    keys can meet, and what the listings of the audit log can show. *)

From S2P Require Import Prelude GoStrings GoTime JSON JSONParse JSONValue JSONDecode MemoryStore StoreJSON Redis RedisStore.

Module RedisProps.
Import MemoryStore StoreJSON Redis RedisStore.
Local Open Scope Z_scope.

(** ** The key space *)

Section Keys.

Lemma get_insert now σ k c t :
  get now (<[k := mkEntry c t]> σ) k
  = if live now (mkEntry c t) then Some c else None.
Proof. unfold get. by rewrite lookup_insert_eq. Qed.
Lemma get_insert_ne now σ k k' e : k ≠ k' → get now (<[k := e]> σ) k' = get now σ k'.
Proof. intros. unfold get. by rewrite lookup_insert_ne. Qed.

(** The prefixes of the keys decide what the rest can be. *)
Lemma app_inj_l (p s t : string) : p +:+ s = p +:+ t → s = t.
Proof. induction p as [|a p IH]; [done|]. rewrite !string_app_cons. intros [= H]. by apply IH. Qed.

End Keys.

(** The kinds of keys. *)
Inductive key :=
| KSession (id : string)
| KUserSessions (u : string)
| KTunnel (id : string)
| KSessionTunnels (id : string)
| KAttempts (k : string)
| KLock (k : string)
| KAudit.

Definition key_name (k : key) : string :=
  match k with
  | KSession id => sessionKey id
  | KUserSessions u => userSessionsKey u
  | KTunnel id => tunnelKey id
  | KSessionTunnels id => sessionTunnelsKey id
  | KAttempts k => rateLimitKey k
  | KLock k => rateLimitLockKey k
  | KAudit => audit_stream
  end.

(** The names that keep apart: no session is called [tunnels:...] and no counter
    [lock:...]. *)
Definition safe_key (k : key) : bool :=
  match k with
  | KSession id => negb (HasPrefix id "tunnels:")
  | KAttempts k => negb (HasPrefix k "lock:")
  | _ => true
  end.

Lemma not_prefix p s t : HasPrefix s p = false → s ≠ p +:+ t.
Proof.
  intros H E. assert (HasPrefix s p = true); [|congruence]. apply HasPrefix_spec. by exists t.
Qed.

Lemma key_name_inj k k' :
  safe_key k = true → safe_key k' = true → key_name k = key_name k' → k = k'.
Proof.
  destruct k, k'; cbn; intros H H' E; bool_to_prop; try discriminate E; try done.
  all: unfold sessionKey, userSessionsKey, tunnelKey, sessionTunnelsKey, rateLimitKey,
         rateLimitLockKey in E.
  all: try (by apply app_inj_l in E; subst).
  - change ("session:tunnels:" +:+ id0) with ("session:" +:+ ("tunnels:" +:+ id0)) in E.
    apply app_inj_l in E. by destruct (not_prefix _ _ id0 H).
  - change ("session:tunnels:" +:+ id) with ("session:" +:+ ("tunnels:" +:+ id)) in E.
    apply app_inj_l in E. by destruct (not_prefix _ _ id H').
  - change ("ratelimit:lock:" +:+ k0) with ("ratelimit:" +:+ ("lock:" +:+ k0)) in E.
    apply app_inj_l in E. by destruct (not_prefix _ _ k0 H).
  - change ("ratelimit:lock:" +:+ k) with ("ratelimit:" +:+ ("lock:" +:+ k)) in E.
    apply app_inj_l in E. by destruct (not_prefix _ _ k H').
Qed.

(** ** Requests *)

Section Requests.
Context `{MR : MapRange} `{RD : Redis}.

Lemma run_send {A} now c (k : reply → prog A) σ :
  cmd_ok c = true →
  run now (send c k) [] σ = run now (k (exec now c σ).1) [] (exec now c σ).2.
Proof.
  intros Hc. unfold send. rewrite run_request by (cbn; by rewrite Hc). cbn [exec_all]. by destruct (exec now c σ).
Qed.

Lemma day_pos : 0 < day ∧ day mod Millisecond = 0.
Proof. done. Qed.

Lemma kept_for_day : kept_for day = day.
Proof. by apply kept_for_exact. Qed.

(** ** Attempts *)

Lemma Atoi_Itoa n : 0 <= n → in_int64 n → Atoi (Itoa n) = Some n.
Proof.
  intros Hn Hi. pose proof (digits_value_Itoa n Hn) as Hd.
  assert (n = 0 ∨ 0 < n) as [->|Hp] by lia; [done|].
  destruct (JSONValue.Itoa_first n Hp) as (a & t & d & E & Ha & _). rewrite E in *.
  unfold digit in Ha. destruct (_ && _) eqn:Hb in Ha; [|done]. bool_to_prop. unfold Atoi.
  assert (Hne : ∀ c, byte_val c < 48 → a ≠ c) by (intros c Hc ->; lia).
  rewrite (bool_decide_eq_false_2 _ (Hne "+"%char eq_refl)).
  rewrite (bool_decide_eq_false_2 _ (Hne "-"%char eq_refl)).
  rewrite bool_decide_eq_false_2 by done.
  rewrite Hd, Z.mul_1_l. by rewrite bool_decide_eq_true_2.
Qed.

(** A counter at [n] whose window ends at [t]. *)
Definition counter (σ : server) (k : string) (n : Z) (t : Time) : Prop :=
  σ !! rateLimitKey k = Some (mkEntry (RString (Itoa n)) (Some t)).

Lemma first_attempt now σ k w :
  get now σ (rateLimitKey k) = None → Second <= w →
  let res := run now (IncrementAttempts k w) [] σ in
  res.1 = (1, None) ∧ counter res.2 k 1 (now + seconds w * Second).
Proof.
  intros Hg Hw. assert (Hs : 0 < seconds w).
  { unfold seconds, Second in *. apply Z.quot_str_pos; lia. }
  unfold IncrementAttempts. rewrite run_send by done. cbn [exec]. unfold attempt. rewrite Hg.
  rewrite (proj2 (Z.leb_gt _ _) Hs). split; [done|]. unfold counter. cbn [run fst snd]. by rewrite lookup_insert_eq.
Qed.

Lemma next_attempt now σ k n t w :
  counter σ k n t → now < t → 0 <= n → in_int64 (n + 1) →
  let res := run now (IncrementAttempts k w) [] σ in
  res.1 = (n + 1, None) ∧ counter res.2 k (n + 1) t.
Proof.
  intros Hc Hnow Hn Hi. assert (in_int64 n) by (unfold in_int64, min_int64 in *; lia).
  unfold IncrementAttempts. rewrite run_send by done. cbn [exec]. unfold attempt, get, expiry.
  rewrite Hc. unfold live. cbn [expires held]. rewrite (proj2 (Z.ltb_lt _ _) Hnow).
  rewrite Atoi_Itoa by done. rewrite !bool_decide_eq_true_2 by done.
  cbn [andb]. split; [done|]. unfold counter. cbn [run fst snd]. by rewrite lookup_insert_eq.
Qed.

(** Attempts at given times, one after the other. *)
Fixpoint attempts (k : string) (w : Duration) (ts : list Time) (σ : server)
    : list (Z * option error) * server :=
  match ts with
  | [] => ([], σ)
  | t :: ts =>
     let '(r, σ1) := run t (IncrementAttempts k w) [] σ in
     let '(rs, σ2) := attempts k w ts σ1 in (r :: rs, σ2)
  end.

Lemma attempts_counter k w ts σ n t :
  counter σ k n t → Forall (λ u, u < t) ts → 0 <= n →
  in_int64 (n + Z.of_nat (length ts)) →
  (attempts k w ts σ).1 = (λ i, (n + Z.of_nat i, None)) <$> seq 1 (length ts)
  ∧ counter (attempts k w ts σ).2 k (n + Z.of_nat (length ts)) t.
Proof.
  revert σ n. induction ts as [|u ts IH]; intros σ n Hc Hts Hn Hi.
  { simpl. by rewrite Z.add_0_r. }
  inversion_clear Hts as [|? ? Hu Hts']. cbn [attempts length] in *.
  destruct (next_attempt u σ k n t w Hc Hu Hn) as [Hr Hc'].
  { unfold in_int64, min_int64, max_int64 in *. lia. }
  destruct (run u (IncrementAttempts k w) [] σ) as [r σ1]. cbn [fst snd] in *.
  destruct (IH σ1 (n + 1) Hc' Hts' ltac:(lia)) as [Hrs Hc''].
  { replace (n + 1 + Z.of_nat (length ts)) with (n + Z.of_nat (S (length ts))) by lia.
    exact Hi. }
  destruct (attempts k w ts σ1) as [rs σ2]. cbn [fst snd] in *. split.
  - cbn [seq fmap list_fmap]. rewrite Hr, Hrs. f_equal.
    rewrite <-(fmap_S_seq 1), <-list_fmap_compose.
    apply list_fmap_ext. intros i x _. unfold compose. f_equal. lia.
  - replace (n + Z.of_nat (S (length ts))) with (n + 1 + Z.of_nat (length ts)) by lia.
    exact Hc''.
Qed.

Lemma GetAttempts_counter now σ k n t :
  counter σ k n t → 0 <= n → in_int64 n →
  (run now (GetAttempts k) [] σ).1 = (if now <? t then n else 0, None).
Proof.
  intros Hc Hn Hi. unfold GetAttempts. rewrite run_send by done. cbn [exec fst]. unfold get. rewrite Hc.
  unfold live. cbn [expires held]. destruct (now <? t); [|done].
  cbn [run fst]. by rewrite Atoi_Itoa.
Qed.

(** ** Sessions *)

Context `{AV : AnyValues}.

(** A key that holds a set, or nothing. *)
Definition set_or_none (now : Time) (σ : server) (k : string) : Prop :=
  match get now σ k with None | Some (RSet _) => True | Some _ => False end.

(** The argument of [CreateSession] after the call. *)
Definition created (uuid : string) (now : Time) (s : Session) : Session :=
  mkSession (if bool_decide (SessID s = "") then uuid else SessID s) (Username s) (Role s)
    (RemoteAddr s) now now (ClosedAt s) (if bool_decide (Status s = "") then "active" else Status s)
    (Metadata s).

Lemma session_user_keys id u : sessionKey id ≠ userSessionsKey u.
Proof. done. Qed.

(** The session is stored under its key, for a day. *)
Lemma CreateSession_stores t0 uuid now s data σ :
  marshal_session (created uuid now s) = Ok data →
  set_or_none t0 σ (userSessionsKey (Username s)) →
  let res := run t0 (CreateSession uuid now s) [] σ in
  res.1 = (None, created uuid now s)
  ∧ res.2 !! sessionKey (SessID (created uuid now s))
    = Some (mkEntry (RString data) (Some (t0 + day))).
Proof.
  intros Hm Hu. unfold CreateSession. fold (created uuid now s). cbv zeta. rewrite Hm, run_request by done.
  cbn [exec_all exec]. unfold set_or_none in Hu.
  rewrite get_insert_ne by apply session_user_keys. cbn [Username created].
  assert (kept_for day = day) as Hd by apply kept_for_day.
  destruct (get t0 σ (userSessionsKey (Username s))) as [[]|]; try done;
    cbn [run fst snd tx_err first_err reply_err]; (split; [done|]);
    rewrite lookup_insert_ne by done; rewrite lookup_insert_eq;
    unfold keep_of; cbn [Z.ltb]; change (0 <? day) with true; cbv iota; by rewrite Hd.
Qed.

Lemma GetSession_stored t id data σ e :
  σ !! sessionKey id = Some (mkEntry (RString data) (Some e)) →
  (run t (GetSession id) [] σ).1
  = if t <? e then read_as unmarshal_session (RBulk data) else Err NotFound.
Proof.
  intros H. unfold GetSession. rewrite run_send by done. cbn [exec fst run]. unfold get. rewrite H.
  unfold live. cbn [expires held]. by destruct (t <? e).
Qed.

(** ** Locks *)

Lemma Lock_stores t0 k d σ :
  0 < d →
  let res := run t0 (Lock k d) [] σ in
  res.1 = None
  ∧ res.2 !! rateLimitLockKey k = Some (mkEntry (RString "locked") (Some (t0 + kept_for d))).
Proof.
  intros Hd. unfold Lock, keep_of. rewrite (proj2 (Z.ltb_lt _ _) Hd).
  rewrite run_send by (by apply Z.ltb_lt). cbn [exec fst snd run]. split; [done|].
  by rewrite lookup_insert_eq.
Qed.

Lemma IsLocked_stored t k d' σ c e :
  σ !! rateLimitLockKey k = Some (mkEntry c (Some e)) →
  (run t (IsLocked k d') [] σ).1 = ((t <? e) && (0 <? ttl_seconds (e - t)), None).
Proof.
  intros H. unfold IsLocked. rewrite run_send by done. cbn [exec fst run]. unfold get, expiry. rewrite H.
  unfold live. cbn [expires held]. by destruct (t <? e).
Qed.

(** ** The audit log *)

Lemma read_entries_length f es : (length (read_entries f es) <= length es)%nat.
Proof.
  induction es as [|fs es IH]; [done|]. cbn [read_entries length].
  destruct (fs !! "data"); [|lia]. destruct (unmarshal_audit s) as [e|]; [|lia].
  destruct (entry_matches f e); simpl; lia.
Qed.

(** What the stream holds. *)
Definition stream (now : Time) (σ : server) : option (list (gmap string string)) :=
  match get now σ audit_stream with
  | None => Some []
  | Some (RStream es) => Some es
  | Some _ => None
  end.

Lemma limit_positive n : Nat.ltb 0 (Z.to_nat (limitOrDefault n 1000)) = true.
Proof. apply Nat.ltb_lt. unfold limitOrDefault. destruct (Z.ltb_spec 0 n); lia. Qed.

Lemma QueryAuditLog_stream now f σ es :
  stream now σ = Some es →
  (run now (QueryAuditLog f) [] σ).1
  = Ok <$> applyAuditWindow
             (read_entries f (take (Z.to_nat (limitOrDefault (AFLimit f) 1000)) (rev es)))
             (AFLimit f) (AFOffset f).
Proof.
  intros H. unfold QueryAuditLog. rewrite run_send by apply limit_positive. cbn [exec fst run]. unfold stream in H.
  destruct (get now σ audit_stream) as [[]|]; simplify_eq; [done|].
  cbn [rev]. by rewrite take_nil.
Qed.

Lemma AppendAuditLog_stream now uuid tnow e σ es data :
  stream now σ = Some es →
  let e' := mkAudit (if bool_decide (AuditID e = "") then uuid else AuditID e) tnow
              (CorrelationID e) (TraceID e) (Action e) (AuditUsername e) (AuditRole e)
              (Resource e) (Result e) (Details e) (SourceIP e) in
  marshal_audit e' = Ok data →
  expiry now σ audit_stream = None →
  let res := run now (AppendAuditLog uuid tnow e) [] σ in
  let es' := es ++ [{["data" := data]}] in
  res.1 = (None, e')
  ∧ stream now res.2 = Some (drop (length es' - Z.to_nat 10000) es')
  ∧ expiry now res.2 audit_stream = None.
Proof.
  intros Hs e' Hm Hx. unfold AppendAuditLog. fold e'. cbv zeta. rewrite Hm, run_send by done. cbn [exec].
  unfold stream in Hs. destruct (get now σ audit_stream) as [[]|] eqn:Hg; simplify_eq.
  - rewrite Hx. cbn [run fst snd reply_err]. split; [done|]. unfold stream, expiry.
    by rewrite get_insert, lookup_insert_eq.
  - cbn [run fst snd reply_err]. split; [done|]. unfold stream, expiry.
    rewrite get_insert, lookup_insert_eq. cbn [app length].
    split; [|done]. unfold live. cbn [expires].
    replace (1 - Z.to_nat 10000)%nat with 0%nat by lia. done.
Qed.

(** A query of the newest entries, without criteria. *)
Definition newest (n : Z) : AuditFilter := mkAuditFilter "" "" "" None None n 0.

Lemma QueryAuditLog_newest now n σ es :
  stream now σ = Some es → 0 < n <= 10000 →
  (run now (QueryAuditLog (newest n)) [] σ).1
  = Some (Ok (read_entries (newest n) (take (Z.to_nat n) (rev es)))).
Proof.
  intros Hs Hn. rewrite (QueryAuditLog_stream now (newest n) σ es Hs).
  cbn [AFLimit AFOffset newest]. unfold limitOrDefault. rewrite (proj2 (Z.ltb_lt 0 n)) by lia.
  set (l := read_entries _ _).
  assert (Hlen : Z.of_nat (length l) <= n).
  { pose proof (read_entries_length (newest n) (take (Z.to_nat n) (rev es))) as H.
    rewrite length_take in H. fold l in H. lia. }
  unfold applyAuditWindow. rewrite applyWindow_spec by (unfold in_int64, min_int64, max_int64; lia).
  unfold window_overflows, MemoryStore.page. rewrite (proj2 (Z.ltb_lt 0 n)) by lia.
  rewrite (proj2 (Z.ltb_ge max_int64 _)) by (unfold max_int64; lia). rewrite !andb_false_r.
  cbn [fmap option_fmap option_map]. rewrite drop_0, take_ge by lia. done.
Qed.

(** The criteria do not depend on how many are asked for. *)
Lemma read_entries_newest n n' es : read_entries (newest n) es = read_entries (newest n') es.
Proof.
  induction es as [|fs es IH]; [done|]. cbn [read_entries]. rewrite IH.
  destruct (fs !! "data"); [|done]. by destruct (unmarshal_audit s) as [e|].
Qed.

(** Trimming keeps the newest. *)
Lemma take_rev_trimmed {A} n (es : list A) x m :
  (S n <= m)%nat →
  take (S n) (rev (drop (length (es ++ [x]) - m) (es ++ [x]))) = x :: take n (rev es).
Proof.
  intros H. rewrite <-firstn_rev, rev_app_distr, take_take, Nat.min_l by done. done.
Qed.

End Requests.

(** ** A store to try *)

(** Values that are all [nil]. *)
#[export] Instance nulls : AnyValues := {|
  any_json _ := Some JNull;
  any_of v := match v with JSONValue.VNull => Some 0%nat | _ => None end;
|}.
Definition demo_t0 : Time := 1700000000 * Second.
Definition demo_ana : Session :=
  mkSession "s1" "ana" "operator" "10.0.0.1:22" 0 0 None "" (Some {["note" := 0%nat]}).
Definition demo_login : AuditEntry :=
  mkAudit "a2" 0 "c1" "" "login" "ana" "operator" "ssh" "ok" None "10.0.0.1".
Definition demo_logged : gmap string entry :=
  (run demo_t0 (AppendAuditLog "a1" demo_t0 (mkAudit "" 0 "" "" "login" "bob" "viewer" "ssh" "denied" None
                                     "10.0.0.2")) [] ∅).2.

(** ** The properties *)

(** For names that keep apart (no session id starts with [tunnels:] and no counter's
    key with [lock:]) the keys of different things are different: what one operation
    writes cannot be another's value. *)
Lemma redis_keys_do_not_meet (k k' : key) :
  safe_key k = true → safe_key k' = true → key_name k = key_name k' → k = k'.
Proof. apply key_name_inj. Qed.

Lemma redis_keys_do_not_meet_witness :
  key_name (KSession "tunnels") = key_name (KSession "tunnels")
  ∧ (key_name (KSession "tunnels") = key_name (KSessionTunnels "")
     → KSession "tunnels" = KSessionTunnels "").
Proof. split; [done|]. apply redis_keys_do_not_meet; reflexivity. Defined.

(** C37: A session that [CreateSession] stores is returned by [GetSession] with the same
    fields for a day (of the server's clock) and is not found after it. *)
Theorem redis_session_round_trip `{MR : MapRange} `{RD : Redis} `{AV : AnyValues}
    (t0 t now : Time) (uuid data : string) (s : Session) (md : JSONMap) (σ : gmap string entry) :
  let s' := created uuid now s in
  marshal_session s' = Ok data → view (Metadata s) = Some md →
  forallb utf8 [SessID s'; Username s'; Role s'; RemoteAddr s'; Status s'] = true →
  set_or_none t0 σ (userSessionsKey (Username s)) →
  let res := run t0 (CreateSession uuid now s) [] σ in
  res.1.1 = None
  ∧ (run t (GetSession (SessID s')) [] res.2).1
    = if t <? t0 + day
      then Ok (mkSession (SessID s') (Username s') (Role s') (RemoteAddr s') now now
                 (ClosedAt s) (Status s') md)
      else Err NotFound.
Proof.
  intros s' Hm Hv Hu Hset res.
  destruct (CreateSession_stores t0 uuid now s data σ Hm Hset) as [Hr Hk]. fold s' res in Hr, Hk.
  split; [by rewrite Hr|]. rewrite (GetSession_stored t _ data _ _ Hk).
  destruct (t <? t0 + day); [|done]. cbn [read_as]. rewrite (session_back s' data md); [|done|done].
  cbn [forallb] in Hu. rewrite !andb_true_iff in Hu. destruct Hu as (H1 & H2 & H3 & H4 & H5 & _).
  unfold clean_session. by rewrite !utf8_sanitize.
Qed.

Lemma redis_session_round_trip_witness :
  let res := run demo_t0 (CreateSession "" demo_t0 demo_ana) [] ∅ in
  (run (demo_t0 + Hour) (GetSession "s1") [] res.2).1
  = Ok (mkSession "s1" "ana" "operator" "10.0.0.1:22" demo_t0 demo_t0 None "active"
          (Some {["note" := 0%nat]}))
  ∧ (run (demo_t0 + day) (GetSession "s1") [] res.2).1 = Err NotFound.
Proof.
  split; refine (proj2 (redis_session_round_trip demo_t0 _ demo_t0 "" _ demo_ana _ ∅ _ _ _ _));
    try (vm_compute; reflexivity).
Defined.

(** The attempts on a key are counted from 1, atomically, as long as the window of the
    first one lasts, and the count is gone when it is over. *)
Lemma redis_attempts_count `{MR : MapRange} `{RD : Redis} (k : string) (w : Duration)
    (t0 t : Time) (ts : list Time) (σ : gmap string entry) :
  Redis.get t0 σ (rateLimitKey k) = None → Second <= w →
  let ends := t0 + seconds w * Second in
  Forall (λ u, u < ends) ts → Z.of_nat (S (length ts)) <= max_int64 →
  let res := attempts k w (t0 :: ts) σ in
  res.1 = (λ i, (Z.of_nat i, None)) <$> seq 1 (S (length ts))
  ∧ (run t (GetAttempts k) [] res.2).1
    = (if t <? ends then Z.of_nat (S (length ts)) else 0, None).
Proof.
  intros Hg Hw ends Hts Hn res. unfold res. cbn [attempts].
  destruct (first_attempt t0 σ k w Hg Hw) as [Hr Hc].
  destruct (run t0 (IncrementAttempts k w) [] σ) as [r σ1]. cbn [fst snd] in Hr, Hc.
  destruct (attempts_counter k w ts σ1 1 ends Hc Hts ltac:(done)) as [Hrs Hc'].
  { unfold in_int64, min_int64. lia. }
  destruct (attempts k w ts σ1) as [rs σ2]. cbn [fst snd] in *. split.
  - cbn [seq fmap list_fmap]. rewrite Hr, Hrs. f_equal.
    rewrite <-(fmap_S_seq 1), <-list_fmap_compose.
    apply list_fmap_ext. intros i x _. unfold compose. f_equal. lia.
  - rewrite (GetAttempts_counter t σ2 k _ ends Hc'); [|lia|unfold in_int64, min_int64; lia].
    destruct (t <? ends); [|done]. f_equal. lia.
Qed.

Lemma redis_attempts_count_witness :
  let res := attempts "ana" Minute [demo_t0; demo_t0 + Second; demo_t0 + 2 * Second] ∅ in
  res.1 = [(1, None); (2, None); (3, None)]
  ∧ (run (demo_t0 + Minute) (GetAttempts "ana") [] res.2).1 = (0, None).
Proof.
  apply (redis_attempts_count "ana" Minute demo_t0 (demo_t0 + Minute)
           [demo_t0 + Second; demo_t0 + 2 * Second]); [done|done| |done].
  repeat constructor.
Defined.

(** A lock of whole milliseconds holds until its last second and never after its end;
    in its last second, which [TTL] may round to zero, [IsLocked] may already say no. *)
Lemma redis_lock_lasts `{MR : MapRange} `{RD : Redis} (k : string) (d d' : Duration)
    (t0 t : Time) (σ : gmap string entry) :
  0 < d → d mod Millisecond = 0 →
  let res := run t0 (Lock k d) [] σ in
  res.1 = None
  ∧ (t + Second < t0 + d → (run t (IsLocked k d') [] res.2).1 = (true, None))
  ∧ (t0 + d <= t → (run t (IsLocked k d') [] res.2).1 = (false, None)).
Proof.
  intros Hd Hm res. destruct (Lock_stores t0 k d σ Hd) as [Hr Hk]. fold res in Hr, Hk.
  rewrite kept_for_exact in Hk by done. split; [done|].
  rewrite (IsLocked_stored t k d' _ _ _ Hk). split; intros Ht.
  - destruct (ttl_seconds_close (t0 + d - t)) as [Hpos Hc]; [unfold Second in *; lia|].
    assert (0 < ttl_seconds (t0 + d - t)) by (unfold Second in *; lia).
    rewrite (proj2 (Z.ltb_lt _ _)) by (unfold Second in *; lia).
    by rewrite (proj2 (Z.ltb_lt _ _)).
  - by rewrite (proj2 (Z.ltb_ge _ _)) by lia.
Qed.

Lemma redis_lock_lasts_witness :
  let res := run demo_t0 (Lock "ana" Minute) [] ∅ in
  (run (demo_t0 + 58 * Second) (IsLocked "ana" 0) [] res.2).1 = (true, None)
  ∧ (run (demo_t0 + Minute) (IsLocked "ana" 0) [] res.2).1 = (false, None).
Proof.
  split.
  - apply (redis_lock_lasts "ana" Minute 0 demo_t0 (demo_t0 + 58 * Second) ∅); done.
  - apply (redis_lock_lasts "ana" Minute 0 demo_t0 (demo_t0 + Minute) ∅); done.
Defined.

(** An entry that is appended is the first of the newest [n], before the [n - 1]
    that were the newest; the log keeps the last 10000, so this holds for every [n] up to
    that. *)
Lemma redis_audit_newest_first `{MR : MapRange} `{RD : Redis} `{AV : AnyValues}
    (now tnow : Time) (uuid data : string) (e : AuditEntry) (md : JSONMap) (n : Z)
    (σ : gmap string entry) (es : list (gmap string string)) :
  let e' := mkAudit (if bool_decide (AuditID e = "") then uuid else AuditID e) tnow
              (CorrelationID e) (TraceID e) (Action e) (AuditUsername e) (AuditRole e)
              (Resource e) (Result e) (Details e) (SourceIP e) in
  stream now σ = Some es → expiry now σ audit_stream = None →
  marshal_audit e' = Ok data → view (Details e) = Some md → 1 < n <= 10000 →
  let res := run now (AppendAuditLog uuid tnow e) [] σ in
  res.1.1 = None
  ∧ ∃ before,
      (run now (QueryAuditLog (newest (n - 1))) [] σ).1 = Some (Ok before)
      ∧ (run now (QueryAuditLog (newest n)) [] res.2).1
        = Some (Ok (clean_audit e' md :: before)).
Proof.
  intros e' Hs Hx Hm Hv Hn res.
  destruct (AppendAuditLog_stream now uuid tnow e σ es data Hs Hm Hx) as (Hr & Hs' & _).
  fold e' res in Hr, Hs'. split; [by rewrite Hr|].
  eexists. split; [apply (QueryAuditLog_newest _ _ _ es Hs); lia|].
  rewrite (QueryAuditLog_newest _ _ _ _ Hs') by lia.
  replace (Z.to_nat n) with (S (Z.to_nat (n - 1))) by lia.
  rewrite take_rev_trimmed by lia. cbn [read_entries]. rewrite lookup_singleton_eq.
  rewrite (audit_back e' data md Hv Hm). unfold entry_matches.
  cbn [newest AFUsername AFAction AFResult crit]. do 3 f_equal. apply read_entries_newest.
Qed.

Lemma redis_audit_newest_first_witness :
  let res := run demo_t0 (AppendAuditLog "" (demo_t0 + 1) demo_login) [] demo_logged in
  ∃ before, (run demo_t0 (QueryAuditLog (newest 1)) [] demo_logged).1 = Some (Ok before)
            ∧ (run demo_t0 (QueryAuditLog (newest 2)) [] res.2).1
              = Some (Ok (mkAudit "a2" (demo_t0 + 1) "c1" "" "login" "ana" "operator" "ssh" "ok"
                            None "10.0.0.1" :: before)).
Proof.
  refine (proj2 (redis_audit_newest_first demo_t0 (demo_t0 + 1) "" _ demo_login None 2
                   demo_logged _ _ _ _ _ _)); try (vm_compute; reflexivity).
  lia.
Defined.

(** A query of the audit log with a limit reads only that many of the newest entries
    and takes the offset from those: whatever the log holds, an offset that is not below
    the limit (the second page and every later one) gives no entries. *)
Lemma redis_second_page_is_empty `{MR : MapRange} `{RD : Redis} `{AV : AnyValues}
    (now : Time) (f : AuditFilter) (σ : gmap string entry) (es : list (gmap string string)) :
  stream now σ = Some es → 0 < AFLimit f <= AFOffset f →
  (run now (QueryAuditLog f) [] σ).1 = Some (Ok []).
Proof.
  intros Hs Hl. rewrite (QueryAuditLog_stream now f σ es Hs).
  unfold limitOrDefault. rewrite (proj2 (Z.ltb_lt 0 _)) by lia.
  set (l := read_entries f _).
  assert (Hlen : (Z.of_nat (length l) <= AFLimit f)).
  { pose proof (read_entries_length f (take (Z.to_nat (AFLimit f)) (rev es))) as H.
    rewrite length_take in H. fold l in H. lia. }
  unfold applyAuditWindow, applyWindow. by rewrite (proj2 (Z.leb_le _ _)) by lia.
Qed.

Lemma redis_second_page_is_empty_witness :
  (run demo_t0 (QueryAuditLog (mkAuditFilter "" "" "" None None 1 1)) [] demo_logged).1
  = Some (Ok []).
Proof.
  eapply (redis_second_page_is_empty demo_t0 (mkAuditFilter "" "" "" None None 1 1));
    [vm_compute; reflexivity|cbn; lia].
Defined.

(** ** Where the store differs from the others *)

Lemma range_empty `{MR : MapRange} {V} : range (∅ : gmap string V) = [].
Proof. apply Permutation_nil. symmetry. etrans; [apply range_perm|]. by rewrite map_to_list_empty. Qed.

Lemma window_of_nothing {A} limit offset :
  in_int64 limit → in_int64 offset → applyWindow (@nil A) limit offset = Some [].
Proof.
  intros Hl Ho. rewrite applyWindow_spec by done.
  assert (MemoryStore.page (@nil A) limit offset = []) as ->.
  { unfold MemoryStore.page. rewrite drop_nil. by destruct (0 <? limit); rewrite ?take_nil. }
  unfold window_overflows. destruct (offset <? _) eqn:E; [|done]. apply Z.ltb_lt in E.
  cbn in E. rewrite Z.max_l by lia.
  rewrite (proj2 (Z.ltb_ge max_int64 _)) by (unfold in_int64 in *; lia). by rewrite andb_false_r.
Qed.

(** A listing of all the sessions reads the memory, which is always empty. *)
Lemma unfiltered_listing_is_empty `{MR : MapRange} `{RD : Redis} `{AV : AnyValues}
    (now : Time) (f : SessionFilter) (σ : gmap string entry) :
  SFUsername f = "" → in_int64 (SFLimit f) → in_int64 (SFOffset f) →
  (run now (ListSessions NewMemoryStore f) [] σ).1 = Some (Ok []).
Proof.
  intros Hu Hl Ho. unfold ListSessions. rewrite bool_decide_eq_true_2 by done.
  unfold MemoryStore.ListSessions, applySessionWindow. cbn [run fst].
  change (sessions NewMemoryStore) with (∅ : gmap string Session). rewrite range_empty.
  change (cloneSession <$> filter _ []) with (@nil Session).
  pose proof (window_of_nothing (A:=Session) _ _ Hl Ho) as E. cbn. by rewrite E.
Qed.

(** So is a count of all the active ones, whatever was created. *)
Lemma count_of_all_is_zero :
  let σ := (run demo_t0 (CreateSession "" demo_t0 demo_ana) [] ∅).2 in
  (run demo_t0 (CountActiveSessions NewMemoryStore "ana") [] σ).1 = Some (Ok 1)
  ∧ (run demo_t0 (CountActiveSessions NewMemoryStore "") [] σ).1 = Some (Ok 0).
Proof. vm_compute. done. Qed.

(** Attempts on [lock:ana] lock [ana]: the two keys are the same. *)
Lemma attempts_can_lock :
  let σ := (run demo_t0 (IncrementAttempts "lock:ana" Minute) [] ∅).2 in
  (run demo_t0 (IsLocked "ana" 0) [] σ).1 = (true, None).
Proof. vm_compute. done. Qed.

(** A window under a second is refused by the server: nothing is counted. *)
Lemma short_windows_are_refused `{MR : MapRange} `{RD : Redis} now k w σ :
  0 <= w < Second → get now σ (rateLimitKey k) = None →
  run now (IncrementAttempts k w) [] σ = ((0, Some (RedisError InvalidExpire)), σ).
Proof.
  intros Hw Hg. unfold IncrementAttempts. rewrite run_send by done. cbn [exec]. unfold attempt. rewrite Hg.
  unfold seconds. by rewrite Z.quot_small.
Qed.

(** A session that does not exist is created by an update and its tunnels stay when it is
    deleted. *)
Lemma update_creates_and_delete_leaves :
  let tun := mkTunnel "t1" "s1" "local" "127.0.0.1:1" "10.0.0.9:80" 0 None 0 0 "" None in
  let σ1 := (run demo_t0 (UpdateSession demo_t0 demo_ana) [] ∅).2 in
  let σ2 := (run demo_t0 (CreateTunnel "" demo_t0 tun) [] σ1).2 in
  let σ3 := (run demo_t0 (DeleteSession "s1") [] σ2).2 in
  (run demo_t0 (UpdateSession demo_t0 demo_ana) [] ∅).1.1 = None
  ∧ (run demo_t0 (DeleteSession "s1") [] σ2).1 = None
  ∧ (run demo_t0 (GetSession "s1") [] σ3).1 = Err NotFound
  ∧ is_ok (run demo_t0 (GetTunnel "t1") [] σ3).1.
Proof. vm_compute. done. Qed.

End RedisProps.
