(* ===== verification/Stores.v ===== *)
(** * The choice of a store ([NewStore] of [internal/store/store.go])

    The three stores are behind one interface; the configuration says which one is made.
    What connecting to a server answers is an input of each constructor. *)

From S2P Require Import Prelude GoStrings MemoryStore SQL PostgresStore Redis RedisStore.

Module Stores.

Record Config := mkConfig {
  Type_ : string;
  Postgres_ : PostgresStore.PostgresConfig;
  Redis_ : RedisStore.RedisConfig;
}.

(** The implementations of [Store]. *)
Inductive Store :=
| InMemory (m : MemoryStore.t)
| InPostgres (p : PostgresStore.PostgresStore)
| InRedis (r : RedisStore.RedisStore).

(** What the servers answer: to [sqlx.Connect] and the schema, and to the first [PING]. *)
Record servers := mkServers {
  connect : string → option string;
  schema_err : option string;
  ping : RedisStore.RedisConfig → option string;
}.

(** [NewStore]; the database is the one of the configured server. *)
Definition NewStore (srv : servers) (cfg : Config) (σ : SQL.db) : result string Store * SQL.db :=
  if bool_decide (Type_ cfg = "") || bool_decide (Type_ cfg = "memory")
  then (Ok (InMemory MemoryStore.NewMemoryStore), σ)
  else if bool_decide (Type_ cfg = "postgres")
  then match PostgresStore.NewPostgresStore (connect srv) (schema_err srv) (Postgres_ cfg) σ with
       | (Ok p, σ) => (Ok (InPostgres p), σ)
       | (Err e, σ) => (Err e, σ)
       end
  else if bool_decide (Type_ cfg = "redis")
  then match RedisStore.NewRedisStore (ping srv) (Redis_ cfg) with
       | Ok r => (Ok (InRedis r), σ)
       | Err e => (Err e, σ)
       end
  else (Err ("tipo de almacenamiento desconocido: " +:+ Type_ cfg), σ).

(** ** What a new store is *)

Lemma table_insert_same (σ : SQL.db) n n' :
  SQL.table (<[n := SQL.table σ n]> σ) n' = SQL.table σ n'.
Proof.
  unfold SQL.table at 1. destruct (decide (n = n')) as [->|H].
  - by rewrite lookup_insert_eq.
  - by rewrite lookup_insert_ne.
Qed.

Lemma foldl_tables ds (σ : SQL.db) n :
  let σ' := foldl (λ σ d, <[SQL.tname d := SQL.table σ (SQL.tname d)]> σ) σ ds in
  SQL.table σ' n = SQL.table σ n
  ∧ (is_Some (σ !! n) ∨ n ∈ (SQL.tname <$> ds) → is_Some (σ' !! n)).
Proof.
  revert σ. induction ds as [|d ds IH]; intros σ; cbn [foldl].
  { split; [done|]. intros [H|H]; [done|]. by apply not_elem_of_nil in H. }
  destruct (IH (<[SQL.tname d := SQL.table σ (SQL.tname d)]> σ)) as [Ht Hs]. split.
  - by rewrite Ht, table_insert_same.
  - intros H. apply Hs. destruct (decide (SQL.tname d = n)) as [->|Hne].
    + left. rewrite lookup_insert_eq. by eexists.
    + rewrite lookup_insert_ne by done. destruct H as [H|H]; [by left|].
      rewrite fmap_cons in H. apply elem_of_cons in H as [H|H]; [congruence|by right].
Qed.

(** Which store a type names. *)
Definition kind_of (s : Store) : list string :=
  match s with
  | InMemory _ => [""; "memory"]
  | InPostgres _ => ["postgres"]
  | InRedis _ => ["redis"]
  end.

(** A store that is made is of the configured type, the memory one when no type is
    given; making it, also when a server restarts on an existing database, changes no row
    of any table, and after it a PostgreSQL store has every table of the schema.  When no
    store is made the database is as it was. *)
Lemma new_store_keeps_data (srv : servers) (cfg : Config) (σ : SQL.db) :
  let '(r, σ') := NewStore srv cfg σ in
  (∀ n, SQL.table σ' n = SQL.table σ n)
  ∧ match r with
    | Err _ => σ' = σ
    | Ok s => Type_ cfg ∈ kind_of s
              ∧ match s with
                | InPostgres _ => ∀ d, d ∈ PostgresStore.postgresSchema → is_Some (σ' !! SQL.tname d)
                | _ => σ' = σ
                end
    end.
Proof.
  unfold NewStore. destruct (bool_decide (Type_ cfg = "") || _) eqn:Hm.
  { split; [done|]. split; [|done]. cbn [kind_of].
    rewrite orb_true_iff, !bool_decide_eq_true in Hm. rewrite !elem_of_cons. tauto. }
  destruct (bool_decide_reflect (Type_ cfg = "postgres")) as [Hp|_].
  { unfold PostgresStore.NewPostgresStore. destruct (connect srv _); [done|].
    destruct (schema_err srv); [done|]. cbv beta iota zeta. cbn [kind_of].
    split; [intros n; apply foldl_tables|]. split; [by rewrite elem_of_cons; left|].
    intros d Hd. apply foldl_tables. right. by apply list_elem_of_fmap_2. }
  destruct (bool_decide_reflect (Type_ cfg = "redis")) as [Hr|_]; [|done].
  unfold RedisStore.NewRedisStore. destruct (ping srv _); [done|].
  cbv beta iota zeta. cbn [kind_of].
  split; [done|]. split; [by rewrite elem_of_cons; left|done].
Qed.

End Stores.
