(* ===== verification/Conn.v ===== *)
(** * What the handlers of a connection do

    The handlers of both transports run concurrently and share the rate limiter,
    the tunnels and the policy cache.  A handler is a function in a state monad.
    Its state holds what is shared, the input still to come, the session it owns
    and the log of the calls it has made to the other components, in order.  Before
    each access to what is shared the environment applies an arbitrary change, the
    work of the other goroutines: so a theorem about a handler holds for every
    interleaving.  The clock, the outcome of each write and the answers of external
    tools are also inputs, indexed by the number of accesses made so far. *)

From S2P Require Import Prelude GoStrings Session Auth RateLimiter Metrics Tunnels Validator.
From S2P Require Import Commands.

Module Conn.

Section Conn.
Context {M : Type}.

(** ** State *)

Record shared := mkShared {
  limiter : option RateLimiter.t;
  cmdState : Commands.state M;
}.

(** What [ReadString] returns: a line with its terminator, or an error. *)
Inductive read_event :=
| Line (raw : string)
| ReadTimeout
| ReadEOF
| ReadError.

(** The calls a handler makes. *)
Inductive event :=
| EvMetric (o : Metrics.op)
| EvRegister (s : Session.t)
| EvUnregister (id : string)
| EvWrite (text : string)
| EvAllow (key : string) (allowed : bool)
| EvAuthenticate (username password : string) (res : result string Auth.Identity)
| EvSuccess (key : string)
| EvFailure (key : string) (allowed : bool)
| EvValidate (input : string) (res : option Validator.verror)
| EvExecute (cmd : Commands.Command) (args : list string) (s : Session.t)
    (out : result string string)
| EvTunnel (e : Tunnels.effect)
| EvReply (ok : bool) (port : option Z)
| EvExitStatus (status : Z)
| EvRejectChannel (msg : string)
| EvListen (bind : string)
| EvCloseListener (listener : nat)
| EvDial (target : string)
| EvOpenTunnel (t : Tunnels.Tunnel)
| EvStop (resource : nat)
| EvCloseTunnel (id : string)
| EvPublicKey (user key : string) (res : result string bool).

Record state := mkState {
  sh : shared;
  tick : nat;
  input : list read_event;
  sess : Session.t;
  log : list event;
}.

(** The environment of a connection. *)
Record env := mkEnv {
  clock : nat → Time;
  others : nat → shared → shared;
  writes : nat → bool;
  tools : nat → Commands.env;
  validation : nat → Validator.world;
}.

(** ** The monad *)

Definition io (A : Type) : Type := state → A * state.

#[global] Instance io_ret : MRet io := λ A a st, (a, st).
#[global] Instance io_bind : MBind io := λ A B k m st, let '(a, st') := m st in k a st'.

Definition emit (e : event) : io () :=
  λ st, ((), mkState (sh st) (tick st) (input st) (sess st) (log st ++ [e])).

Definition emits (es : list event) : io () :=
  λ st, ((), mkState (sh st) (tick st) (input st) (sess st) (log st ++ es)).

Definition getSession : io Session.t := λ st, (sess st, st).
Definition modifySession (f : Session.t → Session.t) : io () :=
  λ st, ((), mkState (sh st) (tick st) (input st) (f (sess st)) (log st)).

Definition metrics (ops : list Metrics.op) : io () := emits (EvMetric <$> ops).

Definition advance (st : state) : state :=
  mkState (sh st) (S (tick st)) (input st) (sess st) (log st).

Section Env.
Context (ρ : env).

(** [time.Now] *)
Definition now : io Time := λ st, (clock ρ (tick st), advance st).

(** An atomic access to what is shared. *)
Definition access {B : Type} (f : shared → B * shared) : io B :=
  λ st, let '(b, sh') := f (others ρ (tick st) (sh st)) in
        (b, mkState sh' (S (tick st)) (input st) (sess st) (log st)).

(** A write to the peer; it may fail. *)
Definition write (text : string) : io bool :=
  λ st, if writes ρ (tick st)
        then (true, mkState (sh st) (S (tick st)) (input st) (sess st) (log st ++ [EvWrite text]))
        else (false, advance st).

(** [reader.ReadString]; when the input is over the peer has closed. *)
Definition read : io read_event :=
  λ st, match input st with
        | [] => (ReadEOF, advance st)
        | r :: rest => (r, mkState (sh st) (S (tick st)) rest (sess st) (log st))
        end.

(** Calls to the rate limiter; each reads the clock. *)
Definition limiterAllow (key : string) : io RateLimiter.RateLimitDecision :=
  t ← now;
  d ← access (λ s, let '(d, l) := RateLimiter.Allow (limiter s) t key in
                   (d, mkShared l (cmdState s)));
  _ ← emit (EvAllow key (RateLimiter.Allowed d));
  mret d.
Definition limiterFailure (key : string) : io RateLimiter.RateLimitDecision :=
  t ← now;
  d ← access (λ s, let '(d, l) := RateLimiter.RecordFailure (limiter s) t key in
                   (d, mkShared l (cmdState s)));
  _ ← emit (EvFailure key (RateLimiter.Allowed d));
  mret d.
Definition limiterSuccess (key : string) : io () :=
  _ ← access (λ s, ((), mkShared (RateLimiter.RecordSuccess (limiter s) key) (cmdState s)));
  emit (EvSuccess key).

(** A call of the validator. *)
Definition validate (v : Validator.InputValidator) (line : string) : io (option Validator.verror) :=
  λ st, let r := Validator.Validate (validation ρ (tick st)) v line in
        (r, mkState (sh st) (S (tick st)) (input st) (sess st) (log st ++ [EvValidate line r])).

(** A call of [Execute]; without a forwarding controller in the runtime the command
    sees none. *)
Definition execute `{C : !Tunnels.Controller M} (forwarding : bool) (cmd : Commands.Command)
    (rt : Commands.Runtime) (args : list string) : io (result string string) :=
  λ st,
    let s := others ρ (tick st) (sh st) in
    let cs := cmdState s in
    let seen := if forwarding then cs
                else Commands.mkState None (Commands.policyService cs) (Commands.auditService cs) in
    let '(out, cs', eff) := Commands.Execute cmd (tools ρ (tick st)) rt args seen in
    let cs'' := if forwarding then cs'
                else Commands.mkState (Commands.Forwarding cs) (Commands.policyService cs')
                       (Commands.auditService cs') in
    (out, mkState (mkShared (limiter s) cs'') (S (tick st)) (input st) (sess st)
            (log st ++ EvExecute cmd args (sess st) out :: (EvTunnel <$> eff))).

End Env.

(** ** Reasoning

    [{P} m {Q}] for one run from any state. *)

Definition triple {A} (P : state → Prop) (m : io A) (Q : A → state → Prop) : Prop :=
  ∀ st, P st → Q (m st).1 (m st).2.

Lemma triple_ret {A} (P : state → Prop) (a : A) (Q : A → state → Prop) :
  (∀ st, P st → Q a st) → triple P (mret a) Q.
Proof. intros H st HP. by apply H. Qed.

Lemma triple_bind {A B} P (m : io A) (R : A → state → Prop) (k : A → io B) Q :
  triple P m R → (∀ a, triple (R a) (k a) Q) → triple P (m ≫= k) Q.
Proof.
  intros Hm Hk st HP. unfold mbind, io_bind. specialize (Hm st HP).
  destruct (m st) as [a st']. by apply Hk.
Qed.

Lemma triple_pre {A} (P P' : state → Prop) (m : io A) Q :
  (∀ st, P st → P' st) → triple P' m Q → triple P m Q.
Proof. intros HP Hm st H. by apply Hm, HP. Qed.

Lemma triple_post {A} P (m : io A) (Q Q' : A → state → Prop) :
  (∀ a st, Q' a st → Q a st) → triple P m Q' → triple P m Q.
Proof. intros HQ Hm st H. by apply HQ, Hm. Qed.

Lemma triple_pure {A} (φ : Prop) P (m : io A) Q :
  (φ → triple P m Q) → triple (λ st, φ ∧ P st) m Q.
Proof. intros H st [Hφ HP]. by apply H. Qed.

Lemma triple_true {A} (m : io A) : triple (λ _, True) m (λ _ _, True).
Proof. by intros st _. Qed.

(** An assertion on the log and the session that survives the events of a class. *)
Definition stable (ok : event → Prop) (I : list event → Session.t → Prop) : Prop :=
  ∀ l s e, ok e → I l s → I (l ++ [e]) s.

Definition on (I : list event → Session.t → Prop) : state → Prop := λ st, I (log st) (sess st).

Lemma stable_app ok I l s es : stable ok I → Forall ok es → I l s → I (l ++ es) s.
Proof.
  intros HI. revert l. induction es as [|e es IH]; intros l Hf Hl; [by rewrite app_nil_r|].
  apply Forall_cons in Hf as [He Hf]. change (e :: es) with ([e] ++ es). rewrite app_assoc.
  apply IH; [done|]. by apply HI.
Qed.

Lemma triple_emit I ok e : stable ok I → ok e → triple (on I) (emit e) (λ _, on I).
Proof. intros HI He st HP. by apply HI. Qed.

Lemma triple_emit_to (I J : list event → Session.t → Prop) e :
  (∀ l s, I l s → J (l ++ [e]) s) → triple (on I) (emit e) (λ _, on J).
Proof. intros H st HP. by apply H. Qed.

Lemma triple_emits I ok es : stable ok I → Forall ok es → triple (on I) (emits es) (λ _, on I).
Proof. intros HI He st HP. unfold on. simpl. exact (stable_app ok I _ _ _ HI He HP). Qed.

Lemma triple_now ρ I : triple (on I) (now ρ) (λ _, on I).
Proof. by intros st HP. Qed.

Lemma triple_access ρ I {B} (f : shared → B * shared) : triple (on I) (access ρ f) (λ _, on I).
Proof. intros st HP. unfold access. by destruct (f _). Qed.

Lemma triple_write ρ I ok text :
  stable ok I → ok (EvWrite text) → triple (on I) (write ρ text) (λ _, on I).
Proof. intros HI He st HP. unfold write. case_if; [|done]. by apply HI. Qed.

Lemma triple_read I : triple (on I) read (λ _, on I).
Proof. intros st HP. unfold read. by destruct (input st). Qed.

Lemma triple_getSession I :
  triple (on I) getSession (λ s, on (λ l s', s' = s ∧ I l s')).
Proof. intros st HP. by split. Qed.

Lemma triple_modifySession (f : Session.t → Session.t) (I J : list event → Session.t → Prop) :
  (∀ l s, I l s → J l (f s)) → triple (on I) (modifySession f) (λ _, on J).
Proof. intros H st HP. by apply H. Qed.

Lemma triple_validate ρ v line (I : list event → Session.t → Prop) J :
  (∀ l s r, I l s → J r (l ++ [EvValidate line r]) s) →
  triple (on I) (validate ρ v line) (λ r, on (J r)).
Proof. intros H st HP. by apply H. Qed.

Lemma triple_execute `{C : !Tunnels.Controller M} ρ fw cmd rt args
    (I : list event → Session.t → Prop) (J : list event → Session.t → Prop) ok :
  stable ok J → (∀ e, ok (EvTunnel e)) →
  (∀ l s out, I l s → J (l ++ [EvExecute cmd args s out]) s) →
  triple (on I) (execute ρ fw cmd rt args) (λ _, on J).
Proof.
  intros HJ Hok H st HP. unfold execute. destruct (Commands.Execute _ _ _ _ _) as [[out cs] eff].
  unfold on. simpl. rewrite cons_middle, app_assoc. eapply stable_app; [exact HJ| |by apply H].
  apply Forall_fmap, Forall_true. intros e. apply Hok.
Qed.

Lemma triple_allow ρ I J key :
  (∀ l s b, I l s → J b (l ++ [EvAllow key b]) s) →
  triple (on I) (limiterAllow ρ key) (λ d, on (J (RateLimiter.Allowed d))).
Proof.
  intros H. unfold limiterAllow. eapply triple_bind; [apply triple_now|]. intros t.
  eapply triple_bind; [apply triple_access|]. intros d.
  intros st HP. by apply H.
Qed.

Lemma triple_failure ρ I J key :
  (∀ l s b, I l s → J b (l ++ [EvFailure key b]) s) →
  triple (on I) (limiterFailure ρ key) (λ d, on (J (RateLimiter.Allowed d))).
Proof.
  intros H. unfold limiterFailure. eapply triple_bind; [apply triple_now|]. intros t.
  eapply triple_bind; [apply triple_access|]. intros d.
  intros st HP. by apply H.
Qed.

Lemma triple_success ρ I J key :
  (∀ l s, I l s → J (l ++ [EvSuccess key]) s) →
  triple (on I) (limiterSuccess ρ key) (λ _, on J).
Proof.
  intros H. unfold limiterSuccess. eapply triple_bind; [apply triple_access|]. intros [].
  intros st HP. by apply H.
Qed.

(** ** Actions that do not read from the peer *)

Definition keeps_input {A} (m : io A) : Prop := ∀ st, input (m st).2 = input st.

Lemma keeps_input_bind {A B} (m : io A) (k : A → io B) :
  keeps_input m → (∀ a, keeps_input (k a)) → keeps_input (m ≫= k).
Proof.
  intros Hm Hk st. unfold mbind, io_bind. specialize (Hm st). destruct (m st) as [a st'].
  simpl in Hm. rewrite <-Hm. apply Hk.
Qed.

Lemma keeps_input_ret {A} (a : A) : keeps_input (mret a).
Proof. by intros st. Qed.
Lemma keeps_input_emit e : keeps_input (emit e).
Proof. by intros st. Qed.
Lemma keeps_input_emits es : keeps_input (emits es).
Proof. by intros st. Qed.
Lemma keeps_input_metrics ops : keeps_input (metrics ops).
Proof. by intros st. Qed.
Lemma keeps_input_getSession : keeps_input getSession.
Proof. by intros st. Qed.
Lemma keeps_input_modifySession f : keeps_input (modifySession f).
Proof. by intros st. Qed.
Lemma keeps_input_write ρ text : keeps_input (write ρ text).
Proof. intros st. unfold write. by case_if. Qed.
Lemma keeps_input_validate ρ v line : keeps_input (validate ρ v line).
Proof. by intros st. Qed.
Lemma keeps_input_execute `{C : !Tunnels.Controller M} ρ fw cmd rt args :
  keeps_input (execute ρ fw cmd rt args).
Proof. intros st. unfold execute. by destruct (Commands.Execute _ _ _ _ _) as [[? ?] ?]. Qed.

End Conn.

Create HintDb conn.
#[export] Hint Resolve keeps_input_bind keeps_input_ret keeps_input_emit keeps_input_emits
  keeps_input_metrics keeps_input_getSession keeps_input_modifySession keeps_input_write
  keeps_input_validate keeps_input_execute : conn.

Arguments shared : clear implicits.
Arguments state : clear implicits.
Arguments env : clear implicits.
Arguments io : clear implicits.

(** ** Splitting a line *)

(** [splitCommand] *)
Definition splitCommand (line : string) : string * list string :=
  match Fields line with
  | [] => ("", [])
  | [p] => (ToLower p, [])
  | p :: rest => (ToLower p, rest)
  end.

(** [isQuit] *)
Definition isQuit (name : string) : bool :=
  let n := ToLower name in
  bool_decide (n = "quit") || bool_decide (n = "exit") || bool_decide (n = "q").

End Conn.
