(* ===== verification/TCPServer.v ===== *)
(** * The TCP transport ([internal/server/tcp.go])

    [handleConnection] for one connection, over the calls of [Conn]: the peer's
    input, the outcome of writes and the interference of other connections are
    arbitrary.  Listening and accepting are left to the operating system. *)

From S2P Require Import Prelude GoStrings GoTime Access Session Auth RateLimiter Metrics Tunnels.
From S2P Require Import Config Validator PolicyService AuditService Commands Conn.

Module TCPServer.
Import Conn.

(** [roundDuration] *)
Definition roundDuration (d : Duration) : Duration :=
  if (d <=? 0)%Z then 0%Z else Round d Second.

Definition crlf : string := String (byte_of 13) (String (byte_of 10) "").

Section TCP.
Context {M : Type} `{C : !Tunnels.Controller M} {A : Type} `{AU : !Auth.Authenticator A}.

(** [TCPServer]; the logger, the metrics and the shared objects are in the state of
    the monad.  [sessionRegistry] says whether there is one. *)
Record TCPServer := mkServer {
  cfg : Config.t;
  validator : Validator.InputValidator;
  authenticator : A;
  registry : Commands.Registry;
  sessionRegistry : bool;
}.

(** [NewTCPServer]: a nil limiter is replaced by one that is disabled. *)
Definition NewTCPServer (cfg : Config.t) (validator : Validator.InputValidator)
    (authenticator : A) (rateLimiter : option RateLimiter.t) (registry : Commands.Registry)
    (sessionRegistry : bool) : TCPServer * option RateLimiter.t :=
  (mkServer cfg validator authenticator registry sessionRegistry,
   match rateLimiter with
   | None => Some (RateLimiter.NewRateLimiter (RateLimiter.mkConfig false 0 0 0))
   | Some _ => rateLimiter
   end).

Section Handler.
Context (ρ : env M) (s : TCPServer).

(** [writeLine] and [writePrompt] *)
Definition writeLine (value : string) : io M bool := write ρ (value +:+ crlf).
Definition writePrompt (value : string) : io M bool := write ρ value.

(** [readLine]: a line without surrounding spaces, or the error. *)
Definition readLine : io M (result read_event string) :=
  r ← read;
  mret (match r with Line raw => Ok (TrimSpace raw) | e => Err e end).

(** The loop of [authenticate] from a given attempt on, with [remaining] attempts left. *)
Fixpoint authenticate_loop (maxAttempts : Z) (remaining : nat) (attempt : Z)
    : io M (result string unit) :=
  match remaining with
  | O => mret (Err "maximum authentication attempts exceeded")
  | S remaining =>
     ok ← writePrompt "username: ";
     if negb ok then mret (Err "write error") else
     ru ← readLine;
     match ru with
     | Err _ => mret (Err "read error")
     | Ok username =>
        ok ← writePrompt "password: ";
        if negb ok then mret (Err "write error") else
        rp ← readLine;
        match rp with
        | Err _ => mret (Err "read error")
        | Ok password =>
           sess ← getSession;
           let rateKey := RateLimiter.Key (Session.RemoteAddr sess) username in
           decision ← limiterAllow ρ rateKey;
           if negb (RateLimiter.Allowed decision) then
             _ ← writeLine ("Too many failed login attempts. Retry after "
                    +:+ format_duration (roundDuration (RateLimiter.RetryAfter decision)) +:+ ".");
             mret (Err "login rate limit exceeded")
           else
             let identity := Auth.authenticate (authenticator s) username password in
             _ ← emit (EvAuthenticate username password identity);
             match identity with
             | Ok id =>
                _ ← limiterSuccess ρ rateKey;
                t ← now ρ;
                _ ← modifySession (Session.SetIdentity t (Auth.Username id) (Auth.IRole id));
                _ ← modifySession (Session.SetAuthn "password");
                _ ← writeLine "Authentication successful.";
                mret (Ok tt)
             | Err _ =>
                decision ← limiterFailure ρ rateKey;
                if negb (RateLimiter.Allowed decision) then
                  _ ← writeLine ("Invalid credentials (" +:+ Itoa attempt +:+ "/"
                         +:+ Itoa maxAttempts +:+ "). Login temporarily locked; retry after "
                         +:+ format_duration (roundDuration (RateLimiter.RetryAfter decision))
                         +:+ ".");
                  mret (Err "login rate limit exceeded")
                else
                  _ ← writeLine ("Invalid credentials (" +:+ Itoa attempt +:+ "/"
                         +:+ Itoa maxAttempts +:+ ").");
                  authenticate_loop maxAttempts remaining (attempt + 1)
             end
        end
     end
  end.

Definition max_attempts : Z :=
  if (Config.AuthMaxAttempts (cfg s) <=? 0)%Z then 3%Z else Config.AuthMaxAttempts (cfg s).

(** [authenticate] *)
Definition authenticate : io M (result string unit) :=
  _ ← writeLine "Se requiere autenticación.";
  authenticate_loop max_attempts (Z.to_nat max_attempts) 1.

(** One accepted line of the command loop: [Some reason] ends the session. *)
Definition handleLine (line : string) : io M (option string) :=
  r ← validate ρ (validator s) line;
  match r with
  | Some err =>
     _ ← metrics (Metrics.ObserveRejectedInput ++ Metrics.ObserveCommand "validation" "rejected");
     _ ← writeLine ("Entrada rechazada: " +:+ Validator.Error err);
     mret None
  | None =>
     let '(name, args) := splitCommand line in
     if isQuit name then
       _ ← writeLine "Sesión finalizada.";
       mret (Some "quit")
     else match Commands.Find (registry s) name with
     | None =>
        _ ← metrics (Metrics.ObserveCommand name "unknown");
        _ ← writeLine ("Comando no reconocido: " +:+ name);
        mret None
     | Some cmd =>
        _ ← modifySession Session.IncrementCommands;
        sess ← getSession;
        out ← execute ρ false cmd (Commands.mkRuntime sess (cfg s) (registry s)) args;
        match out with
        | Err e =>
           _ ← metrics (Metrics.ObserveCommand (Commands.Name cmd) "error");
           _ ← writeLine ("Error: " +:+ e);
           mret None
        | Ok output =>
           _ ← metrics (Metrics.ObserveCommand (Commands.Name cmd) "ok");
           if bool_decide (output = "") then mret None
           else ok ← writeLine output;
                mret (if negb ok then Some "error_escritura" else None)
        end
     end
  end.

(** The command loop; each round reads one line, so the rounds are at most the lines
    of the input and one more for its end. *)
Fixpoint loop (fuel : nat) : io M string :=
  match fuel with
  | O => mret ""
  | S fuel =>
     ok ← writePrompt "> ";
     if negb ok then mret "error_escritura" else
     r ← readLine;
     match r with
     | Err ReadTimeout =>
        _ ← writeLine "Sesión cerrada por inactividad."; mret "tiempo_inactivo"
     | Err ReadEOF => mret "desconexion_cliente"
     | Err _ => mret "error_lectura"
     | Ok line =>
        if bool_decide (line = "") then loop fuel
        else o ← handleLine line;
             match o with Some reason => mret reason | None => loop fuel end
     end
  end.

(** From the banner to the end of the command loop: the reason of the closing. *)
Definition body : io M string :=
  ok ← writeLine (Config.Banner (cfg s));
  if negb ok then mret "error_escritura" else
  res ← (if Config.AuthEnabled (cfg s) then authenticate
         else t ← now ρ;
              _ ← modifySession (Session.SetIdentity t "anonymous" "guest");
              _ ← modifySession (Session.SetAuthn "none");
              _ ← writeLine
                    "Autenticación deshabilitada. Se asignó una sesión de invitado.";
              mret (Ok tt));
  match res with
  | Err _ =>
     _ ← writeLine "La autenticación falló. La sesión se cerró.";
     mret "auth_failed"
  | Ok _ =>
     ok ← writeLine "Escribe 'help' para ver los comandos.";
     if negb ok then mret "error_escritura" else
     λ st, loop (S (length (input st))) st
  end.

(** The registration, the body and the deferred clean-up. *)
Definition serve : io M string :=
  _ ← modifySession (Session.SetTransport "tcp");
  _ ← metrics Metrics.ObserveSessionOpened;
  sess ← getSession;
  _ ← (if sessionRegistry s then emit (EvRegister sess) else mret ());
  reason ← body;
  sess ← getSession;
  _ ← (if sessionRegistry s then emit (EvUnregister (Session.ID sess)) else mret ());
  _ ← metrics (Metrics.ObserveSessionClosed reason);
  mret reason.

(** [handleConnection] for a connection from [remoteAddr]; [sequence] is the counter
    of sessions. *)
Definition handleConnection (sequence : Z) (remoteAddr : string) (sh0 : shared M)
    (ins : list read_event) : string * state M :=
  serve (mkState sh0 1 ins (Session.New sequence (clock ρ 0) remoteAddr).1 []).

End Handler.
End TCP.
Arguments TCPServer : clear implicits.

(** ** What the log of a connection looks like *)

Section Logs.
Context {M : Type} `{C : !Tunnels.Controller M} {A : Type} `{AU : !Auth.Authenticator A}.
Context (s : TCPServer A).

(** The session has the identity of a successful login recorded in the log, or is the
    guest when authentication is disabled. *)
Definition authenticated (l : list event) (sess : Session.t) : Prop :=
  if Config.AuthEnabled (cfg s) then
    ∃ l1 u p i l2, l = l1 ++ EvAuthenticate u p (Ok i) :: l2
      ∧ Session.Username sess = Auth.Username i ∧ Session.Role sess = Auth.IRole i
  else Session.Username sess = "anonymous" ∧ Session.Role sess = "guest".

(** When the handler of a connection from [remote] may make a call, given the calls
    before it. *)
Definition allowed_call (remote : string) (l : list event) (e : event) : Prop :=
  match e with
  | EvExecute cmd args sess _ =>
     (∃ l' line name, l = l' ++ [EvValidate line None] ∧ splitCommand line = (name, args)
        ∧ isQuit name = false ∧ Commands.Find (registry s) name = Some cmd)
     ∧ authenticated l sess
  | EvAuthenticate u p r =>
     (∃ l', l = l' ++ [EvAllow (RateLimiter.Key remote u) true])
     ∧ r = Auth.authenticate (authenticator s) u p
  | EvFailure key _ =>
     ∃ l' u p m, l = l' ++ [EvAuthenticate u p (Err m)] ∧ key = RateLimiter.Key remote u
  | EvSuccess key =>
     ∃ l' u p i, l = l' ++ [EvAuthenticate u p (Ok i)] ∧ key = RateLimiter.Key remote u
  | _ => True
  end.

Definition all_allowed (remote : string) (l : list event) : Prop :=
  ∀ l1 e l2, l = l1 ++ e :: l2 → allowed_call remote l1 e.

Definition is_login (e : event) : bool :=
  match e with EvAuthenticate _ _ _ => true | _ => false end.
Definition logins (l : list event) : nat := length (filter (λ e, is_login e = true) l).

(** The failed logins not yet recorded by the limiter. *)
Definition owed (e : event) : Z :=
  match e with
  | EvAuthenticate _ _ (Err _) => 1
  | EvFailure _ _ => -1
  | _ => 0
  end.
Definition debt (l : list event) : Z := foldr (λ e d, owed e + d)%Z 0%Z l.

(** The metrics of sessions, as opposed to those of commands. *)
Definition session_metric (o : Metrics.op) : bool :=
  match o with
  | Metrics.Inc m | Metrics.Dec m =>
     match m with
     | Metrics.sessionsTotal | Metrics.activeSessions | Metrics.sessionCloseBy _ => true
     | _ => false
     end
  end.

(** The calls made between the registration and the clean-up. *)
Definition inner (e : event) : Prop :=
  match e with
  | EvRegister _ | EvUnregister _ => False
  | EvMetric o => session_metric o = false
  | _ => True
  end.

(** The calls that change nothing to what is claimed. *)
Definition quiet (e : event) : Prop :=
  match e with
  | EvWrite _ | EvTunnel _ | EvValidate _ _ | EvAllow _ _ => True
  | EvMetric o => session_metric o = false
  | _ => False
  end.

Lemma all_allowed_snoc remote l e :
  all_allowed remote l → allowed_call remote l e → all_allowed remote (l ++ [e]).
Proof.
  intros Hl He l1 e' l2 E. destruct l2 as [|x l2 _] using rev_ind.
  - apply app_inj_tail in E as [-> ->]. done.
  - rewrite app_comm_cons, app_assoc in E. apply app_inj_tail in E as [E _]. by eapply Hl.
Qed.

Lemma logins_app l1 l2 : logins (l1 ++ l2) = (logins l1 + logins l2)%nat.
Proof. unfold logins. by rewrite filter_app, length_app. Qed.

Lemma debt_app l1 l2 : debt (l1 ++ l2) = (debt l1 + debt l2)%Z.
Proof. induction l1 as [|e l1 IH]; simpl; [done|]. rewrite IH. lia. Qed.

Lemma authenticated_app l sess e : authenticated l sess → authenticated (l ++ [e]) sess.
Proof.
  unfold authenticated. case_if; [|done]. intros (l1 & u & p & i & l2 & -> & ? & ?).
  exists l1, u, p, i, (l2 ++ [e]). by rewrite <-app_assoc.
Qed.

(** ** The invariant of the handler *)

Context (pre : list event) (id remote : string).

(** At most [k] logins so far, [d] of the failed ones still to be recorded. *)
Definition indebted (k : nat) (d : Z) (l : list event) (sess : Session.t) : Prop :=
  (∃ mid, l = pre ++ mid ∧ Forall inner mid) ∧ all_allowed remote l
  ∧ Session.ID sess = id ∧ Session.RemoteAddr sess = remote ∧ (logins l <= k)%nat
  ∧ debt l = d.
Abbreviation base k := (indebted k 0).

Lemma base_mono k k' d l sess : (k <= k')%nat → indebted k d l sess → indebted k' d l sess.
Proof. intros Hk (? & ? & ? & ? & ? & ?). split_and!; try done. lia. Qed.

Lemma base_snoc k d l sess e :
  indebted k d l sess → inner e → allowed_call remote l e →
  indebted (if is_login e then S k else k) (d + owed e) (l ++ [e]) sess.
Proof.
  intros ((mid & -> & Hmid) & Ha & ? & ? & Hk & Hd) Hi He. split_and!; try done.
  - exists (mid ++ [e]). rewrite <-app_assoc. split; [done|]. apply Forall_app. by auto.
  - by apply all_allowed_snoc.
  - rewrite logins_app. unfold logins at 2. rewrite filter_cons, filter_nil.
    destruct (is_login e); simpl; lia.
  - rewrite debt_app. simpl. lia.
Qed.

Lemma stable_base k : stable quiet (base k).
Proof.
  intros l sess e He Hb. pose proof (base_snoc k 0 l sess e Hb) as H.
  destruct e; try done; by apply H.
Qed.

Lemma stable_and ok I J : stable ok I → stable ok J → stable ok (λ l sess, I l sess ∧ J l sess).
Proof. intros HI HJ l sess e He [? ?]. split; auto. Qed.

Lemma stable_authenticated ok : stable ok authenticated.
Proof. intros l sess e _. apply authenticated_app. Qed.

Definition ready (k : nat) (l : list event) (sess : Session.t) : Prop :=
  base k l sess ∧ authenticated l sess.

Lemma stable_ready k : stable quiet (ready k).
Proof. apply stable_and; [apply stable_base|apply stable_authenticated]. Qed.

Lemma base_session k l sess (f : Session.t → Session.t) :
  Session.ID (f sess) = Session.ID sess → Session.RemoteAddr (f sess) = Session.RemoteAddr sess →
  base k l sess → base k l (f sess).
Proof.
  intros H1 H2 (? & ? & ? & ? & ? & ?). split_and!; try done; by rewrite ?H1, ?H2.
Qed.

Section Steps.
Context (ρ : env M).

Lemma write_keeps I text :
  stable quiet I → triple (on I) (write ρ text) (λ _, on I).
Proof. intros HI. by apply (triple_write ρ I quiet). Qed.

Lemma readLine_keeps I : triple (on I) readLine (λ _, on (M := M) I).
Proof.
  unfold readLine. eapply triple_bind; [apply triple_read|]. intros r. by apply triple_ret.
Qed.

Lemma metrics_keeps I ops :
  stable quiet I → Forall (λ o, session_metric o = false) ops →
  triple (on I) (metrics ops) (λ _, on (M := M) I).
Proof.
  intros HI Hops. unfold metrics. apply (triple_emits I quiet); [done|]. by apply Forall_fmap.
Qed.

(** The end of a successful attempt. *)
Lemma authenticate_success k n key username password i :
  Config.AuthEnabled (cfg s) = true →
  triple (on (λ l sess, base (S k) l sess ∧ key = RateLimiter.Key remote username
              ∧ ∃ l', l = l' ++ [EvAuthenticate username password (Ok i)]))
    (_ ← limiterSuccess ρ key;
     t ← now ρ;
     _ ← modifySession (Session.SetIdentity t (Auth.Username i) (Auth.IRole i));
     _ ← modifySession (Session.SetAuthn "password");
     _ ← writeLine ρ "Authentication successful.";
     mret (Ok tt))
    (λ r : result string unit,
       on (M := M) (λ l sess, base (k + S n) l sess ∧ (is_ok r = true → authenticated l sess))).
Proof.
  intros Hen. eapply triple_bind.
  { apply (triple_success ρ _ (λ l sess, base (S k) l sess
      ∧ ∃ l1 l2, l = l1 ++ EvAuthenticate username password (Ok i) :: l2)).
    intros l sess (Hb & Hkey & l' & ->). split.
    - apply (base_snoc (S k) 0 _ sess (EvSuccess key) Hb); [done|]. by exists l', username, password, i.
    - exists l', [EvSuccess key]. by rewrite <-app_assoc. }
  intros []. eapply triple_bind; [apply triple_now|]. intros t.
  eapply triple_bind.
  { apply (triple_modifySession _ _ (ready (S k))). intros l sess (Hb & l1 & l2 & ->).
    split; [by apply base_session|]. unfold authenticated. rewrite Hen.
    by exists l1, username, password, i, l2. }
  intros []. eapply triple_bind.
  { apply (triple_modifySession _ _ (ready (S k))). intros l sess [Hb Ha].
    split; [by apply base_session|]. unfold authenticated in *. by rewrite Hen in *. }
  intros []. eapply triple_bind; [apply write_keeps, stable_ready|]. intros ?.
  apply triple_ret. intros st [Hb Ha]. split; [|done]. eapply base_mono; [|done]. lia.
Qed.

(** [authenticate]: at most one login per attempt, and the session is authenticated
    when it succeeds. *)
Lemma authenticate_loop_spec maxAttempts n attempt k :
  Config.AuthEnabled (cfg s) = true →
  triple (on (base k)) (authenticate_loop ρ s maxAttempts n attempt)
    (λ r, on (λ l sess, base (k + n) l sess ∧ (is_ok r = true → authenticated l sess))).
Proof.
  intros Hen. revert attempt k. induction n as [|n IH]; intros attempt k; simpl.
  { apply triple_ret. intros st H. split; [|done]. by rewrite Nat.add_0_r. }
  assert (Hfail : ∀ m : string, triple (on (M := M) (base (k + S n))) (mret (Err m))
    (λ r : result string unit, on (λ l sess, base (k + S n) l sess
       ∧ (is_ok r = true → authenticated l sess)))).
  { intros m. by apply triple_ret. }
  assert (Hmono : ∀ st : state M, on (base k) st → on (base (k + S n)) st).
  { intros st. apply base_mono. lia. }
  eapply triple_bind; [apply write_keeps, stable_base|]. intros ok.
  case_if; [by eapply triple_pre|].
  eapply triple_bind; [apply readLine_keeps|]. intros [username|]; [|by eapply triple_pre].
  eapply triple_bind; [apply write_keeps, stable_base|]. intros ok2.
  case_if; [by eapply triple_pre|].
  eapply triple_bind; [apply readLine_keeps|]. intros [password|]; [|by eapply triple_pre].
  eapply triple_bind; [apply triple_getSession|]. intros sess0.
  set (key := RateLimiter.Key _ username).
  eapply triple_bind.
  { apply (triple_allow ρ _ (λ b l sess, base k l sess ∧ key = RateLimiter.Key remote username
      ∧ ∃ l', l = l' ++ [EvAllow key b])).
    intros l sess b [-> Hb]. split_and!; [by apply (stable_base k)| |by eauto].
    unfold key. by destruct Hb as (_ & _ & _ & -> & _ & _). }
  intros d. destruct (RateLimiter.Allowed d) eqn:Hd; simpl.
  2: { eapply triple_bind; [|intros ?; apply Hfail].
       eapply triple_pre; [|apply write_keeps, stable_base].
       intros st [? _]. eapply base_mono; [|done]. lia. }
  eapply triple_bind.
  { apply (triple_emit_to _ (λ l sess,
      indebted (S k) (owed (EvAuthenticate username password
        (Auth.authenticate (authenticator s) username password))) l sess
      ∧ key = RateLimiter.Key remote username ∧ ∃ l', l = l' ++ [EvAuthenticate username password
                          (Auth.authenticate (authenticator s) username password)])).
    intros l sess (Hb & Hkey & l' & Hl). split_and!; [|done|by eauto].
    eapply (base_snoc k 0 _ _ (EvAuthenticate username password _) Hb); [done|].
    split; [|done]. exists l'. by rewrite Hl, Hkey, Hd. }
  intros [].
  destruct (Auth.authenticate (authenticator s) username password) as [i|m] eqn:Ea.
  - apply (authenticate_success k n key username password i Hen).
  - eapply triple_bind.
    { apply (triple_failure ρ _ (λ _, base (S k))).
      intros l sess b (Hb & Hkey & l' & Hl).
      apply (base_snoc (S k) 1 l sess (EvFailure key b) Hb); [done|].
      by exists l', username, password, m. }
    intros d2. case_if.
    + eapply triple_bind; [|intros ?; apply Hfail].
      eapply triple_pre; [|apply write_keeps, stable_base].
      intros st. apply base_mono. lia.
    + eapply triple_bind; [apply write_keeps, stable_base|]. intros ?.
      replace (k + S n)%nat with (S k + n)%nat by lia. apply IH.
Qed.

Lemma handleLine_spec k line :
  triple (on (ready k)) (handleLine ρ s line) (λ _, on (ready k)).
Proof.
  assert (Hret : ∀ o : option string,
    triple (on (M := M) (ready k)) (mret o) (λ _, on (ready k))).
  { intros o. by apply triple_ret. }
  assert (Hw : ∀ text, triple (on (ready k)) (writeLine ρ text) (λ _, on (ready k))).
  { intros text. apply write_keeps, stable_ready. }
  assert (Hm : ∀ ops, Forall (λ o, session_metric o = false) ops →
    triple (on (ready k)) (metrics ops) (λ _, on (M := M) (ready k))).
  { intros ops. apply metrics_keeps, stable_ready. }
  unfold handleLine. eapply triple_bind.
  { apply (triple_validate ρ _ line _ (λ r l sess, ready k l sess
      ∧ ∃ l', l = l' ++ [EvValidate line r])).
    intros l sess r H. split; [by apply stable_ready|by eauto]. }
  intros [err|].
  { apply (triple_pre _ (on (ready k))); [by intros st [H _]|].
    eapply triple_bind; [apply Hm; by repeat constructor|]. intros [].
    eapply triple_bind; [apply Hw|]. intros ?. by apply Hret. }
  destruct (splitCommand line) as [name args] eqn:Es. case_if.
  { apply (triple_pre _ (on (ready k))); [by intros st [H _]|].
    eapply triple_bind; [apply Hw|]. intros ?. apply Hret. }
  destruct (Commands.Find (registry s) name) as [cmd|] eqn:Ef.
  2: { apply (triple_pre _ (on (ready k))); [by intros st [H _]|].
       eapply triple_bind; [apply Hm; by repeat constructor|]. intros [].
       eapply triple_bind; [apply Hw|]. intros ?. by apply Hret. }
  eapply triple_bind.
  { apply (triple_modifySession _ _ (λ l sess, ready k l sess
      ∧ ∃ l', l = l' ++ [EvValidate line None])).
    intros l sess [[Hb Ha] Hl]. split; [split; [by apply base_session|done]|done]. }
  intros []. eapply triple_bind; [apply triple_getSession|]. intros sess0.
  eapply triple_bind.
  { apply (triple_execute ρ false cmd _ args _ (ready k) quiet); [apply stable_ready|done|].
    intros l sess out (_ & [Hb Ha] & l' & Hl). split; [|by apply authenticated_app].
    apply (base_snoc k 0 l sess (EvExecute cmd args sess out) Hb); [done|].
    split; [|done]. by exists l', line, name. }
  intros [output|e].
  - eapply triple_bind; [apply Hm; by repeat constructor|]. intros [].
    case_if; [by apply Hret|]. eapply triple_bind; [apply Hw|]. intros ok.
    apply Hret.
  - eapply triple_bind; [apply Hm; by repeat constructor|]. intros [].
    eapply triple_bind; [apply Hw|]. intros ?. by apply Hret.
Qed.

(** The lines that end the session. *)
Lemma handleLine_reason line st r :
  (handleLine ρ s line st).1 = Some r → r = "quit" ∨ r = "error_escritura".
Proof.
  enough (H : triple (λ _, True) (handleLine ρ s line)
    (λ o _, ∀ r, o = Some r → r = "quit" ∨ r = "error_escritura")) by by apply (H st).
  clear st r.
  assert (Hret : ∀ o : option string, (∀ r, o = Some r → r = "quit" ∨ r = "error_escritura") →
    triple (M := M) (λ _, True) (mret o) (λ o _, ∀ r, o = Some r → r = "quit" ∨ r = "error_escritura")).
  { intros o Ho. by apply triple_ret. }
  unfold handleLine. eapply triple_bind; [apply triple_true|]. intros [e|].
  { do 2 (eapply triple_bind; [apply triple_true|intros ?]). by apply Hret. }
  destruct (splitCommand line). case_if.
  { eapply triple_bind; [apply triple_true|intros ?]. apply Hret. intros r [= <-]. by left. }
  case_match.
  2: { do 2 (eapply triple_bind; [apply triple_true|intros ?]). by apply Hret. }
  do 3 (eapply triple_bind; [apply triple_true|intros ?]). case_match.
  - eapply triple_bind; [apply triple_true|intros ?]. case_if; [by apply Hret|].
    eapply triple_bind; [apply triple_true|intros ok]. apply Hret.
    intros r. case_if; [intros [= <-]; by right|done].
  - do 2 (eapply triple_bind; [apply triple_true|intros ?]). by apply Hret.
Qed.

(** The reasons with which a session closes. *)
Definition reasons : list string :=
  ["desconexion_cliente"; "error_escritura"; "auth_failed"; "tiempo_inactivo"; "error_lectura";
   "quit"].

Lemma loop_spec k fuel :
  triple (on (ready k)) (loop ρ s fuel) (λ _, on (base k)).
Proof.
  induction fuel as [|fuel IH]; simpl; [apply triple_ret; by intros st [? _]|].
  assert (Hret : ∀ r : string, triple (on (M := M) (ready k)) (mret r) (λ _, on (base k))).
  { intros r. apply triple_ret. by intros st [? _]. }
  eapply triple_bind; [apply write_keeps, stable_ready|]. intros ok.
  case_if; [apply Hret|].
  eapply triple_bind; [apply readLine_keeps|]. intros [line|[raw| | |]]; try apply Hret.
  - case_if; [apply IH|]. eapply triple_bind; [apply handleLine_spec|]. intros [r|].
    + apply Hret.
    + apply IH.
  - eapply triple_bind; [apply write_keeps, stable_ready|]. intros ?. apply Hret.
Qed.

Lemma keeps_input_handleLine line : keeps_input (handleLine ρ s line).
Proof.
  unfold handleLine, writeLine. apply keeps_input_bind; [auto with conn|].
  intros [e|]; [auto 6 with conn|]. destruct (splitCommand line). case_if; [auto with conn|].
  case_match; [|auto 6 with conn]. do 3 (apply keeps_input_bind; [auto with conn|intros ?]).
  case_match; [|auto 6 with conn]. apply keeps_input_bind; [auto with conn|]. intros ?.
  case_if; auto with conn.
Qed.

Lemma readLine_input (st : state M) :
  input (readLine st).2 = tail (input st)
  ∧ ((readLine st).1 = Err ReadEOF ∨ (length (tail (input st)) < length (input st))%nat).
Proof.
  unfold readLine, read, mbind, io_bind, mret, io_ret. destruct (input st) eqn:E; simpl;
    [by rewrite E; auto|]. split; [done|right; lia].
Qed.

(** The loop ends, with a reason. *)
Lemma loop_reason fuel st :
  (length (input st) < fuel)%nat → (loop ρ s fuel st).1 ∈ reasons.
Proof.
  revert st. induction fuel as [|fuel IH]; intros st Hlt; [lia|].
  assert (Hr : ∀ r (st : state M), r ∈ reasons → ((mret r : io M string) st).1 ∈ reasons) by done.
  simpl. unfold mbind at 1, io_bind at 1.
  pose proof (keeps_input_write ρ "> " st) as Hw. unfold writePrompt.
  destruct (write ρ "> " st) as [ok st1]. simpl in Hw.
  case_if; [apply Hr; unfold reasons; set_solver|]. unfold mbind at 1, io_bind at 1.
  destruct (readLine_input st1) as [Hi Hd].
  destruct (readLine st1) as [r st2]. simpl in Hi, Hd.
  destruct r as [line|[raw| | |]]; try (apply Hr; unfold reasons; set_solver).
  - destruct Hd as [?|Hd]; [done|].
    assert (Hlt2 : (length (input st2) < fuel)%nat) by (rewrite Hi; rewrite Hw in *; lia).
    case_if; [by apply IH|]. unfold mbind, io_bind.
    pose proof (keeps_input_handleLine line st2) as Hl.
    pose proof (handleLine_reason line st2) as Hh.
    destruct (handleLine ρ s line st2) as [o st3]. simpl in Hl, Hh.
    destruct o as [r|]; [|apply IH; by rewrite Hl].
    apply Hr. destruct (Hh r eq_refl) as [-> | ->]; unfold reasons; set_solver.
  - unfold mbind, io_bind. destruct (writeLine _ _ _) as [? ?].
    apply Hr; unfold reasons; set_solver.
Qed.

Lemma body_spec :
  triple (on (base 0)) (body ρ s) (λ _, on (base (Z.to_nat (max_attempts s)))).
Proof.
  set (K := Z.to_nat (max_attempts s)). unfold body.
  assert (Hret : ∀ (r : string), triple (on (M := M) (base K)) (mret r) (λ _, on (base K))).
  { intros r. by apply triple_ret. }
  eapply triple_bind; [apply write_keeps, stable_base|]. intros ok. case_if.
  { apply (triple_pre _ (on (base K))); [|apply Hret]. intros st. apply base_mono. lia. }
  apply (triple_bind _ _ (λ r, on (λ l sess, base K l sess
    ∧ (is_ok r = true → authenticated l sess)))).
  - destruct (Config.AuthEnabled (cfg s)) eqn:Hen.
    + unfold authenticate. eapply triple_bind; [apply write_keeps, stable_base|]. intros ?.
      by apply authenticate_loop_spec.
    + eapply triple_bind; [apply triple_now|]. intros t. eapply triple_bind.
      { apply (triple_modifySession _ _ (ready K)). intros l sess Hb. split.
        - eapply base_mono; [|by apply base_session]. lia.
        - unfold authenticated. by rewrite Hen. }
      intros []. eapply triple_bind.
      { apply (triple_modifySession _ _ (ready K)). intros l sess [Hb Ha].
        split; [by apply base_session|]. unfold authenticated in *. by rewrite Hen in *. }
      intros []. eapply triple_bind; [apply write_keeps, stable_ready|]. intros ?.
      apply triple_ret. by intros st [? ?].
  - intros [[]|e].
    + apply (triple_pre _ (on (ready K))); [intros st [? Ha]; split; auto|].
      eapply triple_bind; [apply write_keeps, stable_ready|]. intros ok'. case_if.
      { apply triple_ret. by intros st [? _]. }
      intros st Hst. by apply (loop_spec K (S (length (input st))) st).
    + apply (triple_pre _ (on (base K))); [by intros st [? _]|].
      eapply triple_bind; [apply write_keeps, stable_base|]. intros ?. apply Hret.
Qed.

Lemma body_reason st : (body ρ s st).1 ∈ reasons.
Proof.
  enough (H : triple (λ _, True) (body ρ s) (λ r _, r ∈ reasons)) by by apply (H st).
  clear st.
  assert (Hret : ∀ r : string, r ∈ reasons →
    triple (M := M) (λ _, True) (mret r) (λ r _, r ∈ reasons)).
  { intros r Hr. by apply triple_ret. }
  unfold body. eapply triple_bind; [apply triple_true|]. intros ok.
  case_if; [apply Hret; unfold reasons; set_solver|].
  eapply triple_bind; [apply triple_true|]. intros [[]|e].
  - eapply triple_bind; [apply triple_true|]. intros ok'.
    case_if; [apply Hret; unfold reasons; set_solver|].
    intros st _. apply loop_reason. lia.
  - eapply triple_bind; [apply triple_true|]. intros ?. apply Hret; unfold reasons; set_solver.
Qed.

End Steps.
End Logs.

(** ** One connection *)

Section Connection.
Context {M : Type} `{C : !Tunnels.Controller M} {A : Type} `{AU : !Auth.Authenticator A}.

Definition opening (s : TCPServer A) (sess : Session.t) : list event :=
  (EvMetric <$> Metrics.ObserveSessionOpened)
  ++ (if sessionRegistry s then [EvRegister sess] else []).
Definition closing (s : TCPServer A) (id reason : string) : list event :=
  (if sessionRegistry s then [EvUnregister id] else [])
  ++ (EvMetric <$> Metrics.ObserveSessionClosed reason).

(** The session as it is registered. *)
Definition first_session (ρ : env M) (sequence : Z) (remoteAddr : string) : Session.t :=
  Session.SetTransport "tcp" (Session.New sequence (clock ρ 0) remoteAddr).1.

Lemma all_allowed_app_trivial (s : TCPServer A) remote l es :
  (∀ l e, e ∈ es → allowed_call s remote l e) → all_allowed s remote l →
  all_allowed s remote (l ++ es).
Proof.
  revert l. induction es as [|e es IH]; intros l Hes Hl; [by rewrite app_nil_r|].
  rewrite cons_middle, app_assoc. apply IH; [set_solver|].
  apply all_allowed_snoc; [done|]. apply Hes. by left.
Qed.

Lemma handleConnection_spec (ρ : env M) (s : TCPServer A) (sequence : Z) (remoteAddr : string)
    (sh0 : shared M) (ins : list read_event) :
  let '(reason, st) := handleConnection ρ s sequence remoteAddr sh0 ins in
  let sess0 := first_session ρ sequence remoteAddr in
  reason ∈ reasons
  ∧ all_allowed s remoteAddr (log st)
  ∧ (logins (log st) <= Z.to_nat (max_attempts s))%nat
  ∧ debt (log st) = 0%Z
  ∧ ∃ mid, log st = opening s sess0 ++ mid ++ closing s (Session.ID sess0) reason
      ∧ Forall inner mid.
Proof.
  unfold handleConnection, serve.
  set (sess0 := first_session ρ sequence remoteAddr).
  set (st0 := mkState sh0 1 ins sess0 (opening s sess0)).
  assert (Hst0 : on (indebted s (opening s sess0) (Session.ID sess0) remoteAddr 0 0) st0).
  { split_and!; try done.
    - exists []. by rewrite app_nil_r.
    - apply (all_allowed_app_trivial s remoteAddr []).
      + unfold opening. intros l e He. destruct (sessionRegistry s); set_solver.
      + intros l1 e l2 E. by destruct l1.
    - unfold st0, opening. cbn [log]. destruct (sessionRegistry s); apply Nat.eq_le_incl; reflexivity.
    - unfold st0, opening. by destruct (sessionRegistry s). }
  pose proof (body_spec s (opening s sess0) (Session.ID sess0) remoteAddr ρ st0 Hst0) as Hbody.
  pose proof (body_reason s ρ st0) as Hreason.
  assert (Hrun : serve ρ s (mkState sh0 1 ins (Session.New sequence (clock ρ 0) remoteAddr).1 [])
    = let '(reason, st1) := body ρ s st0 in
      (reason, mkState (sh st1) (tick st1) (input st1) (sess st1)
                 (log st1 ++ closing s (Session.ID (sess st1)) reason))).
  { unfold serve, st0, opening, closing. destruct (sessionRegistry s).
    - transitivity (let '(reason, st1) := body ρ s (mkState sh0 1 ins sess0
          ((EvMetric <$> Metrics.ObserveSessionOpened) ++ [EvRegister sess0])) in
        (reason, mkState (sh st1) (tick st1) (input st1) (sess st1)
          ((log st1 ++ [EvUnregister (Session.ID (sess st1))])
           ++ (EvMetric <$> Metrics.ObserveSessionClosed reason)))); [reflexivity|].
      case_match. by rewrite <-app_assoc.
    - reflexivity. }
  unfold serve in Hrun. rewrite Hrun. destruct (body ρ s st0) as [reason st1]. simpl in *.
  destruct Hbody as ((mid & Hlog & Hmid) & Hall & Hid & Hrem & Hk & Hdebt).
  split_and!; [done| | | |].
  - apply all_allowed_app_trivial; [|done]. unfold closing. intros l e He.
    destruct (sessionRegistry s); set_solver.
  - rewrite logins_app. replace (logins (closing s _ reason)) with 0%nat; [lia|].
    unfold closing. by destruct (sessionRegistry s).
  - rewrite debt_app, Hdebt. unfold closing. by destruct (sessionRegistry s).
  - exists mid. by rewrite Hlog, Hid, app_assoc.
Qed.

End Connection.

(** The metric operations of a log. *)
Definition metric_ops (l : list event) : list Metrics.op :=
  omap (λ e, match e with EvMetric o => Some o | _ => None end) l.

Lemma metric_ops_app l1 l2 : metric_ops (l1 ++ l2) = metric_ops l1 ++ metric_ops l2.
Proof. apply omap_app. Qed.

Lemma inner_session_value l m :
  Forall inner l →
  (m = Metrics.sessionsTotal ∨ m = Metrics.activeSessions ∨ ∃ r, m = Metrics.sessionCloseBy r) →
  Metrics.value m (metric_ops l) = 0%Z.
Proof.
  intros Hf Hm. induction Hf as [|e l He Hf IH]; [done|].
  destruct e; try (by apply IH). simpl in *. rewrite IH.
  destruct o as [m'|m']; simpl; (rewrite bool_decide_eq_false_2; [done|]);
    intros ->; by destruct Hm as [->|[->|[r ->]]].
Qed.

(** A command in the log, with what came before it. *)
Lemma execute_gated {M : Type} `{C : !Tunnels.Controller M} {A : Type}
    `{AU : !Auth.Authenticator A} (ρ : env M) (s : TCPServer A) (sequence : Z)
    (remoteAddr : string) (sh0 : shared M) (ins : list read_event)
    (l1 l2 : list event) (cmd : Commands.Command) (args : list string) (sess : Session.t)
    (out : result string string) :
  log (handleConnection ρ s sequence remoteAddr sh0 ins).2
    = l1 ++ EvExecute cmd args sess out :: l2 →
  (∃ l' line name, l1 = l' ++ [EvValidate line None] ∧ splitCommand line = (name, args)
     ∧ isQuit name = false ∧ Commands.Find (registry s) name = Some cmd)
  ∧ (Config.AuthEnabled (cfg s) = true →
     ∃ la lb u p i,
       l1 = la ++ EvAllow (RateLimiter.Key remoteAddr u) true :: EvAuthenticate u p (Ok i) :: lb
       ∧ Auth.authenticate (authenticator s) u p = Ok i
       ∧ Session.Username sess = Auth.Username i ∧ Session.Role sess = Auth.IRole i
       ∧ Session.IsAuthenticated sess = true).
Proof.
  intros Hlog. pose proof (handleConnection_spec ρ s sequence remoteAddr sh0 ins) as H.
  destruct (handleConnection ρ s sequence remoteAddr sh0 ins) as [reason st]. simpl in Hlog.
  destruct H as (_ & Hall & _). destruct (Hall _ _ _ Hlog) as [Hv Ha]. split; [done|].
  intros Hen. unfold authenticated in Ha. rewrite Hen in Ha.
  destruct Ha as (la & u & p & i & lb & -> & Hu & Hr).
  rewrite <-app_assoc in Hlog. destruct (Hall _ _ _ Hlog) as [[l' ->] Hauth].
  exists l', lb, u, p, i. rewrite <-app_assoc. split_and!; try done.
  unfold Session.IsAuthenticated. rewrite Hu.
  apply negb_true_iff, bool_decide_eq_false. by eapply Auth.authenticate_named.
Qed.

(** C2: no command without a login.  For every behaviour of the peer, of the writes,
    of the external tools and of the other connections: a command is executed only
    directly after the validator accepted the line it comes from, the command is the
    one registered under the first word of that line with the remaining words as
    arguments, and, when authentication is enabled, the session that executes it
    carries the name and role that the authenticator gave for credentials submitted on
    this very connection, after the rate limiter let that attempt through. *)
Theorem tcp_commands_gated {M : Type} `{C : !Tunnels.Controller M} {A : Type}
    `{AU : !Auth.Authenticator A} (ρ : env M) (s : TCPServer A) (sequence : Z)
    (remoteAddr : string) (sh0 : shared M) (ins : list read_event)
    (l1 l2 : list event) (cmd : Commands.Command) (args : list string) (sess : Session.t)
    (out : result string string) :
  log (handleConnection ρ s sequence remoteAddr sh0 ins).2
    = l1 ++ EvExecute cmd args sess out :: l2 →
  (∃ l' line name, l1 = l' ++ [EvValidate line None] ∧ splitCommand line = (name, args)
     ∧ isQuit name = false ∧ Commands.Find (registry s) name = Some cmd)
  ∧ (Config.AuthEnabled (cfg s) = true →
     ∃ la lb u p i,
       l1 = la ++ EvAllow (RateLimiter.Key remoteAddr u) true :: EvAuthenticate u p (Ok i) :: lb
       ∧ Auth.authenticate (authenticator s) u p = Ok i
       ∧ Session.Username sess = Auth.Username i ∧ Session.Role sess = Auth.IRole i
       ∧ Session.IsAuthenticated sess = true).
Proof. apply execute_gated. Qed.

(** Password guessing on a connection.  However the peer behaves, a connection
    submits at most the configured number of passwords (three if none is configured);
    each is submitted directly after the rate limiter allowed that key, and each
    failure is recorded by the limiter exactly once, directly after it happened. *)
Lemma tcp_login_bounded {M : Type} `{C : !Tunnels.Controller M} {A : Type}
    `{AU : !Auth.Authenticator A} (ρ : env M) (s : TCPServer A) (sequence : Z)
    (remoteAddr : string) (sh0 : shared M) (ins : list read_event) :
  let l := log (handleConnection ρ s sequence remoteAddr sh0 ins).2 in
  (logins l <= Z.to_nat (max_attempts s))%nat
  ∧ (∀ l1 u p r l2, l = l1 ++ EvAuthenticate u p r :: l2 →
       ∃ l', l1 = l' ++ [EvAllow (RateLimiter.Key remoteAddr u) true])
  ∧ (∀ l1 key b l2, l = l1 ++ EvFailure key b :: l2 →
       ∃ l' u p m, l1 = l' ++ [EvAuthenticate u p (Err m)]
         ∧ key = RateLimiter.Key remoteAddr u)
  ∧ debt l = 0%Z.
Proof.
  pose proof (handleConnection_spec ρ s sequence remoteAddr sh0 ins) as H.
  destruct (handleConnection ρ s sequence remoteAddr sh0 ins) as [reason st]. simpl.
  destruct H as (_ & Hall & Hk & Hd & _). split_and!; try done.
  - intros l1 u p r l2 E. by destruct (Hall _ _ _ E) as [? _].
  - intros l1 key b l2 E. by apply (Hall _ _ _ E).
Qed.

(** C15: the life of a session.  Every connection ends, with one of the six reasons of
    the code; whatever happens in between, the first calls count and register the
    session, the last ones unregister the same session and count it as closed for that
    reason, and in between the registry and the gauges of sessions are not touched: so a
    connection leaves the gauge of active sessions as it found it. *)
Theorem tcp_session_lifecycle {M : Type} `{C : !Tunnels.Controller M} {A : Type}
    `{AU : !Auth.Authenticator A} (ρ : env M) (s : TCPServer A) (sequence : Z)
    (remoteAddr : string) (sh0 : shared M) (ins : list read_event) :
  let '(reason, st) := handleConnection ρ s sequence remoteAddr sh0 ins in
  let sess0 := first_session ρ sequence remoteAddr in
  let ops := metric_ops (log st) in
  reason ∈ ["desconexion_cliente"; "error_escritura"; "auth_failed"; "tiempo_inactivo";
            "error_lectura"; "quit"]
  ∧ (∃ mid, log st = opening s sess0 ++ mid ++ closing s (Session.ID sess0) reason
       ∧ Forall inner mid)
  ∧ Metrics.value Metrics.activeSessions ops = 0%Z
  ∧ Metrics.value Metrics.sessionsTotal ops = 1%Z
  ∧ Metrics.value (Metrics.sessionCloseBy reason) ops = 1%Z.
Proof.
  pose proof (handleConnection_spec ρ s sequence remoteAddr sh0 ins) as H.
  destruct (handleConnection ρ s sequence remoteAddr sh0 ins) as [reason st].
  destruct H as (Hr & _ & _ & _ & mid & Hlog & Hmid). cbv zeta.
  assert (Hval : ∀ m, (m = Metrics.sessionsTotal ∨ m = Metrics.activeSessions
      ∨ ∃ r, m = Metrics.sessionCloseBy r) →
    Metrics.value m (metric_ops (log st))
    = (Metrics.value m (Metrics.ObserveSessionOpened ++ Metrics.ObserveSessionClosed reason))%Z).
  { intros m Hm. rewrite Hlog, !metric_ops_app, !Metrics.value_app.
    rewrite (inner_session_value mid m) by done.
    rewrite Z.add_0_l. f_equal; unfold opening, closing; by destruct (sessionRegistry s). }
  split_and!; [done|by exists mid|..]; rewrite Hval by eauto; simpl; try done.
  by repeat case_bool_decide.
Qed.

Definition demo_users : Auth.Service :=
  Auth.mkService
    (<["student" := Auth.mkUser "secreto" Auth.RoleStudent]>
     (<["teacher" := Auth.mkUser "clave-t" Auth.RoleTeacher]>
      (<["auditor" := Auth.mkUser "clave-a" Auth.RoleAuditor]>
       (<["admin" := Auth.mkUser "clave-x" Auth.RoleAdmin]> ∅)))).

Lemma demo_users_wf : Auth.default_users_wf demo_users.
Proof.
  split; cbn [Auth.users demo_users].
  - intros name r Hu. rewrite !lookup_insert, lookup_empty in Hu.
    repeat case_decide; try discriminate Hu; injection Hu as <-; subst; set_solver.
  - intros name Hn. rewrite !lookup_insert. repeat case_decide; try by eexists. set_solver.
Qed.

Definition demo_authenticator : {s | Auth.default_users_wf s} := exist _ demo_users demo_users_wf.
Definition demo_server : TCPServer {s | Auth.default_users_wf s} :=
  mkServer (Config.defaults "x") Validator.NewDefaultValidator demo_authenticator
    Commands.commandRegistry true.
Definition demo_shared : shared Tunnels.t :=
  mkShared (Some (RateLimiter.NewRateLimiter (RateLimiter.mkConfig true 5 Minute Minute)))
    Commands.demo_state.
Definition demo_env : env Tunnels.t :=
  mkEnv (λ n, Z.of_nat n * Second)%Z (λ _ s, s) (λ _, true) (λ _, Commands.demo_env)
    (λ _, Validator.dead_world).
Definition demo_line (text : string) : read_event := Line (text +:+ crlf).
Definition demo_input : list read_event :=
  [demo_line "Student"; demo_line "malo"; demo_line "Student"; demo_line "secreto";
   demo_line "a && b"; demo_line "WHOAMI"; demo_line "quit"].
Definition demo_log : list event :=
  log (handleConnection demo_env demo_server 6 "10.0.0.7:5000" demo_shared demo_input).2.

Lemma tcp_commands_gated_witness :
  ∃ la lb u p i,
    take 25 demo_log
    = la ++ EvAllow (RateLimiter.Key "10.0.0.7:5000" u) true :: EvAuthenticate u p (Ok i) :: lb
    ∧ Auth.authenticate (authenticator demo_server) u p = Ok i.
Proof.
  assert (E : ∃ sess out,
    log (handleConnection demo_env demo_server 6 "10.0.0.7:5000" demo_shared demo_input).2
    = take 25 demo_log ++ EvExecute Commands.WhoAmICommand [] sess out :: drop 26 demo_log).
  { eexists _, _. vm_compute. reflexivity. }
  destruct E as (sess & out & E).
  destruct (tcp_commands_gated demo_env demo_server 6 "10.0.0.7:5000" demo_shared demo_input
    (take 25 demo_log) (drop 26 demo_log) Commands.WhoAmICommand [] sess out E) as [_ H].
  assert (Hen : Config.AuthEnabled (cfg demo_server) = true) by reflexivity.
  destruct (H Hen) as (la & lb & u & p & i & H1 & H2 & _).
  exists la, lb, u, p, i. exact (conj H1 H2).
Defined.

End TCPServer.
