(* ===== verification/AuthorizedKeys.v ===== *)
(** * Authorized public keys ([internal/crypto/authorizedkeys/store.go])

    Reading a file and parsing one entry of it ([ssh.ParseAuthorizedKey]) are
    inputs; a public key is its marshalled form. *)

From S2P Require Import Prelude GoStrings PathGuard.

Module AuthorizedKeys.

Record Store := mkStore { dir : string }.

(** [os.ReadFile]: the contents, the error of a missing file, or another one. *)
Inductive file := Contents (raw : string) | NotExist | FileError (err : string).

(** [NewStore] *)
Definition NewStore (dir : string) : Store := mkStore (TrimSpace dir).

(** [filepath.Base] *)
Definition Base (path : string) : string :=
  if bool_decide (path = "") then "."
  else
    let p := TrimRightByte path PathGuard.slash in
    if bool_decide (p = "") then "/" else default "" (last (SplitByte p PathGuard.slash)).

(** [pathForUser] *)
Definition pathForUser (s : Store) (username : string) : result string string :=
  if bool_decide (dir s = "") then Err "authorized keys directory is empty"
  else
    let user := TrimSpace username in
    if bool_decide (user = "") then Err "username is empty"
    else if negb (bool_decide (user = Base user)) || contains_byte PathGuard.slash user
    then Err "invalid username for authorized keys path"
    else Ok (PathGuard.Join (dir s) user).

Section Keys.
Context (readFile : string → file) (parse : string → result string (string * string)).

(** The loop of [IsAuthorized] over the entries of the file. *)
Fixpoint scan (fuel : nat) (username key remaining : string) : result string bool :=
  match fuel with
  | O => Ok false
  | S fuel =>
     if bool_decide (TrimSpace remaining = "") then Ok false
     else match parse remaining with
     | Err e => Err ("parse authorized keys for " +:+ username +:+ ": " +:+ e)
     | Ok (parsed, rest) =>
        if bool_decide (parsed = key) then Ok true else scan fuel username key rest
     end
  end.

(** [IsAuthorized]; a nil store or key is [None]. *)
Definition IsAuthorized (s : option Store) (username : string) (key : option string)
    : result string bool :=
  match s, key with
  | None, _ => Err "authorized keys store is nil"
  | _, None => Err "public key is nil"
  | Some s, Some key =>
     let* path := pathForUser s username in
     match readFile path with
     | NotExist => Ok false
     | FileError e => Err ("read authorized keys for " +:+ username +:+ ": " +:+ e)
     | Contents raw => scan (S (String.length raw)) username key raw
     end
  end.

(** The entries the parser finds in a text. *)
Inductive entry : string → string → Prop :=
| entry_here raw parsed rest : parse raw = Ok (parsed, rest) → entry raw parsed
| entry_later raw parsed0 rest parsed :
    parse raw = Ok (parsed0, rest) → entry rest parsed → entry raw parsed.

(** The parser consumes input at each entry. *)
Definition parse_shortens : Prop :=
  ∀ raw parsed rest, parse raw = Ok (parsed, rest) →
    (String.length rest < String.length raw)%nat.

Lemma scan_true fuel username key raw :
  scan fuel username key raw = Ok true → entry raw key.
Proof using Type.
  revert raw. induction fuel as [|fuel IH]; intros raw; simpl; [done|].
  case_bool_decide; [done|]. destruct (parse raw) as [[parsed rest]|] eqn:E; [|done].
  case_bool_decide; [intros _; subst; by eapply entry_here|].
  intros ?%IH. by eapply entry_later.
Qed.

(** The fuel is enough: when nothing is found, the remaining text is blank. *)
Lemma scan_false fuel username key raw :
  parse_shortens → (String.length raw < fuel)%nat →
  scan fuel username key raw = Ok false → ∀ parsed, entry raw parsed →
  (∀ r, TrimSpace r = "" → ¬ is_ok (parse r)) → parsed ≠ key.
Proof using Type.
  intros Hp. revert raw. induction fuel as [|fuel IH]; intros raw Hl; [lia|]. simpl.
  case_bool_decide as Hb.
  - intros _ parsed He Hblank. destruct He as [raw p r E|raw p r q E _];
      exfalso; apply (Hblank raw Hb); by rewrite E.
  - destruct (parse raw) as [[parsed0 rest]|] eqn:E; [|done].
    case_bool_decide as Hk; [done|]. intros Hs parsed He Hblank.
    destruct He as [raw p r E'|raw p r q E' He]; rewrite E' in E; simplify_eq; [done|].
    eapply IH; [|exact Hs|exact He|exact Hblank]. apply Hp in E'. lia.
Qed.

(** The parser finds no entry in a blank text. *)
Definition blank_fails : Prop := ∀ r, TrimSpace r = "" → ¬ is_ok (parse r).

(** Which keys are accepted.  Whenever the lookup gives an answer, the key is
    accepted if and only if the file of the user exists and one of the entries the
    parser finds in it is that key.  The loop of the lookup never stops early: the
    parser consumes text at each entry and finds none in blank text. *)
Lemma key_accepted_iff (s : Store) (username key : string) (b : bool) :
  parse_shortens → blank_fails →
  IsAuthorized (Some s) username (Some key) = Ok b →
  b = true ↔ ∃ path raw, pathForUser s username = Ok path ∧ readFile path = Contents raw
                         ∧ entry raw key.
Proof using Type.
  intros Hp Hb. unfold IsAuthorized. destruct (pathForUser s username) as [path|] eqn:E; [|done].
  simpl. destruct (readFile path) as [raw| |e] eqn:Er; [|intros [= <-]|done].
  - intros H. split.
    + intros ->. exists path, raw. split_and!; [done|done|]. exact (scan_true (S (String.length raw)) _ _ _ H).
    + intros (path' & raw' & [= <-] & Er' & He). rewrite Er in Er'. simplify_eq.
      destruct b; [done|]. exfalso.
      exact (scan_false (S (String.length _)) _ _ _ Hp (Nat.lt_succ_diag_r _) H _ He Hb eq_refl).
  - split; [done|]. intros (path' & raw' & [= <-] & Er' & _). congruence.
Qed.

End Keys.

(** A parser that takes one character as a key. *)
Definition char_parse (r : string) : result string (string * string) :=
  match r with
  | String c rest => if bool_decide (TrimSpace r = "") then Err "ssh: no key found"
                     else Ok (String c "", rest)
  | EmptyString => Err "ssh: no key found"
  end.

Lemma key_accepted_iff_witness :
  parse_shortens char_parse ∧ blank_fails char_parse
  ∧ (true = true ↔ ∃ path raw, pathForUser (mkStore "/srv/keys") "ana" = Ok path
       ∧ Contents "xy" = Contents raw ∧ entry char_parse raw "y").
Proof.
  assert (Hp : parse_shortens char_parse).
  { intros [|c r] parsed rest; simpl; [done|]. case_bool_decide; [done|].
    intros [= <- <-]. simpl. lia. }
  assert (Hb : blank_fails char_parse).
  { intros [|c r] H; [by simpl; tauto|]. unfold char_parse.
    rewrite bool_decide_eq_true_2 by done. simpl; tauto. }
  split; [exact Hp|]. split; [exact Hb|].
  exact (key_accepted_iff (λ _, Contents "xy") char_parse (mkStore "/srv/keys") "ana" "y" true
           Hp Hb eq_refl).
Defined.

Lemma components_snoc dir user :
  PathGuard.plain user →
  PathGuard.components true (dir +:+ "/" +:+ user) = PathGuard.components true dir ++ [user].
Proof.
  intros (H1 & H2 & H3 & H4). unfold PathGuard.components.
  change ("/" +:+ user) with (String PathGuard.slash user).
  rewrite PathGuard.SplitByte_app, foldl_app, (PathGuard.SplitByte_none _ user) by done.
  simpl. unfold PathGuard.clean_step at 1. rewrite !bool_decide_eq_false_2 by done.
  simpl. by rewrite reverse_cons.
Qed.

Lemma components_parent dir :
  PathGuard.components true (dir +:+ "/" +:+ "..")
  = take (length (PathGuard.components true dir) - 1) (PathGuard.components true dir).
Proof.
  pose proof (PathGuard.components_plain dir) as Hp. unfold PathGuard.components in *.
  change ("/" +:+ "..") with (String PathGuard.slash "..").
  rewrite PathGuard.SplitByte_app, foldl_app. rewrite Forall_reverse in Hp.
  set (acc := foldl _ [] _) in *. destruct acc as [|x acc]; [done|]. simpl.
  apply Forall_cons in Hp as [(_ & _ & Hx & _) _].
  assert (E : PathGuard.clean_step true (x :: acc) ".." = acc).
  { unfold PathGuard.clean_step. simpl. by rewrite bool_decide_eq_false_2. }
  rewrite E, reverse_cons, length_app. simpl.
  by rewrite Nat.add_sub, take_app_length.
Qed.

(** C31: the file of a user's keys.  Seen from the working directory of the process, and
    whether the configured directory is rooted or relative, every user name that is
    accepted leads to the file of that name directly in the directory, except the two
    names made of dots: those lead to the directory itself and to its parent. *)
Theorem keys_path_in_directory (wd : string) (s : Store) (username path : string) :
  pathForUser s username = Ok path →
  let user := TrimSpace username in
  let cs := PathGuard.resolve wd (dir s) in
  (PathGuard.plain user ∧ PathGuard.resolve wd path = cs ++ [user])
  ∨ user = "." ∧ PathGuard.resolve wd path = cs
  ∨ user = ".." ∧ PathGuard.resolve wd path = take (length cs - 1) cs.
Proof.
  intros H user cs. revert H. unfold pathForUser. case_bool_decide as Hdir; [done|].
  case_bool_decide as Hu; [done|]. case_if; [done|]. intros [= <-].
  apply orb_false_iff in Heqb as [_ Hs]. fold user in Hu, Hs |- *.
  unfold PathGuard.Join. rewrite bool_decide_eq_false_2, PathGuard.resolve_Clean by done.
  assert (Habs : PathGuard.IsAbs (dir s +:+ "/" +:+ user) = PathGuard.IsAbs (dir s)).
  { unfold PathGuard.IsAbs. destruct (dir s) as [|a d]; [done|]. unfold HasPrefix.
    change (String a d +:+ "/" +:+ user) with (String a (d +:+ "/" +:+ user)).
    cbn [strip_prefix]. by destruct (bool_decide _). }
  set (d := if PathGuard.IsAbs (dir s) then dir s else wd +:+ "/" +:+ dir s).
  assert (Hr : PathGuard.resolve wd (dir s +:+ "/" +:+ user)
    = PathGuard.components true (d +:+ "/" +:+ user)).
  { unfold PathGuard.resolve, d. rewrite Habs. destruct (PathGuard.IsAbs (dir s)); [done|].
    by rewrite <-!string_app_assoc. }
  rewrite Hr. change cs with (PathGuard.components true d).
  destruct (decide (user = ".")) as [->|Hd]; [right; left|
    destruct (decide (user = "..")) as [->|Hdd]; [right; right|left]].
  - split; [done|]. unfold PathGuard.components. change ("/" +:+ ".") with (String PathGuard.slash ".").
    by rewrite PathGuard.SplitByte_app, foldl_app.
  - split; [done|]. by apply components_parent.
  - assert (Hp : PathGuard.plain user) by done. split; [done|]. by apply components_snoc.
Qed.

Lemma keys_path_in_directory_witness :
  pathForUser (NewStore "data/ssh/authorized_keys") " ana " = Ok "data/ssh/authorized_keys/ana"
  ∧ PathGuard.resolve "/srv" "data/ssh/authorized_keys/ana"
    = ["srv"; "data"; "ssh"; "authorized_keys"; "ana"].
Proof.
  assert (E : pathForUser (NewStore "data/ssh/authorized_keys") " ana "
    = Ok "data/ssh/authorized_keys/ana") by by vm_compute.
  split; [exact E|].
  destruct (keys_path_in_directory "/srv" (NewStore "data/ssh/authorized_keys") " ana " _ E)
    as [[_ ->]|[[H _]|[H _]]]; [by vm_compute|by vm_compute in H..].
Defined.

(** The name of two dots reads the parent of the directory. *)
Example dots_leave_directory :
  pathForUser (NewStore "data/ssh/authorized_keys") ".." = Ok "data/ssh".
Proof. by vm_compute. Qed.

End AuthorizedKeys.
