(* ===== verification/SSHServer.v ===== *)
(** * The SSH transport ([internal/transport/sshserver/server.go])

    The SSH protocol is a library: it calls the two authentication callbacks for the
    attempts of the client and hands over channels and requests.  The model takes
    these as inputs, already decoded ([None] is a payload that [ssh.Unmarshal]
    rejects); listening, dialling and accepting channels succeed or fail as the
    environment says.  Each handler is one goroutine: it runs in the monad of [Conn],
    under arbitrary interference of the others. *)

From S2P Require Import Prelude GoStrings GoTime Access Session Auth RateLimiter Metrics Tunnels.
From S2P Require Import ForwardPolicy Config Validator PolicyService AuditService Commands Conn.
From S2P Require Import AuthorizedKeys TCPServer.

Module SSHServer.
Import Conn.

(** ** Helpers *)

(** [splitCommand] *)
Definition splitCommand (line : string) : string * list string :=
  match Fields line with
  | [] => ("", [])
  | [p] => (ToLower p, [])
  | p :: rest => (ToLower p, rest)
  end.

(** [isQuit] *)
Definition isQuit (name : string) : bool :=
  let n := ToLower name in
  bool_decide (n = "quit") || bool_decide (n = "exit") || bool_decide (n = "q").

(** [defaultRoleFor] *)
Definition defaultRoleFor (username : string) : string :=
  let u := ToLower (TrimSpace username) in
  if bool_decide (u = "student") then "student"
  else if bool_decide (u = "teacher") then "teacher"
  else if bool_decide (u = "auditor") then "auditor"
  else if bool_decide (u = "admin") then "admin"
  else "student".

(** [splitAddr] *)
Definition splitAddr (value : string) : string * Z :=
  match SplitHostPort value with
  | Err _ => (value, 0%Z)
  | Ok (host, rawPort) =>
     match Atoi rawPort with
     | None => (host, 0%Z)
     | Some port => if (port <? 0)%Z || (65535 <? port)%Z then (host, 0%Z) else (host, port)
     end
  end.

(** [roundDuration] *)
Definition roundDuration (d : Duration) : Duration :=
  if (d <=? 0)%Z then 0%Z else Round d Second.

(** [strings.ReplaceAll(value, "\n", "\r\n")] *)
Fixpoint crlf_lines (s : string) : string :=
  match s with
  | "" => ""
  | String a s =>
     if bool_decide (a = byte_of 10) then String (byte_of 13) (String (byte_of 10) (crlf_lines s))
     else String a (crlf_lines s)
  end.

(** ** The listeners of remote forwards ([remoteForwardRegistry]) *)

Record remoteForwardRegistry := mkRemote { listeners : gmap string nat }.

Definition newRemoteForwardRegistry : remoteForwardRegistry := mkRemote ∅.

(** [Put] *)
Definition Put (r : remoteForwardRegistry) (bind : string) (l : nat) : remoteForwardRegistry :=
  mkRemote (<[bind := l]> (listeners r)).

(** [Remove] *)
Definition Remove (r : remoteForwardRegistry) (bind : string)
    : option nat * remoteForwardRegistry :=
  (listeners r !! bind, mkRemote (delete bind (listeners r))).

(** [CloseAll]: the listeners it closes, in the order of iteration. *)
Definition CloseAll `{MR : MapRange} (r : remoteForwardRegistry)
    : list nat * remoteForwardRegistry :=
  ((range (listeners r)).*2, mkRemote ∅).

Section SSH.
Context `{MR : MapRange} {A : Type} `{AU : !Auth.Authenticator A}.

(** [Server]; the shared objects are in the state of the monad. *)
Record Server := mkServer {
  cfg : Config.t;
  validator : Validator.InputValidator;
  authenticator : A;
  registry : Commands.Registry;
  authorizedKeys : option AuthorizedKeys.Store;
  forwardPolicy : option ForwardPolicy.t;
  sessionRegistry : bool;
}.

(** [New]: a nil limiter is replaced by one that is disabled. *)
Definition New (cfg : Config.t) (validator : Validator.InputValidator) (authenticator : A)
    (rateLimiter : option RateLimiter.t) (registry : Commands.Registry)
    (keys : option AuthorizedKeys.Store) (policy : option ForwardPolicy.t)
    (sessionRegistry : bool) : Server * option RateLimiter.t :=
  (mkServer cfg validator authenticator registry keys policy sessionRegistry,
   match rateLimiter with
   | None => Some (RateLimiter.NewRateLimiter (RateLimiter.mkConfig false 0 0 0))
   | Some _ => rateLimiter
   end).

Context (ρ : env Tunnels.t) (s : Server).
Context (readFile : string → AuthorizedKeys.file)
        (parseKey : string → result string (string * string)).

(** ** Authentication *)

(** The extensions of [ssh.Permissions]. *)
Record Permissions := mkPermissions { PUsername : string; PRole : string; PAuthn : string }.

Definition rate_error (d : RateLimiter.RateLimitDecision) : string :=
  "login rate limit exceeded; retry after "
  +:+ format_duration (roundDuration (RateLimiter.RetryAfter d)).

(** [PasswordCallback] for a client at [addr] *)
Definition PasswordCallback (addr user pass : string)
    : io Tunnels.t (result string Permissions) :=
  let rateKey := RateLimiter.Key addr user in
  decision ← limiterAllow ρ rateKey;
  if negb (RateLimiter.Allowed decision) then mret (Err (rate_error decision))
  else
    let identity := Auth.authenticate (authenticator s) user pass in
    _ ← emit (EvAuthenticate user pass identity);
    match identity with
    | Err e =>
       decision ← limiterFailure ρ rateKey;
       mret (Err (if negb (RateLimiter.Allowed decision) then rate_error decision else e))
    | Ok i =>
       _ ← limiterSuccess ρ rateKey;
       mret (Ok (mkPermissions (Auth.Username i) (Auth.IRole i) "password"))
    end.

(** [PublicKeyCallback] *)
Definition PublicKeyCallback (user key : string) : io Tunnels.t (result string Permissions) :=
  match authorizedKeys s with
  | None => mret (Err "el almacén de autenticación por clave pública no está configurado")
  | Some store =>
     let ok := AuthorizedKeys.IsAuthorized readFile parseKey (Some store) user (Some key) in
     _ ← emit (EvPublicKey user key ok);
     mret match ok with
     | Err e => Err e
     | Ok false => Err ("la clave pública no está autorizada para el usuario " +:+ user)
     | Ok true => Ok (mkPermissions user (defaultRoleFor user) "publickey")
     end
  end.

(** The methods of the [ssh.ServerConfig] that [handleConnection] builds: the callbacks
    that are set. *)
Record ServerConfig := mkServerConfig { hasPassword : bool; hasPublicKey : bool }.

Definition serverConfig : ServerConfig :=
  mkServerConfig (Config.SSHPasswordAuthEnabled (cfg s)) (Config.SSHPublicKeyAuthEnable (cfg s)).

(** [ssh.NewServerConn], seen from the server: it calls the callbacks with what the
    client sends, in an order of its own that may depend on their answers, and returns
    an error, or the user ([conn.User()]) and the permissions of the connection. *)
Inductive handshake :=
| Handshaken (r : option (string * Permissions))
| CallPassword (user pass : string) (next : result string Permissions → handshake)
| CallPublicKey (user key : string) (next : result string Permissions → handshake).

(** The callbacks of [handleConnection] at work in a handshake with the client at
    [addr]. *)
Fixpoint runHandshake (addr : string) (h : handshake)
    : io Tunnels.t (option (string * Permissions)) :=
  match h with
  | Handshaken r => mret r
  | CallPassword user pass next =>
     r ← PasswordCallback addr user pass; runHandshake addr (next r)
  | CallPublicKey user key next =>
     r ← PublicKeyCallback user key; runHandshake addr (next r)
  end.

Definition or_else (v fallback : string) : string := if bool_decide (v = "") then fallback else v.

(** [handleConnection] up to the loop over the channels: the session gets the identity
    of the permissions and is registered; [false] when the handshake fails. *)
Definition openSession (addr : string) (newServerConn : ServerConfig → handshake)
    : io Tunnels.t bool :=
  r ← runHandshake addr (newServerConn serverConfig);
  match r with
  | None => mret false
  | Some (user, p) =>
     _ ← modifySession (Session.SetTransport "ssh");
     t ← now ρ;
     _ ← modifySession (Session.SetIdentity t (or_else (PUsername p) user)
                          (or_else (PRole p) "desconocido"));
     _ ← modifySession (Session.SetAuthn (or_else (PAuthn p) "desconocido"));
     _ ← metrics Metrics.ObserveSessionOpened;
     sess ← getSession;
     _ ← (if sessionRegistry s then emit (EvRegister sess) else mret ());
     mret true
  end.

(** The deferred clean-up of [handleConnection]. *)
Definition closeSession (remote : remoteForwardRegistry) (closeReason : string)
    : io Tunnels.t remoteForwardRegistry :=
  let '(closed, remote') := CloseAll remote in
  _ ← emits (EvCloseListener <$> closed);
  sess ← getSession;
  _ ← (if sessionRegistry s then emit (EvUnregister (Session.ID sess)) else mret ());
  _ ← metrics (Metrics.ObserveSessionClosed closeReason);
  mret remote'.

(** ** Commands *)

(** [executeInput] *)
Definition executeInput (line : string) : io Tunnels.t (string * Z * bool) :=
  r ← validate ρ (validator s) line;
  match r with
  | Some err =>
     _ ← metrics (Metrics.ObserveRejectedInput ++ Metrics.ObserveCommand "validation" "rejected");
     mret ("Entrada rechazada: " +:+ Validator.Error err, 1%Z, false)
  | None =>
     let '(name, args) := splitCommand line in
     if isQuit name then mret ("Sesión finalizada.", 0%Z, true)
     else match Commands.Find (registry s) name with
     | None =>
        _ ← metrics (Metrics.ObserveCommand name "desconocido");
        mret ("Comando no reconocido: " +:+ name, 127%Z, false)
     | Some cmd =>
        _ ← modifySession Session.IncrementCommands;
        sess ← getSession;
        out ← execute ρ true cmd (Commands.mkRuntime sess (cfg s) (registry s)) args;
        match out with
        | Err e =>
           _ ← metrics (Metrics.ObserveCommand (Commands.Name cmd) "error");
           mret ("Error: " +:+ e, 1%Z, false)
        | Ok output =>
           _ ← metrics (Metrics.ObserveCommand (Commands.Name cmd) "ok");
           mret (output, 0%Z, false)
        end
     end
  end.

(** [writeLine] and [sendExitStatus] *)
Definition writeLine (value : string) : io Tunnels.t bool :=
  write ρ (crlf_lines value +:+ TCPServer.crlf).
Definition sendExitStatus (status : Z) : io Tunnels.t () := emit (EvExitStatus status).

(** What a round of [runShell] does once its prompt is written: it waits for a line and
    executes it; whether there is another round. *)
Definition shellLine : io Tunnels.t bool :=
  r ← read;
  match r with
  | Line raw =>
     let line := TrimSpace raw in
     if bool_decide (line = "") then mret true
     else
       r ← executeInput line;
       let '(output, status, closing) := (r : string * Z * bool) in
       _ ← (if bool_decide (output = "") then mret true else writeLine output);
       _ ← (if negb (status =? 0)%Z && closing then sendExitStatus status else mret ());
       mret (negb closing)
  | _ => mret false
  end.

(** The loop of [runShell]. *)
Fixpoint shell_loop (fuel : nat) : io Tunnels.t () :=
  match fuel with
  | O => mret ()
  | S fuel =>
     ok ← write ρ "> ";
     if negb ok then mret () else
     more ← shellLine;
     if (more : bool) then shell_loop fuel else mret ()
  end.

(** The rounds are at most the lines of the input and one more for its end. *)
Definition shell_rounds : io Tunnels.t () := λ st, shell_loop (S (length (input st))) st.

(** What [runShell] writes before its loop. *)
Definition shellBanner : io Tunnels.t () :=
  _ ← writeLine (Config.Banner (cfg s));
  _ ← writeLine "Transporte SSH habilitado. Escribe 'help' para ver los comandos.";
  mret ().

(** [runShell] *)
Definition runShell : io Tunnels.t () := _ ← shellBanner; shell_rounds.

(** [runExec] *)
Definition runExec (line : string) : io Tunnels.t Z :=
  r ← executeInput line;
  let '(output, status, _) := (r : string * Z * bool) in
  _ ← (if bool_decide (output = "") then mret true else writeLine output);
  mret status.

(** A request on a session channel. *)
Inductive channel_request := PtyReq | Shell | Exec (payload : option string) | OtherReq.

(** What [handleSessionChannel] does after a request: it waits for the next, runs the
    shell, or returns the reason. *)
Inductive after_request := NextRequest | RunShell | Finished (motivo : string).

(** One round of [handleSessionChannel]. *)
Definition handleRequest (req : channel_request) : io Tunnels.t after_request :=
  match req with
  | PtyReq => _ ← emit (EvReply false None); mret NextRequest
  | Shell => _ ← emit (EvReply true None); mret RunShell
  | Exec None =>
     _ ← emit (EvReply false None); _ ← sendExitStatus 1; mret (Finished "payload_exec_invalido")
  | Exec (Some value) =>
     _ ← emit (EvReply true None);
     status ← runExec value;
     _ ← sendExitStatus status;
     mret (Finished "exec_completado")
  | OtherReq => _ ← emit (EvReply false None); mret NextRequest
  end.

(** [handleSessionChannel]: the reason it returns. *)
Fixpoint handleSessionChannel (requests : list channel_request) : io Tunnels.t string :=
  match requests with
  | [] => mret "canal_cerrado"
  | req :: requests =>
     a ← handleRequest req;
     match a with
     | NextRequest => handleSessionChannel requests
     | RunShell => _ ← runShell; mret "shell_cerrada"
     | Finished motivo => mret motivo
     end
  end.

(** ** Tunnels *)

(** A call of the tunnel manager, if there is one. *)
Definition withManager {B : Type} (f : Tunnels.t → B * Tunnels.t * list Tunnels.effect)
    : io Tunnels.t (option B) :=
  r ← access ρ (λ sh,
        let cs := cmdState sh in
        match Commands.Forwarding cs with
        | None => (None, sh)
        | Some m =>
           let '(b, m', eff) := f m in
           (Some (b, eff),
            mkShared (limiter sh)
              (Commands.mkState (Some m') (Commands.policyService cs) (Commands.auditService cs)))
        end);
  match r with
  | None => mret None
  | Some (b, eff) => _ ← emits (EvTunnel <$> eff); mret (Some b)
  end.

(** The opening of a tunnel: [open] is [OpenLocal] or [OpenRemote]. *)
Definition openTunnel
    (open : Tunnels.t → Time → Tunnels.Tunnel * Tunnels.t * list Tunnels.effect)
    : io Tunnels.t (option Tunnels.Tunnel) :=
  t ← now ρ;
  o ← withManager (λ m, open m t);
  _ ← (match o with Some tun => emit (EvOpenTunnel tun) | None => mret () end);
  mret o.

(** What comes after [wg.Wait]: [stopFn], which closes [resource], and the removal of
    the tunnel from the manager. *)
Definition endTunnel (resource : nat) (o : option Tunnels.Tunnel) : io Tunnels.t () :=
  _ ← emit (EvStop resource);
  match o with
  | None => mret ()
  | Some tun =>
     _ ← withManager (λ m, Tunnels.Close m (Tunnels.ID tun));
     emit (EvCloseTunnel (Tunnels.ID tun))
  end.

(** After the opening the goroutine waits ([wg.Wait]) until both copies have ended;
    [copiesEnd] says whether they ever do, and the rest is done only then. *)
Definition waitTunnel (resource : nat) (copiesEnd : bool) (o : option (option Tunnels.Tunnel))
    : io Tunnels.t () :=
  match o with
  | Some tun => if copiesEnd then endTunnel resource tun else mret ()
  | None => mret ()
  end.

Record direct_payload := mkDirect {
  HostToConnect : string;
  PortToConnect : Z;
  OriginatorHost : string;
  OriginatorPort : Z;
}.

(** [handleDirectTCPIP] up to its copies; [dialOk] and [acceptOk] are the outcomes of the
    dial and of accepting the channel.  [Some] when the copies start, with the tunnel if
    there is a manager. *)
Definition openDirect (extra : option direct_payload) (dialOk acceptOk : bool)
    (resource : nat) : io Tunnels.t (option (option Tunnels.Tunnel)) :=
  if negb (ForwardPolicy.LocalEnabled (forwardPolicy s)) then
    _ ← emit (EvRejectChannel "el reenvío local está deshabilitado");
    _ ← metrics (Metrics.ObserveTunnelRejected "local" "disabled"); mret None
  else match extra with
  | None =>
     _ ← emit (EvRejectChannel "payload direct-tcpip inválido");
     _ ← metrics (Metrics.ObserveTunnelRejected "local" "bad_payload"); mret None
  | Some p =>
     sess ← getSession;
     if negb (ForwardPolicy.AllowLocalTarget (forwardPolicy s) (Session.Role sess)
                (HostToConnect p) (PortToConnect p)) then
       _ ← emit (EvRejectChannel "el destino del reenvío no está permitido");
       _ ← metrics (Metrics.ObserveTunnelRejected "local" "politica_denegada"); mret None
     else
       let target := JoinHostPort (HostToConnect p) (Itoa (PortToConnect p)) in
       let origin := JoinHostPort (OriginatorHost p) (Itoa (OriginatorPort p)) in
       _ ← emit (EvDial target);
       if negb dialOk then
         _ ← emit (EvRejectChannel "falló la conexión al destino");
         _ ← metrics (Metrics.ObserveTunnelRejected "local" "dial_failed"); mret None
       else if negb acceptOk then
         _ ← emit (EvStop resource);
         _ ← metrics (Metrics.ObserveTunnelRejected "local" "channel_accept_failed"); mret None
       else
         tun ← openTunnel (λ m t, Tunnels.OpenLocal m t (Session.ID sess)
                                    (Session.Username sess) target origin (Some resource));
         mret (Some tun)
  end.

(** [handleDirectTCPIP] *)
Definition handleDirectTCPIP (extra : option direct_payload) (dialOk acceptOk : bool)
    (resource : nat) (copiesEnd : bool) : io Tunnels.t () :=
  o ← openDirect extra dialOk acceptOk resource;
  waitTunnel resource copiesEnd o.

(** The outcome of [net.Listen] and of reading the address of the listener. *)
Inductive listen_result := ListenError | NotTCP (l : nat) | Listening (l : nat) (port : Z).

(** [req.Reply], with the port it carries if any, when the client asked for one. *)
Definition reply (wantReply ok : bool) (port : option Z) : io Tunnels.t () :=
  if wantReply then emit (EvReply ok port) else mret ().

(** A listener obtained for a client: the address and port it asked for, and the port
    the listener has. *)
Record forward := mkForward {
  FListener : nat;
  FAddr : string;
  FPort : Z;
  FActual : Z;
}.

(** [actualBind] *)
Definition actualBind (f : forward) : string :=
  ForwardPolicy.NormalizeTarget (FAddr f) (FActual f).

(** [handleTCPIPForwardRequest] up to the registration: the listener, if the policy
    allows it and the system gives one with a valid port. *)
Definition forwardListen (payload : option (string * Z)) (wantReply : bool)
    (listen : string → listen_result) : io Tunnels.t (option forward) :=
  match payload with
  | None => _ ← reply wantReply false None; mret None
  | Some (bindAddr, bindPort) =>
     sess ← getSession;
     if negb (ForwardPolicy.AllowRemoteBind (forwardPolicy s) (Session.Role sess)
                bindAddr bindPort) then
       _ ← reply wantReply false None;
       _ ← metrics (Metrics.ObserveTunnelRejected "remote" "politica_denegada");
       mret None
     else
       let bind := ForwardPolicy.NormalizeTarget bindAddr bindPort in
       _ ← emit (EvListen bind);
       match listen bind with
       | ListenError =>
          _ ← reply wantReply false None;
          _ ← metrics (Metrics.ObserveTunnelRejected "remote" "escucha_fallida");
          mret None
       | NotTCP l =>
          _ ← metrics (Metrics.ObserveTunnelRejected "remote" "puerto_invalido");
          _ ← emit (EvCloseListener l);
          mret None
       | Listening l port =>
          if (port <? 0)%Z || (4294967295 <? port)%Z then
            _ ← metrics (Metrics.ObserveTunnelRejected "remote" "puerto_fuera_de_rango");
            _ ← emit (EvCloseListener l);
            mret None
          else mret (Some (mkForward l bindAddr bindPort port))
       end
  end.

(** The answer of [handleTCPIPForwardRequest] to a request it grants. *)
Definition forwardReply (wantReply : bool) (f : forward) : io Tunnels.t () :=
  reply wantReply true (if (FPort f =? 0)%Z then Some (FActual f) else None).

(** [handleTCPIPForwardRequest]: the registry afterwards, and the listener whose accept
    loop is started. *)
Definition handleTCPIPForwardRequest (payload : option (string * Z)) (wantReply : bool)
    (listen : string → listen_result) (reg : remoteForwardRegistry)
    : io Tunnels.t (remoteForwardRegistry * option (nat * string)) :=
  r ← forwardListen payload wantReply listen;
  match r with
  | None => mret (reg, None)
  | Some f =>
     _ ← forwardReply wantReply f;
     mret (Put reg (actualBind f) (FListener f), Some (FListener f, actualBind f))
  end.

(** [handleCancelTCPIPForwardRequest] *)
Definition handleCancelTCPIPForwardRequest (payload : option (string * Z)) (wantReply : bool)
    (reg : remoteForwardRegistry) : io Tunnels.t remoteForwardRegistry :=
  match payload with
  | None => _ ← reply wantReply false None; mret reg
  | Some (bindAddr, bindPort) =>
     let bind := ForwardPolicy.NormalizeTarget bindAddr bindPort in
     let '(l, reg') := Remove reg bind in
     _ ← (match l with Some l => emit (EvCloseListener l) | None => mret () end);
     _ ← reply wantReply true None;
     mret reg'
  end.

(** One connection accepted by [acceptRemoteForwardLoop], up to its copies; [openOk] is
    the outcome of opening the channel to the client. *)
Definition openIncoming (bind remote : string) (openOk : bool) (resource : nat)
    : io Tunnels.t (option (option Tunnels.Tunnel)) :=
  let '(originHost, originPort) := splitAddr remote in
  if negb openOk then
    _ ← metrics (Metrics.ObserveTunnelRejected "remote" "apertura_canal_fallida");
    _ ← emit (EvStop resource);
    mret None
  else
    sess ← getSession;
    let origin := JoinHostPort originHost (Itoa originPort) in
    tun ← openTunnel (λ m t, Tunnels.OpenRemote m t (Session.ID sess) (Session.Username sess)
                               bind origin (Some resource));
    mret (Some tun).

(** The whole goroutine of an accepted connection. *)
Definition forwardIncoming (bind remote : string) (openOk : bool) (resource : nat)
    (copiesEnd : bool) : io Tunnels.t () :=
  o ← openIncoming bind remote openOk resource;
  waitTunnel resource copiesEnd o.

(** A global request of the client. *)
Inductive global_request :=
| TCPIPForward (payload : option (string * Z)) (wantReply : bool)
| CancelTCPIPForward (payload : option (string * Z)) (wantReply : bool)
| OtherGlobal (wantReply : bool).

(** [handleGlobalRequests]; the listeners the operating system gives are indexed by the
    number of the request. *)
Fixpoint handleGlobalRequests (n : nat) (listen : nat → string → listen_result)
    (reqs : list global_request) (reg : remoteForwardRegistry)
    : io Tunnels.t remoteForwardRegistry :=
  match reqs with
  | [] => mret reg
  | TCPIPForward payload wantReply :: reqs =>
     r ← handleTCPIPForwardRequest payload wantReply (listen n) reg;
     handleGlobalRequests (S n) listen reqs r.1
  | CancelTCPIPForward payload wantReply :: reqs =>
     reg' ← handleCancelTCPIPForwardRequest payload wantReply reg;
     handleGlobalRequests (S n) listen reqs reg'
  | OtherGlobal wantReply :: reqs =>
     _ ← reply wantReply false None; handleGlobalRequests (S n) listen reqs reg
  end.

End SSH.
Arguments Server : clear implicits.

(** ** Who a session is *)

Section Identity.
Context `{MR : MapRange} {A : Type} `{AU : !Auth.Authenticator A}.
Context (ρ : env Tunnels.t) (s : Server A).
Context (readFile : string → AuthorizedKeys.file)
        (parseKey : string → result string (string * string)).

(** The permissions were earned by one of the calls in the log, with an enabled method. *)
Definition earned (addr : string) (l : list event) (user : string) (p : Permissions) : Prop :=
  (∃ pass i l1 l2, Config.SSHPasswordAuthEnabled (cfg s) = true
     ∧ Auth.authenticate (authenticator s) user pass = Ok i
     ∧ l = l1 ++ [EvAllow (RateLimiter.Key addr user) true; EvAuthenticate user pass (Ok i);
                  EvSuccess (RateLimiter.Key addr user)] ++ l2
     ∧ p = mkPermissions (Auth.Username i) (Auth.IRole i) "password")
  ∨ (∃ key store l1 l2, Config.SSHPublicKeyAuthEnable (cfg s) = true
     ∧ authorizedKeys s = Some store
     ∧ AuthorizedKeys.IsAuthorized readFile parseKey (Some store) user (Some key) = Ok true
     ∧ l = l1 ++ EvPublicKey user key (Ok true) :: l2
     ∧ p = mkPermissions user (defaultRoleFor user) "publickey").

Lemma earned_app addr l l' user p : earned addr l user p → earned addr (l ++ l') user p.
Proof using Type.
  intros [(pass & i & l1 & l2 & H1 & H2 & -> & H4)|(key & store & l1 & l2 & H1 & H2 & H3 & -> & H5)];
    [left|right].
  - exists pass, i, l1, (l2 ++ l'). by rewrite <-!app_assoc.
  - exists key, store, l1, (l2 ++ l'). by rewrite <-!app_assoc.
Qed.

(** The calls made before a session exists. *)
Definition preliminary (e : event) : Prop :=
  match e with
  | EvAllow _ _ | EvAuthenticate _ _ _ | EvSuccess _ | EvFailure _ _ | EvPublicKey _ _ _ => True
  | _ => False
  end.

Definition before (s0 : Session.t) (l : list event) (sess : Session.t) : Prop :=
  sess = s0 ∧ Forall preliminary l.

Lemma before_snoc s0 l sess e : before s0 l sess → preliminary e → before s0 (l ++ [e]) sess.
Proof using Type. intros [? ?] He. split; [done|]. apply Forall_app. by auto. Qed.

(** The session and the log before a call, which the callback only extends. *)
Definition from (s0 : Session.t) (l0 l : list event) (sess : Session.t) : Prop :=
  before s0 l sess ∧ ∃ l', l = l0 ++ l'.

Lemma from_snoc s0 l0 l sess e : from s0 l0 l sess → preliminary e → from s0 l0 (l ++ [e]) sess.
Proof using Type.
  intros [H [l' ->]] He. split; [by apply before_snoc|]. exists (l' ++ [e]).
  by rewrite app_assoc.
Qed.

Lemma password_spec s0 l0 addr user pass :
  triple (on (from s0 l0)) (PasswordCallback ρ s addr user pass)
    (λ r, on (λ l sess, from s0 l0 l sess
       ∧ ∀ p, r = Ok p → Config.SSHPasswordAuthEnabled (cfg s) = true → earned addr l user p)).
Proof using Type.
  unfold PasswordCallback. set (key := RateLimiter.Key addr user).
  eapply triple_bind.
  { apply (triple_allow ρ _ (λ b l sess, from s0 l0 l sess ∧ ∃ l', l = l' ++ [EvAllow key b])).
    intros l sess b H. split; [by apply from_snoc|by eexists]. }
  intros d. destruct (RateLimiter.Allowed d) eqn:Ed; simpl;
    [|apply triple_ret; intros st [H _]; by split].
  set (res := Auth.authenticate (authenticator s) user pass).
  eapply triple_bind.
  { apply (triple_emit_to _ (λ l sess, from s0 l0 l sess
      ∧ ∃ l', l = l' ++ [EvAllow key true; EvAuthenticate user pass res])).
    intros l sess [H [l' ->]]. split; [by apply from_snoc|].
    exists l'. by rewrite <-app_assoc, Ed. }
  intros []. destruct res as [i|m] eqn:Er.
  - eapply triple_bind.
    { apply (triple_success ρ _ (λ l sess, from s0 l0 l sess
        ∧ ∃ l', l = l' ++ [EvAllow key true; EvAuthenticate user pass (Ok i); EvSuccess key])).
      intros l sess [H [l' ->]]. split; [by apply from_snoc|].
      exists l'. by rewrite <-app_assoc. }
    intros []. apply triple_ret. intros st [H [l' Hl]]. split; [done|].
    intros p [= <-] Hen. left. exists pass, i, l', []. by split_and!.
  - eapply triple_bind.
    { apply (triple_failure ρ _ (λ _, from s0 l0)). intros l sess b [H _]. by apply from_snoc. }
    intros d'. apply triple_ret. intros st H. by split.
Qed.

Lemma public_key_spec s0 l0 addr user key :
  triple (on (from s0 l0)) (PublicKeyCallback s readFile parseKey user key)
    (λ r, on (λ l sess, from s0 l0 l sess
       ∧ ∀ p, r = Ok p → Config.SSHPublicKeyAuthEnable (cfg s) = true → earned addr l user p)).
Proof using Type.
  unfold PublicKeyCallback. destruct (authorizedKeys s) as [store|] eqn:Es.
  2: { apply triple_ret. intros st H. by split. }
  set (ok := AuthorizedKeys.IsAuthorized _ _ _ _ _).
  eapply triple_bind.
  { apply (triple_emit_to _ (λ l sess, from s0 l0 l sess ∧ ∃ l', l = l' ++ [EvPublicKey user key ok])).
    intros l sess H. split; [by apply from_snoc|by eexists]. }
  intros []. apply triple_ret. intros st [H [l' Hl]]. split; [done|].
  intros p Hp Hen. right. destruct ok as [[]|] eqn:Eo; try done. injection Hp as <-.
  exists key, store, l', []. by split_and!.
Qed.

(** What the library documents of [NewServerConn]: it calls only callbacks that are set,
    and a connection has a user and the permissions that a callback returned for that
    user ([ServerConn.Permissions]).  [granted] are the answers so far. *)
Inductive documented (c : ServerConfig) : list (string * Permissions) → handshake → Prop :=
| documented_failed granted : documented c granted (Handshaken None)
| documented_open granted user p :
    (user, p) ∈ granted → documented c granted (Handshaken (Some (user, p)))
| documented_password granted user pass next :
    hasPassword c = true → (∀ e, documented c granted (next (Err e))) →
    (∀ p, documented c ((user, p) :: granted) (next (Ok p))) →
    documented c granted (CallPassword user pass next)
| documented_key granted user key next :
    hasPublicKey c = true → (∀ e, documented c granted (next (Err e))) →
    (∀ p, documented c ((user, p) :: granted) (next (Ok p))) →
    documented c granted (CallPublicKey user key next).

(** Without any law: the callbacks leave the session alone. *)
Lemma handshake_before s0 addr h :
  triple (on (before s0)) (runHandshake ρ s readFile parseKey addr h) (λ _, on (before s0)).
Proof using Type.
  induction h as [r|user pass next IH|user key next IH]; cbn [runHandshake].
  - by apply triple_ret.
  - eapply triple_bind; [|apply IH]. intros st H.
    refine (proj1 (proj1 (password_spec s0 (log st) addr user pass st _))).
    split; [done|]. exists []. by rewrite app_nil_r.
  - eapply triple_bind; [|apply IH]. intros st H.
    refine (proj1 (proj1 (public_key_spec s0 (log st) addr user key st _))).
    split; [done|]. exists []. by rewrite app_nil_r.
Qed.

(** Every answer of a callback so far was earned. *)
Definition all_earned (addr : string) (granted : list (string * Permissions)) (l : list event)
    : Prop := Forall (λ g, earned addr l g.1 g.2) granted.

Lemma all_earned_app addr granted l l' :
  all_earned addr granted l → all_earned addr granted (l ++ l').
Proof using Type. intros H. eapply Forall_impl; [exact H|]. intros g. apply earned_app. Qed.

Lemma handshake_spec s0 addr granted h :
  documented (serverConfig s) granted h → ∀ st,
  on (before s0) st → all_earned addr granted (log st) →
  let '(r, st') := runHandshake ρ s readFile parseKey addr h st in
  on (before s0) st' ∧ ∀ user p, r = Some (user, p) → earned addr (log st') user p.
Proof using Type.
  assert (Hstep : ∀ granted user (st : state Tunnels.t) (m : io Tunnels.t (result string Permissions)) en next,
    triple (on (from s0 (log st))) m (λ r, on (λ l sess, from s0 (log st) l sess
       ∧ ∀ p, r = Ok p → en = true → earned addr l user p)) →
    en = true → on (before s0) st → all_earned addr granted (log st) →
    (∀ e st, on (before s0) st → all_earned addr granted (log st) →
       let '(r, st') := runHandshake ρ s readFile parseKey addr (next (Err e)) st in
       on (before s0) st' ∧ ∀ user p, r = Some (user, p) → earned addr (log st') user p) →
    (∀ p st, on (before s0) st → all_earned addr ((user, p) :: granted) (log st) →
       let '(r, st') := runHandshake ρ s readFile parseKey addr (next (Ok p)) st in
       on (before s0) st' ∧ ∀ user p, r = Some (user, p) → earned addr (log st') user p) →
    let '(r, st') := (r ← m; runHandshake ρ s readFile parseKey addr (next r)) st in
    on (before s0) st' ∧ ∀ user p, r = Some (user, p) → earned addr (log st') user p).
  { clear h granted. intros granted user st m en next Hm Hen Hst Hg HE HO.
    unfold mbind, io_bind. destruct (Hm st) as [[Hb [l' Hl]] He].
    { split; [done|]. exists []. by rewrite app_nil_r. }
    destruct (m st) as [r st1]. cbn [fst snd] in *.
    assert (all_earned addr granted (log st1)) by (rewrite Hl; by apply all_earned_app).
    destruct r as [p|e]; [apply HO|apply HE]; try done. constructor; [|done]. by apply He. }
  induction 1 as [granted|granted user p Hin|granted user pass next Hen _ HE _ HO
                 |granted user key next Hen _ HE _ HO]; intros st Hst Hg; cbn [runHandshake].
  - by split.
  - split; [done|]. intros user' p' [= <- <-]. unfold all_earned in Hg.
    rewrite Forall_forall in Hg. apply (Hg _ Hin).
  - eapply Hstep; [apply password_spec|done..].
  - eapply Hstep; [apply public_key_spec|done..].
Qed.

End Identity.

(** C4: the identity of an SSH session.  Let the SSH library call the callbacks as it
    documents, with whatever the client sends.  A session is opened only for a call that
    earned it with an enabled method: a password that the authenticator accepted after
    the rate limiter let the attempt through, and then the session has the name and role
    of that identity; or a key that the file of the user lists, and then the session has
    that user name and the role of the name, student by default.  If the handshake fails,
    no session is counted or registered. *)
Theorem ssh_identity_earned `{MR : MapRange} {A : Type} `{AU : !Auth.Authenticator A}
    (ρ : env Tunnels.t) (s : Server A) (readFile : string → AuthorizedKeys.file)
    (parseKey : string → result string (string * string)) (addr : string)
    (newServerConn : ServerConfig → handshake)
    (sh0 : shared Tunnels.t) (ins : list read_event) (s0 : Session.t) :
  (∀ c, documented c [] (newServerConn c)) →
  let '(opened, st) :=
    openSession ρ s readFile parseKey addr newServerConn (mkState sh0 0 ins s0 []) in
  if opened then
    ∃ user p, earned s readFile parseKey addr (log st) user p
      ∧ Session.Username (sess st) = or_else (PUsername p) user
      ∧ Session.Role (sess st) = or_else (PRole p) "desconocido"
      ∧ Session.Authn (sess st) = PAuthn p
      ∧ Session.ID (sess st) = Session.ID s0
      ∧ (sessionRegistry s = true → EvRegister (sess st) ∈ log st)
  else Forall preliminary (log st).
Proof.
  intros Hdoc. unfold openSession, mbind at 1, io_bind at 1.
  pose proof (handshake_spec ρ s readFile parseKey s0 addr [] _ (Hdoc (serverConfig s))
    (mkState sh0 0 ins s0 [])) as H.
  destruct (runHandshake ρ s readFile parseKey addr _ _) as [h st1].
  destruct H as [[Hs Hf] Hp]; [by split|constructor|].
  destruct h as [[user p]|]; [|done]. specialize (Hp user p eq_refl).
  assert (Ha : or_else (PAuthn p) "desconocido" = PAuthn p).
  { by destruct Hp as [(? & ? & ? & ? & _ & _ & _ & ->)|(? & ? & ? & ? & _ & _ & _ & _ & ->)]. }
  simpl in Hs. destruct (sessionRegistry s); unfold mbind, io_bind; simpl;
    exists user, p; rewrite Ha, Hs; split_and!; try done;
    rewrite <-?app_assoc; try by apply earned_app.
  intros _. set_solver.
Qed.

(** A library that tries what a client sends in order and opens the connection with the
    first success. *)
Inductive attempt := TryPassword (user pass : string) | TryPublicKey (user key : string).

Fixpoint in_order (tries : list attempt) (c : ServerConfig) : handshake :=
  match tries with
  | [] => Handshaken None
  | TryPassword user pass :: tries =>
     if hasPassword c then
       CallPassword user pass (λ r, match r with
         | Ok p => Handshaken (Some (user, p)) | Err _ => in_order tries c end)
     else in_order tries c
  | TryPublicKey user key :: tries =>
     if hasPublicKey c then
       CallPublicKey user key (λ r, match r with
         | Ok p => Handshaken (Some (user, p)) | Err _ => in_order tries c end)
     else in_order tries c
  end.

Lemma in_order_documented tries c : documented c [] (in_order tries c).
Proof.
  induction tries as [|[user pass|user key] tries IH]; simpl; [constructor| |];
    (destruct (_ c) eqn:E; [|done]); constructor; try done; intros p; constructor; by left.
Qed.

(** ** The commands both transports run *)

Definition executes (l : list event) : list (Commands.Command * list string) :=
  omap (λ e, match e with EvExecute cmd args _ _ => Some (cmd, args) | _ => None end) l.

Lemma executes_app l1 l2 : executes (l1 ++ l2) = executes l1 ++ executes l2.
Proof. apply omap_app. Qed.

Lemma executes_silent l : Forall (λ e, ∀ c a s o, e ≠ EvExecute c a s o) l → executes l = [].
Proof.
  induction 1 as [|e l He _ IH]; [done|]. simpl. destruct e; try done. by destruct (He cmd args s out).
Qed.

(** What a line makes a transport do. *)
Definition plan (reg : Commands.Registry) (verdict : option Validator.verror) (line : string)
    : list (Commands.Command * list string) :=
  match verdict with
  | Some _ => []
  | None =>
     let '(name, args) := splitCommand line in
     if isQuit name then []
     else match Commands.Find reg name with None => [] | Some cmd => [(cmd, args)] end
  end.

Section Agree.
Context {M : Type} `{C : !Tunnels.Controller M}.

Lemma execute_executes ρ fw cmd rt args (st : state M) :
  executes (log (execute ρ fw cmd rt args st).2) = executes (log st) ++ [(cmd, args)].
Proof.
  unfold execute. destruct (Commands.Execute _ _ _ _ _) as [[out cs] eff]. cbn [snd log].
  rewrite executes_app. f_equal. cbn [executes omap list_omap]. f_equal.
  apply executes_silent. apply Forall_fmap, Forall_true. done.
Qed.

Lemma write_executes ρ text (st : state M) :
  executes (log (write ρ text st).2) = executes (log st).
Proof. unfold write. case_if; [|done]. cbn [snd log]. rewrite executes_app. apply app_nil_r. Qed.

Lemma metrics_executes ops (st : state M) :
  executes (log (metrics ops st).2) = executes (log st).
Proof.
  cbn [metrics emits snd log]. rewrite executes_app, (executes_silent (_ <$> _)).
  - apply app_nil_r.
  - by apply Forall_fmap, Forall_true.
Qed.

(** Actions that execute exactly [e]. *)
Definition runs {B} (m : io M B) (e : list (Commands.Command * list string)) : Prop :=
  ∀ st, executes (log (m st).2) = executes (log st) ++ e.

Lemma runs_bind {B D} (m : io M B) (k : B → io M D) e1 e2 :
  runs m e1 → (∀ b, runs (k b) e2) → runs (m ≫= k) (e1 ++ e2).
Proof.
  intros Hm Hk st. unfold mbind, io_bind. specialize (Hm st). destruct (m st) as [b st'].
  rewrite Hk. simpl in Hm. rewrite Hm. by rewrite app_assoc.
Qed.

Lemma runs_bind_nil {B D} (m : io M B) (k : B → io M D) e :
  runs m [] → (∀ b, runs (k b) e) → runs (m ≫= k) e.
Proof. intros Hm Hk. apply (runs_bind m k [] e Hm Hk). Qed.

Lemma runs_bind_end {B D} (m : io M B) (k : B → io M D) e :
  runs m e → (∀ b, runs (k b) []) → runs (m ≫= k) e.
Proof. intros Hm Hk. rewrite <-(app_nil_r e). by apply runs_bind. Qed.

Lemma runs_ret {B} (b : B) : runs (mret b) [].
Proof. intros st. by rewrite app_nil_r. Qed.
Lemma runs_write ρ text : runs (write ρ text) [].
Proof. intros st. by rewrite write_executes, app_nil_r. Qed.
Lemma runs_metrics ops : runs (metrics ops) [].
Proof. intros st. by rewrite metrics_executes, app_nil_r. Qed.
Lemma runs_modify f : runs (modifySession f) [].
Proof. intros st. by rewrite app_nil_r. Qed.
Lemma runs_getSession : runs getSession [].
Proof. intros st. by rewrite app_nil_r. Qed.
Lemma runs_execute ρ fw cmd rt args : runs (execute ρ fw cmd rt args) [(cmd, args)].
Proof. intros st. apply execute_executes. Qed.

End Agree.

Lemma tcp_handleLine_runs {M : Type} `{C : !Tunnels.Controller M} {A : Type}
    (ρ : env M) (s : TCPServer.TCPServer A) line st :
  executes (log (TCPServer.handleLine ρ s line st).2)
  = executes (log st)
    ++ plan (TCPServer.registry s)
         (Validator.Validate (validation ρ (tick st)) (TCPServer.validator s) line) line.
Proof.
  unfold TCPServer.handleLine, mbind at 1, io_bind at 1, validate.
  set (r := Validator.Validate _ _ _). set (st1 := mkState _ _ _ _ _).
  replace (executes (log st)) with (executes (log st1))
    by (cbn [st1 log]; rewrite executes_app; apply app_nil_r).
  generalize st1. unfold plan. destruct r as [err|].
  { apply runs_bind_nil; [apply runs_metrics|]. intros ?.
    apply runs_bind_nil; [apply runs_write|]. intros ?. apply runs_ret. }
  change splitCommand with Conn.splitCommand. change isQuit with Conn.isQuit.
  destruct (Conn.splitCommand line) as [name args]. case_if.
  { apply runs_bind_nil; [apply runs_write|]. intros ?. apply runs_ret. }
  destruct (Commands.Find _ name) as [cmd|].
  - apply runs_bind_nil; [apply runs_modify|]. intros ?.
    apply runs_bind_nil; [apply runs_getSession|]. intros ?.
    apply runs_bind_end; [apply runs_execute|]. intros [output|e].
    + apply runs_bind_nil; [apply runs_metrics|]. intros ?. case_if; [apply runs_ret|].
      apply runs_bind_nil; [apply runs_write|]. intros ?. apply runs_ret.
    + apply runs_bind_nil; [apply runs_metrics|]. intros ?.
      apply runs_bind_nil; [apply runs_write|]. intros ?. apply runs_ret.
  - apply runs_bind_nil; [apply runs_metrics|]. intros ?.
    apply runs_bind_nil; [apply runs_write|]. intros ?. apply runs_ret.
Qed.

Lemma ssh_executeInput_runs `{MR : MapRange} {A : Type} (ρ : env Tunnels.t) (s : Server A)
    line st :
  executes (log (executeInput ρ s line st).2)
  = executes (log st)
    ++ plan (registry s)
         (Validator.Validate (validation ρ (tick st)) (validator s) line) line.
Proof.
  unfold executeInput, mbind at 1, io_bind at 1, validate.
  set (r := Validator.Validate _ _ _). set (st1 := mkState _ _ _ _ _).
  replace (executes (log st)) with (executes (log st1))
    by (cbn [st1 log]; rewrite executes_app; apply app_nil_r).
  generalize st1. unfold plan. destruct r as [err|].
  { apply runs_bind_nil; [apply runs_metrics|]. intros ?. apply runs_ret. }
  destruct (splitCommand line) as [name args]. case_if; [apply runs_ret|].
  destruct (Commands.Find _ name) as [cmd|].
  - apply runs_bind_nil; [apply runs_modify|]. intros ?.
    apply runs_bind_nil; [apply runs_getSession|]. intros ?.
    apply runs_bind_end; [apply runs_execute|]. intros [output|e];
      (apply runs_bind_nil; [apply runs_metrics|]; intros ?; apply runs_ret).
  - apply runs_bind_nil; [apply runs_metrics|]. intros ?. apply runs_ret.
Qed.

(** C21: the two transports agree.  Given the same validator, the same registry and the
    same answers of the validator, a line received over TCP and the same line received
    over SSH execute the same command with the same arguments, or both none; and the
    one executed is the command registered under the first word of a line that was
    accepted and does not end the session. *)
Theorem transports_agree `{MR : MapRange} {A B : Type} (ρ : env Tunnels.t)
    (st : state Tunnels.t) (tcp : TCPServer.TCPServer A) (ssh : Server B) (line : string) :
  TCPServer.validator tcp = validator ssh → TCPServer.registry tcp = registry ssh →
  let done := plan (registry ssh)
                (Validator.Validate (validation ρ (tick st)) (validator ssh) line) line in
  executes (log (TCPServer.handleLine ρ tcp line st).2) = executes (log st) ++ done
  ∧ executes (log (executeInput ρ ssh line st).2) = executes (log st) ++ done.
Proof.
  intros Hv Hr done. split; [|apply ssh_executeInput_runs].
  rewrite tcp_handleLine_runs. by rewrite Hv, Hr.
Qed.

Definition demo_ssh : Server {s | Auth.default_users_wf s} :=
  mkServer (Config.defaults "x") Validator.NewDefaultValidator TCPServer.demo_authenticator
    Commands.commandRegistry (Some (AuthorizedKeys.NewStore "/srv/keys"))
    (Some (ForwardPolicy.NewPolicy true "127.0.0.1:9000" "student" true "127.0.0.1:0" "teacher"))
    true.
Definition demo_state (user role : string) : state Tunnels.t :=
  mkState TCPServer.demo_shared 0 [] (Commands.demo_session user role) [].

Lemma ssh_identity_earned_witness :
  let '(opened, st) :=
    openSession TCPServer.demo_env demo_ssh (λ _, AuthorizedKeys.NotExist) (λ _, Err "x")
      "10.0.0.9:4000"
      (in_order [TryPassword "student" "wrong"; TryPassword "student" "secreto"])
      (demo_state "" "") in
  opened = true ∧ Session.Role (sess st) = "student"
  ∧ ∃ user p, earned demo_ssh (λ _, AuthorizedKeys.NotExist) (λ _, Err "x") "10.0.0.9:4000"
                (log st) user p.
Proof.
  pose proof (ssh_identity_earned TCPServer.demo_env demo_ssh (λ _, AuthorizedKeys.NotExist)
    (λ _, Err "x") "10.0.0.9:4000"
    (in_order [TryPassword "student" "wrong"; TryPassword "student" "secreto"])
    TCPServer.demo_shared [] (Commands.demo_session "" "") (in_order_documented _)) as H.
  unfold demo_state. destruct (openSession _ _ _ _ _ _ _) as [opened st] eqn:E.
  assert (Ho : opened = true) by (apply (f_equal fst) in E; by vm_compute in E).
  rewrite Ho in H. destruct H as (user & p & He & _). split; [exact Ho|]. split; [|by exists user, p].
  apply (f_equal (λ x, Session.Role (sess x.2))) in E. by vm_compute in E.
Defined.

Lemma transports_agree_witness :
  executes (log (TCPServer.handleLine TCPServer.demo_env TCPServer.demo_server "Tunnels all"
                   (demo_state "student" "student")).2)
    = [(Commands.TunnelsCommand, ["all"])]
  ∧ executes (log (executeInput TCPServer.demo_env demo_ssh "Tunnels all"
                     (demo_state "student" "student")).2)
    = [(Commands.TunnelsCommand, ["all"])].
Proof.
  destruct (transports_agree TCPServer.demo_env (demo_state "student" "student")
    TCPServer.demo_server demo_ssh "Tunnels all" eq_refl eq_refl) as [H1 H2].
  split; [rewrite H1|rewrite H2]; by vm_compute.
Defined.

(** ** Forwarding is what the policy allows *)

Section Forwarding.
Context `{MR : MapRange} {A : Type}.
Context (ρ : env Tunnels.t) (s : Server A).

(** The events an action appends to the log. *)
Definition appends {B} (m : io Tunnels.t B) (Q : B → list event → Prop) : Prop :=
  ∀ st, ∃ es, log (m st).2 = log st ++ es ∧ sess (m st).2 = sess st ∧ Q (m st).1 es.

Lemma appends_bind {B D} (m : io Tunnels.t B) (k : B → io Tunnels.t D) Q R :
  appends m Q → (∀ b es, Q b es → appends (k b) (λ d es', R d (es ++ es'))) →
  appends (m ≫= k) R.
Proof using Type.
  intros Hm Hk st. unfold mbind, io_bind. destruct (Hm st) as (es & H1 & H2 & H3).
  destruct (m st) as [b st']. simpl in *. destruct (Hk b es H3 st') as (es' & H4 & H5 & H6).
  exists (es ++ es'). rewrite H4, H1, app_assoc. by rewrite H5.
Qed.

Lemma appends_ret {B} (b : B) (Q : B → list event → Prop) : Q b [] → appends (mret b) Q.
Proof using Type. intros H st. exists []. by rewrite app_nil_r. Qed.
Lemma appends_emit e (Q : () → list event → Prop) : Q () [e] → appends (emit e) Q.
Proof using Type. intros H st. by exists [e]. Qed.
Lemma appends_emits l (Q : () → list event → Prop) : Q () l → appends (emits l) Q.
Proof using Type. intros H st. by exists l. Qed.
Lemma appends_metrics ops (Q : () → list event → Prop) :
  Q () (EvMetric <$> ops) → appends (metrics ops) Q.
Proof using Type. apply appends_emits. Qed.
Lemma appends_now (Q : Time → list event → Prop) : (∀ t, Q t []) → appends (now ρ) Q.
Proof using Type. intros H st. exists []. by rewrite app_nil_r. Qed.

(** A call of the manager appends effects only. *)
Lemma appends_withManager {B} (f : Tunnels.t → B * Tunnels.t * list Tunnels.effect)
    (P : B → Prop) :
  (∀ m, P (f m).1.1) →
  appends (withManager ρ f) (λ o es, (∃ eff, es = EvTunnel <$> eff)
                                    ∧ match o with Some b => P b | None => es = [] end).
Proof using Type.
  intros Hf st. unfold withManager, mbind, io_bind, access.
  destruct (Commands.Forwarding _) as [m|]; simpl.
  - specialize (Hf m). destruct (f m) as [[b m'] eff]. simpl. exists (EvTunnel <$> eff).
    split_and!; try done. by eexists.
  - exists []. rewrite app_nil_r. split_and!; try done. by exists [].
Qed.

(** The events of a tunnel from its opening to its end; while a copy goes on it is open
    and nothing else happens. *)
Definition tunnel_run (resource : nat) (good : Tunnels.Tunnel → Prop) (copiesEnd : bool)
    (es : list event) : Prop :=
  if copiesEnd then
    es = [EvStop resource]
    ∨ ∃ tun eff1 eff2, good tun
        ∧ es = (EvTunnel <$> eff1) ++ [EvOpenTunnel tun; EvStop resource]
               ++ (EvTunnel <$> eff2) ++ [EvCloseTunnel (Tunnels.ID tun)]
  else
    es = [] ∨ ∃ tun eff1, good tun ∧ es = (EvTunnel <$> eff1) ++ [EvOpenTunnel tun].

(** What the opening leaves in the log. *)
Definition tunnel_opened (good : Tunnels.Tunnel → Prop) (o : option Tunnels.Tunnel)
    (es : list event) : Prop :=
  match o with
  | Some tun => good tun ∧ ∃ eff, es = (EvTunnel <$> eff) ++ [EvOpenTunnel tun]
  | None => es = []
  end.

Lemma appends_openTunnel good
    (open : Tunnels.t → Time → Tunnels.Tunnel * Tunnels.t * list Tunnels.effect) :
  (∀ m t, good (open m t).1.1) →
  appends (tun ← openTunnel ρ open; mret (Some tun))
    (λ o es, ∃ tun, o = Some tun ∧ tunnel_opened good tun es).
Proof using Type.
  intros Hopen. unfold openTunnel.
  eapply (appends_bind _ _ (tunnel_opened good)).
  2: { intros tun es Ht. apply appends_ret. exists tun. by rewrite app_nil_r. }
  eapply appends_bind; [by apply (appends_now (λ _ es, es = []))|].
  intros t ? ->. eapply appends_bind; [by apply (appends_withManager _ good)|].
  intros o es [[eff ->] Hg]. destruct o as [tun|].
  - eapply appends_bind; [by apply (appends_emit _ (λ _ es, es = [EvOpenTunnel tun]))|].
    intros [] ? ->. apply appends_ret. split; [done|]. exists eff. by rewrite app_nil_r.
  - eapply appends_bind; [by apply (appends_ret _ (λ _ es, es = []))|].
    intros [] ? ->. apply appends_ret. by rewrite Hg.
Qed.

Lemma appends_endTunnel resource o :
  appends (endTunnel ρ resource o) (λ _ es,
    match o with
    | Some tun => ∃ eff, es = EvStop resource :: (EvTunnel <$> eff) ++ [EvCloseTunnel (Tunnels.ID tun)]
    | None => es = [EvStop resource]
    end).
Proof using Type.
  unfold endTunnel. eapply appends_bind; [by apply (appends_emit _ (λ _ es, es = [EvStop resource]))|].
  intros [] ? ->. destruct o as [tun|]; [|by apply appends_ret].
  eapply appends_bind; [by apply (appends_withManager _ (λ _, True))|].
  intros b es [[eff ->] _]. apply appends_emit. by exists eff.
Qed.

Lemma appends_waitTunnel resource good copiesEnd tun es :
  tunnel_opened good tun es →
  appends (waitTunnel ρ resource copiesEnd (Some tun))
    (λ _ es', tunnel_run resource good copiesEnd (es ++ es')).
Proof using Type.
  intros Ho. cbn [waitTunnel]. unfold tunnel_run. destruct copiesEnd.
  - intros st. destruct (appends_endTunnel resource tun st) as (es' & H1 & H2 & H3). exists es'.
    split; [done|]. split; [done|]. destruct tun as [tun|].
    + destruct Ho as [Hg [eff1 ->]], H3 as [eff2 ->]. right. exists tun, eff1, eff2.
      split; [done|]. by rewrite <-app_assoc.
    + left. by rewrite Ho, H3.
  - apply appends_ret. rewrite app_nil_r. destruct tun as [tun|]; [right|by left].
    destruct Ho as [Hg [eff ->]]. by exists tun, eff.
Qed.

Lemma appends_weaken {B} (m : io Tunnels.t B) (Q R : B → list event → Prop) :
  appends m Q → (∀ b es, Q b es → R b es) → appends m R.
Proof using Type.
  intros Hm H st. destruct (Hm st) as (es & H1 & H2 & H3). exists es. auto.
Qed.

Lemma appends_reply wantReply ok port :
  appends (reply wantReply ok port) (λ _ es, es = if wantReply then [EvReply ok port] else []).
Proof using Type.
  unfold reply. destruct wantReply; [by apply appends_emit|by apply appends_ret].
Qed.

(** A rejection: the channel is refused (or the resource released) and the reason is
    counted. *)
Definition rejected (es : list event) : Prop :=
  ∃ e reason, es = [e; EvMetric (Metrics.Inc (Metrics.rejectedTunnel "local" reason))]
    ∧ match e with EvRejectChannel _ | EvStop _ => True | _ => False end.

Lemma appends_reject e reason :
  (match e with EvRejectChannel _ | EvStop _ => True | _ => False end) →
  appends (_ ← emit e; _ ← metrics (Metrics.ObserveTunnelRejected "local" reason);
           mret (None : option (option Tunnels.Tunnel)))
    (λ o es, o = None ∧ rejected es).
Proof using Type.
  intros He. eapply appends_bind; [by apply (appends_emit e (λ _ es, es = [e]))|].
  intros [] ? ->.
  eapply appends_bind; [by apply (appends_metrics _ (λ _ es, es = EvMetric <$> Metrics.ObserveTunnelRejected "local" reason))|].
  intros [] ? ->. apply appends_ret. split; [done|]. by exists e, reason.
Qed.

End Forwarding.

Lemma AllowLocalTarget_enabled p role host port :
  ForwardPolicy.AllowLocalTarget p role host port = true → ForwardPolicy.LocalEnabled p = true.
Proof.
  unfold ForwardPolicy.AllowLocalTarget, ForwardPolicy.LocalEnabled.
  destruct p as [p|]; [|done]. by destruct (ForwardPolicy.localEnabled p).
Qed.

(** The tunnel that a local forward opens. *)
Definition local_tunnel (sess : Session.t) (p : direct_payload) (tun : Tunnels.Tunnel) : Prop :=
  Tunnels.Direction tun = "local" ∧ Tunnels.SessionID tun = Session.ID sess
  ∧ Tunnels.Username tun = Session.Username sess
  ∧ Tunnels.Target tun = JoinHostPort (HostToConnect p) (Itoa (PortToConnect p))
  ∧ Tunnels.Origin tun = JoinHostPort (OriginatorHost p) (Itoa (OriginatorPort p)).

(** The opening of a local forward, branch by branch. *)
Lemma openDirect_outcome `{MR : MapRange} {A : Type} (ρ : env Tunnels.t) (s : Server A)
    extra dialOk acceptOk resource (st : state Tunnels.t) :
  let '(o, st') := openDirect ρ s extra dialOk acceptOk resource st in
  ∃ es, log st' = log st ++ es
    ∧ match extra with
      | None => o = None ∧ rejected es
      | Some p =>
         if ForwardPolicy.AllowLocalTarget (forwardPolicy s) (Session.Role (sess st))
              (HostToConnect p) (PortToConnect p)
         then ∃ rest,
           es = EvDial (JoinHostPort (HostToConnect p) (Itoa (PortToConnect p))) :: rest
           ∧ (if dialOk && acceptOk
              then ∃ tun, o = Some tun ∧ tunnel_opened (local_tunnel (sess st) p) tun rest
              else o = None ∧ rejected rest)
         else o = None ∧ rejected es
      end.
Proof.
  assert (Hrun : ∀ (m : io Tunnels.t (option (option Tunnels.Tunnel))) Q st1, appends m Q →
    let '(o, st') := m st1 in ∃ es, log st' = log st1 ++ es ∧ Q o es).
  { intros m Q st1 Hm. destruct (Hm st1) as (es & H1 & _ & H3). destruct (m st1). by exists es. }
  unfold openDirect.
  destruct (ForwardPolicy.LocalEnabled (forwardPolicy s)) eqn:Hen; cbn [negb].
  2: { pose proof (Hrun _ _ st (appends_reject (EvRejectChannel
         "el reenvío local está deshabilitado") "disabled" I)) as H.
       revert H. case_match. intros (es & H1 & H2). exists es. split; [done|].
       destruct extra as [p|]; [|done].
       destruct (ForwardPolicy.AllowLocalTarget _ _ _ _) eqn:Ha; [|done].
       apply AllowLocalTarget_enabled in Ha. congruence. }
  destruct extra as [p|]; [|by apply Hrun, appends_reject].
  unfold mbind at 1, io_bind at 1, getSession.
  destruct (ForwardPolicy.AllowLocalTarget _ _ _ _) eqn:Ha; cbn [negb];
    [|by apply Hrun, appends_reject].
  set (target := JoinHostPort (HostToConnect p) (Itoa (PortToConnect p))).
  unfold mbind at 1, io_bind at 1, emit at 1. set (st1 := mkState _ _ _ _ _).
  assert (Hdial : ∀ (m : io Tunnels.t (option (option Tunnels.Tunnel))) Q, appends m Q →
    let '(o, st') := m st1 in
    ∃ es, log st' = log st ++ es ∧ ∃ rest, es = EvDial target :: rest ∧ Q o rest).
  { intros m Q Hm. pose proof (Hrun m Q st1 Hm) as H. destruct (m st1) as [o st'].
    destruct H as (es & H1 & H2). exists (EvDial target :: es). split; [|by exists es].
    rewrite H1. cbn [st1 log]. by rewrite <-app_assoc. }
  destruct dialOk; cbn [negb andb]; [destruct acceptOk; cbn [negb andb]|].
  - apply Hdial. by apply appends_openTunnel.
  - apply (Hdial _ (λ o es, o = None ∧ rejected es)). by apply appends_reject.
  - apply (Hdial _ (λ o es, o = None ∧ rejected es)). by apply appends_reject.
Qed.

(** C7: local forwards obey the policy.  The server dials a target for a client exactly
    when the request is well formed and the policy allows that host and port to the role
    of the session; in every other case the channel is refused, the refusal is counted
    once and nothing is dialled.  After a dial, either the failure is counted, or a
    tunnel with that target and the identity of the session is opened and, when and only
    when the copies end, stopped and closed in the manager. *)
Theorem local_forward_policy `{MR : MapRange} {A : Type} (ρ : env Tunnels.t) (s : Server A)
    (extra : option direct_payload) (dialOk acceptOk : bool) (resource : nat) (copiesEnd : bool)
    (st : state Tunnels.t) :
  ∃ es, log (handleDirectTCPIP ρ s extra dialOk acceptOk resource copiesEnd st).2 = log st ++ es
    ∧ match extra with
      | None => rejected es
      | Some p =>
         if ForwardPolicy.AllowLocalTarget (forwardPolicy s) (Session.Role (sess st))
              (HostToConnect p) (PortToConnect p)
         then ∃ rest,
           es = EvDial (JoinHostPort (HostToConnect p) (Itoa (PortToConnect p))) :: rest
           ∧ (if dialOk && acceptOk
              then tunnel_run resource (local_tunnel (sess st) p) copiesEnd rest
              else rejected rest)
         else rejected es
      end.
Proof.
  unfold handleDirectTCPIP, mbind, io_bind.
  pose proof (openDirect_outcome ρ s extra dialOk acceptOk resource st) as H.
  destruct (openDirect ρ s extra dialOk acceptOk resource st) as [o st1].
  destruct H as (es & Hl & H).
  assert (Hrej : o = None ∧ rejected es →
    log (waitTunnel ρ resource copiesEnd o st1).2 = log st ++ es) by (by intros [-> _]).
  destruct extra as [p|]; [|exists es; by split; [apply Hrej|apply H]].
  destruct (ForwardPolicy.AllowLocalTarget _ _ _ _); [|exists es; by split; [apply Hrej|apply H]].
  destruct H as (rest & -> & H). destruct (dialOk && acceptOk).
  - destruct H as (tun & -> & Ht).
    destruct (appends_waitTunnel ρ resource _ copiesEnd tun rest Ht st1) as (es' & H1 & _ & H3).
    rewrite H1, Hl, <-app_assoc. eexists. split; [done|]. by exists (rest ++ es').
  - destruct H as [-> Hr]. eexists. split; [exact Hl|]. by exists rest.
Qed.

(** The events and the result of a request to listen, branch by branch. *)
Definition forward_outcome {A} (s : Server A) (role : string) (payload : option (string * Z))
    (wantReply : bool) (listen : string → listen_result) (reg : remoteForwardRegistry)
    : list event * (remoteForwardRegistry * option (nat * string)) :=
  let answer (ok : bool) (p : option Z) := if wantReply then [EvReply ok p] else [] in
  let refused (reason : string) :=
    EvMetric <$> Metrics.ObserveTunnelRejected "remote" reason in
  match payload with
  | None => (answer false None, (reg, None))
  | Some (host, port) =>
     if ForwardPolicy.AllowRemoteBind (forwardPolicy s) role host port then
       let bind := ForwardPolicy.NormalizeTarget host port in
       match listen bind with
       | ListenError => (EvListen bind :: answer false None ++ refused "escucha_fallida", (reg, None))
       | NotTCP l => (EvListen bind :: refused "puerto_invalido" ++ [EvCloseListener l], (reg, None))
       | Listening l actual =>
          if (actual <? 0)%Z || (4294967295 <? actual)%Z
          then (EvListen bind :: refused "puerto_fuera_de_rango" ++ [EvCloseListener l], (reg, None))
          else let b := ForwardPolicy.NormalizeTarget host actual in
               (EvListen bind :: answer true (if (port =? 0)%Z then Some actual else None), (Put reg b l, Some (l, b)))
       end
     else (answer false None ++ refused "politica_denegada", (reg, None))
  end.

Lemma handle_forward_outcome {A} (s : Server A) payload wantReply listen reg
    (st : state Tunnels.t) :
  handleTCPIPForwardRequest s payload wantReply listen reg st
  = let '(es, r) := forward_outcome s (Session.Role (sess st)) payload wantReply listen reg in
    (r, mkState (sh st) (tick st) (input st) (sess st) (log st ++ es)).
Proof.
  destruct st as [sh0 t0 i0 s0 l0].
  unfold handleTCPIPForwardRequest, forwardListen, forwardReply, forward_outcome, reply.
  unfold mbind, io_bind, mret, io_ret, emit, metrics, emits, getSession.
  destruct payload as [[host port]|].
  - cbn [sess]. destruct (ForwardPolicy.AllowRemoteBind _ _ _ _); cbn [negb].
    + destruct (listen _) as [|l|l actual]; [| |destruct (_ || _)];
        destruct wantReply; simpl; by rewrite <-?app_assoc.
    + destruct wantReply; simpl; by rewrite <-?app_assoc.
  - destruct wantReply; simpl; by rewrite ?app_nil_r.
Qed.

(** Membership in a list of known events. *)
Ltac events :=
  cbn [fst snd];
  repeat match goal with
  | |- ¬ _ => intro
  | |- _ ∧ _ => split
  | |- _ ↔ _ => split
  | |- ∀ _, _ => intro
  | H : _ ∈ [] |- _ => by apply elem_of_nil in H
  | H : _ ∈ _ :: _ |- _ => apply elem_of_cons in H as [H|H]; [try discriminate H|]
  | H : ∃ _, _ |- _ => destruct H
  | H : _ ∧ _ |- _ => destruct H
  | H : _ ∨ _ |- _ => destruct H
  | H : EvListen _ = EvListen _ |- _ => injection H as H
  end; simplify_eq;
  repeat match goal with
  | H1 : ?f ?b = _, H2 : ?f ?b = _ |- _ => rewrite H1 in H2; simplify_eq
  end; try congruence; eauto 10 using list_elem_of_here, list_elem_of_further.

(** C8: remote forwards obey the policy.  The server listens for a client exactly when
    the request is well formed and the policy allows that address to the role of the
    session, and then on the normalized address the policy looked up.  A listener it
    obtains is either registered under its actual address, with its accept loop started
    and the request granted, or closed at once; in every other case the registry is
    unchanged and nothing is started. *)
Theorem remote_forward_policy `{MR : MapRange} {A : Type} (s : Server A)
    (payload : option (string * Z)) (wantReply : bool) (listen : string → listen_result)
    (reg : remoteForwardRegistry) (st : state Tunnels.t) :
  let '(r, st') := handleTCPIPForwardRequest s payload wantReply listen reg st in
  ∃ es, log st' = log st ++ es
    ∧ (∀ b, EvListen b ∈ es ↔
         ∃ host port, payload = Some (host, port) ∧ b = ForwardPolicy.NormalizeTarget host port
           ∧ ForwardPolicy.AllowRemoteBind (forwardPolicy s) (Session.Role (sess st)) host port
             = true)
    ∧ match r.2 with
      | Some (l, bind) =>
         r.1 = Put reg bind l ∧ (∀ l', ¬ EvCloseListener l' ∈ es)
         ∧ ∃ host port actual, payload = Some (host, port)
             ∧ (EvReply true (if (port =? 0)%Z then Some actual else None) ∈ es
                ↔ wantReply = true)
             ∧ listen (ForwardPolicy.NormalizeTarget host port) = Listening l actual
             ∧ bind = ForwardPolicy.NormalizeTarget host actual ∧ in_uint32 actual
      | None =>
         r.1 = reg ∧ (∀ p, ¬ EvReply true p ∈ es)
         ∧ ∀ b l, EvListen b ∈ es → (listen b = NotTCP l ∨ ∃ port, listen b = Listening l port) →
             EvCloseListener l ∈ es
      end.
Proof.
  rewrite handle_forward_outcome. unfold forward_outcome.
  destruct payload as [[host port]|].
  2: { destruct wantReply; eexists; (split; [done|]); events. }
  destruct (ForwardPolicy.AllowRemoteBind _ _ _ _) eqn:Ha.
  2: { destruct wantReply; simpl; eexists; (split; [done|]); events. }
  destruct (listen _) as [|l|l actual] eqn:El; [| |destruct (_ || _) eqn:Er].
  - destruct wantReply; simpl; eexists; (split; [done|]); events.
  - simpl; eexists; (split; [done|]); events.
  - simpl; eexists; (split; [done|]); events.
  - bool_to_prop. assert (in_uint32 actual) by (unfold in_uint32; lia).
    destruct wantReply; simpl; eexists; (split; [done|]);
      (split; [events|split; [done|split; [events|]]]);
      exists host, port, actual; events.
Qed.

End SSHServer.
