(* ===== verification/SSHConnection.v ===== *)
(** * An SSH connection and its goroutines ([internal/transport/sshserver/server.go])

    After the handshake [handleConnection] ranges over the channels of the client and
    starts a goroutine for each, another goroutine answers its global requests, each
    listener it obtains has an accept loop, and each accepted connection a goroutine
    more.  They share the registry of listeners, the session and the reason of the end.
    The model is a transition system: a step advances one goroutine up to its next
    access to what they share or to the next point where it can block, and a schedule is
    a list of choices, so that a theorem about all schedules is one about all
    interleavings.  A goroutine that waits has no step: for a request or a line that has
    not come, for the copies of a tunnel that have not ended, for a connection to a
    listener.  What the client and the system do (channels, requests, lines, arrivals,
    outcomes of listening, how copies end) is part of the initial state or of the choice;
    the channels are those until the client leaves. *)

From S2P Require Import Prelude GoStrings Session Auth RateLimiter Metrics Tunnels.
From S2P Require Import ForwardPolicy Config Validator Commands Conn AuthorizedKeys TCPServer.
From S2P Require Import SSHServer.

Module SSHConnection.
Import Conn SSHServer.

(** ** State *)

(** When the two copies of a tunnel have both ended: while the client is there (both
    peers end, or the tunnel is closed through the manager, which stops it); only after
    the client has left, which ends the copy that reads from it; or never, since the peer
    at the far end neither ends nor sends. *)
Inductive ending := AnyTime | AfterClient | Never.

#[export] Instance ending_eq_dec : EqDecision ending.
Proof. solve_decision. Defined.

(** A channel the client opens: its type, what it carries, and the outcomes of
    accepting it, of dialling its target and of its copies.  [requests] and [lines] are
    what arrives on it; [closes] says whether the client closes it before it leaves. *)
Record newChannel := mkChannel {
  ChannelType : string;
  acceptOk : bool;
  requests : list channel_request;
  lines : list read_event;
  closes : bool;
  extraData : option direct_payload;
  dialOk : bool;
  resource : nat;
  copies : ending;
}.

(** Where [handleConnection] is: in the loop, then in each of its deferred calls. *)
Inductive main_phase :=
| Serving (chans : list newChannel)
| Unregistering
| Observing
| Closed.

(** Where [handleGlobalRequests] is: between requests, after the listener was obtained,
    after it was registered, or after one was taken out of the registry. *)
Inductive global_phase :=
| Idle
| Listened (wantReply : bool) (f : forward)
| Registered (wantReply : bool) (f : forward)
| Cancelling (wantReply : bool) (l : option nat).

(** The goroutine of the global requests, the registry it shares with
    [handleConnection], the open listeners with their addresses and all the listeners
    the system ever gave. *)
Record globals := mkGlobals {
  reqs : list global_request;
  handling : global_phase;
  remote : remoteForwardRegistry;
  opened : gmap nat string;
  given : gset nat;
}.

(** What [Accept] of a listener returns. *)
Inductive accepted :=
| AcceptError
| Incoming (addr : string) (openOk : bool) (resource : nat) (copies : ending).

(** A goroutine started for a channel or for an accepted connection, where it is:
    waiting for a request on a session channel, about to write a prompt of the shell,
    waiting for a line, about to assign [closeReason]; about to open a local or a remote
    forward; waiting in [wg.Wait] for the copies of a tunnel. *)
Inductive task :=
| TSession (requests : list channel_request) (lines : list read_event) (closes : bool)
| TShell (lines : list read_event) (closes : bool)
| TLine (lines : list read_event) (closes : bool)
| TReason (motivo : string)
| TDirect (ch : newChannel)
| TIncoming (bind addr : string) (openOk : bool) (resource : nat) (copies : ending)
| TCopying (tun : option Tunnels.Tunnel) (resource : nat) (copies : ending).

Record conn := mkConn {
  phase : main_phase;
  closeReason : string;
  gl : globals;
  acceptors : list (nat * string);
  arrivals : list (nat * accepted);
  tasks : list task;
  cst : state Tunnels.t;
}.

(** The choice of the scheduler, with the outcome of [net.Listen]. *)
Inductive choice :=
| Main
| Global (listen : listen_result)
| Accept (i j : nat)
| Task (i : nat).

Section Connection.
Context `{MR : MapRange} {A : Type} (ρ : env Tunnels.t) (s : Server A).

(** A handler runs on the input given, from the state of the connection. *)
Definition perform {B : Type} (input : list read_event) (m : io Tunnels.t B)
    (st : state Tunnels.t) : B * state Tunnels.t :=
  m (mkState (sh st) (tick st) input (sess st) (log st)).

(** [handleConnection] after the handshake. *)
Definition start (chans : list newChannel) (requests : list global_request)
    (arrivals : list (nat * accepted)) (st : state Tunnels.t) : conn :=
  mkConn (Serving chans) "desconexion_cliente"
    (mkGlobals requests Idle newRemoteForwardRegistry ∅ ∅) [] arrivals [] st.

(** A step of [handleConnection]: the next channel, or the next deferred call. *)
Definition stepMain (c : conn) : option conn :=
  let goto p ts st :=
    Some (mkConn p (closeReason c) (gl c) (acceptors c) (arrivals c) (tasks c ++ ts) st) in
  match phase c with
  | Serving (ch :: chans) =>
     if bool_decide (ChannelType ch = "session") then
       goto (Serving chans) (if acceptOk ch then [TSession (requests ch) (lines ch) (closes ch)] else [])
         (cst c)
     else if bool_decide (ChannelType ch = "direct-tcpip") then
       goto (Serving chans) [TDirect ch] (cst c)
     else goto (Serving chans) []
            (perform [] (emit (EvRejectChannel "tipo de canal no soportado")) (cst c)).2
  | Serving [] =>
     let '(closed, remote') := CloseAll (remote (gl c)) in
     Some (mkConn Unregistering (closeReason c)
             (mkGlobals (reqs (gl c)) (handling (gl c)) remote'
                (filter (λ p, p.1 ∉ closed) (opened (gl c))) (given (gl c)))
             (acceptors c) (arrivals c) (tasks c)
             (perform [] (emits (EvCloseListener <$> closed)) (cst c)).2)
  | Unregistering =>
     goto Observing []
       (perform [] (sess ← getSession;
                    if sessionRegistry s then emit (EvUnregister (Session.ID sess)) else mret ())
          (cst c)).2
  | Observing =>
     goto Closed [] (perform [] (metrics (Metrics.ObserveSessionClosed (closeReason c))) (cst c)).2
  | Closed => None
  end.

(** The system gives a listener that is new, on an address nothing listens on. *)
Definition available (g : globals) (f : forward) : bool :=
  bool_decide (FListener f ∉ given g)
  && bool_decide (map_Forall (λ _ b, b ≠ actualBind f) (opened g)).

(** A step of [handleGlobalRequests]. *)
Definition stepGlobal (listen : listen_result) (c : conn) : option conn :=
  let g := gl c in
  let goto g accs st :=
    Some (mkConn (phase c) (closeReason c) g (acceptors c ++ accs) (arrivals c) (tasks c) st) in
  match handling g with
  | Idle =>
     match reqs g with
     | [] => None
     | TCPIPForward payload wantReply :: rest =>
        let '(r, st) := perform [] (forwardListen s payload wantReply (λ _, listen)) (cst c) in
        match r with
        | None => goto (mkGlobals rest Idle (remote g) (opened g) (given g)) [] st
        | Some f =>
           if available g f then
             goto (mkGlobals rest (Listened wantReply f) (remote g)
                     (<[FListener f := actualBind f]> (opened g)) ({[FListener f]} ∪ given g))
               [] st
           else None
        end
     | CancelTCPIPForward None wantReply :: rest =>
        goto (mkGlobals rest Idle (remote g) (opened g) (given g)) []
          (perform [] (reply wantReply false None) (cst c)).2
     | CancelTCPIPForward (Some (bindAddr, bindPort)) wantReply :: rest =>
        let '(l, remote') := Remove (remote g) (ForwardPolicy.NormalizeTarget bindAddr bindPort) in
        goto (mkGlobals rest (Cancelling wantReply l) remote' (opened g) (given g)) [] (cst c)
     | OtherGlobal wantReply :: rest =>
        goto (mkGlobals rest Idle (remote g) (opened g) (given g)) []
          (perform [] (reply wantReply false None) (cst c)).2
     end
  | Listened wantReply f =>
     goto (mkGlobals (reqs g) (Registered wantReply f)
             (Put (remote g) (actualBind f) (FListener f)) (opened g) (given g)) [] (cst c)
  | Registered wantReply f =>
     goto (mkGlobals (reqs g) Idle (remote g) (opened g) (given g)) [(FListener f, actualBind f)]
       (perform [] (forwardReply wantReply f) (cst c)).2
  | Cancelling wantReply l =>
     goto (mkGlobals (reqs g) Idle (remote g)
             (match l with Some l => delete l (opened g) | None => opened g end) (given g)) []
       (perform [] (_ ← (match l with Some l => emit (EvCloseListener l) | None => mret () end);
                    reply wantReply true None) (cst c)).2
  end.

(** A step of the [i]-th accept loop: with the [j]-th arrival if it is one of its
    listener, or with the error of a closed listener, which ends it. *)
Definition stepAccept (i j : nat) (c : conn) : option conn :=
  let goto accs arrs ts :=
    Some (mkConn (phase c) (closeReason c) (gl c) accs arrs (tasks c ++ ts) (cst c)) in
  acc ← acceptors c !! i;
  let '(l, bind) := (acc : nat * string) in
  match opened (gl c) !! l with
  | None => goto (delete i (acceptors c)) (arrivals c) []
  | Some _ =>
     arr ← arrivals c !! j;
     if bool_decide (arr.1 = l) then
       match arr.2 with
       | AcceptError => goto (delete i (acceptors c)) (delete j (arrivals c)) []
       | Incoming addr openOk resource copies =>
          goto (acceptors c) (delete j (arrivals c)) [TIncoming bind addr openOk resource copies]
       end
     else None
  end.

(** The client has left: the reads and the requests of its channels are over. *)
Definition departed (c : conn) : bool := match phase c with Serving _ => false | _ => true end.

(** Both copies of a tunnel have ended. *)
Definition copies_over (c : conn) (e : ending) : bool :=
  match e with AnyTime => true | AfterClient => departed c | Never => false end.

(** The goroutine that waits for the copies, if there is anything to copy. *)
Definition copying (resource : nat) (copies : ending) (o : option (option Tunnels.Tunnel))
    : list task :=
  match o with Some tun => [TCopying tun resource copies] | None => [] end.

(** A step of one of the other goroutines, unless it waits: what it goes on with, and
    the state. *)
Definition resume (c : conn) (t : task) : option (list task * state Tunnels.t) :=
  match t with
  | TSession [] lines closes =>
     if closes || departed c then Some ([TReason "canal_cerrado"], cst c) else None
  | TSession (req :: requests) lines closes =>
     let '(a, st) := perform [] (handleRequest ρ s req) (cst c) in
     Some match a with
          | NextRequest => ([TSession requests lines closes], st)
          | RunShell => ([TShell lines closes], (perform [] (shellBanner ρ s) st).2)
          | Finished motivo => ([TReason motivo], st)
          end
  | TShell lines closes =>
     let '(ok, st) := perform [] (write ρ "> ") (cst c) in
     Some ([if ok then TLine lines closes else TReason "shell_cerrada"], st)
  | TLine lines closes =>
     if bool_decide (lines ≠ []) || closes || departed c then
       let '(more, st) := perform lines (shellLine ρ s) (cst c) in
       Some ([if more then TShell (tail lines) closes else TReason "shell_cerrada"], st)
     else None
  | TReason motivo => Some ([], cst c)
  | TDirect ch =>
     let '(o, st) := perform [] (openDirect ρ s (extraData ch) (dialOk ch) (acceptOk ch)
                                   (resource ch)) (cst c) in
     Some (copying (resource ch) (copies ch) o, st)
  | TIncoming bind addr openOk resource copies =>
     let '(o, st) := perform [] (openIncoming ρ bind addr openOk resource) (cst c) in
     Some (copying resource copies o, st)
  | TCopying tun resource copies =>
     if copies_over c copies
     then Some ([], (perform [] (endTunnel ρ resource tun) (cst c)).2)
     else None
  end.

(** The assignment of [closeReason]. *)
Definition reason_after (c : conn) (t : task) : string :=
  match t with TReason motivo => motivo | _ => closeReason c end.

(** The [i]-th of the other goroutines makes a step. *)
Definition stepTask (i : nat) (c : conn) : option conn :=
  t ← tasks c !! i;
  r ← resume c t;
  Some (mkConn (phase c) (reason_after c t) (gl c) (acceptors c) (arrivals c)
          (delete i (tasks c) ++ r.1) r.2).

Definition step (k : choice) (c : conn) : option conn :=
  match k with
  | Main => stepMain c
  | Global listen => stepGlobal listen c
  | Accept i j => stepAccept i j c
  | Task i => stepTask i c
  end.

(** A schedule. *)
Fixpoint run (sched : list choice) (c : conn) : option conn :=
  match sched with
  | [] => Some c
  | k :: sched => c' ← step k c; run sched c'
  end.

End Connection.

(** ** What the handlers leave alone

    The handlers neither open nor close the session, nor change whose it is. *)

Abbreviation modest := TCPServer.inner.

Definition same_owner (s1 s2 : Session.t) : Prop :=
  Session.ID s2 = Session.ID s1 ∧ Session.Username s2 = Session.Username s1
  ∧ Session.Role s2 = Session.Role s1.

#[export] Instance same_owner_preorder : PreOrder same_owner.
Proof.
  split; [by intros s1; split_and!|].
  intros s1 s2 s3 (H1 & H2 & H3) (H4 & H5 & H6). unfold same_owner. by rewrite H4, H5, H6.
Qed.

Definition orderly {B} (m : io Tunnels.t B) (Q : B → Prop) : Prop :=
  ∀ st, ∃ es, log (m st).2 = log st ++ es ∧ Forall modest es
    ∧ same_owner (sess st) (sess (m st).2) ∧ Q (m st).1.

Abbreviation calm m := (orderly m (λ _, True)).

Section Orderly.
Context `{MR : MapRange} (ρ : env Tunnels.t).

Lemma orderly_bind {B D} (m : io Tunnels.t B) (k : B → io Tunnels.t D) P Q :
  orderly m P → (∀ b, P b → orderly (k b) Q) → orderly (m ≫= k) Q.
Proof using Type.
  intros Hm Hk st. unfold mbind, io_bind. destruct (Hm st) as (es & H1 & H2 & H3 & H4).
  destruct (m st) as [b st']. simpl in *. destruct (Hk b H4 st') as (es' & H5 & H6 & H7 & H8).
  exists (es ++ es'). rewrite H5, H1, app_assoc. split_and!; try done; [by apply Forall_app|].
  by trans (sess st').
Qed.

Lemma calm_bind {B D} (m : io Tunnels.t B) (k : B → io Tunnels.t D) Q :
  calm m → (∀ b, orderly (k b) Q) → orderly (m ≫= k) Q.
Proof using Type. intros Hm Hk. by apply (orderly_bind m k (λ _, True)). Qed.

Lemma appends_orderly {B} (m : io Tunnels.t B) Q :
  appends m (λ b es, Forall modest es ∧ Q b) → orderly m Q.
Proof using Type.
  intros Hm st. destruct (Hm st) as (es & H1 & H2 & H3 & H4). exists es. by rewrite H2.
Qed.

Lemma orderly_ret {B} (b : B) (Q : B → Prop) : Q b → orderly (mret b) Q.
Proof using Type. intros H. by apply appends_orderly, appends_ret. Qed.
Lemma calm_ret {B} (b : B) : calm (mret b : io Tunnels.t B).
Proof using Type. by apply orderly_ret. Qed.
Lemma calm_emit e : modest e → calm (emit e).
Proof using Type. intros He. apply appends_orderly, appends_emit. by auto. Qed.
Lemma calm_emits es : Forall modest es → calm (emits es).
Proof using Type. intros He. apply appends_orderly, appends_emits. by auto. Qed.
Lemma calm_metrics ops : Forall (λ o, TCPServer.session_metric o = false) ops → calm (metrics ops).
Proof using Type. intros H. apply calm_emits. by apply Forall_fmap. Qed.
Lemma calm_write text : calm (write ρ text).
Proof using Type.
  intros st. unfold write. case_if; simpl.
  - exists [EvWrite text]. split_and!; [done|by apply Forall_singleton|done|done].
  - exists []. rewrite app_nil_r. by split_and!.
Qed.
Lemma calm_read : calm (read (M := Tunnels.t)).
Proof using Type.
  intros st. unfold read. destruct (input st); exists []; rewrite app_nil_r; by split_and!.
Qed.
Lemma calm_getSession : calm (getSession (M := Tunnels.t)).
Proof using Type. intros st. exists []. rewrite app_nil_r. by split_and!. Qed.
Lemma calm_modify f : (∀ s, same_owner s (f s)) → calm (modifySession (M := Tunnels.t) f).
Proof using Type. intros H st. exists []. rewrite app_nil_r. by split_and!. Qed.
Lemma calm_validate v line : calm (validate ρ v line).
Proof using Type.
  intros st. eexists [_]. simpl. split_and!; [done|by apply Forall_singleton|done|done].
Qed.
Lemma calm_execute fw cmd rt args : calm (execute ρ fw cmd rt args).
Proof using Type.
  intros st. unfold execute. destruct (Commands.Execute _ _ _ _ _) as [[out cs] eff]. simpl.
  eexists (_ :: _). split_and!; try done. apply Forall_cons. split; [done|].
  by apply Forall_fmap, Forall_true.
Qed.
Lemma calm_reply wantReply ok port : calm (reply wantReply ok port).
Proof using Type. unfold reply. destruct wantReply; [by apply calm_emit|by apply calm_ret]. Qed.
Lemma calm_withManager {B} (f : Tunnels.t → B * Tunnels.t * list Tunnels.effect) :
  calm (withManager ρ f).
Proof using Type.
  apply appends_orderly. eapply appends_weaken; [by apply (appends_withManager _ _ (λ _, True))|].
  intros o es [[eff ->] _]. split; [|done]. by apply Forall_fmap, Forall_true.
Qed.

End Orderly.

Create HintDb calm.
#[export] Hint Resolve calm_bind orderly_ret calm_ret calm_emit calm_write calm_read
  calm_getSession calm_validate calm_execute calm_reply calm_withManager : calm.

(** One layer of a handler. *)
Ltac calm_step :=
  first
  [ apply calm_metrics; repeat constructor
  | apply calm_emit; exact I
  | apply calm_modify; by intros ?; split_and!
  | by auto with calm
  | apply calm_bind; [|intros ?]
  | progress case_match
  | progress cbv zeta ].

Lemma calm_now ρ : calm (now ρ).
Proof. intros st. exists []. rewrite app_nil_r. by split_and!. Qed.

Section Handlers.
Context `{MR : MapRange} {A : Type} (ρ : env Tunnels.t) (s : Server A).

Lemma calm_executeInput line : calm (executeInput ρ s line).
Proof using Type. unfold executeInput. repeat calm_step. Qed.

Lemma calm_shellLine : calm (shellLine ρ s).
Proof using Type.
  unfold shellLine, writeLine, sendExitStatus. repeat first [apply calm_executeInput|calm_step].
Qed.

Lemma calm_shellBanner : calm (shellBanner ρ s).
Proof using Type. unfold shellBanner, writeLine. repeat calm_step. Qed.

(** The reasons of [handleSessionChannel]. *)
Definition channel_reasons : list string :=
  ["canal_cerrado"; "shell_cerrada"; "payload_exec_invalido"; "exec_completado"].

Lemma handleRequest_orderly req :
  orderly (handleRequest ρ s req)
    (λ a, match a with Finished motivo => motivo ∈ channel_reasons | _ => True end).
Proof using Type.
  destruct req as [| |[value|]|]; simpl; (apply calm_bind; [by apply calm_emit|intros []]);
    try by apply orderly_ret.
  - unfold runExec, writeLine, sendExitStatus.
    apply calm_bind; [repeat first [apply calm_executeInput|calm_step]|intros status].
    apply calm_bind; [by apply calm_emit|intros []]. apply orderly_ret. set_solver.
  - apply calm_bind; [by apply calm_emit|intros []]. apply orderly_ret. set_solver.
Qed.

Lemma calm_openTunnel open : calm (openTunnel ρ open).
Proof using Type. unfold openTunnel. repeat first [apply calm_now|calm_step]. Qed.

Lemma calm_endTunnel resource o : calm (endTunnel ρ resource o).
Proof using Type. unfold endTunnel. repeat calm_step. Qed.

Lemma calm_openDirect extra dialOk acceptOk resource :
  calm (openDirect ρ s extra dialOk acceptOk resource).
Proof using Type. unfold openDirect. repeat first [apply calm_openTunnel|calm_step]. Qed.

Lemma calm_openIncoming bind addr openOk resource :
  calm (openIncoming ρ bind addr openOk resource).
Proof using Type. unfold openIncoming. repeat first [apply calm_openTunnel|calm_step]. Qed.

(** A listener comes from the system, on the address asked for. *)
Lemma forwardListen_orderly payload wantReply listen :
  orderly (forwardListen s payload wantReply listen)
    (λ r, ∀ f, r = Some f → ∃ bind, listen bind = Listening (FListener f) (FActual f)).
Proof using Type.
  unfold forwardListen.
  repeat first [ calm_step | apply orderly_ret; intros f Hf; first [done|simplify_eq/=; by eauto] ].
Qed.

End Handlers.

(** ** Termination

    Every step uses up some of what the client and the system still have to send, so
    no schedule is infinite. *)

(** The steps a channel can make. *)
Definition channel_weight (ch : newChannel) : nat :=
  length (requests ch) + 2 * length (lines ch) + 4.

Definition main_weight (p : main_phase) : nat :=
  match p with
  | Serving chans => sum_list (channel_weight <$> chans) + 3
  | Unregistering => 2
  | Observing => 1
  | Closed => 0
  end.

Definition global_weight (g : globals) : nat :=
  4 * length (reqs g)
  + match handling g with
    | Idle => 0 | Listened _ _ => 3 | Registered _ _ => 2 | Cancelling _ _ => 1
    end.

Definition task_weight (t : task) : nat :=
  match t with
  | TSession requests lines _ => length requests + 2 * length lines + 3
  | TShell lines _ => 2 * length lines + 3
  | TLine lines _ => 2 * length lines + 2
  | TReason _ => 1
  | TDirect _ | TIncoming _ _ _ _ _ => 2
  | TCopying _ _ _ => 1
  end.

Abbreviation tasks_weight ts := (sum_list (task_weight <$> ts)).

Definition weight (c : conn) : nat :=
  main_weight (phase c) + global_weight (gl c) + length (acceptors c)
  + 3 * length (arrivals c) + tasks_weight (tasks c).

Lemma tasks_weight_app ts1 ts2 :
  tasks_weight (ts1 ++ ts2) = tasks_weight ts1 + tasks_weight ts2.
Proof. induction ts1 as [|t ts1 IH]; csimpl; [done|]. rewrite IH. lia. Qed.

Lemma tasks_weight_delete i t ts :
  ts !! i = Some t → tasks_weight ts = task_weight t + tasks_weight (delete i ts).
Proof.
  intros H. rewrite (delete_take_drop ts i), tasks_weight_app.
  rewrite <-(take_drop_middle ts i t H) at 1. rewrite tasks_weight_app. csimpl. lia.
Qed.

Section Termination.
Context `{MR : MapRange} {A : Type} (ρ : env Tunnels.t) (s : Server A).

Lemma stepMain_weight c c' : stepMain s c = Some c' → weight c' < weight c.
Proof using Type.
  unfold stepMain, weight. destruct (phase c) as [[|ch chans]| | |] eqn:Ep; intros H; simpl.
  - destruct (CloseAll _). simplify_eq/=. unfold global_weight. simpl. lia.
  - csimpl. unfold channel_weight.
    repeat case_bool_decide; [destruct (acceptOk ch)|..]; simplify_eq/=;
      rewrite tasks_weight_app; unfold channel_weight; simpl; lia.
  - simplify_eq/=. rewrite tasks_weight_app. simpl. lia.
  - simplify_eq/=. rewrite tasks_weight_app. simpl. lia.
  - done.
Qed.

Lemma stepGlobal_weight listen c c' : stepGlobal s listen c = Some c' → weight c' < weight c.
Proof using Type.
  unfold stepGlobal, weight, global_weight. destruct (handling (gl c)) eqn:Eh; intros H.
  - destruct (reqs (gl c)) as [|[payload wr|[[host port]|] wr|wr] rest] eqn:Er; [done|..].
    + destruct (perform _ _ _) as [[f|] st]; [destruct (available _ _); [|done]|];
        simplify_eq/=; rewrite length_app; simpl; lia.
    + simplify_eq/=. rewrite length_app. simpl. lia.
    + simplify_eq/=. rewrite length_app. simpl. lia.
    + simplify_eq/=. rewrite length_app. simpl. lia.
  - simplify_eq/=. rewrite length_app. simpl. lia.
  - simplify_eq/=. rewrite length_app. simpl. lia.
  - simplify_eq/=. rewrite length_app. simpl. lia.
Qed.

Lemma delete_length_lt {T} (l : list T) i x : l !! i = Some x → S (length (delete i l)) = length l.
Proof using Type.
  intros H. rewrite length_delete by eauto. apply lookup_lt_Some in H. lia.
Qed.

Lemma stepAccept_weight i j c c' : stepAccept i j c = Some c' → weight c' < weight c.
Proof using Type.
  unfold stepAccept, weight. intros H.
  apply bind_Some in H as ([l bind] & Ha & H). pose proof (delete_length_lt _ _ _ Ha).
  destruct (opened (gl c) !! l).
  - apply bind_Some in H as (arr & Hj & H). pose proof (delete_length_lt _ _ _ Hj).
    case_bool_decide; [|done]. destruct (arr.2); simplify_eq/=; rewrite tasks_weight_app; simpl; lia.
  - simplify_eq/=. rewrite tasks_weight_app. simpl. lia.
Qed.

Lemma copying_weight resource copies o : tasks_weight (copying resource copies o) ≤ 1.
Proof using Type. destruct o; simpl; lia. Qed.

Lemma resume_weight c t r : resume ρ s c t = Some r → tasks_weight r.1 < task_weight t.
Proof using Type.
  destruct t as [[|req reqs] lines closes|lines closes|lines closes|motivo|ch|bind addr ok res e
                |tun res e]; cbn [resume task_weight].
  - destruct (closes || departed c); [|done]. intros [= <-]. simpl. lia.
  - destruct (perform _ _ _) as [a st]. intros [= <-]. destruct a; simpl; lia.
  - destruct (perform _ _ _) as [ok st]. intros [= <-]. destruct ok; simpl; lia.
  - destruct (_ || departed c); [|done]. unfold perform. destruct lines as [|[raw| | |] lines];
      [| |by intros [= <-]; simpl; lia..].
    + intros [= <-]. simpl. lia.
    + destruct (shellLine ρ s _) as [more st]. intros [= <-]. destruct more; simpl; lia.
  - intros [= <-]. simpl. lia.
  - destruct (perform _ _ _) as [o st]. intros [= <-].
    pose proof (copying_weight (resource ch) (copies ch) o). simpl. lia.
  - destruct (perform _ _ _) as [o st]. intros [= <-].
    pose proof (copying_weight res e o). simpl. lia.
  - destruct (copies_over c e); [|done]. intros [= <-]. simpl. lia.
Qed.

Lemma stepTask_weight i c c' : stepTask ρ s i c = Some c' → weight c' < weight c.
Proof using Type.
  unfold stepTask, weight. intros H.
  apply bind_Some in H as (t & Ht & H). apply bind_Some in H as (r & Hr & H).
  apply resume_weight in Hr. rewrite (tasks_weight_delete _ _ _ Ht).
  simplify_eq/=. rewrite tasks_weight_app. lia.
Qed.

Lemma step_weight k c c' : step ρ s k c = Some c' → weight c' < weight c.
Proof using Type.
  destruct k; simpl; eauto using stepMain_weight, stepGlobal_weight, stepAccept_weight,
    stepTask_weight.
Qed.

(** A schedule makes at most [weight] steps. *)
Lemma run_length sched c c' : run ρ s sched c = Some c' → length sched + weight c' ≤ weight c.
Proof using Type.
  revert c. induction sched as [|k sched IH]; intros c H; simpl in *; [by simplify_eq|].
  apply bind_Some in H as (c1 & H1 & H2). apply step_weight in H1. apply IH in H2. lia.
Qed.

(** ** Nothing is stuck *)

(** The goroutines of a connection are over, except for those of tunnels whose copies
    never end and for accept loops that wait on an open listener for a connection that
    does not come. *)
Definition settled (c : conn) : Prop :=
  phase c = Closed ∧ reqs (gl c) = [] ∧ handling (gl c) = Idle
  ∧ Forall (λ t, ∃ tun resource, t = TCopying tun resource Never) (tasks c)
  ∧ ∀ l bind, (l, bind) ∈ acceptors c →
      is_Some (opened (gl c) !! l) ∧ ∀ a, (l, a) ∉ arrivals c.

(** Some goroutine can go on. *)
Definition can_step (c : conn) : Prop := ∃ k c', step ρ s k c = Some c'.

Lemma main_progress c : phase c ≠ Closed → can_step c.
Proof using Type.
  intros Hp. exists Main. simpl. unfold stepMain.
  destruct (phase c) as [[|ch chans]| | |]; try done; repeat case_bool_decide; eauto.
Qed.

Lemma global_progress c : handling (gl c) ≠ Idle ∨ reqs (gl c) ≠ [] → can_step c.
Proof using Type.
  intros Hg. exists (Global ListenError). simpl. unfold stepGlobal.
  destruct (handling (gl c)); [|eauto..]. destruct Hg as [|Hg]; [done|].
  destruct (reqs (gl c)) as [|[payload wr|[[host port]|] wr|wr] rest]; [done| |eauto..].
  destruct (forwardListen_orderly s payload wr (λ _, ListenError)
    (mkState (sh (cst c)) (tick (cst c)) [] (sess (cst c)) (log (cst c)))) as (_ & _ & _ & _ & Hf).
  unfold perform. destruct (forwardListen _ _ _ _ _) as [[f|] st]; [|by eauto].
  by destruct (Hf f eq_refl).
Qed.

(** A goroutine that waits although the client has left. *)
Definition stranded (t : task) : bool :=
  match t with TCopying _ _ Never => true | _ => false end.

Lemma resume_progress c t :
  departed c = true → stranded t = false → is_Some (resume ρ s c t).
Proof using Type.
  intros Hd Ht. destruct t as [[|req reqs] lines closes|lines closes|lines closes|motivo|ch
    |bind addr ok res e|tun res e]; cbn [resume]; try (destruct (perform _ _ _); by eauto).
  - rewrite Hd, orb_true_r. by eauto.
  - rewrite Hd, orb_true_r. destruct (perform _ _ _). by eauto.
  - by eauto.
  - destruct e; [by eauto| |done]. cbn [copies_over]. rewrite Hd. by eauto.
Qed.

Lemma task_progress c :
  departed c = true → Exists (λ t, stranded t = false) (tasks c) → can_step c.
Proof using Type.
  intros Hd Ht. rewrite Exists_exists in Ht. destruct Ht as (t & Hin & Ht).
  apply list_elem_of_lookup in Hin as [i Hi]. destruct (resume_progress c t Hd Ht) as [r Hr].
  exists (Task i). simpl. unfold stepTask. rewrite Hi. simpl. rewrite Hr. simpl. by eauto.
Qed.

(** An accept loop can go on. *)
Definition acceptor_ready (c : conn) (acc : nat * string) : Prop :=
  opened (gl c) !! acc.1 = None ∨ Exists (λ arr, arr.1 = acc.1) (arrivals c).

#[export] Instance acceptor_ready_dec c acc : Decision (acceptor_ready c acc).
Proof using Type. unfold acceptor_ready. apply _. Qed.

Lemma accept_progress c : Exists (acceptor_ready c) (acceptors c) → can_step c.
Proof using Type.
  rewrite Exists_exists. intros ([l bind] & Hin & Hr).
  apply list_elem_of_lookup in Hin as [i Hi].
  destruct (opened (gl c) !! l) as [b|] eqn:Eo.
  - destruct Hr as [Hr|Hr]; [simpl in Hr; congruence|]. rewrite Exists_exists in Hr.
    destruct Hr as ([l' a] & Hj & Hl). simpl in Hl. subst l'.
    apply list_elem_of_lookup in Hj as [j Hj]. exists (Accept i j). simpl. unfold stepAccept.
    rewrite Hi. simpl. rewrite Eo, Hj. simpl. rewrite bool_decide_eq_true_2 by done.
    destruct a; eauto.
  - exists (Accept i 0). simpl. unfold stepAccept. rewrite Hi. simpl. rewrite Eo. eauto.
Qed.

Lemma progress c : settled c ∨ can_step c.
Proof using Type.
  destruct (decide (Exists (acceptor_ready c) (acceptors c))) as [Ha|Ha];
    [right; by apply accept_progress|].
  destruct (reqs (gl c)) as [|r rs] eqn:Er;
    [|right; apply global_progress; right; by rewrite Er].
  destruct (handling (gl c)) eqn:Eh;
    [|right; apply global_progress; left; by rewrite Eh..].
  destruct (phase c) eqn:Ep; [right; apply main_progress; by rewrite Ep..|].
  destruct (decide (Exists (λ t, stranded t = false) (tasks c))) as [Ht|Ht].
  { right. apply task_progress; [|done]. unfold departed. by rewrite Ep. }
  left. split_and!; try done.
  - rewrite <-Forall_Exists_neg in Ht. eapply Forall_impl; [exact Ht|].
    intros [| | | | | |tun res []] H; try (by destruct H). by exists tun, res.
  - intros l bind Hin. rewrite <-Forall_Exists_neg in Ha.
    rewrite Forall_forall in Ha. specialize (Ha _ Hin). unfold acceptor_ready in Ha. simpl in Ha.
    apply Decidable.not_or in Ha as [Ho Hx]. split; [by apply not_eq_None_Some|].
    intros a Hin'. apply Hx, Exists_exists. by eexists.
Qed.

(** Every connection can be brought to its end. *)
Lemma can_settle c : ∃ sched c', run ρ s sched c = Some c' ∧ settled c'.
Proof using Type.
  induction c as [c IH] using (well_founded_induction (Wf_nat.well_founded_ltof _ weight)).
  destruct (progress c) as [Hf|(k & c1 & Hk)]; [by exists [], c|].
  destruct (IH c1) as (sched & c' & Hr & Hf); [by apply (step_weight k)|].
  exists (k :: sched), c'. simpl. by rewrite Hk.
Qed.

End Termination.

(** ** Who holds a listener *)

(** The goroutine of the global requests holds it: it is not registered yet, or not
    registered any more. *)
Definition in_flight (g : globals) (l : nat) : Prop :=
  match handling g with
  | Listened _ f => l = FListener f
  | Cancelling _ (Some l') => l = l'
  | _ => False
  end.

(** The registry holds open listeners, each under its address; an open listener is
    registered or in flight, and one that is in flight is not registered. *)
Record owned (g : globals) : Prop := {
  owned_open b l : listeners (remote g) !! b = Some l → opened g !! l = Some b;
  owned_held l b : opened g !! l = Some b → listeners (remote g) !! b = Some l ∨ in_flight g l;
  owned_listened wr f : handling g = Listened wr f →
    opened g !! FListener f = Some (actualBind f) ∧ listeners (remote g) !! actualBind f = None;
  owned_cancelled wr l b : handling g = Cancelling wr (Some l) → listeners (remote g) !! b ≠ Some l;
  owned_given l : is_Some (opened g !! l) → l ∈ given g;
}.

Section Owned.
Context `{MR : MapRange} {A : Type} (ρ : env Tunnels.t) (s : Server A).

Lemma owned_start reqs : owned (mkGlobals reqs Idle newRemoteForwardRegistry ∅ ∅).
Proof using Type. split; simpl; intros *; rewrite ?lookup_empty; try done. Qed.

(** The registry and the listeners are unchanged and nothing is in flight. *)
Lemma owned_idle g reqs' h' :
  owned g → (∀ l, ¬ in_flight g l) → match h' with Idle | Registered _ _ => True | _ => False end →
  owned (mkGlobals reqs' h' (remote g) (opened g) (given g)).
Proof using Type.
  intros [H1 H2 H3 H4 H5] Hi Hh. split; simpl; try done.
  - intros l b Hl. left. destruct (H2 l b Hl) as [|Hf]; [done|]. by destruct (Hi l).
  - intros wr f ->. done.
  - intros wr l b ->. done.
Qed.

Lemma closed_listeners r l : l ∈ (CloseAll r).1 ↔ ∃ b, listeners r !! b = Some l.
Proof using Type.
  simpl. rewrite list_elem_of_fmap. setoid_rewrite <-elem_of_range. split.
  - intros ([b l'] & -> & Hin). by exists b.
  - intros [b Hin]. by exists (b, l).
Qed.

(** What [CloseAll] leaves open is in flight. *)
Lemma owned_closed g :
  owned g →
  let g' := mkGlobals (reqs g) (handling g) (CloseAll (remote g)).2
              (filter (λ p, p.1 ∉ (CloseAll (remote g)).1) (opened g)) (given g) in
  owned g' ∧ ∀ l b, opened g' !! l = Some b → in_flight g' l.
Proof using Type.
  intros [H1 H2 H3 H4 H5]. cbv zeta.
  assert (Hf : ∀ l b, filter (λ p, p.1 ∉ (CloseAll (remote g)).1) (opened g) !! l = Some b →
    opened g !! l = Some b ∧ in_flight g l).
  { intros l b Hl. apply map_lookup_filter_Some in Hl as [Hl Hn]. split; [done|].
    destruct (H2 l b Hl) as [Hr|]; [|done]. destruct Hn. apply closed_listeners. by eexists. }
  split; [split|]; unfold in_flight; simpl.
  - intros b l. by rewrite lookup_empty.
  - intros l b Hl. right. apply (Hf l b Hl).
  - intros wr f Hh. rewrite lookup_empty. split; [|done]. destruct (H3 wr f Hh) as [Ho Hn].
    apply map_lookup_filter_Some. split; [done|]. change (FListener f ∉ (CloseAll (remote g)).1). rewrite closed_listeners.
    intros [b Hb]. apply H1 in Hb as Hb'. simplify_eq.
  - intros wr l b _. by rewrite lookup_empty.
  - intros l [b Hl]. apply H5. apply Hf in Hl as [Hl _]. by eexists.
  - intros l b Hl. apply (Hf l b Hl).
Qed.

Lemma owned_listen g wr f reqs' :
  owned g → handling g = Idle → available g f = true →
  owned (mkGlobals reqs' (Listened wr f) (remote g)
           (<[FListener f := actualBind f]> (opened g)) ({[FListener f]} ∪ given g)).
Proof using Type.
  intros [H1 H2 H3 H4 H5] Hi Ha.
  apply andb_prop in Ha as [Hg%bool_decide_eq_true Hm%bool_decide_eq_true]. assert (Hn : opened g !! FListener f = None).
  { apply eq_None_not_Some. intros Hs. by apply Hg, H5. }
  split; unfold in_flight; simpl.
  - intros b l Hl. apply H1 in Hl. rewrite lookup_insert_ne; [done|]. intros <-. simplify_eq.
  - intros l b Hl. destruct (decide (l = FListener f)) as [->|Hne]; [by right|].
    rewrite lookup_insert_ne in Hl by done. left. destruct (H2 l b Hl) as [|Hf]; [done|].
    unfold in_flight in Hf. by rewrite Hi in Hf.
  - intros wr' f' [= <- <-]. rewrite lookup_insert_eq. split; [done|].
    apply eq_None_not_Some. intros [l Hl]. apply H1 in Hl. by apply (Hm l _ Hl).
  - done.
  - intros l Hl. destruct (decide (l = FListener f)) as [->|Hne]; [set_solver|].
    rewrite lookup_insert_ne in Hl by done. apply H5 in Hl. set_solver.
Qed.

Lemma owned_put g wr f :
  owned g → handling g = Listened wr f →
  owned (mkGlobals (reqs g) (Registered wr f) (Put (remote g) (actualBind f) (FListener f))
           (opened g) (given g)).
Proof using Type.
  intros [H1 H2 H3 H4 H5] Hh. destruct (H3 wr f Hh) as [Ho Hn].
  split; unfold in_flight; simpl; try done.
  - intros b l. destruct (decide (b = actualBind f)) as [->|Hne].
    + rewrite lookup_insert_eq. by intros [= <-].
    + rewrite lookup_insert_ne by done. apply H1.
  - intros l b Hl. left. destruct (H2 l b Hl) as [Hr|Hf].
    + rewrite lookup_insert_ne; [done|]. intros <-. simplify_eq.
    + unfold in_flight in Hf. rewrite Hh in Hf. subst l. simplify_eq. apply lookup_insert_eq.
Qed.

Lemma owned_remove g wr bind reqs' :
  owned g → handling g = Idle →
  owned (mkGlobals reqs' (Cancelling wr (Remove (remote g) bind).1) (Remove (remote g) bind).2
           (opened g) (given g)).
Proof using Type.
  intros [H1 H2 H3 H4 H5] Hi. split; unfold in_flight; simpl; try done.
  - intros b l Hl. apply lookup_delete_Some in Hl as [_ Hl]. by apply H1.
  - intros l b Hl. destruct (H2 l b Hl) as [Hr|Hf].
    + destruct (decide (b = bind)) as [->|Hne]; [right; by rewrite Hr|].
      left. by apply lookup_delete_Some.
    + unfold in_flight in Hf. by rewrite Hi in Hf.
  - intros wr' l b [= _ Hl] Hb. apply lookup_delete_Some in Hb as [Hne Hb].
    apply H1 in Hl, Hb. simplify_eq.
Qed.

Lemma owned_cancel g wr l :
  owned g → handling g = Cancelling wr l →
  owned (mkGlobals (reqs g) Idle (remote g)
           (match l with Some l => delete l (opened g) | None => opened g end) (given g)).
Proof using Type.
  intros [H1 H2 H3 H4 H5] Hh. destruct l as [l|].
  - split; unfold in_flight; simpl; try done.
    + intros b l' Hl. apply lookup_delete_Some. split; [|by apply H1].
      intros <-. by apply (H4 wr l b Hh).
    + intros l' b Hl. apply lookup_delete_Some in Hl as [Hne Hl]. left.
      destruct (H2 l' b Hl) as [|Hf]; [done|]. unfold in_flight in Hf. rewrite Hh in Hf. by subst.
    + intros l' [b Hl]. apply lookup_delete_Some in Hl as [_ Hl]. apply H5. by eexists.
  - apply owned_idle; [by split|intros l; unfold in_flight; rewrite Hh; by intros []|done].
Qed.

Lemma step_owned k c c' : owned (gl c) → step ρ s k c = Some c' → owned (gl c').
Proof using Type.
  intros Ho. destruct k; simpl.
  - unfold stepMain. destruct (phase c) as [[|ch chans]| | |]; intros H; try by simplify_eq/=.
    + pose proof (proj1 (owned_closed _ Ho)) as Hc. simpl in Hc. by simplify_eq/=.
    + by repeat case_bool_decide; simplify_eq/=.
  - unfold stepGlobal. destruct (handling (gl c)) as [|wr f|wr f|wr l] eqn:Eh; intros H.
    + assert (∀ l, ¬ in_flight (gl c) l) by (intros l; unfold in_flight; rewrite Eh; by intros []).
      destruct (reqs (gl c)) as [|[payload wr|[[host port]|] wr|wr] rest]; [done|..].
      * destruct (perform _ _ _) as [[f|] st]; [destruct (available _ _) eqn:Ea; [|done]|];
          simplify_eq/=; [by apply owned_listen|by apply owned_idle].
      * simplify_eq/=. by apply (owned_remove (gl c) wr).
      * simplify_eq/=. by apply owned_idle.
      * simplify_eq/=. by apply owned_idle.
    + simplify_eq/=. by apply owned_put.
    + simplify_eq/=. apply owned_idle; [done| |done]. intros l. unfold in_flight. rewrite Eh. by intros [].
    + simplify_eq/=. by eapply owned_cancel.
  - unfold stepAccept. intros H. apply bind_Some in H as ([l bind] & _ & H).
    destruct (opened (gl c) !! l); [|by simplify_eq/=].
    apply bind_Some in H as (arr & _ & H). case_bool_decide; [|done].
    by destruct (arr.2); simplify_eq/=.
  - unfold stepTask. intros H. apply bind_Some in H as (t & _ & H).
    apply bind_Some in H as (r & _ & H). by simplify_eq/=.
Qed.

(** An invariant of the steps holds along every schedule. *)
Lemma run_invariant (I : conn → Prop) :
  (∀ k c c', I c → step ρ s k c = Some c' → I c') →
  ∀ sched c c', I c → run ρ s sched c = Some c' → I c'.
Proof using Type.
  intros HI sched. induction sched as [|k sched IH]; intros c c' Hc H; simpl in H;
    [by simplify_eq|].
  apply bind_Some in H as (c1 & H1 & H2). eapply IH; [|done]. by eapply HI.
Qed.

End Owned.

(** ** The account of a session *)

Definition close_reasons : list string := "desconexion_cliente" :: channel_reasons.

Section Account.
Context `{MR : MapRange} {A : Type} (ρ : env Tunnels.t) (s : Server A).

(** What the deferred calls of [handleConnection] log. *)
Definition unregistration (id : string) : list event :=
  if sessionRegistry s then [EvUnregister id] else [].
Definition departure (reason : string) : list event :=
  EvMetric <$> Metrics.ObserveSessionClosed reason.

(** The events since the session was opened, according to the phase. *)
Definition account (id : string) (p : main_phase) (es : list event) : Prop :=
  match p with
  | Serving _ | Unregistering => Forall modest es
  | Observing => ∃ es1 es2, es = es1 ++ unregistration id ++ es2
      ∧ Forall modest es1 ∧ Forall modest es2
  | Closed => ∃ es1 es2 es3 reason,
      es = es1 ++ unregistration id ++ es2 ++ departure reason ++ es3
      ∧ Forall modest es1 ∧ Forall modest es2 ∧ Forall modest es3 ∧ reason ∈ close_reasons
  end.

Lemma account_app id p es es' : account id p es → Forall modest es' → account id p (es ++ es').
Proof using Type.
  intros Ha He. destruct p; simpl in *; [by apply Forall_app..| |].
  - destruct Ha as (es1 & es2 & -> & H1 & H2). exists es1, (es2 ++ es').
    rewrite <-!app_assoc. split_and!; try done. by apply Forall_app.
  - destruct Ha as (es1 & es2 & es3 & reason & -> & H1 & H2 & H3 & Hr).
    exists es1, es2, (es3 ++ es'), reason. rewrite <-!app_assoc. split_and!; try done.
    by apply Forall_app.
Qed.

Definition known_reason (t : task) : Prop :=
  match t with TReason motivo => motivo ∈ channel_reasons | _ => True end.

(** The session is that of [st0], and the log goes on from it. *)
Record accounted (st0 : state Tunnels.t) (c : conn) : Prop := {
  acc_log : ∃ es, log (cst c) = log st0 ++ es ∧ account (Session.ID (sess st0)) (phase c) es;
  acc_owner : same_owner (sess st0) (sess (cst c));
  acc_reason : closeReason c ∈ close_reasons;
  acc_tasks : Forall known_reason (tasks c);
}.

(** A handler keeps the account. *)
Lemma accounted_perform {B} st0 c input (m : io Tunnels.t B) Q :
  accounted st0 c → orderly m Q →
  Q (perform input m (cst c)).1
  ∧ ∀ reason g accs arrs ts, reason ∈ close_reasons → Forall known_reason ts →
    accounted st0 (mkConn (phase c) reason g accs arrs ts (perform input m (cst c)).2).
Proof using Type.
  intros [[es [Hl Ha]] Ho Hr Ht] Hm. unfold perform.
  destruct (Hm (mkState (sh (cst c)) (tick (cst c)) input (sess (cst c)) (log (cst c))))
    as (es' & H1 & H2 & H3 & H4).
  destruct (m _) as [b st']. simpl in *. split; [done|]. intros reason g accs arrs ts Hr' Ht'.
  split; simpl; try done.
  - exists (es ++ es'). rewrite H1, Hl, app_assoc. split; [done|]. by apply account_app.
  - by trans (sess (cst c)).
Qed.

(** A step that runs no handler. *)
Lemma accounted_same st0 c reason g accs arrs ts :
  accounted st0 c → reason ∈ close_reasons → Forall known_reason ts →
  accounted st0 (mkConn (phase c) reason g accs arrs ts (cst c)).
Proof using Type. intros [Hl Ho Hr Ht] Hr' Ht'. by split. Qed.

Lemma accounted_main st0 c c' : accounted st0 c → stepMain s c = Some c' → accounted st0 c'.
Proof using Type.
  intros [[es [Hl Ha]] Ho Hr Ht] H. unfold stepMain in H.
  destruct (phase c) as [[|ch chans]| | |] eqn:Ep; [| | | |done].
  - destruct (CloseAll _) as [closed remote']. simplify_eq/=. split; simpl; try done.
    exists (es ++ (EvCloseListener <$> closed)). rewrite Hl, app_assoc. split; [done|].
    apply Forall_app. split; [done|]. by apply Forall_fmap, Forall_true.
  - repeat case_bool_decide; simplify_eq/=; (split; simpl; try done).
    + by exists es.
    + apply Forall_app. split; [done|]. destruct (acceptOk ch); by repeat constructor.
    + by exists es.
    + apply Forall_app. split; [done|]. by repeat constructor.
    + eexists. rewrite Hl, <-app_assoc. split; [done|]. apply Forall_app. by repeat constructor.
    + by rewrite app_nil_r.
  - unfold perform, mbind, io_bind, getSession in H. simplify_eq/=. destruct Ho as (Hid & Ho).
    split; simpl; rewrite ?app_nil_r; try done.
    + exists (es ++ unregistration (Session.ID (sess st0))). unfold unregistration.
      destruct (sessionRegistry s); simpl; rewrite Hl, ?Hid, ?app_nil_r, ?app_assoc;
        (split; [done|]); exists es, []; rewrite ?app_nil_r; by split_and!.
    + destruct (sessionRegistry s); by split.
  - simplify_eq/=. split; simpl; rewrite ?app_nil_r; try done.
    exists (es ++ departure (closeReason c)). rewrite Hl, app_assoc. split; [done|].
    destruct Ha as (es1 & es2 & -> & H1 & H2). exists es1, es2, [], (closeReason c).
    rewrite <-?app_assoc. by split_and!.
Qed.

Lemma accounted_global st0 listen c c' :
  accounted st0 c → stepGlobal s listen c = Some c' → accounted st0 c'.
Proof using Type.
  intros Hc H. pose proof (acc_reason _ _ Hc) as Hr. pose proof (acc_tasks _ _ Hc) as Ht.
  unfold stepGlobal in H. destruct (handling (gl c)) as [|wr f|wr f|wr l] eqn:Eh.
  - destruct (reqs (gl c)) as [|[payload wr|[[host port]|] wr|wr] rest]; [done|..].
    + pose proof (accounted_perform st0 c [] _ _ Hc
        (forwardListen_orderly s payload wr (λ _, listen))) as Hp.
      destruct (perform _ _ _) as [[f|] st]; [destruct (available _ _); [|done]|];
        simplify_eq/=; by apply Hp.
    + simplify_eq/=. by apply accounted_same.
    + simplify_eq/=. by apply (accounted_perform st0 c [] _ _ Hc (calm_reply wr false None)).
    + simplify_eq/=. by apply (accounted_perform st0 c [] _ _ Hc (calm_reply wr false None)).
  - simplify_eq/=. by apply accounted_same.
  - simplify_eq/=. unfold forwardReply.
    by apply (accounted_perform st0 c [] _ _ Hc (calm_reply wr true _)).
  - assert (Hm : calm (_ ← (match l with Some l => emit (EvCloseListener l) | None => mret () end);
      reply wr true None)) by (destruct l; repeat calm_step).
    simplify_eq/=. by apply (accounted_perform st0 c [] _ _ Hc Hm).
Qed.

Lemma known_delete i ts ts' :
  Forall known_reason ts → Forall known_reason ts' → Forall known_reason (delete i ts ++ ts').
Proof using Type.
  intros H1 H2. apply Forall_app. split; [|done]. rewrite delete_take_drop.
  apply Forall_app. split; [by apply Forall_take|by apply Forall_drop].
Qed.

Lemma known_copying resource copies o : Forall known_reason (copying resource copies o).
Proof using Type. destruct o; by repeat constructor. Qed.

(** What a goroutine goes on with is known, and its step keeps the account. *)
Lemma resume_accounted st0 c t r :
  accounted st0 c → resume ρ s c t = Some r →
  Forall known_reason r.1
  ∧ ∀ reason g accs arrs ts, reason ∈ close_reasons → Forall known_reason ts →
    accounted st0 (mkConn (phase c) reason g accs arrs ts r.2).
Proof using Type.
  intros Hc. pose proof (λ {B} (m : io Tunnels.t B) inp Q (Hm : orderly m Q),
    accounted_perform st0 c inp m Q Hc Hm) as Hp.
  assert (Hsame : ∀ reason g accs arrs ts, reason ∈ close_reasons → Forall known_reason ts →
    accounted st0 (mkConn (phase c) reason g accs arrs ts (cst c))) by (intros; by apply accounted_same).
  assert (Hk : ∀ motivo, motivo ∈ channel_reasons → Forall known_reason [TReason motivo])
    by (intros; by apply Forall_singleton).
  destruct t as [[|req reqs] lines closes|lines closes|lines closes|motivo|ch
    |bind addr ok res e|tun res e]; cbn [resume].
  - destruct (closes || departed c); [|done]. intros [= <-]. split; [|done]. apply Hk. set_solver.
  - pose proof (Hp _ _ [] _ (handleRequest_orderly ρ s req)) as H.
    destruct (perform [] (handleRequest ρ s req) (cst c)) as [a st]. destruct H as [Ha Hst]. intros [= <-].
    destruct a as [| |motivo]; cbn [fst snd] in *; [by split; [repeat constructor|]| |by split; [apply Hk|]].
    split; [by repeat constructor|]. intros reason g accs arrs ts Hr Ht.
    exact (proj2 (accounted_perform st0 (mkConn (phase c) reason g accs arrs ts st) []
      (shellBanner ρ s) _ (Hst reason g accs arrs ts Hr Ht) (calm_shellBanner ρ s))
      reason g accs arrs ts Hr Ht).
  - pose proof (Hp _ _ [] _ (calm_write ρ "> ")) as H.
    destruct (perform _ _ _) as [ok st]. destruct H as [_ H]. intros [= <-]. split; [|done].
    destruct ok; [by repeat constructor|]. apply Hk. set_solver.
  - destruct (_ || departed c); [|done].
    pose proof (Hp _ _ lines _ (calm_shellLine ρ s)) as H.
    destruct (perform _ _ _) as [more st]. destruct H as [_ H]. intros [= <-]. split; [|done].
    destruct more; [by repeat constructor|]. apply Hk. set_solver.
  - intros [= <-]. by split.
  - pose proof (Hp _ _ [] _ (calm_openDirect ρ s (extraData ch) (dialOk ch) (acceptOk ch)
      (resource ch))) as H.
    destruct (perform _ _ _) as [o st]. destruct H as [_ H]. intros [= <-].
    split; [apply known_copying|done].
  - pose proof (Hp _ _ [] _ (calm_openIncoming ρ bind addr ok res)) as H.
    destruct (perform _ _ _) as [o st]. destruct H as [_ H]. intros [= <-].
    split; [apply known_copying|done].
  - destruct (copies_over c e); [|done]. intros [= <-]. split; [done|].
    exact (proj2 (Hp _ _ [] _ (calm_endTunnel ρ res tun))).
Qed.

Lemma accounted_task st0 i c c' :
  accounted st0 c → stepTask ρ s i c = Some c' → accounted st0 c'.
Proof using Type.
  intros Hc H. pose proof (acc_reason _ _ Hc) as Hr. pose proof (acc_tasks _ _ Hc) as Ht.
  unfold stepTask in H. apply bind_Some in H as (t & Hi & H). apply bind_Some in H as (r & Hs & H).
  destruct (resume_accounted st0 c t r Hc Hs) as [Hk Ha]. simplify_eq/=.
  apply Ha; [|by apply known_delete].
  rewrite Forall_lookup in Ht. specialize (Ht _ _ Hi).
  destruct t; simpl in *; try done. unfold close_reasons. set_solver.
Qed.

Lemma step_accounted st0 k c c' : accounted st0 c → step ρ s k c = Some c' → accounted st0 c'.
Proof using Type.
  intros Hc. destruct k as [|listen|i j|i]; simpl;
    [by apply accounted_main|by apply accounted_global| |by apply accounted_task].
  pose proof (acc_reason _ _ Hc). pose proof (acc_tasks _ _ Hc).
  unfold stepAccept. intros H1. apply bind_Some in H1 as ([l bind] & _ & H1).
  destruct (opened (gl c) !! l).
  - apply bind_Some in H1 as (arr & _ & H1). case_bool_decide; [|done].
    destruct (arr.2); simplify_eq/=; (apply accounted_same; [done..|]);
      apply Forall_app; by repeat constructor.
  - simplify_eq/=. apply accounted_same; [done..|]. by rewrite app_nil_r.
Qed.

Lemma start_accounted chans reqs arrs st : accounted st (start chans reqs arrs st).
Proof using Type.
  split; simpl; [|done|by left|done]. exists []. by rewrite app_nil_r.
Qed.

End Account.

(** ** Alone, the goroutines are the sequential handlers *)

Section Sequential.
Context `{MR : MapRange} {A : Type} (ρ : env Tunnels.t) (s : Server A).

(** The deferred calls, if nothing runs between them, are [closeSession]. *)
Lemma main_closes c :
  phase c = Serving [] →
  ∃ c', run ρ s [Main; Main; Main] c = Some c' ∧ phase c' = Closed
    ∧ (remote (gl c'), cst c')
      = perform [] (closeSession s (remote (gl c)) (closeReason c)) (cst c).
Proof using Type.
  intros Hp. unfold run. simpl step. unfold stepMain at 3. rewrite Hp.
  cbn [CloseAll]. eexists. split; [reflexivity|]. split; [done|]. simpl.
  unfold perform, closeSession, CloseAll, mbind, io_bind, mret, io_ret, emits, metrics, getSession.
  destruct (sessionRegistry s); by simpl.
Qed.

Lemma forwardListen_input payload wr listen : keeps_input (forwardListen s payload wr listen).
Proof using Type.
  unfold forwardListen, reply.
  repeat first [by eauto with conn|apply keeps_input_bind; [|intros ?]|progress case_match].
Qed.

(** A request to listen, answered without interruption, is
    [handleTCPIPForwardRequest]. *)
Lemma global_forwards c payload wr rest listen :
  handling (gl c) = Idle → reqs (gl c) = TCPIPForward payload wr :: rest →
  (∀ f, available (gl c) f = true) →
  let '(r, st) := perform [] (handleTCPIPForwardRequest s payload wr (λ _, listen)
                                (remote (gl c))) (cst c) in
  ∃ n c', run ρ s (replicate n (Global listen)) c = Some c'
    ∧ remote (gl c') = r.1 ∧ cst c' = st ∧ reqs (gl c') = rest ∧ handling (gl c') = Idle
    ∧ acceptors c' = acceptors c ++ option_list r.2.
Proof using Type.
  intros Hh Hr Ha. unfold perform, handleTCPIPForwardRequest, mbind, io_bind.
  set (st0 := mkState _ _ _ _ _).
  destruct (forwardListen s payload wr (λ _, listen) st0) as [[f|] st] eqn:El.
  - destruct (forwardReply wr f st) as [[] st'] eqn:Er. exists 3. simpl. unfold stepGlobal at 3.
    rewrite Hh, Hr. unfold perform at 1. fold st0. rewrite El, Ha. simpl. eexists.
    split; [reflexivity|]. split_and!; try done; [|by rewrite !app_nil_r].
    simpl. unfold perform. assert (Hi : input st = []).
    { pose proof (forwardListen_input payload wr (λ _, listen) st0) as Hk. by rewrite El in Hk. }
    destruct st. simpl in *. subst. by rewrite Er.
  - exists 1. simpl. unfold stepGlobal. rewrite Hh, Hr. unfold perform. fold st0. rewrite El.
    simpl. eexists. split; [reflexivity|]. by rewrite app_nil_r.
Qed.

End Sequential.

(** ** The theorems *)

(** Where the tunnels of a connection come from. *)
Definition task_ends (t : task) : Prop :=
  match t with
  | TDirect ch => copies ch ≠ Never
  | TIncoming _ _ _ _ e | TCopying _ _ e => e ≠ Never
  | _ => True
  end.

Definition arrival_ends (a : nat * accepted) : Prop :=
  match a.2 with Incoming _ _ _ e => e ≠ Never | AcceptError => True end.

Record all_end (c : conn) : Prop := {
  end_channels chans : phase c = Serving chans → Forall (λ ch, copies ch ≠ Never) chans;
  end_arrivals : Forall arrival_ends (arrivals c);
  end_tasks : Forall task_ends (tasks c);
}.

Section Ends.
Context `{MR : MapRange} {A : Type} (ρ : env Tunnels.t) (s : Server A).

Lemma Forall_delete_list {T} (P : T → Prop) i l : Forall P l → Forall P (delete i l).
Proof using Type.
  intros H. rewrite delete_take_drop. apply Forall_app.
  split; [by apply Forall_take|by apply Forall_drop].
Qed.

Lemma resume_ends c t r : task_ends t → resume ρ s c t = Some r → Forall task_ends r.1.
Proof using Type.
  intros Ht. destruct t as [[|req reqs] lines closes|lines closes|lines closes|motivo|ch
    |bind addr ok res e|tun res e]; cbn [resume].
  - destruct (_ || _); [|done]. intros [= <-]. by repeat constructor.
  - destruct (perform _ _ _) as [[] st]; intros [= <-]; by repeat constructor.
  - destruct (perform _ _ _) as [[] st]; intros [= <-]; by repeat constructor.
  - destruct (_ || _); [|done].
    destruct (perform _ _ _) as [[] st]; intros [= <-]; by repeat constructor.
  - intros [= <-]. constructor.
  - destruct (perform _ _ _) as [[tun|] st]; intros [= <-]; by repeat constructor.
  - destruct (perform _ _ _) as [[tun|] st]; intros [= <-]; by repeat constructor.
  - destruct (copies_over c e); [|done]. intros [= <-]. constructor.
Qed.

Lemma step_all_end k c c' : all_end c → step ρ s k c = Some c' → all_end c'.
Proof using Type.
  intros [Hc Ha Ht] H. destruct k as [|listen|i j|i]; simpl in H.
  - unfold stepMain in H. destruct (phase c) as [[|ch chans]| | |] eqn:Ep; [| | | |done].
    + simplify_eq/=. by split.
    + specialize (Hc _ eq_refl). apply Forall_cons in Hc as [Hch Hc].
      repeat case_bool_decide; simplify_eq/=; (split; simpl; [by intros ? [= <-]|done|]);
        apply Forall_app; (split; [done|]); [destruct (acceptOk ch)|..]; by repeat constructor.
    + simplify_eq/=. split; simpl; rewrite ?app_nil_r; done.
    + simplify_eq/=. split; simpl; rewrite ?app_nil_r; done.
  - unfold stepGlobal in H. destruct (handling (gl c)); [|by simplify_eq/=; split..].
    destruct (reqs (gl c)) as [|[payload wr|[[host port]|] wr|wr] rest]; [done|..];
      [|by simplify_eq/=; split..].
    destruct (perform _ _ _) as [[f|] st]; [destruct (available _ _); [|done]|];
      by simplify_eq/=; split.
  - unfold stepAccept in H. apply bind_Some in H as ([l bind] & _ & H).
    destruct (opened (gl c) !! l).
    2: { simplify_eq/=. split; simpl; rewrite ?app_nil_r; done. }
    apply bind_Some in H as (arr & Hj & H). case_bool_decide; [|done].
    assert (arrival_ends arr) as Hx by (by eapply (Forall_lookup_1 _ _ _ _ Ha)).
    unfold arrival_ends in Hx. destruct (arr.2) as [|addr ok res e]; simplify_eq/=;
      (split; simpl; [done|by apply Forall_delete_list|]); rewrite ?app_nil_r; try done.
    apply Forall_app. split; [done|]. by repeat constructor.
  - unfold stepTask in H. apply bind_Some in H as (t & Hi & H).
    apply bind_Some in H as (r & Hr & H). simplify_eq/=. split; simpl; [done..|].
    apply Forall_app. split; [by apply Forall_delete_list|]. eapply resume_ends; [|exact Hr].
    by eapply (Forall_lookup_1 _ _ _ _ Ht).
Qed.

End Ends.

(** The work of a connection: what its channels, requests and arrivals can cost. *)
Definition work (chans : list newChannel) (requests : list global_request)
    (arrs : list (nat * accepted)) : nat :=
  sum_list (channel_weight <$> chans) + 4 * length requests + 3 * length arrs + 3.


(** A student runs a command, opens an unknown channel and leaves; a teacher asks for a
    port and leaves. *)
Definition demo_channels : list newChannel :=
  [mkChannel "session" true [PtyReq; Exec (Some "whoami")] [] false None true 1 AnyTime;
   mkChannel "x11" true [] [] false None true 2 AnyTime].
Definition demo_requests : list global_request :=
  [TCPIPForward (Some ("127.0.0.1", 0%Z)) true].
Definition demo_schedule : list choice :=
  [Main; Global (Listening 7 9001); Global ListenError; Task 0; Main; Global ListenError; Main;
   Task 0; Accept 0 0; Task 0; Main; Main].

Definition demo_start (chans : list newChannel) : conn :=
  start chans demo_requests [] (demo_state "teacher" "teacher").

(** What is seen of a connection. *)
Definition summary (c : conn) :=
  (phase c, closeReason c, listeners (remote (gl c)), opened (gl c), acceptors c, tasks c).

Lemma demo_run :
  summary <$> run TCPServer.demo_env demo_ssh demo_schedule (demo_start demo_channels)
  = Some (Closed, "exec_completado", ∅, ∅, [], []).
Proof. vm_compute. reflexivity. Qed.


Section Listeners.
Context `{MR : MapRange} {A : Type} (ρ : env Tunnels.t) (s : Server A).

(** After [CloseAll], with no request to listen left. *)
Definition no_more_listeners (c : conn) : Prop :=
  owned (gl c) ∧ phase c ≠ Serving [] ∧ (∀ ch chans, phase c ≠ Serving (ch :: chans))
  ∧ reqs (gl c) = [] ∧ listeners (remote (gl c)) = ∅
  ∧ (∀ wr f, handling (gl c) ≠ Listened wr f).

Lemma no_more_listeners_step k c c' :
  no_more_listeners c → step ρ s k c = Some c' → no_more_listeners c'.
Proof using Type.
  intros (Ho & Hp & Hp' & Hr & Hl & Hh) H. split; [by eapply step_owned|].
  destruct k as [|listen|i j|i]; simpl in H.
  - unfold stepMain in H. destruct (phase c) as [[|ch chans]| | |] eqn:Ep; try done;
      [by destruct (Hp' ch chans)|simplify_eq/=; by split_and!..].
  - unfold stepGlobal in H. rewrite Hr in H. destruct (handling (gl c)) eqn:Eh; [done| | |];
      [by destruct (Hh wantReply f)|simplify_eq/=; by split_and!..].
  - unfold stepAccept in H. apply bind_Some in H as ([l bind] & _ & H).
    destruct (opened (gl c) !! l); [|simplify_eq/=; by split_and!].
    apply bind_Some in H as (arr & _ & H). case_bool_decide; [|done].
    destruct (arr.2); simplify_eq/=; by split_and!.
  - unfold stepTask in H. apply bind_Some in H as (t & _ & H).
    apply bind_Some in H as (r & _ & H). simplify_eq/=. by split_and!.
Qed.

Lemma no_more_listeners_settled c :
  no_more_listeners c → settled c → opened (gl c) = ∅ ∧ acceptors c = [].
Proof using Type.
  intros (Ho & _ & _ & _ & Hl & _) (_ & _ & Hh & _ & Ha).
  assert (He : opened (gl c) = ∅).
  { apply map_empty. intros l. apply eq_None_not_Some. intros [b Hb].
    destruct (owned_held _ Ho l b Hb) as [Hx|Hx].
    - by rewrite Hl, lookup_empty in Hx.
    - unfold in_flight in Hx. by rewrite Hh in Hx. }
  split; [done|]. destruct (acceptors c) as [|[l bind] accs]; [done|].
  destruct (Ha l bind) as [[b Hb] _]; [by left|]. by rewrite He, lookup_empty in Hb.
Qed.

End Listeners.

(** C10: the listeners of a client.  At every moment of every schedule the registry of a
    connection holds open listeners under their addresses, and a listener is open only
    if it is registered or in the hands of the goroutine that answers the requests.  When
    the connection ends its clean-up closes every listener but that one; and if no
    request to listen was pending at that moment, then at the end of every schedule no
    listener is open and no accept loop is left. *)
Theorem ssh_listeners_closed `{MR : MapRange} {A : Type} (ρ : env Tunnels.t)
    (s : Server A) (chans : list newChannel) (requests : list global_request)
    (arrs : list (nat * accepted)) (st : state Tunnels.t) (sched : list choice) (c : conn) :
  run ρ s sched (start chans requests arrs st) = Some c →
  (∀ b l, listeners (remote (gl c)) !! b = Some l → opened (gl c) !! l = Some b)
  ∧ (∀ l b, opened (gl c) !! l = Some b →
       listeners (remote (gl c)) !! b = Some l ∨ in_flight (gl c) l)
  ∧ ∀ c1, phase c = Serving [] → stepMain s c = Some c1 →
      (∀ l b, opened (gl c1) !! l = Some b → in_flight (gl c1) l)
      ∧ (reqs (gl c1) = [] → (∀ wr f, handling (gl c1) ≠ Listened wr f) →
         ∀ sched' c2, run ρ s sched' c1 = Some c2 → settled c2 →
           opened (gl c2) = ∅ ∧ acceptors c2 = []).
Proof.
  intros H. assert (Ho : owned (gl c)).
  { refine (run_invariant ρ s (λ c, owned (gl c)) (step_owned ρ s) sched _ _ _ H).
    apply owned_start. }
  split; [apply (owned_open _ Ho)|]. split; [apply (owned_held _ Ho)|].
  intros c1 Hp Hm. pose proof (step_owned ρ s Main c c1 Ho Hm) as Ho1.
  destruct (owned_closed _ Ho) as [_ Hf]. unfold stepMain in Hm. rewrite Hp in Hm.
  simpl in Hf. simplify_eq/=. split; [exact Hf|]. intros Hr Hh sched' c2 Hrun Hfin.
  refine (no_more_listeners_settled c2 _ Hfin).
  refine (run_invariant ρ s no_more_listeners (no_more_listeners_step ρ s) sched' _ _ _ Hrun).
  by split_and!.
Qed.

Lemma demo_before :
  summary <$> run TCPServer.demo_env demo_ssh
                [Global (Listening 7 9001); Global ListenError; Global ListenError] (demo_start [])
  = Some (Serving [], "desconexion_cliente", {["127.0.0.1:9001" := 7]}, {[7 := "127.0.0.1:9001"]},
          [(7, "127.0.0.1:9001")], []).
Proof. vm_compute. reflexivity. Qed.

Lemma ssh_listeners_closed_witness :
  ∃ c, run TCPServer.demo_env demo_ssh
         [Global (Listening 7 9001); Global ListenError; Global ListenError] (demo_start []) = Some c
    ∧ opened (gl c) !! 7 = Some "127.0.0.1:9001".
Proof.
  destruct (proj1 (fmap_Some _ _ _) demo_before) as (c & Hc & Hs). exists c. split; [exact Hc|].
  apply (proj1 (ssh_listeners_closed TCPServer.demo_env demo_ssh [] demo_requests []
    (demo_state "teacher" "teacher") _ c Hc)).
  injection Hs as _ _ Hr _ _ _. rewrite <-Hr. reflexivity.
Defined.

Definition late_schedule : list choice :=
  [Main; Main; Main; Global (Listening 7 9001); Global ListenError; Global ListenError].

Lemma late_run :
  (λ c, (summary c, reqs (gl c), handling (gl c), arrivals c))
    <$> run TCPServer.demo_env demo_ssh late_schedule (demo_start [])
  = Some (Closed, "desconexion_cliente", {["127.0.0.1:9001" := 7]}, {[7 := "127.0.0.1:9001"]},
          [(7, "127.0.0.1:9001")], [], [], Idle, []).
Proof. vm_compute. reflexivity. Qed.

(** A request that was pending when the connection ended: its listener is registered
    after the clean-up and stays open. *)
Lemma ssh_listener_leak :
  ∃ c, run TCPServer.demo_env demo_ssh late_schedule (demo_start []) = Some c
    ∧ settled c ∧ opened (gl c) = {[7 := "127.0.0.1:9001"]}.
Proof.
  destruct (proj1 (fmap_Some _ _ _) late_run) as (c & Hc & Hs). exists c. split; [exact Hc|].
  clear Hc. injection Hs as Hp Hcr Hre Ho Hacc Ht Hq Hh Harr. split; [|by symmetry].
  split; [by symmetry|]. split; [by symmetry|]. split; [by symmetry|].
  split; [by rewrite <-Ht|].
  rewrite <-Hacc, <-Ho, <-Harr. intros l bind Hin. apply list_elem_of_singleton in Hin.
  simplify_eq. split; [by eexists|]. intros a. apply not_elem_of_nil.
Qed.

(** A student forwards a port to a peer that stays idle, and leaves. *)
Definition idle_channel : newChannel :=
  mkChannel "direct-tcpip" true [] [] false (Some (mkDirect "127.0.0.1" 9000 "127.0.0.1" 5000))
    true 3 Never.
Definition idle_start : conn := start [idle_channel] [] [] (demo_state "student" "student").

(** The identifiers of the tunnels of a user. *)
Definition live_tunnels (user : string) (c : conn) : option (list string) :=
  (λ m, Tunnels.ID <$> Tunnels.SnapshotByUsername m user)
    <$> Commands.Forwarding (cmdState (sh (cst c))).

Lemma idle_run :
  (λ c, (phase c, forallb stranded (tasks c), length (tasks c), reqs (gl c), handling (gl c),
         acceptors c, live_tunnels "student" c))
    <$> run TCPServer.demo_env demo_ssh [Main; Task 0; Main; Main; Main] idle_start
  = Some (Closed, true, 1, [], Idle, [], Some ["tun-000003"; "tun-000001"]).
Proof. vm_compute. reflexivity. Qed.

(** The session is closed, and the goroutine of the tunnel and its entry in the manager
    stay: nothing can go on. *)
Lemma idle_tunnel_stays :
  ∃ c, run TCPServer.demo_env demo_ssh [Main; Task 0; Main; Main; Main] idle_start = Some c
    ∧ settled c ∧ length (tasks c) = 1
    ∧ live_tunnels "student" c = Some ["tun-000003"; "tun-000001"].
Proof.
  destruct (proj1 (fmap_Some _ _ _) idle_run) as (c & Hc & Hs). exists c. split; [exact Hc|].
  clear Hc. injection Hs as Hp Hst Hlen Hq Hh Hacc Hl. split; [|by split].
  split; [by symmetry|]. split; [by symmetry|]. split; [by symmetry|]. split.
  - apply Forall_forall. intros t Hin. symmetry in Hst. rewrite forallb_forall in Hst.
    apply list_elem_of_In, Hst in Hin. destruct t as [| | | | | |tun res []]; try done. by eauto.
  - rewrite <-Hacc. intros l bind Hin. by apply not_elem_of_nil in Hin.
Qed.

(** What [openSession] logs. *)
Definition registration {A} (s : Server A) (sess : Session.t) : list event :=
  if sessionRegistry s then [EvRegister sess] else [].

Lemma openSession_log `{MR : MapRange} {A : Type} `{AU : !Auth.Authenticator A}
    (ρ : env Tunnels.t) (s : Server A) readFile parseKey addr newServerConn sh0 ins s0 st :
  openSession ρ s readFile parseKey addr newServerConn (mkState sh0 0 ins s0 []) = (true, st) →
  ∃ pre, Forall modest pre
    ∧ log st = pre ++ (EvMetric <$> Metrics.ObserveSessionOpened) ++ registration s (sess st)
    ∧ Session.ID (sess st) = Session.ID s0.
Proof.
  unfold openSession, mbind at 1, io_bind at 1.
  pose proof (handshake_before ρ s readFile parseKey s0 addr (newServerConn (serverConfig s))
    (mkState sh0 0 ins s0 [])) as H.
  destruct (runHandshake ρ s readFile parseKey addr _ _) as [h st1].
  destruct H as [Hs Hf]; [by split|]. cbn [fst snd] in Hs, Hf.
  destruct h as [[user p]|]; [|done]. unfold registration. intros E. exists (log st1).
  split; [apply (Forall_impl _ _ _ Hf); by intros []|].
  unfold mbind, io_bind, mret, io_ret in E. destruct (sessionRegistry s); simpl in E;
    injection E as <-; simpl; rewrite <-?app_assoc, Hs; done.
Qed.

(** C11: the account of an SSH session.  Whatever the schedule of the goroutines, the
    session of a connection keeps the name and role it was opened with, and the reason
    of its end is one the handlers give.  When the connection is closed its log is: the
    authentication, the count and the registration of the session, then exactly one
    removal of that session from the registry and exactly one count of its end with that
    reason; nothing else in between, before or after registers, removes or counts a
    session. *)
Theorem ssh_session_accounted `{MR : MapRange} {A : Type} `{AU : !Auth.Authenticator A}
    (ρ : env Tunnels.t) (s : Server A) (readFile : string → AuthorizedKeys.file)
    (parseKey : string → result string (string * string)) (addr : string)
    (newServerConn : ServerConfig → handshake) (sh0 : shared Tunnels.t)
    (ins : list read_event) (s0 : Session.t)
    (st : state Tunnels.t) (chans : list newChannel) (requests : list global_request)
    (arrs : list (nat * accepted)) (sched : list choice) (c : conn) :
  openSession ρ s readFile parseKey addr newServerConn (mkState sh0 0 ins s0 []) = (true, st) →
  run ρ s sched (start chans requests arrs st) = Some c →
  same_owner (sess st) (sess (cst c)) ∧ closeReason c ∈ close_reasons
  ∧ (phase c = Closed → ∃ pre es1 es2 es3 reason,
       log (cst c) = pre ++ (EvMetric <$> Metrics.ObserveSessionOpened) ++ registration s (sess st)
                     ++ es1 ++ unregistration s (Session.ID s0) ++ es2 ++ departure reason ++ es3
       ∧ Forall TCPServer.inner (pre ++ es1 ++ es2 ++ es3) ∧ reason ∈ close_reasons).
Proof.
  intros Hopen Hrun. apply openSession_log in Hopen as (pre & Hpre & Hlog & Hid).
  pose proof (run_invariant ρ s (accounted s st) (step_accounted ρ s st) sched _ _
    (start_accounted s chans requests arrs st) Hrun) as [(es & Hl & Ha) Ho Hr _].
  split; [done|]. split; [done|]. intros Hp. rewrite Hp in Ha.
  destruct Ha as (es1 & es2 & es3 & reason & -> & H1 & H2 & H3 & H4).
  exists pre, es1, es2, es3, reason. rewrite Hl, Hlog, Hid, <-!app_assoc.
  split; [done|]. split; [|done]. by repeat (apply Forall_app; split).
Qed.

Definition demo_open :=
  openSession TCPServer.demo_env demo_ssh (λ _, AuthorizedKeys.NotExist) (λ _, Err "x")
    "10.0.0.9:4000"
    (in_order [TryPassword "student" "wrong"; TryPassword "student" "secreto"])
    (mkState TCPServer.demo_shared 0 [] (Commands.demo_session "" "") []).

Lemma demo_opens : demo_open.1 = true.
Proof. vm_compute. reflexivity. Qed.

Lemma demo_account :
  summary <$> run TCPServer.demo_env demo_ssh [Main; Task 0; Task 0; Task 0; Main; Main; Main; Main]
                (start demo_channels [] [] demo_open.2)
  = Some (Closed, "exec_completado", ∅, ∅, [], []).
Proof. vm_compute. reflexivity. Qed.

Lemma ssh_session_accounted_witness :
  ∃ c, closeReason c ∈ close_reasons ∧ phase c = Closed
    ∧ run TCPServer.demo_env demo_ssh [Main; Task 0; Task 0; Task 0; Main; Main; Main; Main]
        (start demo_channels [] [] demo_open.2) = Some c.
Proof.
  destruct (proj1 (fmap_Some _ _ _) demo_account) as (c & Hc & Hs). exists c. split_and!.
  - refine (proj1 (proj2 (ssh_session_accounted TCPServer.demo_env demo_ssh _ _ _ _ _ _ _
      demo_open.2 _ _ _ _ c _ Hc))). rewrite <-demo_opens. apply surjective_pairing.
  - injection Hs as Hp _ _ _ _ _. exact (eq_sym Hp).
  - exact Hc.
Defined.

End SSHConnection.
