(* ===== verification/Persistence.v ===== *)
(** * Snapshots on disk ([internal/persistence/jsonstore.go])

    A save writes a temporary file and renames it over the snapshot.  The file system
    has names, inodes and contents, so that a file that is renamed while a writer still
    has it open is the same file.  A save is a thread of system calls, each of which
    can fail or, for a write, be partial; a crash is a thread that stops at any point,
    and saves made at the same time are threads that take turns.  The decoding of JSON
    is an input. *)

From S2P Require Import Prelude GoStrings GoTime JSON Session Tunnels PathGuard.

Module Persistence.

(** ** Data *)

Record SnapshotFile (T : Type) := mkFile {
  Version : string;
  Kind : string;
  Generated : Time;
  Items : list T;
}.
Arguments mkFile {T}.
Arguments Version {T}.
Arguments Kind {T}.
Arguments Generated {T}.
Arguments Items {T}.

Record Options := mkOptions { OEnabled : bool; OSessionsPath : string; OTunnelsPath : string }.

(** [Store]; the clock is an argument of the operations. *)
Record Store := mkStore { enabled : bool; sessionsPath : string; tunnelsPath : string }.

Definition NewStore (opts : Options) : Store :=
  mkStore (OEnabled opts) (OSessionsPath opts) (OTunnelsPath opts).

(** A nil store is [None]. *)
Definition Enabled (s : option Store) : bool :=
  match s with Some s => enabled s | None => false end.
Definition SessionsPath (s : option Store) : string :=
  match s with Some s => sessionsPath s | None => "" end.
Definition TunnelsPath (s : option Store) : string :=
  match s with Some s => tunnelsPath s | None => "" end.

(** The fields of the snapshots under their JSON names. *)
Definition session_json (s : Session.Snapshot) : json :=
  JObj [("id", JString (Session.SnapID s)); ("remote_addr", JString (Session.SnapRemoteAddr s));
        ("transport", JString (Session.SnapTransport s)); ("authn", JString (Session.SnapAuthn s));
        ("connected_at", JTime (Session.SnapConnectedAt s));
        ("authenticated_at", JTime (Session.SnapAuthenticatedAt s));
        ("username", JString (Session.SnapUsername s)); ("role", JString (Session.SnapRole s));
        ("command_count", JInt (Session.SnapCommandCount s))].

Definition tunnel_json (t : Tunnels.Tunnel) : json :=
  JObj [("id", JString (Tunnels.ID t)); ("session_id", JString (Tunnels.SessionID t));
        ("username", JString (Tunnels.Username t)); ("direction", JString (Tunnels.Direction t));
        ("target", JString (Tunnels.Target t)); ("bind", JString (Tunnels.Bind t));
        ("origin", JString (Tunnels.Origin t)); ("started_at", JTime (Tunnels.StartedAt t))].

Definition file_json {T} (item : T → json) (f : SnapshotFile T) : json :=
  JObj [("version", JString (Version f)); ("kind", JString (Kind f));
        ("generated_at", JTime (Generated f)); ("items", JArr (item <$> Items f))].

(** ** The file system *)

Record fs := mkFs { names : gmap string nat; contents : gmap nat string; fresh_inode : nat }.

Definition read (σ : fs) (path : string) : option string :=
  names σ !! path ≫= λ i, contents σ !! i.

(** Opening for writing: an existing file is truncated, a missing one created. *)
Definition open_trunc (path : string) (σ : fs) : nat * fs :=
  match names σ !! path with
  | Some i => (i, mkFs (names σ) (<[i := ""]> (contents σ)) (fresh_inode σ))
  | None =>
     let i := fresh_inode σ in
     (i, mkFs (<[path := i]> (names σ)) (<[i := ""]> (contents σ)) (S i))
  end.

Fixpoint str_drop (n : nat) (s : string) : string :=
  match n, s with O, _ => s | S n, String _ s => str_drop n s | S _, "" => "" end.
Fixpoint nulls (n : nat) : string :=
  match n with O => "" | S n => String (byte_of 0) (nulls n) end.

(** The bytes of a chunk at an offset; a gap before it reads as null bytes. *)
Definition overwrite (old : string) (off : nat) (chunk : string) : string :=
  str_take off old +:+ nulls (off - String.length old) +:+ chunk
  +:+ str_drop (off + String.length chunk) old.

Definition write_at (i off : nat) (chunk : string) (σ : fs) : fs :=
  mkFs (names σ) (alter (λ old, overwrite old off chunk) i (contents σ)) (fresh_inode σ).

(** Renaming replaces the target; it fails if the source has no file. *)
Definition rename (a b : string) (σ : fs) : option fs :=
  match names σ !! a with
  | Some i => Some (mkFs (<[b := i]> (delete a (names σ))) (contents σ) (fresh_inode σ))
  | None => None
  end.

(** No inode has two names, and every name has a file. *)
Record fs_wf (σ : fs) : Prop := {
  wf_inj p q i : names σ !! p = Some i → names σ !! q = Some i → p = q;
  wf_file p i : names σ !! p = Some i → is_Some (contents σ !! i);
  wf_fresh p i : names σ !! p = Some i → (i < fresh_inode σ)%nat;
}.

(** ** A save *)

(** Where a save is: the bytes to write, the open file and how much is written. *)
Inductive phase :=
| Mkdir
| Opening (bytes : string)
| Writing (i : nat) (bytes : string) (off : nat)
| Renaming
| Done (err : option string).

(** The outcome of a system call; a write takes [S n] bytes, or what is left. *)
Inductive outcome := Good (n : nat) | Bad (err : string).

Definition newline : string := String (byte_of 10) "".

(** The next system call of [writeSnapshot], from [os.MkdirAll] on. *)
Definition step (safePath : string) (snapshot : json) (o : outcome) (ph : phase) (σ : fs)
    : phase * fs :=
  let tmp := safePath +:+ ".tmp" in
  match ph, o with
  | Done err, _ => (Done err, σ)
  | _, Bad err => (Done (Some err), σ)
  | Mkdir, Good _ =>
     match MarshalIndent snapshot with
     | Err err => (Done (Some err), σ)
     | Ok data => (Opening (data +:+ newline), σ)
     end
  | Opening bytes, Good _ => let '(i, σ') := open_trunc tmp σ in (Writing i bytes 0, σ')
  | Writing i bytes off, Good n =>
     let chunk := str_take (S n) (str_drop off bytes) in
     let off' := (off + String.length chunk)%nat in
     (if (String.length bytes <=? off')%nat then Renaming else Writing i bytes off',
      write_at i off chunk σ)
  | Renaming, Good _ =>
     match rename tmp safePath σ with
     | Some σ' => (Done None, σ')
     | None => (Done (Some "no such file or directory"), σ)
     end
  end.

Fixpoint run (safePath : string) (snapshot : json) (os : list outcome) (ph : phase) (σ : fs)
    : phase * fs :=
  match os with
  | [] => (ph, σ)
  | o :: os => let '(ph', σ') := step safePath snapshot o ph σ in
               run safePath snapshot os ph' σ'
  end.

Section Save.
Context (wd : result string string).

(** [writeSnapshot]: the checks on the name, then the system calls. *)
Definition writeSnapshot (path : string) (snapshot : json) (os : list outcome) (σ : fs)
    : phase * fs :=
  if bool_decide (path = "") then (Done (Some "ruta de persistencia vacía"), σ)
  else match PathGuard.ValidateFilesystemPath wd path "snapshot de persistencia" with
  | Err err => (Done (Some err), σ)
  | Ok safePath => run safePath snapshot os Mkdir σ
  end.

(** [SaveSessions] and [SaveTunnels] *)
Definition SaveSessions (s : option Store) (now : Time) (items : list Session.Snapshot)
    (os : list outcome) (σ : fs) : phase * fs :=
  if negb (Enabled s) then (Done None, σ)
  else writeSnapshot (SessionsPath s)
         (file_json session_json (mkFile "2.4.1" "sessions" now items)) os σ.

Definition SaveTunnels (s : option Store) (now : Time) (items : list Tunnels.Tunnel)
    (os : list outcome) (σ : fs) : phase * fs :=
  if negb (Enabled s) then (Done None, σ)
  else writeSnapshot (TunnelsPath s)
         (file_json tunnel_json (mkFile "2.4.1" "tunnels" now items)) os σ.

(** The errors of a load: a missing file is told apart from the others. *)
Inductive load_error := NotExist | LoadError (err : string).

(** [loadSnapshot], [LoadSessions] and [LoadTunnels] *)
Definition loadSnapshot {T} (unmarshal : string → result string (SnapshotFile T))
    (path : string) (σ : fs) : result load_error (SnapshotFile T) :=
  match PathGuard.ValidateFilesystemPath wd path "snapshot de persistencia" with
  | Err err => Err (LoadError err)
  | Ok safePath =>
     match read σ safePath with
     | None => Err NotExist
     | Some data =>
        match unmarshal data with Ok out => Ok out | Err err => Err (LoadError err) end
     end
  end.

Definition LoadSessions : (string → result string (SnapshotFile Session.Snapshot)) →
    string → fs → result load_error (SnapshotFile Session.Snapshot) := loadSnapshot.
Definition LoadTunnels : (string → result string (SnapshotFile Tunnels.Tunnel)) →
    string → fs → result load_error (SnapshotFile Tunnels.Tunnel) := loadSnapshot.

End Save.

(** ** A file being written *)

Lemma str_drop_length n s : String.length (str_drop n s) = (String.length s - n)%nat.
Proof. revert s. induction n as [|n IH]; intros [|a s]; simpl; auto. Qed.

Lemma str_drop_all n s : (String.length s <= n)%nat → str_drop n s = "".
Proof.
  revert s. induction n as [|n IH]; intros [|a s] H; simpl in *; try done; [lia|].
  by rewrite IH by lia.
Qed.

Lemma str_take_drop_app n m s :
  str_take n s +:+ str_take m (str_drop n s) = str_take (n + m) s.
Proof.
  revert s. induction n as [|n IH]; intros [|a s]; simpl.
  - by destruct m.
  - done.
  - by destruct m.
  - rewrite string_app_cons. by rewrite IH.
Qed.

Lemma str_take_min n s : str_take (Nat.min n (String.length s)) s = str_take n s.
Proof. revert s. induction n as [|n IH]; intros [|a s]; simpl; auto. by rewrite IH. Qed.

(** Writing the next chunk of [bytes] extends the part that is written. *)
Lemma overwrite_next bytes off n :
  (off <= String.length bytes)%nat →
  let chunk := str_take n (str_drop off bytes) in
  overwrite (str_take off bytes) off chunk = str_take (off + String.length chunk) bytes.
Proof.
  intros Ho chunk. unfold overwrite.
  rewrite (str_take_all off (str_take off bytes)) by (rewrite str_take_length; lia).
  rewrite str_take_length, Nat.min_l, Nat.sub_diag by done. simpl.
  rewrite (str_drop_all (off + _)) by (rewrite str_take_length; lia).
  rewrite string_app_nil_r. change ("" +:+ chunk) with chunk.
  unfold chunk at 1. rewrite str_take_drop_app.
  unfold chunk. rewrite str_take_length, str_drop_length, <-str_take_min.
  rewrite <-(str_take_min (off + Nat.min _ _)). f_equal. lia.
Qed.

Section FileSystem.
Context (σ : fs) (Hwf : fs_wf σ).

Lemma open_trunc_spec path :
  let '(i, σ') := open_trunc path σ in
  fs_wf σ' ∧ names σ' !! path = Some i ∧ contents σ' !! i = Some ""
  ∧ ∀ p, p ≠ path → read σ' p = read σ p.
Proof using Type*.
  destruct Hwf as [Hinj Hfile Hfresh]. unfold open_trunc.
  destruct (names σ !! path) as [i|] eqn:E.
  - split; [split|split_and!]; simpl.
    + apply Hinj.
    + intros p j H. rewrite lookup_insert_is_Some'. right. by eapply Hfile.
    + apply Hfresh.
    + done.
    + by rewrite lookup_insert_eq.
    + intros p Hp. unfold read. simpl. destruct (names σ !! p) as [j|] eqn:Ej; [|done]. simpl.
      apply lookup_insert_ne. intros <-. apply Hp. by eapply Hinj.
  - assert (Hne : ∀ p j, names σ !! p = Some j → j ≠ fresh_inode σ).
    { intros p j H%Hfresh. lia. }
    split; [split|split_and!]; simpl.
    + intros p q j. rewrite !lookup_insert_Some. intros [[<- <-]|[? H1]] [[<- ?]|[? H2]];
        simplify_eq; eauto; exfalso; by eapply Hne.
    + intros p j. rewrite lookup_insert_Some, lookup_insert_is_Some'.
      intros [[<- <-]|[? H]]; [by left|right; by eapply Hfile].
    + intros p j. rewrite lookup_insert_Some. intros [[<- <-]|[? H%Hfresh]]; lia.
    + by rewrite lookup_insert_eq.
    + by rewrite lookup_insert_eq.
    + intros p Hp. unfold read. simpl. rewrite lookup_insert_ne by done.
      destruct (names σ !! p) as [j|] eqn:Ej; [|done]. simpl.
      apply lookup_insert_ne. intros <-. by eapply Hne.
Qed.

Lemma write_at_spec path i off chunk old :
  names σ !! path = Some i → contents σ !! i = Some old →
  let σ' := write_at i off chunk σ in
  fs_wf σ' ∧ names σ' !! path = Some i ∧ contents σ' !! i = Some (overwrite old off chunk)
  ∧ ∀ p, p ≠ path → read σ' p = read σ p.
Proof using Type*.
  destruct Hwf as [Hinj Hfile Hfresh]. intros Hn Hc. split; [split|split_and!]; simpl.
  - apply Hinj.
  - intros p j H. rewrite lookup_alter_is_Some. by eapply Hfile.
  - apply Hfresh.
  - done.
  - by rewrite lookup_alter_eq, Hc.
  - intros p Hp. unfold read. simpl. destruct (names σ !! p) as [j|] eqn:Ej; [|done]. simpl.
    apply lookup_alter_ne. intros <-. apply Hp. by eapply Hinj.
Qed.

Lemma rename_spec a b i old :
  a ≠ b → names σ !! a = Some i → contents σ !! i = Some old →
  ∃ σ', rename a b σ = Some σ' ∧ fs_wf σ' ∧ read σ' b = Some old ∧ read σ' a = None
    ∧ ∀ p, p ≠ a → p ≠ b → read σ' p = read σ p.
Proof using Type*.
  destruct Hwf as [Hinj Hfile Hfresh]. intros Hab Hn Hc. unfold rename. rewrite Hn.
  eexists. split; [done|]. split; [split|split_and!]; simpl.
  - intros p q j. rewrite !lookup_insert_Some, !lookup_delete_Some. naive_solver.
  - intros p j. rewrite lookup_insert_Some, lookup_delete_Some. naive_solver.
  - intros p j. rewrite lookup_insert_Some, lookup_delete_Some. naive_solver.
  - unfold read. simpl. by rewrite lookup_insert_eq.
  - unfold read. simpl. by rewrite lookup_insert_ne, lookup_delete_eq.
  - intros p Ha Hb. unfold read. simpl. by rewrite lookup_insert_ne, lookup_delete_ne.
Qed.

End FileSystem.

(** ** One save *)

Section Atomic.
Context (safePath : string) (snapshot : json) (σ0 : fs).

Let tmp : string := safePath +:+ ".tmp".

Lemma tmp_other : tmp ≠ safePath.
Proof using Type.
  intros E. apply (f_equal String.length) in E. unfold tmp in E.
  rewrite string_length_app in E. simpl in E. lia.
Qed.

(** The bytes of the new snapshot. *)
Definition wanted (b : string) : Prop :=
  ∃ data, MarshalIndent snapshot = Ok data ∧ b = data +:+ newline.

Definition kept (σ : fs) : Prop := read σ safePath = read σ0 safePath.

(** What holds between the system calls of a save that runs alone. *)
Definition progress (ph : phase) (σ : fs) : Prop :=
  match ph with
  | Mkdir | Done (Some _) => kept σ
  | Opening b => kept σ ∧ wanted b
  | Writing i b off =>
     kept σ ∧ wanted b ∧ names σ !! tmp = Some i ∧ contents σ !! i = Some (str_take off b)
     ∧ (off <= String.length b)%nat
  | Renaming =>
     kept σ ∧ ∃ i b, wanted b ∧ names σ !! tmp = Some i ∧ contents σ !! i = Some b
  | Done None => ∃ b, wanted b ∧ read σ safePath = Some b
  end.

Definition saving (ph : phase) (σ : fs) : Prop :=
  fs_wf σ ∧ (∀ p, p ≠ safePath → p ≠ tmp → read σ p = read σ0 p) ∧ progress ph σ.

Lemma saving_step o ph σ :
  saving ph σ →
  saving (step safePath snapshot o ph σ).1 (step safePath snapshot o ph σ).2.
Proof using Type.
  pose proof tmp_other as Hne. intros (Hwf & Hf & Hp).
  destruct o as [n|err].
  2: { destruct ph as [|b|i b off| |[]]; simpl in *; (split; [done|]); (split; [done|]);
         simpl; tauto. }
  destruct ph as [|b|i b off| |err]; simpl.
  - destruct (MarshalIndent snapshot) as [data|e] eqn:E; split_and!; try done.
    split; [done|]. by exists data.
  - destruct Hp as [Hk Hb]. fold tmp. pose proof (open_trunc_spec σ Hwf tmp) as Ho.
    destruct (open_trunc tmp σ) as [i σ']. destruct Ho as (Hwf' & Hn & Hc & Hr).
    split_and!; [done| |].
    + intros p H1 H2. rewrite Hr by done. auto.
    + simpl. unfold kept. rewrite Hr by done. split_and!; try done. lia.
  - destruct Hp as (Hk & Hb & Hn & Hc & Ho).
    destruct (write_at_spec σ Hwf tmp i off (str_take (S n) (str_drop off b)) _ Hn Hc)
      as (Hwf' & Hn' & Hc' & Hr).
    rewrite overwrite_next in Hc' by done.
    change (match str_drop off b with "" => "" | String a s => String a (str_take n s) end)
      with (str_take (S n) (str_drop off b)).
    set (chunk := str_take (S n) (str_drop off b)) in *.
    assert (Hl : (off + String.length chunk <= String.length b)%nat).
    { unfold chunk. rewrite str_take_length, str_drop_length. lia. }
    split_and!; [done| |].
    + intros p H1 H2. rewrite Hr by done. auto.
    + destruct (_ <=? _)%nat eqn:E; simpl.
      * apply Nat.leb_le in E. rewrite str_take_all in Hc' by done.
        split; [unfold kept; by rewrite Hr|]. by exists i, b.
      * split_and!; try done. unfold kept. by rewrite Hr.
  - destruct Hp as (Hk & i & b & Hb & Hn & Hc). fold tmp.
    destruct (rename_spec σ Hwf tmp safePath i b Hne Hn Hc) as (σ' & -> & Hwf' & Hr & _ & Hr').
    split_and!; [done| |].
    + intros p H1 H2. rewrite Hr' by done. auto.
    + by exists b.
  - by destruct err.
Qed.

Lemma saving_run os ph σ :
  saving ph σ → saving (run safePath snapshot os ph σ).1 (run safePath snapshot os ph σ).2.
Proof using Type.
  revert ph σ. induction os as [|o os IH]; intros ph σ H; [done|]. simpl.
  pose proof (saving_step o ph σ H) as Hs.
  destruct (step safePath snapshot o ph σ) as [ph' σ']. by apply IH.
Qed.

(** How many system calls are left at most, all of them good. *)
Definition todo (ph : phase) : nat :=
  match ph with
  | Mkdir => match MarshalIndent snapshot with
             | Ok data => 4 + String.length data
             | Err _ => 0
             end
  | Opening b => 2 + String.length b
  | Writing _ b off => 1 + (String.length b - off)
  | Renaming => 1
  | Done _ => 0
  end.

Definition good (o : outcome) : Prop := match o with Good _ => True | Bad _ => False end.

Definition hopeful (ph : phase) : Prop :=
  match ph with
  | Mkdir => is_ok (MarshalIndent snapshot) = true
  | Done (Some _) => False
  | Writing _ b off => (off < String.length b)%nat
  | Opening b => (0 < String.length b)%nat
  | _ => True
  end.

Lemma step_todo o ph σ :
  saving ph σ → hopeful ph → good o →
  let ph' := (step safePath snapshot o ph σ).1 in
  hopeful ph' ∧ (todo ph' <= todo ph - 1)%nat.
Proof using Type.
  pose proof tmp_other as Hne. intros (Hwf & _ & Hp) Hh Hg.
  destruct o as [n|]; [|done]. destruct ph as [|b|i b off| |[]]; simpl in *; try done.
  - destruct (MarshalIndent snapshot) as [data|] eqn:E; [|done]. simpl.
    rewrite string_length_app. simpl. lia.
  - fold tmp. destruct (open_trunc tmp σ). simpl. lia.
  - change (match str_drop off b with "" => "" | String a s => String a (str_take n s) end)
      with (str_take (S n) (str_drop off b)).
    rewrite str_take_length, str_drop_length.
    destruct (_ <=? _)%nat eqn:E; cbn [fst hopeful todo]; [split; [done|lia]|].
    apply Nat.leb_gt in E. lia.
  - destruct Hp as (_ & i & b & _ & Hn & Hc). fold tmp.
    by destruct (rename_spec σ Hwf tmp safePath i b Hne Hn Hc) as (σ' & -> & _).
Qed.

Lemma run_completes os ph σ :
  saving ph σ → hopeful ph → Forall good os → (todo ph <= length os)%nat →
  (run safePath snapshot os ph σ).1 = Done None.
Proof using Type.
  intros Hs Hh Hg. revert ph σ Hs Hh. induction Hg as [|o os Ho Hg IH]; intros ph σ Hs Hh Ht.
  - destruct ph as [|b|i b off| |[]]; simpl in *; try lia; try done.
    destruct (MarshalIndent snapshot); [lia|done].
  - simpl. pose proof (saving_step o ph σ Hs) as Hs'. pose proof (step_todo o ph σ Hs Hh Ho) as [H1 H2].
    destruct (step safePath snapshot o ph σ) as [ph' σ']. simpl in *. apply IH; [done|done|lia].
Qed.

End Atomic.

(** Every state of a save that runs alone. *)
Lemma writeSnapshot_saving wd path safePath snapshot os σ :
  PathGuard.ValidateFilesystemPath wd path "snapshot de persistencia" = Ok safePath →
  fs_wf σ →
  writeSnapshot wd path snapshot os σ = run safePath snapshot os Mkdir σ
  ∧ saving safePath snapshot σ (writeSnapshot wd path snapshot os σ).1
      (writeSnapshot wd path snapshot os σ).2.
Proof.
  intros Hv Hwf. unfold writeSnapshot. case_bool_decide as Hp; [by subst path|]. rewrite Hv.
  split; [done|]. by apply saving_run.
Qed.

(** C24: a save replaces the snapshot at once.  Whatever system calls fail, however the
    writes are cut, and wherever the process stops, the snapshot on disk is the old one
    until the save reports success, and then it is the complete new one; no other file
    than the temporary one is touched.  If no system call fails and the snapshot can be
    encoded, the save succeeds. *)
Theorem snapshot_save_atomic (wd : result string string) (path safePath : string)
    (snapshot : json) (os : list outcome) (σ : fs) :
  PathGuard.ValidateFilesystemPath wd path "snapshot de persistencia" = Ok safePath →
  fs_wf σ →
  let '(ph, σ') := writeSnapshot wd path snapshot os σ in
  (∀ p, p ≠ safePath → p ≠ safePath +:+ ".tmp" → read σ' p = read σ p)
  ∧ match ph with
    | Done None => ∃ data, MarshalIndent snapshot = Ok data
                           ∧ read σ' safePath = Some (data +:+ newline)
    | _ => read σ' safePath = read σ safePath
    end
  ∧ (∀ data, MarshalIndent snapshot = Ok data → Forall good os →
       (String.length data + 4 <= length os)%nat → ph = Done None).
Proof.
  intros Hv Hwf.
  destruct (writeSnapshot_saving _ _ _ snapshot os σ Hv Hwf) as [Ew (_ & Hf & Hr)]. rewrite Ew in *.
  assert (Hs : saving safePath snapshot σ Mkdir σ) by done.
  pose proof (run_completes safePath snapshot σ os Mkdir σ Hs) as Hc. simpl in Hc.
  destruct (run safePath snapshot os Mkdir σ) as [ph σ']. simpl in *. split_and!.
  - exact Hf.
  - destruct ph as [|b|i b off| |[]]; simpl in Hr; try (by destruct Hr).
    destruct Hr as (b & (data & ? & ->) & ?). by exists data.
  - intros data E Hg Hl. rewrite E in Hc. apply Hc; [done|done|lia].
Qed.

Definition demo_fs : fs := mkFs {["/srv/state.json" := 0%nat; "/srv/other" := 1%nat]}
                                {[0%nat := "old"; 1%nat := "x"]} 2.

Lemma demo_fs_wf : fs_wf demo_fs.
Proof.
  split; unfold demo_fs; simpl; intros *;
    rewrite ?lookup_insert_Some, ?lookup_singleton_Some; intros H.
  - naive_solver.
  - destruct H as [[<- <-]|[? [<- <-]]]; by eexists.
  - destruct H as [[<- <-]|[? [<- <-]]]; lia.
Qed.

Definition demo_snapshot : json :=
  file_json tunnel_json (mkFile "2.4.1" "tunnels" (5 * Second)%Z []).

(** A crash in the middle of the write. *)
Lemma snapshot_save_atomic_witness :
  let run := writeSnapshot (Ok "/srv") "state.json" demo_snapshot [Good 0; Good 0; Good 20]
               demo_fs in
  bool_decide (is_Some (read run.2 "/srv/state.json.tmp")) = true
  ∧ let '(ph, σ') := run in
    match ph with
    | Done None => ∃ data, MarshalIndent demo_snapshot = Ok data
                           ∧ read σ' "/srv/state.json" = Some (data +:+ newline)
    | _ => read σ' "/srv/state.json" = read demo_fs "/srv/state.json"
    end.
Proof.
  intros run. split; [by vm_compute|].
  pose proof (snapshot_save_atomic (Ok "/srv") "state.json" "/srv/state.json" demo_snapshot
                [Good 0; Good 0; Good 20] demo_fs eq_refl demo_fs_wf) as H. fold run in H.
  destruct run as [ph σ']. exact (proj1 (proj2 H)).
Defined.

(** ** Two saves of the same snapshot at the same time *)

Fixpoint run2 (safePath : string) (a b : json) (sched : list (bool * outcome))
    (pa pb : phase) (σ : fs) : phase * phase * fs :=
  match sched with
  | [] => (pa, pb, σ)
  | (true, o) :: sched =>
     let '(pa', σ') := step safePath a o pa σ in run2 safePath a b sched pa' pb σ'
  | (false, o) :: sched =>
     let '(pb', σ') := step safePath b o pb σ in run2 safePath a b sched pa pb' σ'
  end.

(** Both open the temporary file before either writes; the shorter one writes last. *)
Definition tearing (da db : string) : list (bool * outcome) :=
  [(true, Good 0); (false, Good 0); (true, Good 0); (false, Good 0);
   (false, Good (String.length db)); (true, Good (String.length da));
   (true, Good 0); (false, Good 0)].

Lemma overwrite_start old chunk :
  overwrite old 0 chunk = chunk +:+ str_drop (String.length chunk) old.
Proof. by destruct old. Qed.

Lemma step_write safePath j i data n σ :
  n = String.length data →
  step safePath j (Good n) (Writing i (data +:+ newline) 0) σ
  = (Renaming, write_at i 0 (data +:+ newline) σ).
Proof.
  intros ->. unfold step.
  change (str_drop 0 (data +:+ newline)) with (data +:+ newline).
  rewrite str_take_all by (rewrite string_length_app; simpl; lia).
  rewrite Nat.add_0_l, (proj2 (Nat.leb_le _ _)) by lia. done.
Qed.

(** What is left when both open the temporary file before either writes. *)
Lemma torn_contents (safePath : string) (a b : json) (da db : string) (σ : fs) :
  fs_wf σ → MarshalIndent a = Ok da → MarshalIndent b = Ok db →
  (String.length da < String.length db)%nat →
  let '(pa, pb, σ') := run2 safePath a b (tearing da db) Mkdir Mkdir σ in
  pa = Done None ∧ pb = Done (Some "no such file or directory")
  ∧ read σ' safePath
    = Some (da +:+ newline +:+ str_drop (S (String.length da)) (db +:+ newline)).
Proof.
  intros Hwf Ha Hb Hl. unfold tearing. cbn [run2]. unfold step at 1. rewrite Ha.
  unfold step at 1. rewrite Hb. unfold step at 1.
  set (tmp := safePath +:+ ".tmp").
  pose proof (open_trunc_spec σ Hwf tmp) as H1. destruct (open_trunc tmp σ) as [i σ1].
  destruct H1 as (W1 & N1 & C1 & _).
  unfold step at 1. fold tmp. unfold open_trunc. rewrite N1.
  set (σ2 := mkFs _ _ _).
  assert (E2 : σ2 = σ1).
  { unfold σ2. rewrite insert_id by done. by destruct σ1. }
  rewrite E2. clear E2 σ2. rewrite step_write by done.
  pose proof (write_at_spec σ1 W1 tmp i 0 (db +:+ newline) "" N1 C1) as (W2 & N2 & C2 & _).
  set (σ2 := write_at i 0 (db +:+ newline) σ1) in *. rewrite step_write by done.
  pose proof (write_at_spec σ2 W2 tmp i 0 (da +:+ newline) _ N2 C2) as (W3 & N3 & C3 & _).
  set (σ3 := write_at i 0 (da +:+ newline) σ2) in *. unfold step at 1. fold tmp.
  unfold rename at 1. rewrite N3. unfold step, rename. fold tmp. cbn [names].
  pose proof (tmp_other safePath) as Hne. fold tmp in Hne.
  rewrite lookup_insert_ne, lookup_delete_eq by done. split_and!; [done|done|].
  unfold read. cbn [names contents]. rewrite lookup_insert_eq.
  cbn [mbind option_bind]. rewrite C3.
  rewrite !overwrite_start, (str_drop_all _ "") by (simpl; lia).
  rewrite string_app_nil_r, <-string_app_assoc, (string_length_app da). simpl.
  by rewrite Nat.add_comm.
Qed.

(** Saves made at the same time can tear the snapshot.  The temporary file has the
    same name for every save, and the hooks that save run without a lock.  When both
    have opened it before either writes, no system call fails but the last rename, the
    save of the shorter snapshot reports success, and the snapshot on disk is the
    shorter text followed by the tail of the longer one. *)
Lemma concurrent_saves_tear (safePath : string) (a b : json) (da db : string) (σ : fs) :
  fs_wf σ → MarshalIndent a = Ok da → MarshalIndent b = Ok db →
  (String.length da < String.length db)%nat →
  let '(pa, pb, σ') := run2 safePath a b (tearing da db) Mkdir Mkdir σ in
  pa = Done None ∧ pb = Done (Some "no such file or directory")
  ∧ read σ' safePath
    = Some (da +:+ newline +:+ str_drop (S (String.length da)) (db +:+ newline)).
Proof. apply torn_contents. Qed.

Definition demo_tunnel : Tunnels.Tunnel :=
  Tunnels.mkTunnel "tun-000001" "sess-000001" "ana" "local" "db:5432" "" "" (5 * Second)%Z.

(** The text that is left is not one of the two snapshots. *)
Lemma concurrent_saves_tear_witness :
  let a := demo_snapshot in
  let b := file_json tunnel_json (mkFile "2.4.1" "tunnels" (5 * Second)%Z [demo_tunnel]) in
  ∃ da db, MarshalIndent a = Ok da ∧ MarshalIndent b = Ok db
  ∧ let '(pa, pb, σ') := run2 "/srv/state.json" a b (tearing da db) Mkdir Mkdir demo_fs in
    pa = Done None
    ∧ read σ' "/srv/state.json" ≠ Some (da +:+ newline)
    ∧ read σ' "/srv/state.json" ≠ Some (db +:+ newline).
Proof.
  intros a b. exists (render true 0 a), (render true 0 b).
  assert (Ha : MarshalIndent a = Ok (render true 0 a)) by by vm_compute.
  assert (Hb : MarshalIndent b = Ok (render true 0 b)) by by vm_compute.
  split; [exact Ha|]. split; [exact Hb|].
  assert (Hl : (String.length (render true 0 a) < String.length (render true 0 b))%nat)
    by (apply Nat.ltb_lt; by vm_compute).
  pose proof (concurrent_saves_tear "/srv/state.json" a b _ _ demo_fs demo_fs_wf Ha Hb Hl) as H.
  destruct (run2 _ _ _ _ _ _ _) as [[pa pb] σ']. destruct H as (-> & _ & ->).
  split; [done|]. split; apply (bool_decide_unpack _); vm_compute; exact I.
Defined.

End Persistence.
