(* ===== verification/Restore.v ===== *)
(** * Snapshots read back

    The decoding of the snapshot files ([json.Unmarshal] into [SnapshotFile]) and what
    [LoadSessions] and [LoadTunnels] return for what [SaveSessions] and [SaveTunnels]
    wrote, and for a file that two saves tore. *)

From S2P Require Import Prelude GoStrings GoTime TimeText JSON JSONParse JSONValue JSONDecode Session Tunnels PathGuard Persistence.

Module Restore.
Import JSONParse JSONValue JSONDecode Persistence.
Local Open Scope Z_scope.

(** ** The decoders *)

Definition zero_session : Session.Snapshot := Session.mkSnapshot "" "" "" "" 0 0 "" "" 0.

Definition session_fields : fields Session.Snapshot :=
  let open s := (Session.SnapID s, Session.SnapRemoteAddr s, Session.SnapTransport s,
                 Session.SnapAuthn s, Session.SnapConnectedAt s, Session.SnapAuthenticatedAt s,
                 Session.SnapUsername s, Session.SnapRole s, Session.SnapCommandCount s) in
  [("id", on_field Session.SnapID (λ s x, let '(_, b, c, d, e, f, g, h, i) := open s in
      Session.mkSnapshot x b c d e f g h i) dec_string);
   ("remote_addr", on_field Session.SnapRemoteAddr (λ s x, let '(a, _, c, d, e, f, g, h, i) := open s in
      Session.mkSnapshot a x c d e f g h i) dec_string);
   ("transport", on_field Session.SnapTransport (λ s x, let '(a, b, _, d, e, f, g, h, i) := open s in
      Session.mkSnapshot a b x d e f g h i) dec_string);
   ("authn", on_field Session.SnapAuthn (λ s x, let '(a, b, c, _, e, f, g, h, i) := open s in
      Session.mkSnapshot a b c x e f g h i) dec_string);
   ("connected_at", on_field Session.SnapConnectedAt (λ s x, let '(a, b, c, d, _, f, g, h, i) := open s in
      Session.mkSnapshot a b c d x f g h i) dec_time);
   ("authenticated_at", on_field Session.SnapAuthenticatedAt (λ s x, let '(a, b, c, d, e, _, g, h, i) := open s in
      Session.mkSnapshot a b c d e x g h i) dec_time);
   ("username", on_field Session.SnapUsername (λ s x, let '(a, b, c, d, e, f, _, h, i) := open s in
      Session.mkSnapshot a b c d e f x h i) dec_string);
   ("role", on_field Session.SnapRole (λ s x, let '(a, b, c, d, e, f, g, _, i) := open s in
      Session.mkSnapshot a b c d e f g x i) dec_string);
   ("command_count", on_field Session.SnapCommandCount (λ s x, let '(a, b, c, d, e, f, g, h, _) := open s in
      Session.mkSnapshot a b c d e f g h x) dec_int)].

Definition zero_tunnel : Tunnels.Tunnel := Tunnels.mkTunnel "" "" "" "" "" "" "" 0.

Definition tunnel_fields : fields Tunnels.Tunnel :=
  let open t := (Tunnels.ID t, Tunnels.SessionID t, Tunnels.Username t, Tunnels.Direction t,
                 Tunnels.Target t, Tunnels.Bind t, Tunnels.Origin t, Tunnels.StartedAt t) in
  [("id", on_field Tunnels.ID (λ t x, let '(_, b, c, d, e, f, g, h) := open t in
      Tunnels.mkTunnel x b c d e f g h) dec_string);
   ("session_id", on_field Tunnels.SessionID (λ t x, let '(a, _, c, d, e, f, g, h) := open t in
      Tunnels.mkTunnel a x c d e f g h) dec_string);
   ("username", on_field Tunnels.Username (λ t x, let '(a, b, _, d, e, f, g, h) := open t in
      Tunnels.mkTunnel a b x d e f g h) dec_string);
   ("direction", on_field Tunnels.Direction (λ t x, let '(a, b, c, _, e, f, g, h) := open t in
      Tunnels.mkTunnel a b c x e f g h) dec_string);
   ("target", on_field Tunnels.Target (λ t x, let '(a, b, c, d, _, f, g, h) := open t in
      Tunnels.mkTunnel a b c d x f g h) dec_string);
   ("bind", on_field Tunnels.Bind (λ t x, let '(a, b, c, d, e, _, g, h) := open t in
      Tunnels.mkTunnel a b c d e x g h) dec_string);
   ("origin", on_field Tunnels.Origin (λ t x, let '(a, b, c, d, e, f, _, h) := open t in
      Tunnels.mkTunnel a b c d e f x h) dec_string);
   ("started_at", on_field Tunnels.StartedAt (λ t x, let '(a, b, c, d, e, f, g, _) := open t in
      Tunnels.mkTunnel a b c d e f g x) dec_time)].

Definition zero_file {T} : SnapshotFile T := mkFile "" "" 0 [].

Definition file_fields {T} (zero : T) (item : decoder T) : fields (SnapshotFile T) :=
  [("version", on_field Version (λ f x, mkFile x (Kind f) (Generated f) (Items f)) dec_string);
   ("kind", on_field Kind (λ f x, mkFile (Version f) x (Generated f) (Items f)) dec_string);
   ("generated_at", on_field Generated (λ f x, mkFile (Version f) (Kind f) x (Items f)) dec_time);
   ("items", on_field Items (λ f x, mkFile (Version f) (Kind f) (Generated f) x)
      (dec_slice zero item))].

(** [json.Unmarshal(data, &out)] for the two kinds of snapshots *)
Definition unmarshal_sessions : string → result string (SnapshotFile Session.Snapshot) :=
  Unmarshal zero_file (dec_struct (file_fields zero_session (dec_struct session_fields))).
Definition unmarshal_tunnels : string → result string (SnapshotFile Tunnels.Tunnel) :=
  Unmarshal zero_file (dec_struct (file_fields zero_tunnel (dec_struct tunnel_fields))).

(** ** What comes back *)

(** Strings come back as valid UTF-8. *)
Definition clean_session (s : Session.Snapshot) : Session.Snapshot :=
  Session.mkSnapshot (sanitize (Session.SnapID s)) (sanitize (Session.SnapRemoteAddr s))
    (sanitize (Session.SnapTransport s)) (sanitize (Session.SnapAuthn s))
    (Session.SnapConnectedAt s) (Session.SnapAuthenticatedAt s) (sanitize (Session.SnapUsername s))
    (sanitize (Session.SnapRole s)) (Session.SnapCommandCount s).
Definition clean_tunnel (t : Tunnels.Tunnel) : Tunnels.Tunnel :=
  Tunnels.mkTunnel (sanitize (Tunnels.ID t)) (sanitize (Tunnels.SessionID t))
    (sanitize (Tunnels.Username t)) (sanitize (Tunnels.Direction t)) (sanitize (Tunnels.Target t))
    (sanitize (Tunnels.Bind t)) (sanitize (Tunnels.Origin t)) (Tunnels.StartedAt t).

Lemma session_written s :
  year_ok (Session.SnapConnectedAt s) → year_ok (Session.SnapAuthenticatedAt s) →
  in_int64 (Session.SnapCommandCount s) →
  dec_struct session_fields zero_session (val_of (session_json s)) = Some (clean_session s).
Proof.
  intros Hc Ha Hn. unfold session_json. cbn [val_of dec_struct]. fold member_val.
  repeat read_member. done.
Qed.

Lemma tunnel_written t :
  year_ok (Tunnels.StartedAt t) →
  dec_struct tunnel_fields zero_tunnel (val_of (tunnel_json t)) = Some (clean_tunnel t).
Proof.
  intros Hs. unfold tunnel_json. cbn [val_of dec_struct]. fold member_val. repeat read_member. done.
Qed.

(** A whole file. *)
Lemma file_written {T} (zero : T) (dec : decoder T) (item : T → json) (f : T → T) file :
  year_ok (Generated file) → (∀ x, x ∈ Items file → dec zero (val_of (item x)) = Some (f x)) →
  dec_struct (file_fields zero dec) zero_file (val_of (file_json item file))
  = Some (mkFile (sanitize (Version file)) (sanitize (Kind file)) (Generated file)
            (f <$> Items file)).
Proof.
  intros Hg Hi. unfold file_json. cbn [val_of dec_struct]. fold member_val. do 3 read_member.
  erewrite dec_members_written; [|reflexivity|reflexivity|].
  2: { apply on_field_written. by apply (dec_slice_written zero dec item f). }
  done.
Qed.

Lemma times_ok_items {T} (item : T → json) (l : list T) x :
  times_ok (JArr (item <$> l)) = true → x ∈ l → times_ok (item x) = true.
Proof.
  cbn [times_ok]. intros H Hx. rewrite forallb_forall in H. apply H.
  apply list_elem_of_In, list_elem_of_fmap. eauto.
Qed.

Lemma max_height_bound {A} (h : A → Z) (l : list A) b :
  0 <= b → (∀ x, x ∈ l → h x <= b) → max_height h l <= b.
Proof.
  intros Hb H. unfold max_height. induction l as [|x l IH]; [done|]. cbn [foldr].
  pose proof (H x ltac:(left)). assert (foldr (λ x h0, Z.max (h x) h0) 0 l <= b); [|lia].
  apply IH. intros y Hy. apply H. by right.
Qed.

Lemma file_height {T} (item : T → json) file :
  (∀ x, height (item x) = 1) → height (file_json item file) <= maxNestingDepth.
Proof.
  intros H. unfold file_json. cbn [height foldr snd].
  assert (max_height height (item <$> Items file) <= 1) as Hm.
  { apply max_height_bound; [done|]. intros j (x & -> & _)%list_elem_of_fmap. by rewrite H. }
  unfold max_height in Hm. unfold maxNestingDepth. lia.
Qed.

(** What a save wrote is what [loadSnapshot] decodes. *)
Lemma saved_file_loads {T} wd path safePath item (file : SnapshotFile T) os (σ σ' : fs)
    (zero : T) (dec : decoder T) (f : T → T) :
  PathGuard.ValidateFilesystemPath wd path "snapshot de persistencia" = Ok safePath → fs_wf σ →
  writeSnapshot wd path (file_json item file) os σ = (Done None, σ') →
  (∀ x, height (item x) = 1) →
  (∀ x, x ∈ Items file → times_ok (item x) = true → dec zero (val_of (item x)) = Some (f x)) →
  loadSnapshot wd (Unmarshal zero_file (dec_struct (file_fields zero dec))) path σ'
  = Ok (mkFile (sanitize (Version file)) (sanitize (Kind file)) (Generated file) (f <$> Items file)).
Proof.
  intros Hv Hwf Hw Hh Hi.
  destruct (writeSnapshot_saving wd path safePath (file_json item file) os σ Hv Hwf) as [_ Hs].
  rewrite Hw in Hs. destruct Hs as (_ & _ & b & (data & Hm & ->) & Hr).
  unfold loadSnapshot. rewrite Hv. cbn [snd fst] in Hr. rewrite Hr.
  unfold MarshalIndent in Hm. destruct (times_ok (file_json item file)) eqn:Ht; [|done].
  assert (data = render true 0 (file_json item file)) as -> by congruence.
  rewrite Unmarshal_written; [|done|by apply file_height|done].
  unfold file_json in Ht. cbn [times_ok forallb snd] in Ht.
  fold (times_ok (JTime (Generated file))) in Ht. rewrite !andb_true_l, andb_true_r in Ht.
  apply andb_true_iff in Ht as [Hg Hit].
  rewrite (file_written zero dec item f file); [done|by apply time_ok_year|].
  intros x Hx. apply Hi; [done|]. by apply (times_ok_items item (Items file)).
Qed.

(** ** A torn file *)

Lemma skip_ws_nil s : skip_ws s = "" → all_space s = true.
Proof.
  induction s as [|a s IH]; [done|]. cbn [skip_ws all_space]. destruct (is_space a); [exact IH|done].
Qed.

Lemma all_space_app s t : all_space (s +:+ t) = all_space s && all_space t.
Proof.
  induction s as [|a s IH]; [done|]. rewrite string_app_cons. cbn [all_space].
  by rewrite IH, andb_assoc.
Qed.

Lemma str_drop_app n (s t : string) :
  (n <= String.length s)%nat → str_drop n (s +:+ t) = str_drop n s +:+ t.
Proof.
  revert s. induction n as [|n IH]; intros [|a s] Hn; try done; [simpl in Hn; lia|].
  rewrite string_app_cons. cbn [str_drop]. apply IH. simpl in Hn. lia.
Qed.

(** The text of a file ends in a brace. *)
Lemma file_text_ends {T} (item : T → json) file :
  ∃ pre, render true 0 (file_json item file) = pre +:+ "}".
Proof.
  unfold file_json. cbn [render]. eexists. rewrite !string_app_assoc. reflexivity.
Qed.

(** Text after a document that is not white space. *)
Lemma parse_trailing j rest :
  times_ok j = true → height j <= maxNestingDepth → all_space rest = false →
  parse (render true 0 j +:+ newline +:+ rest) = None.
Proof.
  intros Ht Hh Hr. unfold parse. rewrite render_back; [|done| |lia|by apply (ends_space "")].
  - rewrite bool_decide_eq_false_2; [done|]. intros H%skip_ws_nil.
    rewrite all_space_app, Hr, andb_false_r in H. done.
  - unfold parse_fuel. rewrite string_length_app. pose proof (need_length true 0 j). lia.
Qed.

(** ** The properties *)

(** C25: What [SaveSessions] and [SaveTunnels] have saved, [LoadSessions] and [LoadTunnels]
    return: the same version, kind, time and items in the same order, whatever the
    contents, except that bytes that are not UTF-8 come back as U+FFFD. *)
Theorem snapshots_round_trip (wd : result string string) (st : Store) (now : Time)
    (ss : list Session.Snapshot) (ts : list Tunnels.Tunnel) (os : list outcome)
    (σ σ' : fs) (p : string) :
  fs_wf σ → enabled st = true →
  (PathGuard.ValidateFilesystemPath wd (sessionsPath st) "snapshot de persistencia" = Ok p →
   Forall (λ s, in_int64 (Session.SnapCommandCount s)) ss →
   SaveSessions wd (Some st) now ss os σ = (Done None, σ') →
   LoadSessions wd unmarshal_sessions (sessionsPath st) σ'
   = Ok (mkFile "2.4.1" "sessions" now (clean_session <$> ss)))
  ∧ (PathGuard.ValidateFilesystemPath wd (tunnelsPath st) "snapshot de persistencia" = Ok p →
     SaveTunnels wd (Some st) now ts os σ = (Done None, σ') →
     LoadTunnels wd unmarshal_tunnels (tunnelsPath st) σ'
     = Ok (mkFile "2.4.1" "tunnels" now (clean_tunnel <$> ts))).
Proof.
  intros Hwf He. unfold SaveSessions, SaveTunnels, Enabled, SessionsPath, TunnelsPath. rewrite He.
  split.
  - intros Hv Hss Hsave. refine (saved_file_loads wd _ p session_json (mkFile "2.4.1" "sessions" now ss) os σ σ'
              zero_session (dec_struct session_fields) clean_session Hv Hwf Hsave (λ _, eq_refl) _).
    intros s Hs Ht. rewrite Forall_forall in Hss. unfold session_json in Ht.
    cbn [times_ok forallb snd] in Ht. rewrite !andb_true_l, !andb_true_r in Ht.
    apply andb_true_iff in Ht as [H1 H2].
    apply session_written; [by apply time_ok_year..|by apply Hss].
  - intros Hv Hsave. refine (saved_file_loads wd _ p tunnel_json (mkFile "2.4.1" "tunnels" now ts) os σ σ'
              zero_tunnel (dec_struct tunnel_fields) clean_tunnel Hv Hwf Hsave (λ _, eq_refl) _).
    intros t _ Ht. unfold tunnel_json in Ht. cbn [times_ok forallb snd] in Ht.
    rewrite !andb_true_l, !andb_true_r in Ht. by apply tunnel_written, time_ok_year.
Qed.

Definition demo_store : Store := mkStore true "sessions.json" "tunnels.json".

Lemma snapshots_round_trip_witness :
  let saved := SaveTunnels (Ok "/srv") (Some demo_store) (7 * Second) [demo_tunnel]
                 [Good 0; Good 0; Good 600; Good 0] demo_fs in
  LoadTunnels (Ok "/srv") unmarshal_tunnels "tunnels.json" saved.2
  = Ok (mkFile "2.4.1" "tunnels" (7 * Second) (clean_tunnel <$> [demo_tunnel])).
Proof.
  intros saved.
  apply (snapshots_round_trip (Ok "/srv") demo_store (7 * Second) [] [demo_tunnel]
           [Good 0; Good 0; Good 600; Good 0] demo_fs saved.2 "/srv/tunnels.json" demo_fs_wf eq_refl).
  - reflexivity.
  - vm_compute. reflexivity.
Defined.

(** When two saves of snapshots whose texts differ in length by two bytes or more
    tear the file, one of them reports success and the file does not load any more. *)
Lemma torn_snapshot_does_not_load (wd : result string string) (path safePath : string)
    (fa fb : SnapshotFile Session.Snapshot) (da db : string) (σ : fs) :
  PathGuard.ValidateFilesystemPath wd path "snapshot de persistencia" = Ok safePath → fs_wf σ →
  MarshalIndent (file_json session_json fa) = Ok da →
  MarshalIndent (file_json session_json fb) = Ok db →
  (String.length da + 2 <= String.length db)%nat →
  let '(pa, _, σ') := run2 safePath (file_json session_json fa) (file_json session_json fb)
                        (tearing da db) Mkdir Mkdir σ in
  pa = Done None ∧ LoadSessions wd unmarshal_sessions path σ' = Err (LoadError json_error).
Proof.
  intros Hv Hwf Ha Hb Hl.
  pose proof (torn_contents safePath _ _ da db σ Hwf Ha Hb ltac:(lia)) as Ht.
  destruct (run2 _ _ _ _ _ _ _) as [[pa pb] σ']. destruct Ht as (-> & _ & Hr). split; [done|].
  unfold LoadSessions, loadSnapshot. rewrite Hv, Hr. unfold unmarshal_sessions, Unmarshal.
  unfold MarshalIndent in Ha, Hb.
  destruct (times_ok (file_json session_json fa)) eqn:Hta; [|done].
  destruct (times_ok (file_json session_json fb)) eqn:Htb; [|done].
  assert (da = render true 0 (file_json session_json fa)) as -> by congruence.
  destruct (file_text_ends session_json fb) as [pre Hpre].
  assert (db = pre +:+ "}") as Hdb by congruence. rewrite Hdb in *. clear Hb Ha Hdb.
  rewrite string_length_app in Hl. cbn [String.length] in Hl.
  rewrite parse_trailing; [done|done|by apply file_height|].
  rewrite <-string_app_assoc, str_drop_app by lia.
  rewrite all_space_app. by rewrite andb_false_r.
Qed.

Definition demo_session : Session.Snapshot :=
  Session.mkSnapshot "sess-000001" "10.0.0.1:4022" "ssh" "publickey" (5 * Second) (6 * Second)
    "ana" "student" 3.
Definition demo_short : SnapshotFile Session.Snapshot := mkFile "2.4.1" "sessions" (5 * Second) [].
Definition demo_long : SnapshotFile Session.Snapshot :=
  mkFile "2.4.1" "sessions" (5 * Second) [demo_session].

Lemma torn_snapshot_does_not_load_witness :
  ∃ da db, MarshalIndent (file_json session_json demo_short) = Ok da
  ∧ MarshalIndent (file_json session_json demo_long) = Ok db
  ∧ let '(pa, _, σ') := run2 "/srv/state.json" (file_json session_json demo_short)
                          (file_json session_json demo_long) (tearing da db) Mkdir Mkdir demo_fs in
    pa = Done None
    ∧ LoadSessions (Ok "/srv") unmarshal_sessions "state.json" σ' = Err (LoadError json_error).
Proof.
  exists (render true 0 (file_json session_json demo_short)),
    (render true 0 (file_json session_json demo_long)).
  split; [vm_compute; reflexivity|]. split; [vm_compute; reflexivity|].
  apply (torn_snapshot_does_not_load (Ok "/srv") "state.json" "/srv/state.json" demo_short demo_long
           _ _ demo_fs eq_refl demo_fs_wf).
  - vm_compute. reflexivity.
  - vm_compute. reflexivity.
  - apply Nat.leb_le. vm_compute. reflexivity.
Defined.

End Restore.
