(* ===== verification/HTTPAPI.v ===== *)
(** * The control API ([internal/controlplane/httpapi/])

    The routes of [Start], the check of the credentials, and every handler, as functions
    from a request to a response.  Routing follows [net/http.ServeMux]: a name that is
    not clean is redirected, the segments are compared after decoding, a pattern that
    ends in a slash takes every name below it.  The tunnels are reached through the
    interface [Controller], and other goroutines may use them between the two calls a
    handler makes.  [ControlAPI] adds the server with its middleware,
    [Certificates] the pair of files it listens with. *)

From S2P Require Import Prelude GoStrings Auth Session Tunnels GoTime JSON PathGuard Config Persistence.

Module HTTPAPI.

(** ** Requests *)

(** The method, the path as it is sent, and what [r.BasicAuth] returns. *)
Record request := mkRequest {
  Method : string;
  EscapedPath : string;
  BasicAuth : option (string * string);
}.

Definition hex_value (a : ascii) : option Z :=
  let x := byte_val a in
  (if (48 <=? x) && (x <=? 57) then Some (x - 48)
   else if (65 <=? x) && (x <=? 70) then Some (x - 55)
   else if (97 <=? x) && (x <=? 102) then Some (x - 87)
   else None)%Z.

(** [url.PathUnescape] *)
Fixpoint unescape (s : string) : option string :=
  match s with
  | "" => Some ""
  | String "%" (String a (String b s')) =>
     match hex_value a, hex_value b with
     | Some x, Some y => String (byte_of (16 * x + y)%Z) <$> unescape s'
     | _, _ => None
     end
  | String "%" _ => None
  | String c s' => String c <$> unescape s'
  end.

(** The decoded text, or the text itself if it cannot be decoded. *)
Definition pathUnescape (s : string) : string := default s (unescape s).

(** [r.URL.Path] *)
Definition Path (r : request) : string := pathUnescape (EscapedPath r).

(** [cleanPath] of [net/http] *)
Definition cleanPath (p : string) : string :=
  if bool_decide (p = "") then "/"
  else
    let p := if HasPrefix p "/" then p else "/" +:+ p in
    let np := PathGuard.Clean p in
    if HasPrefix (string_rev p) "/" && negb (bool_decide (np = "/")) then np +:+ "/" else np.

(** The segments of a name. *)
Definition segments (p : string) : list string :=
  match p with
  | String "/" p => pathUnescape <$> SplitByte p PathGuard.slash
  | _ => []
  end.

(** ** Routes *)

Inductive handler :=
| Healthz | Ready | Startup | OpenAPIJSON | SwaggerUI
| StatusPage | Sessions | TunnelsPage | V1TunnelByID | TunnelByID
| PersistedSessions | PersistedTunnels.

#[export] Instance handler_eq_dec : EqDecision handler.
Proof. solve_decision. Defined.

(** The patterns of [Start] with their handlers, and whether they go through
    [withAuth]. *)
Definition routes : list (string * bool * handler) :=
  [("/healthz", false, Healthz);
   ("/healthz/live", false, Healthz);
   ("/healthz/ready", false, Ready);
   ("/healthz/startup", false, Startup);
   ("/api/v1/docs/swagger.json", false, OpenAPIJSON);
   ("/api/v1/docs/openapi.json", false, OpenAPIJSON);
   ("/api/v1/docs/swagger/", false, SwaggerUI);
   ("/api/v1/docs/swagger", false, SwaggerUI);
   ("/api/v1/admin/status", true, StatusPage);
   ("/api/v1/admin/sessions", true, Sessions);
   ("/api/v1/admin/tunnels", true, TunnelsPage);
   ("/api/v1/admin/tunnels/", true, V1TunnelByID);
   ("/api/admin/status", true, StatusPage);
   ("/api/admin/sessions", true, Sessions);
   ("/api/admin/sesiones", true, Sessions);
   ("/api/admin/tunnels", true, TunnelsPage);
   ("/api/admin/tuneles", true, TunnelsPage);
   ("/api/admin/tunnels/", true, TunnelByID);
   ("/api/admin/tuneles/", true, TunnelByID);
   ("/api/admin/state/sessions", true, PersistedSessions);
   ("/api/admin/state/tunnels", true, PersistedTunnels)].

(** Does a pattern take a name?  The last segment of a pattern that ends in a slash is
    empty, and stands for one or more segments. *)
Fixpoint takes (pattern path : list string) : bool :=
  match pattern, path with
  | [], [] => true
  | [""], _ :: _ => true
  | p :: pattern, s :: path => bool_decide (p = s) && takes pattern path
  | _, _ => false
  end.

Definition match_route (path : string) : option (bool * handler) :=
  match list_find (λ rt : string * bool * handler,
                     takes (segments rt.1.1) (segments path) = true) routes with
  | Some (_, (_, auth, h)) => Some (auth, h)
  | None => None
  end.

Inductive dispatched := Redirect (path : string) | NotFound | To (auth : bool) (h : handler).

(** [ServeMux.Handler] *)
Definition dispatch (r : request) : dispatched :=
  let path := cleanPath (EscapedPath r) in
  if negb (bool_decide (Method r = "CONNECT")) && negb (bool_decide (path = EscapedPath r))
  then Redirect path
  else match match_route (EscapedPath r) with
       | Some (auth, h) => To auth h
       | None => NotFound
       end.

(** ** Responses *)

Record response := mkResponse {
  Status : Z;
  Headers : list (string * string);
  Body : string;
}.

Definition newline : string := String (byte_of 10) "".

Definition common_headers : list (string * string) :=
  [("X-Content-Type-Options", "nosniff"); ("Cache-Control", "no-store")].

(** [writeJSON]; if the payload cannot be encoded, the body stays empty. *)
Definition writeJSON (status : Z) (payload : list (string * json)) : response :=
  mkResponse status (("Content-Type", "application/json") :: common_headers)
    match MarshalIndent (JMap payload) with Ok text => text +:+ newline | Err _ => "" end.

Definition error_json (status : Z) (code : string) : response :=
  writeJSON status [("error", JString code)].

Definition method_not_allowed : response := error_json 405 "metodo_no_permitido".

Definition apiVersion : string := "v1".

(** ** Handlers *)

Section Server.
Context {M : Type} `{C : !Tunnels.Controller M} `{MR : MapRange}.
Context (cfg : Config.t) (openAPISpec swaggerHTML : string).
Context (unmarshalSessions : string → result string (Persistence.SnapshotFile Session.Snapshot))
        (unmarshalTunnels : string → result string (Persistence.SnapshotFile Tunnels.Tunnel)).

(** What a handler reads: the clock, the registry of sessions with the heap it points
    to, and the disk; a nil registry or controller is [None]. *)
Record world := mkWorld {
  now : Time;
  wd : result string string;
  disk : Persistence.fs;
  sesiones : option (gmap Session.loc Session.t * Session.Registry);
}.

(** What a handler does: its response, the tunnels afterwards and the effects of
    closing one. *)
Definition outcome : Type := response * option M * list Tunnels.effect.

(** [constantTimeEqual] *)
Definition constantTimeEqual (actual expected : string) : bool :=
  if bool_decide (expected = "") then false
  else if negb (len actual =? len expected)%Z then false
  else (Auth.ConstantTimeCompare actual expected =? 1)%Z.

Definition authorized (r : request) : bool :=
  match BasicAuth r with
  | Some (usuario, pass) =>
     constantTimeEqual usuario (Config.ControlAPIUser cfg)
     && constantTimeEqual pass (Config.ControlAPIPassword cfg)
  | None => false
  end.

Definition dquote : string := String (byte_of 34) "".

(** [withAuth] *)
Definition withAuth (r : request) (m : option M) (next : outcome) : outcome :=
  if negb (authorized r) then
    let w := error_json 401 "no_autorizado" in
    (mkResponse (Status w)
       (("WWW-Authenticate", "Basic realm=" +:+ dquote +:+ "sentinelops-control" +:+ dquote)
        :: Headers w) (Body w), m, [])
  else next.

(** The test every page starts with. *)
Definition onlyGet (r : request) (page : response) : response :=
  if negb (bool_decide (Method r = "GET")) then method_not_allowed else page.

Definition sessionCount (reg : option (gmap Session.loc Session.t * Session.Registry)) : Z :=
  match reg with None => 0 | Some (_, reg) => Session.Count reg end.
Definition tunelCount (ctrl : option M) : Z :=
  match ctrl with None => 0 | Some m => Tunnels.ctl_count m end.

(** [parseHosts] *)
Definition parseHosts (value : string) : list string :=
  let out := filter (λ v, v ≠ "") (TrimSpace <$> SplitByte value ","%char) in
  match out with [] => ["localhost"; "127.0.0.1"] | _ => out end.

Definition handleHealthz (w : world) (r : request) : response :=
  onlyGet r (
  writeJSON 200 [("status", JString "ok"); ("servicio", JString (Config.AppName cfg));
                 ("profile", JString (Config.Profile cfg));
                 ("transporte", JString (Config.Transport cfg));
                 ("version_api", JString apiVersion); ("marca_tiempo", JTime (now w))]).

Definition handleReady (w : world) (m : option M) (r : request) : response :=
  onlyGet r (
  let componentes :=
    JMap [("control_api", JBool (Config.ControlAPIEnabled cfg));
          ("sesiones", JBool (bool_decide (is_Some (sesiones w))));
          ("tuneles", JBool (bool_decide (is_Some m)));
          ("opa_habilitado", JBool (Config.PolicyEnabled cfg));
          ("opa_modo", JString (Config.PolicyMode cfg));
          ("persistencia", JBool (Config.StatePersistenceEnabled cfg));
          ("telemetria_trazas", JBool (Config.TelemetryEnabled cfg))] in
  writeJSON 200 [("status", JString "ready"); ("servicio", JString (Config.AppName cfg));
                 ("version_api", JString apiVersion); ("componentes", componentes);
                 ("marca_tiempo", JTime (now w))]).

Definition handleStartup (w : world) (r : request) : response :=
  onlyGet r (
  writeJSON 200 [("status", JString "started"); ("servicio", JString (Config.AppName cfg));
                 ("version_api", JString apiVersion); ("marca_tiempo", JTime (now w))]).

Definition handleOpenAPIJSON (r : request) : response :=
  onlyGet r (
  mkResponse 200 (("Content-Type", "application/json") :: common_headers) openAPISpec).

Definition handleSwaggerUI (r : request) : response :=
  onlyGet r (
  mkResponse 200 (("Content-Type", "text/html; charset=utf-8") :: common_headers) swaggerHTML).

Definition handleStatus (w : world) (m : option M) (r : request) : response :=
  onlyGet r (
  writeJSON 200
    [("status", JString "ok"); ("servicio", JString (Config.AppName cfg));
     ("profile", JString (Config.Profile cfg)); ("transporte", JString (Config.Transport cfg));
     ("version_api", JString apiVersion);
     ("sesiones_activas", JInt (sessionCount (sesiones w)));
     ("tuneles_activos", JInt (tunelCount m));
     ("control_api", JMap [("habilitado", JBool true);
                           ("direccion", JString (Config.ControlAPIAddr cfg));
                           ("tls", JBool true)]);
     ("persistencia", JMap [("habilitada", JBool (Config.StatePersistenceEnabled cfg));
                            ("archivo_sesiones", JString (Config.StateSessionsPath cfg));
                            ("archivo_tuneles", JString (Config.StateTunnelsPath cfg))]);
     ("marca_tiempo", JTime (now w))]).

Definition handleSessions (w : world) (r : request) : response :=
  onlyGet r (
  let items := match sesiones w with
               | Some (h, reg) => Session.takeSnapshot h reg
               | None => []
               end in
  writeJSON 200 [("cantidad", JInt (Z.of_nat (length items)));
                 ("sesiones", JArr (Persistence.session_json <$> items))]).

Definition handleTunnels (m : option M) (r : request) : response :=
  onlyGet r (
  let items := match m with Some m => Tunnels.ctl_snapshot m | None => [] end in
  writeJSON 200 [("cantidad", JInt (Z.of_nat (length items)));
                 ("tuneles", JArr (Persistence.tunnel_json <$> items))]).

(** [handlePersistedSessions] and [handlePersistedTunnels] differ in the file, the names
    of the fields and the code of the error. *)
Definition persisted {T} (item : T → json) (field code : string)
    (load : result Persistence.load_error (Persistence.SnapshotFile T)) : response :=
  if negb (Config.StatePersistenceEnabled cfg) then
    writeJSON 200 [("habilitada", JBool false); ("cantidad", JInt 0); (field, JArr [])]
  else match load with
  | Err Persistence.NotExist =>
     writeJSON 200 [("habilitada", JBool true); ("cantidad", JInt 0); (field, JArr [])]
  | Err (Persistence.LoadError _) => error_json 500 code
  | Ok snapshot =>
     writeJSON 200 [("habilitada", JBool true);
                    ("generado_en", JTime (Persistence.Generated snapshot));
                    ("cantidad", JInt (Z.of_nat (length (Persistence.Items snapshot))));
                    (field, JArr (item <$> Persistence.Items snapshot))]
  end.

Definition handlePersistedSessions (w : world) (r : request) : response :=
  onlyGet r (
  persisted Persistence.session_json "sesiones" "persistencia_sesiones_no_disponible"
    (Persistence.LoadSessions (wd w) unmarshalSessions (Config.StateSessionsPath cfg) (disk w))).

Definition handlePersistedTunnels (w : world) (r : request) : response :=
  onlyGet r (
  persisted Persistence.tunnel_json "tuneles" "persistencia_tuneles_no_disponible"
    (Persistence.LoadTunnels (wd w) unmarshalTunnels (Config.StateTunnelsPath cfg) (disk w))).

(** Looking a tunnel up and closing it: [mid] is what others do to the tunnels between
    the two calls, and [closed] the payload of the response. *)
Definition lookupAndClose (mid : M → M) (m : option M) (id : string)
    (closed : bool → Tunnels.Tunnel → list (string * json)) : outcome :=
  match m with
  | None => (error_json 503 "reenvio_no_disponible", m, [])
  | Some m0 =>
     match Tunnels.ctl_get m0 id with
     | None =>
        (writeJSON 404 [("error", JString "tunel_no_encontrado"); ("id", JString id)], m, [])
     | Some tunel =>
        let '(cerrado, m', eff) := Tunnels.ctl_close (mid m0) id in
        (writeJSON 200 (closed cerrado tunel), Some m', eff)
     end
  end.

Definition handleTunnelByID (mid : M → M) (r : request) (m : option M) : outcome :=
  let id := TrimPrefix (Path r) "/api/admin/tunnels/" in
  let id := TrimPrefix id "/api/admin/tuneles/" in
  let id := TrimSpace id in
  if bool_decide (id = "") then (error_json 400 "falta_id_tunel", m, [])
  else if bool_decide (Method r = "DELETE") then
    lookupAndClose mid m id (λ cerrado tunel,
      [("cerrado", JBool cerrado); ("tunel", Persistence.tunnel_json tunel)])
  else (method_not_allowed, m, []).

Definition closeTunnelByID (mid : M → M) (w : world) (m : option M) (id : string) : outcome :=
  lookupAndClose mid m id (λ cerrado tunel,
    [("cerrado", JBool cerrado); ("id", JString id); ("version_api", JString apiVersion);
     ("marca_tiempo", JTime (now w)); ("tunel", Persistence.tunnel_json tunel)]).

Definition handleV1TunnelByID (mid : M → M) (w : world) (r : request) (m : option M) : outcome :=
  let path := TrimSpace (TrimPrefix (Path r) "/api/v1/admin/tunnels/") in
  let '(id, action, hasAction) := CutByte path PathGuard.slash in
  let id := TrimSpace id in
  if bool_decide (id = "") then (error_json 400 "falta_id_tunel", m, [])
  else if (hasAction : bool) then
    if negb (bool_decide (action = "close")) then
      (error_json 404 "endpoint_no_encontrado", m, [])
    else if negb (bool_decide (Method r = "POST")) then (method_not_allowed, m, [])
    else closeTunnelByID mid w m id
  else if negb (bool_decide (Method r = "DELETE")) then (method_not_allowed, m, [])
  else closeTunnelByID mid w m id.

Definition handle (mid : M → M) (h : handler) (w : world) (r : request) (m : option M)
    : outcome :=
  match h with
  | Healthz => (handleHealthz w r, m, [])
  | Ready => (handleReady w m r, m, [])
  | Startup => (handleStartup w r, m, [])
  | OpenAPIJSON => (handleOpenAPIJSON r, m, [])
  | SwaggerUI => (handleSwaggerUI r, m, [])
  | StatusPage => (handleStatus w m r, m, [])
  | Sessions => (handleSessions w r, m, [])
  | TunnelsPage => (handleTunnels m r, m, [])
  | V1TunnelByID => handleV1TunnelByID mid w r m
  | TunnelByID => handleTunnelByID mid r m
  | PersistedSessions => (handlePersistedSessions w r, m, [])
  | PersistedTunnels => (handlePersistedTunnels w r, m, [])
  end.

(** A request to the server: a response, or what the multiplexer answers by itself. *)
Inductive answer := Response (resp : response) | Redirected (path : string) | NoRoute.

Definition serve (mid : M → M) (w : world) (r : request) (m : option M)
    : answer * option M * list Tunnels.effect :=
  match dispatch r with
  | Redirect path => (Redirected path, m, [])
  | NotFound => (NoRoute, m, [])
  | To auth h =>
     let '(resp, m', eff) :=
       if auth then withAuth r m (handle mid h w r m) else handle mid h w r m in
     (Response resp, m', eff)
  end.

(** ** Credentials *)

Lemma constantTimeEqual_spec actual expected :
  constantTimeEqual actual expected = true ↔ expected ≠ "" ∧ actual = expected.
Proof using Type. exact (Auth.securePasswordEqual_spec actual expected). Qed.

(** The credentials of the configuration, which must not be empty. *)
Definition has_credentials (r : request) : Prop :=
  BasicAuth r = Some (Config.ControlAPIUser cfg, Config.ControlAPIPassword cfg)
  ∧ Config.ControlAPIUser cfg ≠ "" ∧ Config.ControlAPIPassword cfg ≠ "".

Lemma authorized_spec r : authorized r = true ↔ has_credentials r.
Proof using Type.
  unfold authorized, has_credentials. destruct (BasicAuth r) as [[u p]|].
  - rewrite andb_true_iff, !constantTimeEqual_spec. split.
    + by intros [[? ->] [? ->]].
    + by intros ([= -> ->] & ? & ?).
  - split; [done|]. by intros (? & _).
Qed.

(** The handlers that are reached without credentials. *)
Definition public (h : handler) : bool :=
  match h with Healthz | Ready | Startup | OpenAPIJSON | SwaggerUI => true | _ => false end.

Lemma dispatch_public r h : dispatch r = To false h → public h = true.
Proof using Type.
  unfold dispatch, match_route. case_match; [done|].
  destruct (list_find _ routes) as [[i [[pat auth] h']]|] eqn:E; [|done]. intros [= -> ->].
  apply list_find_Some in E as (Hl & _ & _). apply list_elem_of_lookup_2 in Hl.
  assert (Hall : Forall (λ rt : string * bool * handler, rt.1.2 || public rt.2 = true) routes)
    by (by repeat constructor).
  rewrite Forall_forall in Hall. by apply Hall in Hl.
Qed.

(** C6: the control API without the credentials.  A request that does not carry the
    user and the password of the configuration, and any request when one of them is
    empty, changes no tunnel and closes none; what it is answered does not depend on the
    sessions, the tunnels or the files; and every page of the administration answers
    401. *)
Theorem api_needs_credentials (mid : M → M) (w w' : world) (r : request) (m m' : option M) :
  ¬ has_credentials r →
  now w = now w' → is_Some (sesiones w) ↔ is_Some (sesiones w') → is_Some m ↔ is_Some m' →
  let '(a, m1, eff) := serve mid w r m in
  m1 = m ∧ eff = [] ∧ a = (serve mid w' r m').1.1
  ∧ ∀ h, dispatch r = To true h → ∃ resp, a = Response resp ∧ Status resp = 401%Z.
Proof using Type.
  intros Hc Hn Hs Hm. unfold serve. destruct (dispatch r) as [p| |auth h] eqn:Ed; [done..|].
  destruct auth.
  - unfold withAuth. destruct (authorized r) eqn:Ea; [by apply authorized_spec in Ea|].
    simpl. split_and!; [done..|]. intros h' _. by eexists.
  - apply dispatch_public in Ed.
    destruct h; try discriminate Ed; unfold handle; simpl;
      (split_and!; [done|done| |done]); f_equal; try done.
    + unfold handleHealthz. by rewrite Hn.
    + unfold handleReady. rewrite Hn. by rewrite (bool_decide_ext _ _ Hs), (bool_decide_ext _ _ Hm).
    + unfold handleStartup. by rewrite Hn.
Qed.

(** ** Closing a tunnel *)

(** The change a request made: one tunnel, which was there, is closed. *)
Definition closes (mid : M → M) (m : option M) (id : string) (o : outcome) : Prop :=
  ∃ m0 tun cerrado m1, m = Some m0 ∧ Tunnels.ctl_get m0 id = Some tun
    ∧ Tunnels.ctl_close (mid m0) id = (cerrado, m1, o.2) ∧ o.1.2 = Some m1
    ∧ Status o.1.1 = 200%Z.

Lemma lookupAndClose_cases mid m id closed :
  closes mid m id (lookupAndClose mid m id closed)
  ∨ (lookupAndClose mid m id closed).1.2 = m ∧ (lookupAndClose mid m id closed).2 = [].
Proof using Type.
  unfold lookupAndClose, closes. destruct m as [m0|]; [|by right].
  destruct (Tunnels.ctl_get m0 id) as [tun|] eqn:Eg; [|by right]. left.
  destruct (Tunnels.ctl_close (mid m0) id) as [[cerrado m1] eff] eqn:Ec. simpl.
  by exists m0, tun, cerrado, m1.
Qed.

Lemma part_TrimPrefix s p : ∃ l r, s = l +:+ TrimPrefix s p +:+ r.
Proof using Type.
  unfold TrimPrefix. destruct (strip_prefix p s) as [t|] eqn:E.
  - apply strip_prefix_spec in E. exists p, "". by rewrite string_app_nil_r.
  - exists "", "". by rewrite string_app_nil_r.
Qed.

Lemma part_CutByte s c : ∃ l r, s = l +:+ (CutByte s c).1.1 +:+ r.
Proof using Type.
  exists "". induction s as [|a s (r & IH)]; [by exists ""|]. simpl.
  case_bool_decide; [by eexists|]. destruct (CutByte s c) as [[b r'] ok]. simpl in *.
  exists r. rewrite IH at 1. done.
Qed.

Definition part (t s : string) : Prop := ∃ l r, s = l +:+ t +:+ r.

Lemma part_trans s t u : part s t → part t u → part s u.
Proof using Type.
  intros (l1 & r1 & ->) (l2 & r2 & ->). exists (l2 +:+ l1), (r1 +:+ r2).
  by rewrite !string_app_assoc.
Qed.

(** A change made by a handler, with the request that asked for it. *)
Definition asked (mid : M → M) (r : request) (m : option M) (o : outcome) : Prop :=
  ∃ id, (Method r = "DELETE" ∨ Method r = "POST") ∧ id ≠ "" ∧ part id (Path r)
        ∧ closes mid m id o.

Lemma asked_intro mid r m id closed :
  Method r = "DELETE" ∨ Method r = "POST" → id ≠ "" → part id (Path r) →
  let o := lookupAndClose mid m id closed in asked mid r m o ∨ o.1.2 = m ∧ o.2 = [].
Proof using Type.
  intros Hm Hi Hp o. destruct (lookupAndClose_cases mid m id closed) as [H|H]; [left|by right].
  by exists id.
Qed.

Lemma handle_asked mid h w r m :
  let o := handle mid h w r m in asked mid r m o ∨ o.1.2 = m ∧ o.2 = [].
Proof using Type.
  destruct h; try (by right); simpl.
  - unfold handleV1TunnelByID, closeTunnelByID.
    set (path := TrimSpace (TrimPrefix (Path r) "/api/v1/admin/tunnels/")).
    assert (Hp : part (TrimSpace (CutByte path PathGuard.slash).1.1) (Path r)).
    { eapply part_trans; [apply TrimSpace_factor|]. eapply part_trans; [apply part_CutByte|].
      eapply part_trans; [apply TrimSpace_factor|]. apply part_TrimPrefix. }
    destruct (CutByte path PathGuard.slash) as [[id action] [|]]; simpl in Hp;
      repeat case_bool_decide; simpl; try (by right); (apply asked_intro; [|done|done]); auto.
  - unfold handleTunnelByID.
    set (id := TrimSpace _).
    assert (Hp : part id (Path r)).
    { eapply part_trans; [apply TrimSpace_factor|]. eapply part_trans; apply part_TrimPrefix. }
    repeat case_bool_decide; simpl; try (by right). apply asked_intro; [by left|done|done].
Qed.

(** C28: what the control API can change.  If a request changes the tunnels or has an
    effect on one, it carries the credentials, it is a DELETE or a POST, and it closed
    one tunnel, which is named in its path and was there when it was looked up; the
    answer is 200, that tunnel is gone and every other one is untouched. *)
Theorem api_close_sound (mid : M → M) (w : world) (r : request) (m m' : option M) (a : answer)
    (eff : list Tunnels.effect) :
  serve mid w r m = (a, m', eff) → ¬ (m' = m ∧ eff = []) →
  has_credentials r ∧ (Method r = "DELETE" ∨ Method r = "POST")
  ∧ ∃ id m0 tun resp m1, part id (Path r) ∧ m = Some m0 ∧ m' = Some m1
      ∧ Tunnels.ctl_get m0 id = Some tun ∧ a = Response resp ∧ Status resp = 200%Z
      ∧ Tunnels.ctl_get m1 id = None
      ∧ ∀ id', id' ≠ id → Tunnels.ctl_get m1 id' = Tunnels.ctl_get (mid m0) id'.
Proof using Type.
  unfold serve. destruct (dispatch r) as [p| |auth h] eqn:Ed; [intros [= <- <- <-]; tauto..|].
  intros Hs Hch.
  destruct auth; [unfold withAuth in Hs; destruct (authorized r) eqn:Ea; simpl in Hs|].
  - pose proof (handle_asked mid h w r m) as Hh.
    destruct (handle mid h w r m) as [[resp m2] eff2]. simplify_eq. simpl in Hh.
    destruct Hh as [(id & Hm & Hi & Hp & m0 & tun & cerrado & m1 & E0 & Eg & Ec & E1 & Hst)|]; [|tauto].
    simpl in *. split; [by apply authorized_spec|]. split; [done|].
    exists id, m0, tun, resp, m1. split_and!; try done.
    + pose proof (Tunnels.ctl_close_get (mid m0) id id) as H. rewrite Ec in H. simpl in H.
      by rewrite decide_True in H.
    + intros id' Hne. pose proof (Tunnels.ctl_close_get (mid m0) id id') as H.
      rewrite Ec in H. simpl in H. by rewrite decide_False in H.
  - simplify_eq. tauto.
  - apply dispatch_public in Ed. destruct h; try discriminate Ed; simpl in Hs; simplify_eq; tauto.
Qed.

(** ** Requests that close a tunnel *)

(** An identifier that can be written in a path as it is. *)
Definition plain_id (id : string) : Prop :=
  PathGuard.plain id ∧ all_visible id = true ∧ contains_byte "%"%char id = false.

(** The four requests of the API that name a tunnel to close. *)
Definition closing_request (id : string) (r : request) : Prop :=
  (Method r = "DELETE" ∧ EscapedPath r = "/api/v1/admin/tunnels/" +:+ id)
  ∨ (Method r = "POST" ∧ EscapedPath r = "/api/v1/admin/tunnels/" +:+ id +:+ "/close")
  ∨ (Method r = "DELETE" ∧ EscapedPath r = "/api/admin/tunnels/" +:+ id)
  ∨ (Method r = "DELETE" ∧ EscapedPath r = "/api/admin/tuneles/" +:+ id).

Lemma pathUnescape_id s : contains_byte "%"%char s = false → pathUnescape s = s.
Proof using Type.
  intros H. unfold pathUnescape. assert (E : unescape s = Some s); [|by rewrite E].
  induction s as [|a s IH]; [done|]. simpl in H. apply orb_false_iff in H as [Ha H].
  apply bool_decide_eq_false in Ha. specialize (IH H). simpl. rewrite IH.
  destruct a as [[] [] [] [] [] [] [] []]; try done.
Qed.

Lemma contains_byte_rev c s : contains_byte c (string_rev s) = contains_byte c s.
Proof using Type.
  induction s as [|a s IH]; [done|]. rewrite string_rev_cons, contains_byte_app, IH. simpl.
  by rewrite orb_false_r, orb_comm.
Qed.

Lemma no_slash_end l c :
  c ≠ "" → contains_byte PathGuard.slash c = false →
  HasPrefix (string_rev (l +:+ c)) "/" = false.
Proof using Type.
  intros Hc Hs. rewrite string_rev_app_distr. rewrite <-contains_byte_rev in Hs.
  destruct (string_rev c) as [|a s] eqn:E.
  - exfalso. apply Hc. by rewrite <-(string_rev_involutive c), E.
  - rewrite string_app_cons. simpl in Hs. apply orb_false_iff in Hs as [Ha _].
    apply bool_decide_eq_false in Ha. unfold HasPrefix. simpl.
    by rewrite bool_decide_eq_false_2 by (intros <-; by apply Ha).
Qed.

Lemma join_last cs c : ∃ l, PathGuard.join_path true (cs ++ [c]) = l +:+ c.
Proof using Type.
  unfold PathGuard.join_path. assert (∃ l, String.concat "/" (cs ++ [c]) = l +:+ c) as [l ->].
  { induction cs as [|x cs [l IH]]; [by exists ""|].
    destruct (cs ++ [c]) as [|y ys] eqn:E; [by destruct cs|].
    exists (x +:+ "/" +:+ l). rewrite <-app_comm_cons, E.
    change (String.concat "/" (x :: y :: ys)) with (x +:+ "/" +:+ String.concat "/" (y :: ys)).
    rewrite IH. by rewrite !string_app_assoc. }
  exists ("/" +:+ l). by rewrite string_app_assoc.
Qed.

Lemma cleanPath_join cs c :
  Forall PathGuard.plain (cs ++ [c]) →
  cleanPath (PathGuard.join_path true (cs ++ [c])) = PathGuard.join_path true (cs ++ [c]).
Proof using Type.
  intros Hf. unfold cleanPath. rewrite bool_decide_eq_false_2 by done.
  change (HasPrefix (PathGuard.join_path true (cs ++ [c])) "/") with true. cbv iota zeta.
  rewrite PathGuard.Clean_join by done.
  destruct (join_last cs c) as [l E]. rewrite E, no_slash_end; [done|..];
    apply Forall_app in Hf as [_ Hf]; by apply Forall_singleton in Hf as (? & ? & ? & ?).
Qed.

Lemma segments_join cs :
  cs ≠ [] → Forall PathGuard.plain cs → Forall (λ c, contains_byte "%"%char c = false) cs →
  segments (PathGuard.join_path true cs) = cs.
Proof using Type.
  intros Hne Hf Hp. unfold segments, PathGuard.join_path.
  change ("/" +:+ String.concat "/" cs)
    with (String PathGuard.slash (String.concat (String PathGuard.slash "") cs)).
  cbv beta iota. rewrite PathGuard.SplitByte_concat by (try apply PathGuard.plain_free; done).
  induction Hp as [|c cs Hc Hp IH]; [done|]. apply Forall_cons in Hf as [_ Hf]. csimpl.
  rewrite pathUnescape_id by done. f_equal. destruct cs; [done|]. by apply IH.
Qed.

Lemma dispatch_join method creds cs c :
  Forall PathGuard.plain (cs ++ [c]) →
  Forall (λ c, contains_byte "%"%char c = false) (cs ++ [c]) →
  dispatch (mkRequest method (PathGuard.join_path true (cs ++ [c])) creds)
  = match list_find (λ rt : string * bool * handler,
                       takes (segments rt.1.1) (cs ++ [c]) = true) routes with
    | Some (_, (_, auth, h)) => To auth h
    | None => NotFound
    end.
Proof using Type.
  intros Hf Hp. unfold dispatch, match_route. cbn [EscapedPath Method].
  rewrite cleanPath_join by done. rewrite (bool_decide_eq_true_2 (_ = PathGuard.join_path _ _)) by done.
  rewrite andb_false_r. rewrite segments_join by (try done; by destruct cs).
  by destruct (list_find _ routes) as [[? [[? ?] ?]]|].
Qed.

Ltac plain_segments :=
  repeat (apply Forall_cons; split); try apply Forall_nil; try done;
  repeat match goal with |- PathGuard.plain _ => split_and!; done end.

(** The request and its tunnel reach the same handler on every name. *)
Lemma closing_dispatch id r :
  plain_id id → closing_request id r →
  dispatch r = To true (if HasPrefix (EscapedPath r) "/api/v1" then V1TunnelByID else TunnelByID).
Proof using Type.
  intros (Hid & Ht & Hp). destruct r as [method path creds]. unfold closing_request. simpl.
  assert (Hc : PathGuard.plain "close") by (split_and!; done).
  intros [[-> ->]|[[-> ->]|[[-> ->]|[-> ->]]]].
  - by rewrite (dispatch_join _ _ ["api"; "v1"; "admin"; "tunnels"] id) by plain_segments.
  - by rewrite (dispatch_join _ _ ["api"; "v1"; "admin"; "tunnels"; id] "close") by plain_segments.
  - by rewrite (dispatch_join _ _ ["api"; "admin"; "tunnels"] id) by plain_segments.
  - by rewrite (dispatch_join _ _ ["api"; "admin"; "tuneles"] id) by plain_segments.
Qed.

Lemma TrimPrefix_app p s : TrimPrefix (p +:+ s) p = s.
Proof using Type.
  unfold TrimPrefix. by rewrite (proj2 (strip_prefix_spec p (p +:+ s) s)).
Qed.

Lemma TrimPrefix_slash p s :
  contains_byte PathGuard.slash s = false → TrimPrefix s (String PathGuard.slash p) = s.
Proof using Type.
  destruct s as [|a s]; [done|]. simpl. intros H. apply orb_false_iff in H as [Ha _].
  apply bool_decide_eq_false in Ha. unfold TrimPrefix. simpl.
  by rewrite bool_decide_eq_false_2 by (intros <-; by apply Ha).
Qed.

Lemma CutByte_none s c : contains_byte c s = false → CutByte s c = (s, "", false).
Proof using Type.
  induction s as [|a s IH]; [done|]. simpl. intros H. apply orb_false_iff in H as [Ha H].
  by rewrite Ha, IH.
Qed.

(** The payload of the answer of the handler. *)
Definition close_payload (w : world) (id : string) (v1 cerrado : bool) (tunel : Tunnels.Tunnel)
    : list (string * json) :=
  if v1 then
    [("cerrado", JBool cerrado); ("id", JString id); ("version_api", JString apiVersion);
     ("marca_tiempo", JTime (now w)); ("tunel", Persistence.tunnel_json tunel)]
  else [("cerrado", JBool cerrado); ("tunel", Persistence.tunnel_json tunel)].

Lemma closing_handle mid w id r m :
  plain_id id → closing_request id r →
  let v1 := HasPrefix (EscapedPath r) "/api/v1" in
  handle mid (if v1 then V1TunnelByID else TunnelByID) w r m
  = lookupAndClose mid m id (close_payload w id v1).
Proof using Type.
  intros ((Hne & _ & _ & Hs) & Hv & Hp). destruct r as [method path creds].
  unfold closing_request. simpl.
  intros [[-> ->]|[[-> ->]|[[-> ->]|[-> ->]]]];
    unfold handle, handleV1TunnelByID, handleTunnelByID, closeTunnelByID, Path;
    cbn [EscapedPath Method];
    (rewrite pathUnescape_id by (rewrite ?contains_byte_app, Hp; done)).
  - rewrite TrimPrefix_app, (TrimSpace_visible id), CutByte_none, (TrimSpace_visible id) by done.
    by rewrite bool_decide_eq_false_2 by done.
  - rewrite TrimPrefix_app, TrimSpace_visible by (rewrite all_visible_app, Hv; done).
    change (id +:+ "/close") with (id +:+ String PathGuard.slash "close").
    rewrite CutByte_app, (TrimSpace_visible id) by done.
    by rewrite bool_decide_eq_false_2 by done.
  - change (HasPrefix _ "/api/v1") with false. cbv iota.
    rewrite TrimPrefix_app, TrimPrefix_slash, (TrimSpace_visible id) by done.
    by rewrite bool_decide_eq_false_2 by done.
  - change (HasPrefix _ "/api/v1") with false. cbv iota.
    change (TrimPrefix ("/api/admin/tuneles/" +:+ id) "/api/admin/tunnels/")
      with ("/api/admin/tuneles/" +:+ id).
    rewrite TrimPrefix_app, (TrimSpace_visible id) by done.
    by rewrite bool_decide_eq_false_2 by done.
Qed.

(** C29: every tunnel can be closed through the control API.  With the credentials, each
    of the four requests that name a tunnel closes it if it is there, whatever other
    goroutines do between the lookup and the closing, answers 200 and says whether it
    was this request that closed it; if it is not there, the answer is 404 and nothing
    changes. *)
Theorem api_close_complete (mid : M → M) (w : world) (r : request) (id : string) (m0 : M) :
  has_credentials r → plain_id id → closing_request id r →
  let '(a, m', eff) := serve mid w r (Some m0) in
  ∃ resp, a = Response resp ∧
  match Tunnels.ctl_get m0 id with
  | None => Status resp = 404%Z ∧ m' = Some m0 ∧ eff = []
  | Some tun =>
     ∃ cerrado m1, Tunnels.ctl_close (mid m0) id = (cerrado, m1, eff) ∧ m' = Some m1
       ∧ (cerrado = true ↔ is_Some (Tunnels.ctl_get (mid m0) id))
       ∧ resp = writeJSON 200
                  (close_payload w id (HasPrefix (EscapedPath r) "/api/v1") cerrado tun)
  end.
Proof using Type.
  intros Hc Hid Hr. unfold serve. rewrite (closing_dispatch id) by done.
  unfold withAuth. rewrite (proj2 (authorized_spec r)) by done. cbn [negb].
  rewrite (closing_handle _ _ id) by done. unfold lookupAndClose.
  destruct (Tunnels.ctl_get m0 id) as [tun|]; [|by eexists].
  pose proof (Tunnels.ctl_close_found (mid m0) id) as Hf.
  destruct (Tunnels.ctl_close (mid m0) id) as [[cerrado m1] eff]. simpl in Hf.
  eexists. split; [done|]. by exists cerrado, m1.
Qed.

End Server.

(** ** Examples *)

Definition demo_manager : Tunnels.t :=
  (Tunnels.OpenLocal (Tunnels.NewManager (Tunnels.mkHooks true true)) (5 * Second)%Z
     "sess-000001" "ana" "db:5432" "10.0.0.7:5000" (Some 7%nat)).1.2.

Definition demo_world : world :=
  mkWorld (9 * Second)%Z (Ok "/srv") Persistence.demo_fs (Some (∅, Session.NewRegistry)).

Definition no_json {T} (s : string) : result string T := Err "unexpected end of JSON input".

Definition demo_request (method path : string) (creds : option (string * string)) : request :=
  mkRequest method path creds.

Definition demo_close : request :=
  demo_request "POST" "/api/v1/admin/tunnels/tun-000001/close" (Some ("admin", "secret")).

Lemma demo_credentials : has_credentials (Config.defaults "secret") demo_close.
Proof. by vm_compute. Qed.

Lemma demo_plain : plain_id "tun-000001".
Proof. split; [split_and!; done|]. by vm_compute. Qed.

(** Nobody else uses the tunnels. *)
Definition alone (m : Tunnels.t) : Tunnels.t := m.

(** The server of the examples. *)
Definition demo_serve (r : request) (m : Tunnels.t) :=
  serve (Config.defaults "secret") "spec" "page" no_json no_json alone demo_world r (Some m).

Lemma api_needs_credentials_witness :
  let r := demo_request "DELETE" "/api/admin/tunnels/tun-000001" (Some ("admin", "")) in
  ¬ has_credentials (Config.defaults "secret") r
  ∧ let '(a, m1, eff) := demo_serve r demo_manager in
    m1 = Some demo_manager ∧ eff = []
    ∧ a = (demo_serve r (Tunnels.NewManager (Tunnels.mkHooks true true))).1.1
    ∧ ∀ h, dispatch r = To true h → ∃ resp, a = Response resp ∧ Status resp = 401%Z.
Proof.
  intros r. assert (Hc : ¬ has_credentials (Config.defaults "secret") r) by by intros [[=] _].
  split; [exact Hc|].
  apply (api_needs_credentials (Config.defaults "secret") "spec" "page" no_json no_json
           alone demo_world demo_world r (Some demo_manager)
           (Some (Tunnels.NewManager (Tunnels.mkHooks true true))) Hc eq_refl); done.
Defined.

Lemma api_close_sound_witness :
  let '(a, m', eff) := demo_serve demo_close demo_manager in
  has_credentials (Config.defaults "secret") demo_close
  ∧ ∃ id m0 tun resp m1, part id (Path demo_close) ∧ Some demo_manager = Some m0 ∧ m' = Some m1
      ∧ Tunnels.Get m0 id = Some tun ∧ a = Response resp ∧ Status resp = 200%Z
      ∧ Tunnels.Get m1 id = None.
Proof.
  destruct (demo_serve demo_close demo_manager) as [[a m'] eff] eqn:E.
  assert (He : eff ≠ []).
  { replace eff with (demo_serve demo_close demo_manager).2 by by rewrite E. by vm_compute. }
  destruct (api_close_sound (Config.defaults "secret") "spec" "page" no_json no_json
              alone demo_world demo_close (Some demo_manager) m' a eff E)
    as (Hc & _ & id & m0 & tun & resp & m1 & H1 & H2 & H3 & H4 & H5 & H6 & H7 & _).
  { intros [_ H]. exact (He H). }
  split; [exact Hc|]. exists id, m0, tun, resp, m1.
  exact (conj H1 (conj H2 (conj H3 (conj H4 (conj H5 (conj H6 H7)))))).
Defined.

Lemma api_close_complete_witness :
  closing_request "tun-000001" demo_close
  ∧ let '(a, m', eff) := demo_serve demo_close demo_manager in
    ∃ resp, a = Response resp ∧
    match Tunnels.ctl_get demo_manager "tun-000001" with
    | None => Status resp = 404%Z ∧ m' = Some demo_manager ∧ eff = []
    | Some tun =>
       ∃ cerrado m1, Tunnels.ctl_close (alone demo_manager) "tun-000001" = (cerrado, m1, eff)
         ∧ m' = Some m1 ∧ (cerrado = true ↔ is_Some (Tunnels.ctl_get (alone demo_manager) "tun-000001"))
         ∧ resp = writeJSON 200
                    (close_payload demo_world "tun-000001"
                       (HasPrefix (EscapedPath demo_close) "/api/v1") cerrado tun)
    end.
Proof.
  assert (Hr : closing_request "tun-000001" demo_close) by (right; left; split; reflexivity).
  split; [exact Hr|]. unfold demo_serve.
  pose proof (api_close_complete (Config.defaults "secret") "spec" "page" no_json no_json alone
    demo_world demo_close "tun-000001" demo_manager demo_credentials demo_plain Hr) as H.
  exact H.
Defined.

End HTTPAPI.
