(* ===== verification/ControlAPI.v ===== *)
(** * The control API as it is started ([internal/controlplane/httpapi/])

    [New], the server of [Start] with its middleware around the routes, and the two
    documents the API publishes about itself: the page of [handleSwaggerUI], and the
    operations of the file [openapi.json], which is embedded in the program.  The
    theorems say that what is documented is what is served, and that the middleware
    marks every response and changes nothing else. *)

From S2P Require Import Prelude GoStrings Session Tunnels GoTime JSON PathGuard Config Persistence.
From S2P Require Import Telemetry HTTPAPI.

Module ControlAPI.
Import HTTPAPI.

(** ** The server *)

(** [Server]; a nil registry or controller is [None]. *)
Record Server (M : Type) := mkServer {
  cfg : Config.t;
  registry : option Session.Registry;
  tuneles : option M;
}.
Arguments mkServer {M} _ _ _.

(** [New] *)
Definition New {M} (cfg : Config.t) (sesiones : option Session.Registry) (tuneles : option M)
    : Server M := mkServer cfg sesiones tuneles.

(** The fields of [http.Server] that [Start] sets, and the files of the certificate. *)
Record httpServer := mkHTTPServer {
  Addr : string;
  ReadHeaderTimeout : Duration;
  ReadTimeout : Duration;
  WriteTimeout : Duration;
  IdleTimeout : Duration;
  MinVersion : Z;
  TLSFiles : string * string;
}.

Definition VersionTLS12 : Z := 771.

(** [Start] up to [ListenAndServeTLS]: nothing when the API is disabled, the error of the
    certificate, or the server that listens. *)
Definition Start (cfg : Config.t) (certificate : option string)
    : option (result string httpServer) :=
  if negb (Config.ControlAPIEnabled cfg) then None
  else match certificate with
  | Some e => Some (Err ("preparar certificado de la API de control: " +:+ e))
  | None =>
     Some (Ok (mkHTTPServer (Config.ControlAPIAddr cfg) (5 * Second)%Z (Config.ReadTimeout cfg)
                 (Config.WriteTimeout cfg) (Config.IdleTimeout cfg) VersionTLS12
                 (Config.ControlAPICertPath cfg, Config.ControlAPIKeyPath cfg)))
  end.

(** ** The page of the documentation *)

(** A row of a table: the method, the path, what it is for and how it is protected. *)
Record row := mkRow { RMethod : string; RPath : string; RUso : string; RAuth : string }.

Definition health_rows : list row :=
  [mkRow "GET" "/healthz/live" "Liveness probe" "No";
   mkRow "GET" "/healthz/ready" "Readiness probe" "No";
   mkRow "GET" "/healthz/startup" "Startup probe" "No"].
Definition admin_rows : list row :=
  [mkRow "GET" "/api/v1/admin/status" "Estado general" "Basic";
   mkRow "GET" "/api/v1/admin/sessions" "Sesiones activas" "Basic";
   mkRow "GET" "/api/v1/admin/tunnels" "Túneles activos" "Basic";
   mkRow "POST" "/api/v1/admin/tunnels/{id}/close" "Cerrar túnel" "Basic"].

(** The lines of the page before, between and after the rows; an apostrophe stands for a
    double quote. *)
Definition page_top : list string :=
  ["<!doctype html>";
   "<html lang='es'>";
   "<head>";
   "  <meta charset='utf-8'>";
   "  <title>SentinelOps API v1</title>";
   "  <meta name='viewport' content='width=device-width, initial-scale=1'>";
   "  <style>";
   "    body { font-family: system-ui, sans-serif; margin: 2rem; line-height: 1.5; }";
   "    code { background: #f2f2f2; padding: 0.1rem 0.3rem; }";
   "    pre { background: #f7f7f7; padding: 1rem; overflow: auto; }";
   "    table { border-collapse: collapse; width: 100%; }";
   "    th, td { border: 1px solid #ddd; padding: 0.5rem; text-align: left; }";
   "  </style>";
   "</head>";
   "<body>";
   "  <h1>SentinelOps API v1</h1>";
   "  <p>Documentación ligera compatible con OpenAPI. La especificación JSON está disponible en <code>/api/v1/docs/swagger.json</code>.</p>";
   "  <h2>Health checks</h2>";
   "  <table>";
   "    <tr><th>Método</th><th>Ruta</th><th>Uso</th><th>Auth</th></tr>"].
Definition page_middle : list string :=
  ["  </table>";
   "  <h2>API administrativa</h2>";
   "  <table>";
   "    <tr><th>Método</th><th>Ruta</th><th>Uso</th><th>Auth</th></tr>"].
Definition page_bottom : list string :=
  ["  </table>";
   "  <h2>Ejemplos</h2>";
   "  <pre>curl -k https://localhost:9443/healthz/ready";
   "curl -k -u '$APP_CONTROL_API_USER:$APP_CONTROL_API_PASSWORD' https://localhost:9443/api/v1/admin/status";
   "curl -k https://localhost:9443/api/v1/docs/swagger.json</pre>";
   "</body>";
   "</html>"].

Fixpoint quotes (s : string) : string :=
  match s with
  | "" => ""
  | String a s => String (if bool_decide (a = "'"%char) then byte_of 34 else a) (quotes s)
  end.

Definition render_row (r : row) : string :=
  "    <tr><td>" +:+ RMethod r +:+ "</td><td>" +:+ RPath r +:+ "</td><td>" +:+ RUso r
  +:+ "</td><td>" +:+ RAuth r +:+ "</td></tr>".

Definition swaggerHTML : string :=
  quotes (String.concat newline
    (page_top ++ (render_row <$> health_rows) ++ page_middle ++ (render_row <$> admin_rows)
     ++ page_bottom)).

(** ** The operations of [openapi.json] *)

(** A path, a method, whether it asks for [BasicAuth], and the codes it answers. *)
Record operation := mkOperation {
  OPath : string;
  OMethod : string;
  OSecured : bool;
  OStatuses : list Z;
}.

Definition operations : list operation :=
  [mkOperation "/healthz" "GET" false [200%Z];
   mkOperation "/healthz/live" "GET" false [200%Z];
   mkOperation "/healthz/ready" "GET" false [200%Z];
   mkOperation "/healthz/startup" "GET" false [200%Z];
   mkOperation "/api/v1/admin/status" "GET" true [200%Z; 401%Z];
   mkOperation "/api/v1/admin/sessions" "GET" true [200%Z; 401%Z];
   mkOperation "/api/v1/admin/tunnels" "GET" true [200%Z; 401%Z];
   mkOperation "/api/v1/admin/tunnels/{id}/close" "POST" true [200%Z; 401%Z; 404%Z];
   mkOperation "/api/v1/docs/swagger.json" "GET" false [200%Z];
   mkOperation "/api/v1/docs/swagger/" "GET" false [200%Z]].

(** The path of a request for an operation: the parameter takes its value. *)
Definition instantiate (id template : string) : string :=
  match template with
  | String _ p =>
     "/" +:+ String.concat "/" ((λ s, if bool_decide (s = "{id}") then id else s)
                                  <$> SplitByte p PathGuard.slash)
  | "" => ""
  end.

(** ** The handler of the server *)

Section Handler.
Context {M : Type} `{C : !Tunnels.Controller M} `{MR : MapRange} `{PR : Telemetry.Propagation}.
Context (cfg : Config.t) (openAPISpec : string).
Context (unmarshalSessions : string → result string (Persistence.SnapshotFile Session.Snapshot))
        (unmarshalTunnels : string → result string (Persistence.SnapshotFile Tunnels.Tunnel)).

Abbreviation serve := (HTTPAPI.serve cfg openAPISpec swaggerHTML unmarshalSessions unmarshalTunnels).

(** The headers after the handler has set its own. *)
Definition set_headers (h : gmap string string) (a : answer) : gmap string string :=
  match a with
  | Response resp => foldl (λ h kv, Telemetry.Set_ h kv.1 kv.2) h (Headers resp)
  | _ => h
  end.

(** [telemetry.HTTPMiddleware("control_api.request", mux)] *)
Definition handler (fresh1 fresh2 : string) (ctx : Telemetry.Context)
    (sent : gmap string string) (mid : M → M) (w : world) (r : request) (m : option M)
    : answer * option M * list Tunnels.effect * gmap string string :=
  Telemetry.HTTPMiddleware fresh1 fresh2
    (λ _ h, let '(a, m', eff) := serve mid w r m in (a, m', eff, set_headers h a))
    ctx sent ∅.

(** ** Headers *)

(** The headers the handlers set. *)
Definition handler_headers : list string :=
  ["Content-Type"; "X-Content-Type-Options"; "Cache-Control"; "WWW-Authenticate"].

Definition own_headers (resp : response) : Prop :=
  Forall (λ kv, kv.1 ∈ handler_headers) (Headers resp)
  ∧ NoDup (Telemetry.CanonicalHeaderKey <$> (Headers resp).*1).

Lemma writeJSON_own status payload : own_headers (writeJSON status payload).
Proof using Type.
  split; [|by apply (bool_decide_unpack _); vm_compute].
  repeat (apply Forall_cons; split); try done; apply (bool_decide_unpack _); by vm_compute.
Qed.

Lemma onlyGet_own r page : own_headers page → own_headers (onlyGet r page).
Proof using Type. intros H. unfold onlyGet. case_if; [apply writeJSON_own|done]. Qed.

Lemma lookupAndClose_own mid (m : option M) id closed :
  own_headers (lookupAndClose mid m id closed).1.1.
Proof using Type.
  unfold lookupAndClose. destruct m as [m0|]; [|apply writeJSON_own].
  destruct (Tunnels.ctl_get m0 id); [|apply writeJSON_own].
  destruct (Tunnels.ctl_close _ _) as [[? ?] ?]. apply writeJSON_own.
Qed.

Lemma handle_own mid h w r (m : option M) :
  own_headers (handle cfg openAPISpec swaggerHTML unmarshalSessions unmarshalTunnels
                 mid h w r m).1.1.
Proof using Type.
  destruct h; simpl; try (apply onlyGet_own); try apply writeJSON_own.
  - split; [|by apply (bool_decide_unpack _); vm_compute].
    repeat (apply Forall_cons; split); try done; apply (bool_decide_unpack _); by vm_compute.
  - split; [|by apply (bool_decide_unpack _); vm_compute].
    repeat (apply Forall_cons; split); try done; apply (bool_decide_unpack _); by vm_compute.
  - unfold handleV1TunnelByID, closeTunnelByID. destruct (CutByte _ _) as [[id action] has].
    repeat case_match; first [apply writeJSON_own|apply lookupAndClose_own].
  - unfold handleTunnelByID. repeat case_match; first [apply writeJSON_own|apply lookupAndClose_own].
  - unfold persisted. repeat case_match; apply writeJSON_own.
  - unfold persisted. repeat case_match; apply writeJSON_own.
Qed.

Lemma serve_own mid w r (m : option M) resp m' eff :
  serve mid w r m = (Response resp, m', eff) → own_headers resp.
Proof using Type.
  unfold HTTPAPI.serve. destruct (dispatch r) as [| |auth h]; [done..|].
  pose proof (handle_own mid h w r m) as Ho.
  destruct (handle _ _ _ _ _ mid h w r m) as [[resp0 m0] eff0] eqn:E. simpl in Ho.
  destruct auth; [|by intros [= -> -> ->]].
  unfold withAuth. destruct (authorized cfg r); simpl; [by intros [= -> -> ->]|].
  intros [= <- <- <-]. split; [|by apply (bool_decide_unpack _); vm_compute].
  repeat (apply Forall_cons; split); try done; apply (bool_decide_unpack _); by vm_compute.
Qed.

Lemma set_other h (kvs : list (string * string)) k :
  (∀ kv, kv ∈ kvs → Telemetry.CanonicalHeaderKey kv.1 ≠ Telemetry.CanonicalHeaderKey k) →
  Telemetry.Get (foldl (λ h kv, Telemetry.Set_ h kv.1 kv.2) h kvs) k = Telemetry.Get h k.
Proof using Type.
  revert h. induction kvs as [|kv kvs IH]; intros h Hk; [done|]. simpl.
  rewrite IH by (intros kv' Hin; apply Hk; by right).
  unfold Telemetry.Get, Telemetry.Set_. rewrite lookup_insert_ne; [done|]. apply Hk. by left.
Qed.

Lemma set_own h (kvs : list (string * string)) k v :
  NoDup (Telemetry.CanonicalHeaderKey <$> kvs.*1) → (k, v) ∈ kvs →
  Telemetry.Get (foldl (λ h kv, Telemetry.Set_ h kv.1 kv.2) h kvs) k = v.
Proof using Type.
  revert h. induction kvs as [|kv kvs IH]; intros h Hn Hin; [by apply elem_of_nil in Hin|].
  csimpl in *. apply NoDup_cons in Hn as [Hk Hn]. apply elem_of_cons in Hin as [<-|Hin];
    [|by apply IH].
  rewrite set_other; [apply Telemetry.Get_Set|]. intros kv' Hin' He. apply Hk. simpl.
  rewrite <-He. by do 2 apply list_elem_of_fmap_2.
Qed.

(** No handler sets the headers of the middleware. *)
Lemma own_foreign resp k :
  own_headers resp → k = Telemetry.CorrelationIDHeader ∨ k = Telemetry.TraceIDHeader →
  ∀ kv, kv ∈ Headers resp → Telemetry.CanonicalHeaderKey kv.1 ≠ Telemetry.CanonicalHeaderKey k.
Proof using Type.
  intros [Hf _] Hk kv Hin. rewrite Forall_forall in Hf. apply Hf in Hin. unfold handler_headers in Hin.
  repeat (apply elem_of_cons in Hin as [->|Hin]; [by destruct Hk as [->| ->]; vm_compute|]).
  by apply elem_of_nil in Hin.
Qed.

(** The middleware of the control API.  Every answer of the server, the refusals,
    redirections and unknown names among them, is what the routes answer, with the same
    status, body and effect on the tunnels and with every header the handler set; and it
    carries the correlation id of the request, or a fresh one if the request had none,
    and the trace id exactly when there is a valid trace. *)
Lemma api_answers_correlated (fresh1 fresh2 : string) (ctx : Telemetry.Context)
    (sent : gmap string string) (mid : M → M) (w : world) (r : request) (m : option M) :
  let '(a, m', eff, h) := handler fresh1 fresh2 ctx sent mid w r m in
  (a, m', eff) = serve mid w r m
  ∧ Telemetry.Get h Telemetry.CorrelationIDHeader
    = (if bool_decide (Telemetry.Get sent Telemetry.CorrelationIDHeader = "") then fresh1
       else Telemetry.Get sent Telemetry.CorrelationIDHeader)
  ∧ Telemetry.Get h Telemetry.TraceIDHeader = default "" (Telemetry.trace_id ctx)
  ∧ ∀ resp k v, a = Response resp → (k, v) ∈ Headers resp → Telemetry.Get h k = v.
Proof using Type.
  unfold handler, Telemetry.HTTPMiddleware.
  set (id := if bool_decide _ then fresh1 else _).
  assert (Htr : Telemetry.trace_id (Telemetry.ContextWithCorrelationID fresh2 ctx id)
                = Telemetry.trace_id ctx).
  { unfold Telemetry.ContextWithCorrelationID. destruct (Telemetry.NewMember _ _); [|done].
    by destruct (Telemetry.NewBaggage _ _). }
  cbn [Telemetry.trace_id]. rewrite Htr. clear Htr.
  set (h0 := match Telemetry.trace_id ctx with Some _ => _ | None => _ end).
  assert (Hid : Telemetry.Get h0 Telemetry.CorrelationIDHeader = id).
  { unfold h0. destruct (Telemetry.trace_id ctx); [|apply Telemetry.Get_Set].
    unfold Telemetry.Get, Telemetry.Set_. rewrite lookup_insert_ne by done. by rewrite lookup_insert_eq. }
  assert (Ht : Telemetry.Get h0 Telemetry.TraceIDHeader = default "" (Telemetry.trace_id ctx)).
  { unfold h0. destruct (Telemetry.trace_id ctx); [by apply Telemetry.Get_Set|].
    unfold Telemetry.Get, Telemetry.Set_. by rewrite lookup_insert_ne. }
  clearbody h0. destruct (serve mid w r m) as [[a m'] eff] eqn:E. split; [done|].
  destruct a as [resp|path|]; simpl; [|by split_and!..].
  apply serve_own in E. rewrite !set_other by (apply own_foreign; auto).
  split; [done|]. split; [done|]. intros resp' k v [= <-] Hin. apply set_own; [apply E|done].
Qed.

(** ** What is documented is served *)

Lemma documented_get path auth h creds :
  dispatch (mkRequest "GET" path creds) = To auth h →
  match h with
  | Healthz | Ready | Startup | OpenAPIJSON | SwaggerUI | StatusPage | Sessions | TunnelsPage => True
  | _ => False
  end → ∀ mid w (m : option M),
  ∃ resp, serve mid w (mkRequest "GET" path creds) m = (Response resp, m, [])
    ∧ Status resp = (if auth && negb (authorized cfg (mkRequest "GET" path creds)) then 401%Z
                     else 200%Z).
Proof using Type.
  intros Hd Hh mid w m. unfold HTTPAPI.serve. rewrite Hd. unfold withAuth.
  destruct auth; [destruct (authorized cfg _)|]; destruct h; try done; by eexists.
Qed.

(** An operation is served as documented, for the value of its parameter. *)
Definition served (op : operation) : Prop := ∀ id creds mid w (m0 : M),
  plain_id id →
  let r := mkRequest (OMethod op) (instantiate id (OPath op)) creds in
  ∃ h resp m' eff, dispatch r = To (OSecured op) h
    ∧ serve mid w r (Some m0) = (Response resp, m', eff)
    ∧ Status resp ∈ OStatuses op
    ∧ (Status resp = 401%Z ↔ OSecured op = true ∧ ¬ has_credentials cfg r).

Lemma served_get path auth h statuses :
  (∀ id, instantiate id path = path) →
  (∀ creds, dispatch (mkRequest "GET" path creds) = To auth h) →
  match h with
  | Healthz | Ready | Startup | OpenAPIJSON | SwaggerUI | StatusPage | Sessions | TunnelsPage => True
  | _ => False
  end → 200%Z ∈ statuses → (auth = true → 401%Z ∈ statuses) →
  served (mkOperation path "GET" auth statuses).
Proof using Type.
  intros Hi Hd Hh H2 H4 id creds mid w m0 _. cbn [OMethod OPath OSecured OStatuses]. rewrite Hi.
  destruct (documented_get path auth h creds (Hd creds) Hh mid w (Some m0)) as (resp & E & Hs).
  exists h, resp, (Some m0), []. split; [done|]. split; [done|]. rewrite Hs.
  rewrite <-(authorized_spec cfg). destruct auth; [|by split; [|naive_solver]].
  destruct (authorized cfg _); simpl; (split; [auto|]); naive_solver.
Qed.

Lemma served_close :
  served (mkOperation "/api/v1/admin/tunnels/{id}/close" "POST" true [200%Z; 401%Z; 404%Z]).
Proof using Type.
  intros id creds mid w m0 Hid. cbn [OMethod OPath OSecured OStatuses].
  change (instantiate id _) with ("/api/v1/admin/tunnels/" +:+ id +:+ "/close").
  set (r := mkRequest _ _ creds).
  assert (Hr : closing_request id r) by (right; left; done).
  pose proof (closing_dispatch id r Hid Hr) as Hd. unfold HTTPAPI.serve. rewrite Hd.
  change (HasPrefix (EscapedPath r) "/api/v1") with true in *. cbv iota in *.
  pose proof (closing_handle cfg openAPISpec swaggerHTML unmarshalSessions unmarshalTunnels
    mid w id r (Some m0) Hid Hr) as Hh.
  change (HasPrefix (EscapedPath r) "/api/v1") with true in Hh. cbv zeta iota in Hh. rewrite Hh.
  pose proof (authorized_spec cfg r) as Ha. unfold withAuth.
  destruct (authorized cfg r); cbn [negb]; [|eexists _, _, _, _; split_and!; [done..|set_solver|naive_solver]].
  unfold lookupAndClose. destruct (Tunnels.ctl_get m0 id) as [tun|].
  - destruct (Tunnels.ctl_close _ _) as [[cerrado m1] eff].
    eexists _, _, _, _. split_and!; [done..|set_solver|naive_solver].
  - eexists _, _, _, _. split_and!; [done..|set_solver|naive_solver].
Qed.

Lemma operations_served : Forall served operations.
Proof using Type.
  unfold operations.
  repeat first [apply Forall_nil_2|apply Forall_cons_2; [first [exact served_close|
    eapply served_get; [done|intros creds; by vm_compute|done|set_solver|set_solver]]|]].
Qed.

(** A row of the page is an operation. *)
Definition row_documented (r : row) : bool :=
  existsb (λ op, bool_decide (OMethod op = RMethod r) && bool_decide (OPath op = RPath r)
                 && bool_decide (RAuth r = if OSecured op then "Basic" else "No")) operations.

Lemma rows_documented : forallb row_documented (health_rows ++ admin_rows) = true.
Proof using Type. by vm_compute. Qed.

(** C30: the documentation of the control API.  Every operation of [openapi.json] is
    served: a request with its method and path, the parameter replaced by any plain
    identifier, reaches a handler that asks for credentials exactly when the document
    says so, and is answered with one of the codes of the document; it is 401 exactly
    when credentials are asked for and missing.  Every row of the page of the
    documentation is one of these operations, with the same protection. *)
Theorem documented_operations_served (mid : M → M) (w : world) (m0 : M) (op : operation)
    (id : string) (creds : option (string * string)) :
  op ∈ operations → plain_id id →
  let r := mkRequest (OMethod op) (instantiate id (OPath op)) creds in
  (∃ h resp m' eff, dispatch r = To (OSecured op) h
     ∧ serve mid w r (Some m0) = (Response resp, m', eff)
     ∧ Status resp ∈ OStatuses op
     ∧ (Status resp = 401%Z ↔ OSecured op = true ∧ ¬ has_credentials cfg r))
  ∧ ∀ row, row ∈ health_rows ++ admin_rows →
      ∃ op', op' ∈ operations ∧ OMethod op' = RMethod row ∧ OPath op' = RPath row
        ∧ RAuth row = (if OSecured op' then "Basic" else "No").
Proof using Type.
  intros Hop Hid r. split.
  - pose proof operations_served as Hf. rewrite Forall_forall in Hf. by apply Hf.
  - intros row Hrow. pose proof rows_documented as Hf. rewrite forallb_forall in Hf.
    specialize (Hf row (proj1 (list_elem_of_In _ _) Hrow)). apply existsb_exists in Hf as (op' & Hin & H).
    apply andb_prop in H as [[H1 H2]%andb_prop H3]. exists op'.
    split; [by apply list_elem_of_In|]. split_and!; by eapply bool_decide_eq_true_1.
Qed.

End Handler.

(** The API closes a tunnel on a DELETE of its name too, which no document mentions. *)
Lemma delete_not_documented :
  Forall (λ op, OMethod op ≠ "DELETE") operations
  ∧ dispatch (mkRequest "DELETE" "/api/v1/admin/tunnels/tun-000001" None) = To true V1TunnelByID
  ∧ (demo_serve (mkRequest "DELETE" "/api/v1/admin/tunnels/tun-000001" (Some ("admin", "secret")))
       demo_manager).2 ≠ [].
Proof. split; [by repeat constructor|]. split; by vm_compute. Qed.

Definition demo_operation : operation :=
  mkOperation "/api/v1/admin/tunnels/{id}/close" "POST" true [200%Z; 401%Z; 404%Z].

Lemma documented_operations_served_witness :
  let r := mkRequest (OMethod demo_operation) (instantiate "tun-000001" (OPath demo_operation)) None in
  ∃ h resp m' eff, dispatch r = To true h
    ∧ serve (Config.defaults "secret") "spec" swaggerHTML no_json no_json alone demo_world r
        (Some demo_manager) = (Response resp, m', eff)
    ∧ Status resp ∈ [200%Z; 401%Z; 404%Z]
    ∧ (Status resp = 401%Z ↔ true = true ∧ ¬ has_credentials (Config.defaults "secret") r).
Proof.
  intros r. refine (proj1 (documented_operations_served (Config.defaults "secret") "spec" no_json no_json
    alone demo_world demo_manager demo_operation "tun-000001" None _ demo_plain)).
  do 7 apply list_elem_of_further. apply list_elem_of_here.
Defined.

End ControlAPI.
