(* ===== verification/Runtime.v ===== *)
(** * The server program ([cmd/server/main.go])

    How [run] and [startTransport] put the parts together, and what the hooks of the
    tunnel manager do: they count the tunnels in the metrics and save the list of
    tunnels to disk. *)

From S2P Require Import Prelude GoStrings Auth RateLimiter Session ForwardPolicy Metrics Tunnels JSON PathGuard Validator Config PolicyService AuditService Commands Conn TCPServer AuthorizedKeys SSHServer Persistence.

Module Runtime.

(** ** Putting the parts together *)

(** The transport [startTransport] runs. *)
Inductive transport (A : Type) :=
| TCP (s : TCPServer.TCPServer A) (limiter : option RateLimiter.t)
| SSH (s : SSHServer.Server A) (limiter : option RateLimiter.t).
Arguments TCP {A}.
Arguments SSH {A}.

Section Assemble.
Context {A : Type}.

(** [startTransport]; [signer] is the outcome of loading the host key. *)
Definition startTransport (cfg : Config.t) (validator : Validator.InputValidator)
    (authenticator : A) (rateLimiter : option RateLimiter.t) (registry : Commands.Registry)
    (signer : result string unit) : result string (transport A) :=
  let name := ToLower (TrimSpace (Config.Transport cfg)) in
  if bool_decide (name = "tcp") || bool_decide (name = "") then
    let '(s, l) := TCPServer.NewTCPServer cfg validator authenticator rateLimiter registry true in
    Ok (TCP s l)
  else if bool_decide (name = "ssh") then
    match signer with
    | Err e => Err ("load ssh host key: " +:+ e)
    | Ok _ =>
       let keyStore := AuthorizedKeys.NewStore (Config.SSHAuthorizedKeysDir cfg) in
       let forwardPolicy :=
         ForwardPolicy.NewPolicy
           (Config.SSHLocalForwardEnabled cfg) (Config.SSHForwardAllowlist cfg)
           (Config.SSHLocalAllowedRoles cfg) (Config.SSHRemoteForwardEnabled cfg)
           (Config.SSHRemoteBindAllowlist cfg) (Config.SSHRemoteAllowedRoles cfg) in
       let '(s, l) := SSHServer.New cfg validator authenticator rateLimiter registry
                        (Some keyStore) (Some forwardPolicy) true in
       Ok (SSH s l)
    end
  else Err ("transporte no soportado: " +:+ Config.Transport cfg).

(** The parts [run] builds from the configuration. *)
Definition stateStore (cfg : Config.t) : Persistence.Store :=
  Persistence.NewStore
    (Persistence.mkOptions (Config.StatePersistenceEnabled cfg) (Config.StateSessionsPath cfg)
       (Config.StateTunnelsPath cfg)).

Definition rateLimiter (cfg : Config.t) : RateLimiter.t :=
  RateLimiter.NewRateLimiter
    (RateLimiter.mkConfig (Config.AuthRateLimitEnabled cfg) (Config.AuthRateLimitMaxFailures cfg)
       (Config.AuthRateLimitWindow cfg) (Config.AuthRateLimitLockout cfg)).

Definition validator (grpc : bool) (cfg : Config.t) : Validator.InputValidator :=
  Validator.NewValidator grpc
    (Validator.mkOptions (Config.ValidatorMode cfg) (Config.ExternalValidatorOn cfg)
       (Config.ExternalValidatorBin cfg) (Config.ExternalValidatorOpen cfg)
       (Config.ValidatorGRPCAddr cfg) (Config.ValidatorGRPCTimeout cfg)
       (Config.ValidatorGRPCFailOpen cfg)).

(** Both hooks of the tunnel manager are set. *)
Definition tunnelManager : Tunnels.t := Tunnels.NewManager (Tunnels.mkHooks true true).

(** What the connections share when the transport starts. *)
Definition shared_state (cfg : Config.t) : Conn.shared Tunnels.t :=
  Conn.mkShared (Some (rateLimiter cfg))
    (Commands.mkState (Some tunnelManager)
       (PolicyService.NewService (PolicyService.NewExternalRunner cfg))
       (AuditService.NewService (AuditService.NewExternalRunner cfg))).

Definition run (grpc : bool) (cfg : Config.t) (authenticator : A) (signer : result string unit)
    : result string (transport A * Conn.shared Tunnels.t) :=
  let* t := startTransport cfg (validator grpc cfg) authenticator (Some (rateLimiter cfg))
              Commands.commandRegistry signer in
  Ok (t, shared_state cfg).

End Assemble.

(** ** The hooks of the tunnel manager *)

Section Hooks.
Context `{MR : MapRange} (wd : result string string) (store : option Persistence.Store).

(** The tunnels with what the hooks keep about them: the files, the calls of the metrics,
    and whether a save has reported an error. *)
Record live := mkLive {
  manager : Tunnels.t;
  disk : Persistence.fs;
  observed : list Metrics.op;
  failed : bool;
}.

(** A save of the current tunnels, as the hooks and the start of [run] do it. *)
Definition save (now : Time) (os : list Persistence.outcome) (l : live) : live :=
  let '(ph, σ) := Persistence.SaveTunnels wd store now (Tunnels.Snapshot (manager l)) os (disk l) in
  mkLive (manager l) σ (observed l)
    (failed l || negb match ph with Persistence.Done None => true | _ => false end).

Definition observe (ops : list Metrics.op) (l : live) : live :=
  mkLive (manager l) (disk l) (observed l ++ ops) (failed l).

(** [OnOpen] and [OnClose]; the other effects are not hooks. *)
Definition on_effect (now : Time) (os : list Persistence.outcome) (l : live)
    (e : Tunnels.effect) : live :=
  match e with
  | Tunnels.CallOnOpen t => save now os (observe (Metrics.ObserveTunnelOpened (Tunnels.Direction t)) l)
  | Tunnels.CallOnClose t => save now os (observe (Metrics.ObserveTunnelClosed (Tunnels.Direction t)) l)
  | Tunnels.CallStop _ => l
  end.

(** A call of the manager with the hooks it makes. *)
Definition perform (l : live) (c : Tunnels.call * Time * list Persistence.outcome) : live :=
  let '(c, now, os) := c in
  let '(m, effs) := Tunnels.exec (manager l) c in
  foldl (on_effect now os) (mkLive m (disk l) (observed l) (failed l)) effs.

(** The state after the first save of [run]. *)
Definition initially (now : Time) (os : list Persistence.outcome) (σ : Persistence.fs) : live :=
  save now os (mkLive tunnelManager σ [] false).

(** The tunnels of one direction. *)
Definition count (d : string) (ts : list Tunnels.Tunnel) : Z :=
  Z.of_nat (length (filter (λ t, Tunnels.Direction t = d) ts)).

Lemma count_perm d l1 l2 : l1 ≡ₚ l2 → count d l1 = count d l2.
Proof using Type. intros H. unfold count. by rewrite H. Qed.
Lemma count_app d l1 l2 : count d (l1 ++ l2) = (count d l1 + count d l2)%Z.
Proof using Type. unfold count. rewrite filter_app, length_app. lia. Qed.
Lemma count_cons d x l :
  count d (x :: l) = ((if decide (Tunnels.Direction x = d) then 1 else 0) + count d l)%Z.
Proof using Type. unfold count. rewrite filter_cons. case_decide; simpl; lia. Qed.

(** The hooks move the gauge by the tunnels opened less the tunnels closed. *)
Lemma on_effects_observed now os effs l d :
  Metrics.value (Metrics.activeTunnels d) (observed (foldl (on_effect now os) l effs))
  = (Metrics.value (Metrics.activeTunnels d) (observed l)
     + count d (Tunnels.opened_tunnels effs) - count d (Tunnels.closed_tunnels effs))%Z
  ∧ manager (foldl (on_effect now os) l effs) = manager l.
Proof using Type.
  revert l. induction effs as [|e effs IH]; intros l; [unfold count; simpl; split; [lia|done]|].
  assert (Hs : ∀ l, observed (save now os l) = observed l ∧ manager (save now os l) = manager l).
  { intros l'. unfold save. by destruct (Persistence.SaveTunnels _ _ _ _ _ _). }
  cbn [foldl]. destruct (IH (on_effect now os l e)) as [-> ->].
  destruct e as [res|tun|tun]; simpl; [by split; [lia|]|..];
    rewrite !(proj1 (Hs _)), !(proj2 (Hs _)); simpl; (split; [|done]);
    rewrite Metrics.value_app, count_cons; simpl;
    rewrite !bool_decide_decide; repeat case_decide; simplify_eq; try lia; congruence.
Qed.

(** The metrics and the file agree with the manager. *)
Definition gauge_ok (l : live) : Prop :=
  ∀ d, Metrics.value (Metrics.activeTunnels d) (observed l)
       = count d (Tunnels.tunnel <$> Tunnels.live (manager l)).

Definition disk_ok (safePath : string) (l : live) : Prop :=
  ∃ now data, MarshalIndent (Persistence.file_json Persistence.tunnel_json
                (Persistence.mkFile "2.4.1" "tunnels" now (Tunnels.Snapshot (manager l))))
              = Ok data
    ∧ Persistence.read (disk l) safePath = Some (data +:+ Persistence.newline).

Context (safePath : string).
Context (Hon : Persistence.Enabled store = true)
        (Hpath : PathGuard.ValidateFilesystemPath wd (Persistence.TunnelsPath store)
                   "snapshot de persistencia" = Ok safePath).

Lemma save_spec now os l :
  Persistence.fs_wf (disk l) →
  Persistence.fs_wf (disk (save now os l))
  ∧ (failed (save now os l) = false → failed l = false ∧ disk_ok safePath (save now os l)).
Proof using Hon Hpath.
  intros Hwf. unfold save, Persistence.SaveTunnels. rewrite Hon. simpl.
  pose proof (Persistence.writeSnapshot_saving wd _ safePath
    (Persistence.file_json Persistence.tunnel_json
       (Persistence.mkFile "2.4.1" "tunnels" now (Tunnels.Snapshot (manager l)))) os (disk l) Hpath Hwf)
    as [_ (Hwf' & _ & Hp)].
  destruct (Persistence.writeSnapshot _ _ _ _ _) as [ph σ]. simpl in *. split; [done|].
  intros [Hf H]%orb_false_iff. split; [done|]. destruct ph as [| | | |[]]; try done.
  destruct Hp as (b & (data & E & ->) & Hr). by exists now, data.
Qed.

Lemma on_effects_wf now os effs l :
  Persistence.fs_wf (disk l) →
  Persistence.fs_wf (disk (foldl (on_effect now os) l effs))
  ∧ (failed (foldl (on_effect now os) l effs) = false → failed l = false).
Proof using Hon Hpath.
  revert l. induction effs as [|e effs IH]; intros l Hwf; [done|]. simpl.
  destruct (IH (on_effect now os l e)) as [H1 H2].
  { destruct e; simpl; [done|by apply save_spec..]. }
  split; [done|]. intros H%H2. destruct e as [res|tun|tun]; simpl in H; [done|..].
  all: apply save_spec in H as [H _]; [exact H|done].
Qed.

(** With both hooks set, a call that changes the tunnels ends with a hook. *)
Lemma exec_hook m c :
  Tunnels.hooks m = Tunnels.mkHooks true true →
  Tunnels.exec m c = (m, [])
  ∨ ∃ pre e, (Tunnels.exec m c).2 = pre ++ [e]
      ∧ match e with Tunnels.CallStop _ => False | _ => True end.
Proof using Type.
  intros Hh. destruct c as [now d s u tg b o st|id]; simpl.
  - right. rewrite Hh. simpl. by eexists [], _.
  - unfold Tunnels.Close. destruct (Tunnels.tunnels m !! id) as [item|]; [right|by left].
    rewrite Hh. simpl. by eexists _, (Tunnels.CallOnClose _).
Qed.

(** What holds between the calls of a run. *)
Definition sound (l : live) : Prop :=
  Tunnels.inv (manager l) ∧ Tunnels.hooks (manager l) = Tunnels.mkHooks true true
  ∧ Persistence.fs_wf (disk l) ∧ gauge_ok l ∧ (failed l = false → disk_ok safePath l).

Lemma perform_sound l c :
  sound l → (Tunnels.seq (manager l) + 1 < 2 ^ 64)%Z →
  sound (perform l c) ∧ (Tunnels.seq (manager (perform l c)) <= Tunnels.seq (manager l) + 1)%Z.
Proof using Hon Hpath.
  intros (Hi & Hh & Hwf & Hg & Hd) Hb. destruct c as [[c now] os]. unfold perform.
  pose proof (Tunnels.inv_exec (manager l) c Hi Hb) as [Hi' Hs].
  pose proof (Tunnels.exec_hooks (manager l) c) as Hh'.
  pose proof (Tunnels.exec_conserves_tunnels (manager l) c Hi Hb Hh) as Hc.
  pose proof (exec_hook (manager l) c Hh) as He.
  destruct (Tunnels.exec (manager l) c) as [m effs]. cbn [fst snd] in *.
  set (l0 := mkLive m (disk l) (observed l) (failed l)).
  pose proof (on_effects_observed now os effs l0) as Ho.
  pose proof (on_effects_wf now os effs l0 Hwf) as [Hwf' Hf].
  assert (Hm : manager (foldl (on_effect now os) l0 effs) = m) by apply (Ho "").
  split; [|rewrite Hm; lia]. unfold sound. rewrite Hm. split_and!; [done|congruence|done| |].
  - intros d. destruct (Ho d) as [-> _]. rewrite Hm. specialize (Hg d). simpl.
    apply (count_perm d) in Hc. rewrite !count_app in Hc. lia.
  - intros Hnf. destruct He as [[= -> ->]|(pre & e & -> & Hhook)].
    + simpl in *. by apply Hd.
    + rewrite foldl_app in *. cbn [foldl] in *.
      assert (Hw : Persistence.fs_wf (disk (foldl (on_effect now os) l0 pre)))
        by by apply on_effects_wf.
      destruct e; [done|..]; cbn [on_effect] in *; by apply save_spec.
Qed.

End Hooks.

(** C23: the gauge and the file follow the tunnels.  From the first save of the program,
    after any sequence of opens and closes made one at a time, the gauge of each
    direction is the number of live tunnels of that direction; and if no save has
    reported an error, the file on disk lists exactly the live tunnels, oldest first. *)
Theorem tunnels_mirrored `{MR : MapRange} (wd : result string string) (cfg : Config.t)
    (safePath : string) (σ : Persistence.fs) (now : Time) (os : list Persistence.outcome)
    (cs : list (Tunnels.call * Time * list Persistence.outcome)) :
  Config.StatePersistenceEnabled cfg = true →
  PathGuard.ValidateFilesystemPath wd (Config.StateTunnelsPath cfg) "snapshot de persistencia"
  = Ok safePath →
  Persistence.fs_wf σ → (Z.of_nat (length cs) < 2 ^ 64)%Z →
  let store := Some (stateStore cfg) in
  let l := foldl (perform wd store) (initially wd store now os σ) cs in
  gauge_ok l ∧ (failed l = false → disk_ok safePath l).
Proof.
  intros Hon Hpath Hwf Hlen store.
  assert (Hs : sound safePath (initially wd store now os σ)
               ∧ Tunnels.seq (manager (initially wd store now os σ)) = 0%Z).
  { pose proof (save_spec wd store safePath Hon Hpath now os (mkLive tunnelManager σ [] false) Hwf)
      as [H1 H2]. fold (initially wd store now os σ) in H1, H2.
    assert (Em : manager (initially wd store now os σ) = tunnelManager
                 ∧ observed (initially wd store now os σ) = []).
    { unfold initially, save. by destruct (Persistence.SaveTunnels _ _ _ _ _ _). }
    destruct Em as [Em Eo]. unfold sound, gauge_ok. rewrite Em, Eo.
    split; [|done]. split_and!; [apply Tunnels.inv_new|done|done|done|].
    intros H. by apply H2. }
  destruct Hs as [Hs Hq]. set (l := initially wd store now os σ) in *. clearbody l.
  assert (Hb : (Tunnels.seq (manager l) + Z.of_nat (length cs) < 2 ^ 64)%Z) by lia. clear Hq Hlen.
  revert l Hs Hb. induction cs as [|c cs IH]; intros l Hs Hb.
  - split; apply Hs.
  - simpl in Hb |- *.
    destruct (perform_sound wd store safePath Hon Hpath l c Hs) as [Hs' Hq]; [lia|].
    apply IH; [exact Hs'|lia].
Qed.

(** A configuration with persistence, loaded from an environment. *)
Definition demo_config : Config.t :=
  match Config.Load (λ _, None) (Ok "/srv") Config.zero_rand
          {["APP_CONTROL_API_PASSWORD" := "x"; "APP_STATE_PERSISTENCE_ENABLED" := "true"]} with
  | Ok (c, _, _) => c
  | Err _ => Config.defaults "x"
  end.

Definition demo_os : list Persistence.outcome :=
  [Persistence.Good 0; Persistence.Good 0; Persistence.Good 2000; Persistence.Good 0].

Definition demo_run : list (Tunnels.call * Time * list Persistence.outcome) :=
  (λ c, (c, (7 * Second)%Z, demo_os)) <$> Tunnels.demo_calls.

Lemma tunnels_mirrored_witness :
  let store := Some (stateStore demo_config) in
  let l := foldl (perform (Ok "/srv") store)
             (initially (Ok "/srv") store (5 * Second)%Z demo_os Persistence.demo_fs) demo_run in
  failed l = false ∧ length (Tunnels.live (manager l)) = 1%nat
  ∧ gauge_ok l ∧ disk_ok "/srv/data/state/tunnels.json" l.
Proof.
  intros store l. assert (Hf : failed l = false) by by vm_compute.
  split; [exact Hf|]. split; [by vm_compute|].
  pose proof (tunnels_mirrored (Ok "/srv") demo_config "/srv/data/state/tunnels.json"
    Persistence.demo_fs (5 * Second)%Z demo_os demo_run eq_refl eq_refl Persistence.demo_fs_wf
    ltac:(by vm_compute)) as [H1 H2].
  split; [exact H1|]. exact (H2 Hf).
Defined.

End Runtime.
