(* ===== verification/MetricCalls.v ===== *)
(** * The calls of the metrics are well typed

    The Prometheus library panics, and with it the program, when a vector is given the
    wrong number of label values or one that is not UTF-8; a label of
    [sentinelops_commands_total] is what a client typed.  Here every call of both
    transports and of the hooks of the tunnels is shown to be one the library accepts,
    whatever the bytes of the client. *)

From S2P Require Import Prelude GoStrings Session Auth Metrics Tunnels Validator Commands Conn.
From S2P Require Import TCPServer AuthorizedKeys SSHServer SSHConnection Persistence Config Runtime.

Module MetricCalls.
Import Conn.

(** The library accepts the call, if the event is one. *)
Definition welcome (e : event) : Prop :=
  match e with EvMetric o => ∀ addr, Metrics.accepts (Metrics.collectors addr) o = true | _ => True end.

Lemma welcome_op o :
  match o with
  | Metrics.Inc (Metrics.commandsTotal x y) | Metrics.Inc (Metrics.tunnelEvents x y)
  | Metrics.Inc (Metrics.rejectedTunnel x y) => ValidString x && ValidString y = true
  | Metrics.Inc (Metrics.sessionCloseBy x) | Metrics.Inc (Metrics.activeTunnels x)
  | Metrics.Dec (Metrics.activeTunnels x) => ValidString x = true
  | Metrics.Inc _ | Metrics.Dec Metrics.activeSessions => True
  | Metrics.Dec _ => False
  end → welcome (EvMetric o).
Proof.
  destruct o as [m|m]; destruct m; intros H addr; unfold Metrics.accepts; simpl; try done;
    rewrite ?andb_true_r; try done; by apply andb_prop in H as [-> ->].
Qed.

(** ** Handlers *)

Section Sends.
Context {M : Type}.

(** The handler makes only welcome calls, and its result satisfies [Q]. *)
Definition sends {B} (m : io M B) (Q : B → Prop) : Prop :=
  ∀ st, ∃ es, log (m st).2 = log st ++ es ∧ Forall welcome es ∧ Q (m st).1.

Lemma sends_bind {B D} (m : io M B) (k : B → io M D) P Q :
  sends m P → (∀ b, P b → sends (k b) Q) → sends (m ≫= k) Q.
Proof using Type.
  intros Hm Hk st. unfold mbind, io_bind. destruct (Hm st) as (es & H1 & H2 & H3).
  destruct (m st) as [b st']. simpl in *. destruct (Hk b H3 st') as (es' & H4 & H5 & H6).
  exists (es ++ es'). rewrite H4, H1, app_assoc. split_and!; try done. by apply Forall_app.
Qed.

Abbreviation safe m := (sends m (λ _, True)).

Lemma safe_bind {B D} (m : io M B) (k : B → io M D) Q :
  safe m → (∀ b, sends (k b) Q) → sends (m ≫= k) Q.
Proof using Type. intros Hm Hk. by apply (sends_bind m k (λ _, True)). Qed.

Lemma sends_weaken {B} (m : io M B) (P Q : B → Prop) :
  sends m P → (∀ b, P b → Q b) → sends m Q.
Proof using Type.
  intros Hm H st. destruct (Hm st) as (es & H1 & H2 & H3). exists es. auto.
Qed.

Lemma sends_ret {B} (b : B) (Q : B → Prop) : Q b → sends (mret b) Q.
Proof using Type. intros H st. exists []. by rewrite app_nil_r. Qed.
Lemma safe_ret {B} (b : B) : safe (mret b : io M B).
Proof using Type. by apply sends_ret. Qed.
Lemma safe_emits es : Forall welcome es → safe (emits (M := M) es).
Proof using Type. intros H st. by exists es. Qed.
Lemma safe_emit e : welcome e → safe (emit (M := M) e).
Proof using Type. intros H st. exists [e]. split_and!; try done. by apply Forall_singleton. Qed.
Lemma safe_metrics ops : Forall (λ o, welcome (EvMetric o)) ops → safe (metrics (M := M) ops).
Proof using Type. intros H. apply safe_emits. by apply Forall_fmap. Qed.
Lemma safe_write ρ text : safe (write (M := M) ρ text).
Proof using Type.
  intros st. unfold write. case_if; simpl.
  - exists [EvWrite text]. split_and!; [done|by apply Forall_singleton|done].
  - exists []. by rewrite app_nil_r.
Qed.
Lemma safe_read : safe (read (M := M)).
Proof using Type. intros st. unfold read. destruct (input st); exists []; by rewrite app_nil_r. Qed.
Lemma safe_getSession : safe (getSession (M := M)).
Proof using Type. intros st. exists []. by rewrite app_nil_r. Qed.
Lemma safe_modify f : safe (modifySession (M := M) f).
Proof using Type. intros st. exists []. by rewrite app_nil_r. Qed.
Lemma safe_now ρ : safe (now (M := M) ρ).
Proof using Type. intros st. exists []. by rewrite app_nil_r. Qed.
Lemma safe_access ρ {B} (f : shared M → B * shared M) : safe (access ρ f).
Proof using Type.
  intros st. unfold access. destruct (f _). exists []. by rewrite app_nil_r.
Qed.
Lemma safe_validate ρ v line : safe (validate (M := M) ρ v line).
Proof using Type. intros st. eexists [_]. simpl. split_and!; [done|by apply Forall_singleton|done]. Qed.
Lemma safe_execute `{C : !Tunnels.Controller M} ρ fw cmd rt args :
  safe (execute ρ fw cmd rt args).
Proof using Type.
  intros st. unfold execute. destruct (Commands.Execute _ _ _ _ _) as [[out cs] eff]. simpl.
  eexists (_ :: _). split_and!; try done. apply Forall_cons. split; [done|].
  by apply Forall_fmap, Forall_true.
Qed.

End Sends.

Abbreviation safe m := (sends m (λ _, True)).

Create HintDb sends.
#[export] Hint Resolve safe_ret safe_write safe_read safe_getSession safe_modify safe_now safe_access
  safe_validate safe_execute : sends.

(** The labels of a call: constants, or a text in lower case. *)
Ltac labels :=
  repeat first [apply Forall_nil_2|apply Forall_cons_2]; apply welcome_op;
  rewrite ?ToLower_valid, ?andb_true_r; first [done|by vm_compute].

Ltac safe_step :=
  first
  [ apply safe_metrics; labels
  | apply safe_emit; exact I
  | by auto with sends
  | apply safe_bind; [|intros ?]
  | progress case_match
  | progress cbv zeta ].

(** The names of the commands are UTF-8. *)
Lemma name_valid cmd : ValidString (Commands.Name cmd) = true.
Proof. destruct cmd; by vm_compute. Qed.

Lemma split_valid line : ValidString (splitCommand line).1 = true.
Proof.
  unfold splitCommand. destruct (Fields line) as [|p [|q rest]]; simpl; try apply ToLower_valid.
  by vm_compute.
Qed.

Lemma ssh_split_valid line : ValidString (SSHServer.splitCommand line).1 = true.
Proof.
  unfold SSHServer.splitCommand. destruct (Fields line) as [|p [|q rest]]; simpl;
    try apply ToLower_valid. by vm_compute.
Qed.

(** ** The TCP transport *)

Section TCP.
Context {M : Type} `{C : !Tunnels.Controller M} {A : Type} `{AU : !Auth.Authenticator A}.
Context (ρ : env M) (s : TCPServer.TCPServer A).

Lemma safe_limiter key :
  safe (limiterAllow ρ key) ∧ safe (limiterFailure ρ key) ∧ safe (limiterSuccess ρ key).
Proof using Type.
  unfold limiterAllow, limiterFailure, limiterSuccess. split_and!; repeat safe_step.
Qed.

Lemma safe_authenticate_loop maxAttempts remaining attempt :
  safe (TCPServer.authenticate_loop ρ s maxAttempts remaining attempt).
Proof using Type.
  revert attempt. induction remaining as [|n IH]; intros attempt; simpl; [apply safe_ret|].
  unfold TCPServer.writePrompt, TCPServer.writeLine, TCPServer.readLine.
  repeat first [apply IH|apply safe_limiter|safe_step].
Qed.

Lemma safe_authenticate : safe (TCPServer.authenticate ρ s).
Proof using Type.
  unfold TCPServer.authenticate, TCPServer.writeLine. apply safe_bind; [apply safe_write|intros ?].
  apply safe_authenticate_loop.
Qed.

(** The reasons the handler gives. *)
Definition valid_reason (r : string) : Prop := ValidString r = true.

Lemma sends_handleLine line :
  sends (TCPServer.handleLine ρ s line) (λ o, ∀ r, o = Some r → valid_reason r).
Proof using Type.
  unfold TCPServer.handleLine, TCPServer.writeLine.
  assert (Hret : ∀ o : option string, (∀ r, o = Some r → valid_reason r) →
    sends (mret o : io M (option string)) (λ o, ∀ r, o = Some r → valid_reason r))
    by (intros o H; by apply (sends_ret o (λ o, ∀ r, o = Some r → valid_reason r))).
  apply safe_bind; [apply safe_validate|intros [err|]].
  { apply safe_bind; [repeat safe_step|intros ?]. apply safe_bind; [apply safe_write|intros ?].
    by apply Hret. }
  pose proof (split_valid line) as Hn. destruct (splitCommand line) as [name args]. simpl in Hn.
  destruct (isQuit name).
  { apply safe_bind; [apply safe_write|intros ?]. apply Hret. intros r [= <-]. by vm_compute. }
  destruct (Commands.Find _ name) as [cmd|].
  - apply safe_bind; [apply safe_modify|intros ?]. apply safe_bind; [apply safe_getSession|intros ?].
    apply safe_bind; [apply safe_execute|intros [output|e]].
    + apply safe_bind.
      { apply safe_metrics, Forall_singleton, welcome_op. by rewrite name_valid. }
      intros ?. case_bool_decide; [by apply Hret|].
      apply safe_bind; [apply safe_write|intros ok]. apply Hret. intros r. case_if; [|done].
      intros [= <-]. by vm_compute.
    + apply safe_bind.
      { apply safe_metrics, Forall_singleton, welcome_op. by rewrite name_valid. }
      intros ?. apply safe_bind; [apply safe_write|intros ?]. by apply Hret.
  - apply safe_bind; [apply safe_metrics, Forall_singleton, welcome_op; by rewrite Hn|intros ?].
    apply safe_bind; [apply safe_write|intros ?]. by apply Hret.
Qed.

Lemma sends_loop fuel : sends (TCPServer.loop ρ s fuel) valid_reason.
Proof using Type.
  induction fuel as [|fuel IH]; simpl; [apply sends_ret; by vm_compute|].
  unfold TCPServer.writePrompt, TCPServer.writeLine, TCPServer.readLine.
  apply safe_bind; [apply safe_write|intros ok]. case_if; [apply sends_ret; by vm_compute|].
  apply safe_bind; [repeat safe_step|intros r].
  destruct r as [line|[raw| | |]]; try (apply sends_ret; by vm_compute).
  - case_bool_decide; [done|]. eapply sends_bind; [apply sends_handleLine|].
    intros [reason|] Hr; [by apply sends_ret, Hr|done].
  - apply safe_bind; [apply safe_write|intros ?]. apply sends_ret. by vm_compute.
Qed.

Lemma sends_body : sends (TCPServer.body ρ s) valid_reason.
Proof using Type.
  unfold TCPServer.body, TCPServer.writeLine.
  apply safe_bind; [apply safe_write|intros ok]. case_if; [apply sends_ret; by vm_compute|].
  apply safe_bind.
  { case_if; [apply safe_authenticate|]. repeat safe_step. }
  intros [[]|e].
  - apply safe_bind; [apply safe_write|intros ok2]. case_if; [apply sends_ret; by vm_compute|].
    intros st. apply sends_loop.
  - apply safe_bind; [apply safe_write|intros ?]. apply sends_ret. by vm_compute.
Qed.

Lemma safe_serve : safe (TCPServer.serve ρ s).
Proof using Type.
  unfold TCPServer.serve. do 3 (apply safe_bind; [repeat safe_step|intros ?]).
  apply safe_bind; [repeat safe_step|intros ?]. eapply sends_bind; [apply sends_body|].
  intros reason Hr. apply safe_bind; [apply safe_getSession|intros ?].
  apply safe_bind; [repeat safe_step|intros ?]. apply safe_bind; [|intros ?; apply safe_ret].
  apply safe_metrics, Forall_cons. split; [by apply welcome_op|].
  by apply Forall_singleton, welcome_op.
Qed.

End TCP.

(** ** The SSH transport *)

Section SSH.
Context `{MR : MapRange} {A : Type} `{AU : !Auth.Authenticator A}.
Context (ρ : env Tunnels.t) (s : SSHServer.Server A).

Lemma safe_executeInput line : safe (SSHServer.executeInput ρ s line).
Proof using Type.
  unfold SSHServer.executeInput. apply safe_bind; [apply safe_validate|intros [err|]].
  { repeat safe_step. }
  pose proof (ssh_split_valid line) as Hn. destruct (SSHServer.splitCommand line) as [name args].
  simpl in Hn. destruct (SSHServer.isQuit name); [apply safe_ret|].
  destruct (Commands.Find _ name) as [cmd|].
  - do 3 (apply safe_bind; [repeat safe_step|intros ?]).
    case_match; (apply safe_bind; [|intros ?; apply safe_ret]);
      apply safe_metrics, Forall_singleton, welcome_op; by rewrite name_valid.
  - apply safe_bind; [|intros ?; apply safe_ret].
    apply safe_metrics, Forall_singleton, welcome_op. by rewrite Hn.
Qed.

Lemma safe_shellLine : safe (SSHServer.shellLine ρ s).
Proof using Type.
  unfold SSHServer.shellLine, SSHServer.writeLine, SSHServer.sendExitStatus.
  repeat first [apply safe_executeInput|safe_step].
Qed.

Lemma safe_shellBanner : safe (SSHServer.shellBanner ρ s).
Proof using Type. unfold SSHServer.shellBanner, SSHServer.writeLine. repeat safe_step. Qed.

Lemma safe_handleRequest req : safe (SSHServer.handleRequest ρ s req).
Proof using Type.
  unfold SSHServer.handleRequest, SSHServer.runExec, SSHServer.writeLine, SSHServer.sendExitStatus.
  destruct req as [| |[value|]|]; repeat first [apply safe_executeInput|safe_step].
Qed.

Lemma safe_reply wantReply ok port : safe (SSHServer.reply wantReply ok port).
Proof using Type. unfold SSHServer.reply. repeat safe_step. Qed.

Lemma safe_withManager {B} (f : Tunnels.t → B * Tunnels.t * list Tunnels.effect) :
  safe (SSHServer.withManager ρ f).
Proof using Type.
  unfold SSHServer.withManager. apply safe_bind; [apply safe_access|intros [[b eff]|]];
    [|apply safe_ret].
  apply safe_bind; [|intros ?; apply safe_ret]. apply safe_emits.
  by apply Forall_fmap, Forall_true.
Qed.

Lemma safe_openTunnel open : safe (SSHServer.openTunnel ρ open).
Proof using Type.
  unfold SSHServer.openTunnel. repeat first [apply safe_withManager|safe_step].
Qed.

Lemma safe_endTunnel resource o : safe (SSHServer.endTunnel ρ resource o).
Proof using Type.
  unfold SSHServer.endTunnel. repeat first [apply safe_withManager|safe_step].
Qed.

Lemma safe_openDirect extra dialOk acceptOk resource :
  safe (SSHServer.openDirect ρ s extra dialOk acceptOk resource).
Proof using Type.
  unfold SSHServer.openDirect. repeat first [apply safe_openTunnel|safe_step].
Qed.

Lemma safe_openIncoming bind addr openOk resource :
  safe (SSHServer.openIncoming ρ bind addr openOk resource).
Proof using Type.
  unfold SSHServer.openIncoming. repeat first [apply safe_openTunnel|safe_step].
Qed.

Lemma safe_forwardListen payload wantReply listen :
  safe (SSHServer.forwardListen s payload wantReply listen).
Proof using Type.
  unfold SSHServer.forwardListen. repeat first [apply safe_reply|safe_step].
Qed.

End SSH.

(** ** The connections *)

Section Connection.
Context `{MR : MapRange} {A : Type} `{AU : !Auth.Authenticator A}.
Context (ρ : env Tunnels.t) (s : SSHServer.Server A).
Context (readFile : string → AuthorizedKeys.file)
        (parseKey : string → result string (string * string)).

Lemma safe_handshake addr h : safe (SSHServer.runHandshake ρ s readFile parseKey addr h).
Proof using Type.
  induction h as [r|user pass next IH|user key next IH]; simpl; [apply safe_ret|..];
    unfold SSHServer.PasswordCallback, SSHServer.PublicKeyCallback;
    repeat first [apply IH|apply safe_limiter|safe_step].
Qed.

Lemma safe_openSession addr newServerConn :
  safe (SSHServer.openSession ρ s readFile parseKey addr newServerConn).
Proof using Type.
  unfold SSHServer.openSession. repeat first [apply safe_handshake|safe_step].
Qed.

Lemma welcome_perform {B} input (m : io Tunnels.t B) st :
  Forall welcome (log st) → safe m → Forall welcome (log (SSHConnection.perform input m st).2).
Proof using Type.
  intros Hl Hm. unfold SSHConnection.perform. 
  destruct (Hm (mkState (sh st) (tick st) input (sess st) (log st))) as (es & H1 & H2 & _).
  rewrite H1. by apply Forall_app.
Qed.

Import SSHConnection.

(** The state a step ends in. *)
Ltac next H := apply (inj Some) in H; subst; cbn [cst].

Lemma welcome_main c c' :
  valid_reason (closeReason c) → Forall welcome (log (cst c)) → stepMain s c = Some c' →
  Forall welcome (log (cst c')).
Proof using Type.
  intros Hr Hl. unfold stepMain. destruct (phase c) as [[|ch chans]| | |]; [| | | |done].
  - destruct (SSHServer.CloseAll _). intros H. next H. apply welcome_perform; [done|].
    apply safe_emits. by apply Forall_fmap, Forall_true.
  - intros H. repeat case_bool_decide; next H; try done.
    apply welcome_perform; [done|]. by apply safe_emit.
  - intros H. next H. apply welcome_perform; [done|]. repeat safe_step.
  - intros H. next H. apply welcome_perform; [done|]. apply safe_metrics.
    by repeat first [apply Forall_nil_2|apply Forall_cons_2]; apply welcome_op.
Qed.

Lemma welcome_global listen c c' :
  Forall welcome (log (cst c)) → stepGlobal s listen c = Some c' → Forall welcome (log (cst c')).
Proof using Type.
  intros Hl. unfold stepGlobal. destruct (handling (gl c)) as [|wr f|wr f|wr l]; intros H.
  - destruct (reqs (gl c)) as [|[payload wr|[[host port]|] wr|wr] rest]; [done|..].
    + pose proof (welcome_perform [] _ _ Hl (safe_forwardListen s payload wr (λ _, listen))) as Hp.
      destruct (perform _ _ _) as [[f|] st]; [destruct (available _ _); [|done]|]; by next H.
    + by next H.
    + next H. apply welcome_perform; [done|]. apply safe_reply.
    + next H. apply welcome_perform; [done|]. apply safe_reply.
  - by next H.
  - next H. apply welcome_perform; [done|]. apply safe_reply.
  - next H. apply welcome_perform; [done|].
    repeat first [apply safe_reply|safe_step].
Qed.

Lemma welcome_resume c t r :
  Forall welcome (log (cst c)) → resume ρ s c t = Some r → Forall welcome (log r.2).
Proof using Type.
  intros Hl. pose proof (λ {B} inp (m : io Tunnels.t B), welcome_perform inp m (cst c) Hl) as Hp.
  destruct t as [[|req reqs] lines closes|lines closes|lines closes|motivo|ch
    |bind addr ok res e|tun res e]; cbn [resume].
  - destruct (_ || _); [|done]. by intros [= <-].
  - specialize (Hp _ [] _ (safe_handleRequest ρ s req)).
    destruct (perform _ _ _) as [[] st]; intros [= <-]; try done.
    apply welcome_perform; [done|]. apply safe_shellBanner.
  - specialize (Hp _ [] _ (safe_write ρ "> ")). destruct (perform _ _ _). by intros [= <-].
  - destruct (_ || _); [|done]. specialize (Hp _ lines _ (safe_shellLine ρ s)).
    destruct (perform _ _ _). by intros [= <-].
  - by intros [= <-].
  - specialize (Hp _ [] _ (safe_openDirect ρ s (extraData ch) (dialOk ch) (acceptOk ch) (resource ch))).
    destruct (perform _ _ _). by intros [= <-].
  - specialize (Hp _ [] _ (safe_openIncoming ρ bind addr ok res)).
    destruct (perform _ _ _). by intros [= <-].
  - destruct (copies_over c e); [|done]. intros [= <-]. apply Hp, safe_endTunnel.
Qed.

Lemma welcome_task i c c' :
  Forall welcome (log (cst c)) → stepTask ρ s i c = Some c' → Forall welcome (log (cst c')).
Proof using Type.
  intros Hl H. unfold stepTask in H. apply bind_Some in H as (t & _ & H).
  apply bind_Some in H as (r & Hr & H). next H. by eapply welcome_resume.
Qed.

Lemma close_reason_valid r : r ∈ close_reasons → valid_reason r.
Proof using Type.
  intros H. unfold close_reasons, channel_reasons in H.
  repeat (apply elem_of_cons in H as [->|H]; [by vm_compute|]). by apply elem_of_nil in H.
Qed.

Lemma welcome_step st0 k c c' :
  Forall welcome (log (cst c)) ∧ accounted s st0 c → step ρ s k c = Some c' →
  Forall welcome (log (cst c')) ∧ accounted s st0 c'.
Proof using Type.
  intros [Hl Ha] H. split; [|by eapply step_accounted].
  destruct k as [|listen|i j|i]; simpl in H.
  - eapply welcome_main; [|done..]. by apply close_reason_valid, Ha.
  - by eapply welcome_global.
  - unfold stepAccept in H. apply bind_Some in H as ([l bind] & _ & H).
    destruct (opened (gl c) !! l); [|by simplify_eq/=].
    apply bind_Some in H as (arr & _ & H). case_bool_decide; [|done].
    by destruct (arr.2); simplify_eq/=.
  - by eapply welcome_task.
Qed.

End Connection.

(** ** The hooks of the tunnels *)

Section Hooks.
Context `{MR : MapRange} (wd : result string string) (store : option Persistence.Store).

(** [open] is only called by [OpenLocal] and [OpenRemote]. *)
Definition directed (c : Tunnels.call) : Prop :=
  match c with
  | Tunnels.COpen _ d _ _ _ _ _ _ => d = "local" ∨ d = "remote"
  | Tunnels.CClose _ => True
  end.

Definition hooks_ok (l : Runtime.live) : Prop :=
  Forall (λ o, welcome (EvMetric o)) (Runtime.observed l)
  ∧ ∀ id item, Tunnels.tunnels (Runtime.manager l) !! id = Some item →
      valid_reason (Tunnels.Direction (Tunnels.tunnel item)).

Definition effect_ok (e : Tunnels.effect) : Prop :=
  match e with
  | Tunnels.CallOnOpen t | Tunnels.CallOnClose t => valid_reason (Tunnels.Direction t)
  | _ => True
  end.

Lemma save_keeps now os l :
  Runtime.observed (Runtime.save wd store now os l) = Runtime.observed l
  ∧ Runtime.manager (Runtime.save wd store now os l) = Runtime.manager l.
Proof using Type. unfold Runtime.save. by destruct (Persistence.SaveTunnels _ _ _ _ _ _). Qed.

Lemma hooks_effects now os effs l :
  Forall effect_ok effs → hooks_ok l → hooks_ok (foldl (Runtime.on_effect wd store now os) l effs).
Proof using Type.
  intros He. revert l. induction He as [|e effs He _ IH]; intros l [Hl Hm]; [by split|]. simpl.
  apply IH. destruct e as [n|t|t]; simpl; [by split|..];
    (unfold hooks_ok; rewrite !(proj1 (save_keeps _ _ _)), !(proj2 (save_keeps _ _ _)); simpl;
     split; [|done]; apply Forall_app; split; [done|];
     repeat first [apply Forall_nil_2|apply Forall_cons_2]; apply welcome_op; [done|];
     simpl in He; rewrite He; by vm_compute).
Qed.

Lemma hooks_perform l c : directed c.1.1 → hooks_ok l → hooks_ok (Runtime.perform wd store l c).
Proof using Type.
  destruct c as [[c now] os]. simpl. intros Hd [Hl Hm].
  destruct c as [n d si u tg b o st|id]; simpl.
  - assert (Hv : valid_reason d) by (destruct Hd as [->| ->]; by vm_compute).
    apply hooks_effects.
    + destruct (Tunnels.OnOpen _); [|done]. by apply Forall_singleton.
    + split; [done|]. simpl. intros id item. rewrite lookup_insert_Some.
      intros [[_ <-]|[_ H]]; [done|by apply (Hm id)].
  - unfold Tunnels.Close. destruct (Tunnels.tunnels _ !! id) as [item|] eqn:E; simpl; [|by split].
    apply hooks_effects.
    + apply Forall_app. split; [destruct (Tunnels.stop item); by repeat constructor|].
      destruct (Tunnels.OnClose _); [|done]. apply Forall_singleton. by apply (Hm id).
    + split; [done|]. simpl. intros id' item' H. apply lookup_delete_Some in H as [_ H].
      by apply (Hm id').
Qed.

Lemma hooks_run now os σ cs :
  Forall (λ c, directed c.1.1) cs →
  hooks_ok (foldl (Runtime.perform wd store) (Runtime.initially wd store now os σ) cs).
Proof using Type.
  intros Hd. assert (Hi : hooks_ok (Runtime.initially wd store now os σ)).
  { unfold Runtime.initially, hooks_ok.
    rewrite !(proj1 (save_keeps _ _ _)), !(proj2 (save_keeps _ _ _)). split; [done|].
    simpl. intros id item. by rewrite lookup_empty. }
  revert Hi. generalize (Runtime.initially wd store now os σ).
  induction Hd as [|c cs Hc _ IH]; intros l Hl; [done|]. simpl. by apply IH, hooks_perform.
Qed.

End Hooks.

(** C12: no call of the metrics panics.  Once the collectors are registered, every call
    the program makes to them has as many label values as the collector has labels, all
    of them UTF-8, and only gauges are decreased: the calls of a TCP connection whatever
    the client sends, those of an SSH connection under every schedule of its goroutines,
    and those of the hooks of the tunnels.  The name of a command comes from the client;
    lowering it replaces the bytes that are not UTF-8. *)
Theorem metric_calls_accepted (addr : string) (reg reg' : gset string)
    (ms : Metrics.MetricServer) :
  Metrics.New addr reg = Some (ms, reg') →
  (∀ (M : Type) (C : Tunnels.Controller M) (A : Type) (AU : Auth.Authenticator A) (ρ : env M)
     (s : TCPServer.TCPServer A) (n : Z) (remote : string) (sh0 : shared M)
     (ins : list read_event) (o : Metrics.op),
     EvMetric o ∈ log (TCPServer.handleConnection ρ s n remote sh0 ins).2 →
     Metrics.accepts ms o = true)
  ∧ (∀ (MR : MapRange) (A : Type) (AU : Auth.Authenticator A) (ρ : env Tunnels.t)
       (s : SSHServer.Server A) readFile parseKey peer newServerConn sh0 ins s0 st chans requests arrs
       sched c (o : Metrics.op),
       SSHServer.openSession ρ s readFile parseKey peer newServerConn (mkState sh0 0 ins s0 [])
         = (true, st) →
       SSHConnection.run ρ s sched (SSHConnection.start chans requests arrs st) = Some c →
       EvMetric o ∈ log (SSHConnection.cst c) → Metrics.accepts ms o = true)
  ∧ (∀ (MR : MapRange) wd store now os σ cs (o : Metrics.op),
       Forall (λ c, directed c.1.1) cs →
       o ∈ Runtime.observed (foldl (Runtime.perform wd store)
                               (Runtime.initially wd store now os σ) cs) →
       Metrics.accepts ms o = true).
Proof.
  intros Hnew. assert (Hms : ms = Metrics.collectors addr).
  { unfold Metrics.New in Hnew. by apply bind_Some in Hnew as (r & _ & [= <- _]). }
  assert (Hw : ∀ l o, Forall welcome l → EvMetric o ∈ l → Metrics.accepts ms o = true).
  { intros l o Hl Hin. rewrite Forall_forall in Hl. rewrite Hms. by apply (Hl _ Hin addr). }
  split_and!.
  - intros M C A AU ρ s n remote sh0 ins o. apply Hw. unfold TCPServer.handleConnection.
    destruct (safe_serve ρ s (mkState sh0 1 ins (Session.New n (clock ρ 0) remote).1 []))
      as (es & -> & He & _). done.
  - intros MR A AU ρ s readFile parseKey peer newServerConn sh0 ins s0 st chans requests arrs sched c o Ho Hr.
    apply Hw.
    refine (proj1 (SSHConnection.run_invariant ρ s
      (λ c, Forall welcome (log (SSHConnection.cst c)) ∧ SSHConnection.accounted s st c)
      (welcome_step ρ s st) sched _ _ _ Hr)).
    split; [|apply SSHConnection.start_accounted]. simpl.
    destruct (safe_openSession ρ s readFile parseKey peer newServerConn (mkState sh0 0 ins s0 []))
      as (es & He & Hs & _). rewrite Ho in He. simpl in He. by rewrite He.
  - intros MR wd store now os σ cs o Hd Hin.
    destruct (hooks_run wd store now os σ cs Hd) as [Hf _]. rewrite Forall_forall in Hf.
    rewrite Hms. by apply (Hf _ Hin addr).
Qed.

(** A client sends two bytes that are not UTF-8 as its command. *)
Definition odd_line : string := String (byte_of 255) (String (byte_of 254) "").

Lemma metric_calls_accepted_witness :
  ∃ ms reg', Metrics.New ":9000" ∅ = Some (ms, reg')
    ∧ ValidString odd_line = false
    ∧ let o := Metrics.Inc (Metrics.commandsTotal (ToLower odd_line) "unknown") in
      EvMetric o ∈ log (TCPServer.handleConnection TCPServer.demo_env TCPServer.demo_server 0
        "10.0.0.9:4000" TCPServer.demo_shared
        [Line "student"; Line "secreto"; Line odd_line; Line "quit"]).2
      ∧ Metrics.accepts ms o = true.
Proof.
  destruct (Metrics.New_ok ":9000" ∅) as (reg' & Hnew & _); [intros d _; apply not_elem_of_empty|].
  exists (Metrics.collectors ":9000"), reg'. split; [exact Hnew|]. split; [by vm_compute|].
  intros o.
  assert (Hin : EvMetric o ∈ log (TCPServer.handleConnection TCPServer.demo_env TCPServer.demo_server 0
    "10.0.0.9:4000" TCPServer.demo_shared
    [Line "student"; Line "secreto"; Line odd_line; Line "quit"]).2).
  { vm_compute. repeat first [left; reflexivity|right]. }
  split; [exact Hin|].
  exact (proj1 (metric_calls_accepted ":9000" ∅ reg' _ Hnew) _ _ _ _ _ _ _ _ _ _ o Hin).
Defined.

End MetricCalls.
