(* ===== verification/Lifecycle.v ===== *)
(** * The life of the server process

    The loops that accept connections ([Run] of [internal/server/tcp.go] and of
    [internal/transport/sshserver/server.go]), the services with an HTTP server, and how
    [run] and [startService] of [cmd/server/main.go] let them run and end: each service is
    a goroutine that reports to a channel, and [run] ends on a signal or on the first
    report.  The interleavings are a step relation with labels, and a run has the list of
    all that happened; a state holds the context, the channel, the phase of each goroutine
    and the result of [run]. *)

From S2P Require Import Prelude GoStrings Config Commands Runtime.

Module Lifecycle.

(** ** The accept loops *)

Inductive accepted := Connection (remote : string) | AcceptError (err : string) | ErrClosed.

(** The connections handed to a handler, the errors logged, and whether the loop has
    returned. *)
Fixpoint accept_loop (l : list accepted) : list string * list string * bool :=
  match l with
  | [] => ([], [], false)
  | Connection c :: l => let '(cs, es, b) := accept_loop l in (c :: cs, es, b)
  | AcceptError e :: l => let '(cs, es, b) := accept_loop l in (cs, e :: es, b)
  | ErrClosed :: _ => ([], [], true)
  end.

(** A run that has returned, with its error, or not. *)
Inductive running := Running (handled : list string) | Returned (handled : list string) (err : option string).

Definition serve (l : list accepted) : running :=
  let '(cs, _, b) := accept_loop l in if b then Returned cs None else Running cs.

(** [TCPServer.Run] *)
Definition tcp_Run (listen : option string) (l : list accepted) : running :=
  match listen with
  | Some e => Returned [] (Some ("falló la escucha: " +:+ e))
  | None => serve l
  end.

(** [Server.Run] of the SSH transport *)
Definition ssh_Run (cfg : Config.t) (listen : option string) (l : list accepted) : running :=
  if negb (Config.SSHPasswordAuthEnabled cfg) && negb (Config.SSHPublicKeyAuthEnable cfg)
  then Returned [] (Some "el servidor SSH no tiene métodos de autenticación habilitados")
  else match listen with
  | Some e => Returned [] (Some ("falló la escucha SSH: " +:+ e))
  | None => serve l
  end.

(** The run of the transport that [startTransport] chose. *)
Definition transport_Run {A} (cfg : Config.t) (t : result string (Runtime.transport A))
    (listen : option string) (l : list accepted) : running :=
  match t with
  | Err e => Returned [] (Some e)
  | Ok (Runtime.TCP _ _) => tcp_Run listen l
  | Ok (Runtime.SSH _ _) => ssh_Run cfg listen l
  end.

(** ** The HTTP services *)

(** What [ListenAndServe] returns: never nil. *)
Inductive serve_error := ErrServerClosed | ServeError (err : string).

(** The result of [Start] of the metrics and of the control API. *)
Definition metrics_Start (e : serve_error) : option string :=
  match e with ErrServerClosed => None | ServeError err => Some err end.
Definition api_served (e : serve_error) : option string :=
  match e with ErrServerClosed => None | ServeError err => Some err end.
Definition api_Start (cfg : Config.t) (certificate : option string) (e : serve_error)
    : option string :=
  if negb (Config.ControlAPIEnabled cfg) then None
  else match certificate with
  | Some err => Some ("preparar certificado de la API de control: " +:+ err)
  | None => api_served e
  end.

(** ** The process *)

Inductive service := MetricsService | ControlAPI | Transport.

#[export] Instance service_eq_dec : EqDecision service.
Proof. solve_decision. Defined.

(** The report of a goroutine when its service has ended: [startService] reports errors
    with its name, the transport reports in any case. *)
Definition report (s : service) (err : option string) : option (option string) :=
  match s with
  | Transport => Some err
  | MetricsService => match err with Some e => Some (Some ("metrics: " +:+ e)) | None => None end
  | ControlAPI => match err with Some e => Some (Some ("control-api: " +:+ e)) | None => None end
  end.

(** A goroutine runs its service, wants to send, or has finished. *)
Inductive phase := Serving | Sending (err : option string) | Finished.

#[export] Instance phase_eq_dec : EqDecision phase.
Proof. solve_decision. Defined.

Record process := mkProcess {
  done : bool;
  errCh : list (option string);
  goroutines : list (service * phase);
  result_ : option (option string);
}.

(** The capacity of the channel. *)
Definition capacity : nat := 3.

(** The services that [run] starts. *)
Definition started (cfg : Config.t) : process :=
  mkProcess false []
    ((MetricsService, Serving)
     :: (if Config.ControlAPIEnabled cfg then [(ControlAPI, Serving)] else [])
     ++ [(Transport, Serving)]) None.

(** How a service can end: a listener and a server are closed only when the context is
    done. *)
Inductive ends (cfg : Config.t) (done : bool) : service → option string → Prop :=
| metrics_ends e :
    (e = ErrServerClosed → done = true) → ends cfg done MetricsService (metrics_Start e)
| api_ends certificate e :
    (e = ErrServerClosed → done = true) → ends cfg done ControlAPI (api_Start cfg certificate e)
| transport_ends (A : Type) validator (authenticator : A) limiter registry signer listen l cs err :
    transport_Run cfg
      (Runtime.startTransport cfg validator authenticator limiter registry signer) listen l
      = Returned cs err →
    (ErrClosed ∈ l → done = true) → ends cfg done Transport err.

Definition after_end (s : service) (err : option string) : phase :=
  match report s err with Some r => Sending r | None => Finished end.

(** What happens in a step: a signal, the end of a service with its error if any, a
    report sent, the return of [run]. *)
Inductive label :=
| LSignal
| LEnds (s : service) (err : option string)
| LSends (s : service) (r : option string)
| LReturns (r : option string).

Inductive step (cfg : Config.t) : label → process → process → Prop :=
| signal p : step cfg LSignal p (mkProcess true (errCh p) (goroutines p) (result_ p))
| service_ends p gs1 gs2 s err :
    goroutines p = gs1 ++ (s, Serving) :: gs2 → ends cfg (done p) s err →
    step cfg (LEnds s err) p
      (mkProcess (done p) (errCh p) (gs1 ++ (s, after_end s err) :: gs2) (result_ p))
| sends p gs1 gs2 s r :
    goroutines p = gs1 ++ (s, Sending r) :: gs2 → (length (errCh p) < capacity)%nat →
    step cfg (LSends s r) p
      (mkProcess (done p) (errCh p ++ [r]) (gs1 ++ (s, Finished) :: gs2) (result_ p))
| run_done p :
    result_ p = None → done p = true →
    step cfg (LReturns None) p (mkProcess (done p) (errCh p) (goroutines p) (Some None))
| run_reported p r ch :
    result_ p = None → errCh p = r :: ch →
    step cfg (LReturns r) p
      (mkProcess (match r with Some _ => true | None => done p end) ch (goroutines p) (Some r)).

(** The runs of the process, with all that happened. *)
Inductive runs (cfg : Config.t) : list label → process → Prop :=
| runs_start : runs cfg [] (started cfg)
| runs_step tr l p p' : runs cfg tr p → step cfg l p p' → runs cfg (tr ++ [l]) p'.

(** Some steps on. *)
Definition leads (cfg : Config.t) : process → process → Prop :=
  rtc (λ p p', ∃ l, step cfg l p p').

(** ** Invariants *)

Definition unfinished (gs : list (service * phase)) : nat :=
  length (filter (λ g, g.2 ≠ Finished) gs).

(** A report that is on its way. *)
Definition pending (p : process) (r : option string) : Prop :=
  r ∈ errCh p ∨ ∃ s, (s, Sending r) ∈ goroutines p.

(** The error [e] is what a service reported that ended with one in the run. *)
Definition reported (tr : list label) (e : string) : Prop :=
  ∃ s err, LEnds s (Some err) ∈ tr ∧ report s (Some err) = Some (Some e).

(** The context is done after a signal, or since [run] returned an error. *)
Definition cancelled (tr : list label) (res : option (option string)) : Prop :=
  LSignal ∈ tr ∨ ∃ e, res = Some (Some e).

Definition truthful (tr : list label) (res : option (option string)) (r : option string) : Prop :=
  match r with None => cancelled tr res | Some e => reported tr e end.

Record good (tr : list label) (p : process) : Prop := {
  good_room : (length (errCh p) + unfinished (goroutines p) <= capacity)%nat;
  good_done : done p = true → cancelled tr (result_ p);
  good_reports r : pending p r → truthful tr (result_ p) r;
  good_nil : result_ p = Some None → LSignal ∈ tr;
  good_error e : result_ p = Some (Some e) → reported tr e;
}.

(** A transport without an error was closed. *)
Lemma serve_closed l cs err : serve l = Returned cs err → err = None ∧ ErrClosed ∈ l.
Proof.
  unfold serve. destruct (accept_loop l) as [[cs' es] b] eqn:E. destruct b; [|done]. intros [= <- <-].
  split; [done|]. revert cs' es E. induction l as [|a l IH]; intros cs' es E; [done|].
  cbn [accept_loop] in E. destruct (accept_loop l) as [[cs0 es0] b0].
  destruct a; simplify_eq; try (right; by eapply IH). left.
Qed.

Lemma transport_closed {A} cfg (t : result string (Runtime.transport A)) listen l cs :
  transport_Run cfg t listen l = Returned cs None → ErrClosed ∈ l.
Proof.
  unfold transport_Run, ssh_Run, tcp_Run. destruct t as [[]|]; [..|done].
  all: repeat match goal with |- context [if ?b then _ else _] => destruct b end;
    destruct listen; try done; intros H; exact (proj2 (serve_closed _ _ _ H)).
Qed.

Lemma ends_done cfg d s err : ends cfg d s err → report s err = Some None → d = true.
Proof.
  intros [e He|cert e He|A v a lim reg signer listen l cs err' Hr Hl]; cbn [report]; intros H.
  - by destruct (metrics_Start e).
  - by destruct (api_Start cfg cert e).
  - injection H as ->. apply Hl. by eapply transport_closed.
Qed.

Lemma truthful_mono tr tr' res res' r :
  (∀ l, l ∈ tr → l ∈ tr') → (∀ e, res = Some (Some e) → res' = Some (Some e)) →
  truthful tr res r → truthful tr' res' r.
Proof.
  intros Ht Hr. destruct r as [e|]; simpl.
  - intros (s & err & Hin & H). exists s, err. split; [by apply Ht|done].
  - intros [H|[e H]]; [left; by apply Ht|right; exists e; by apply Hr].
Qed.

Lemma unfinished_step gs1 gs2 s ph ph' :
  unfinished (gs1 ++ (s, ph') :: gs2)
  = (unfinished (gs1 ++ (s, ph) :: gs2) + (if decide (ph' = Finished) then 0 else 1)
     - (if decide (ph = Finished) then 0 else 1))%nat
  ∧ ((if decide (ph = Finished) then 0 else 1) <= unfinished (gs1 ++ (s, ph) :: gs2))%nat.
Proof.
  unfold unfinished. rewrite !filter_app, !filter_cons, !length_app. cbn [snd].
  repeat case_decide; cbn [length]; try congruence; try lia.
Qed.

Lemma good_started cfg : good [] (started cfg).
Proof.
  split; try done.
  - unfold started, unfinished. destruct (Config.ControlAPIEnabled cfg); vm_compute; lia.
  - intros r [H|[s H]]; [by apply elem_of_nil in H|]. exfalso. revert H. unfold started.
    destruct (Config.ControlAPIEnabled cfg); cbn [goroutines app];
      rewrite !elem_of_cons, elem_of_nil; naive_solver.
Qed.

(** What was known stays known while [run] does not return. *)
Lemma good_later tr l p ch gs d :
  good tr p → (length ch + unfinished gs <= capacity)%nat →
  (d = true → cancelled (tr ++ [l]) (result_ p)) →
  (∀ r, pending (mkProcess d ch gs (result_ p)) r → pending p r ∨ truthful (tr ++ [l]) (result_ p) r) →
  good (tr ++ [l]) (mkProcess d ch gs (result_ p)).
Proof.
  intros [Hroom Hd Hrep Hn He] Hr Hd' Hp. assert (Hin : ∀ x, x ∈ tr → x ∈ tr ++ [l]) by set_solver.
  split; cbn [errCh goroutines result_ done]; try done.
  - intros r [H|H]%Hp; [|done]. eapply truthful_mono; [exact Hin|by intros e|by apply Hrep].
  - intros H. by apply Hin, Hn.
  - intros e H. by apply (truthful_mono tr _ (result_ p) (result_ p) (Some e) Hin (λ _ H, H)), He.
Qed.

(** What is pending once a goroutine is in another phase. *)
Lemma pending_phase p gs1 gs2 s ph ph' d res r :
  goroutines p = gs1 ++ (s, ph) :: gs2 →
  pending (mkProcess d (errCh p) (gs1 ++ (s, ph') :: gs2) res) r →
  pending p r ∨ ph' = Sending r.
Proof.
  intros Hg [H|[s' H]]; [left; by left|]. cbn [goroutines] in H.
  apply elem_of_app in H as [H|[H|H]%elem_of_cons].
  - left. right. exists s'. rewrite Hg. apply elem_of_app. by left.
  - right. by injection H as _ ->.
  - left. right. exists s'. rewrite Hg. apply elem_of_app. right. by right.
Qed.

Lemma good_ends_service cfg tr p gs1 gs2 s err :
  good tr p → goroutines p = gs1 ++ (s, Serving) :: gs2 → ends cfg (done p) s err →
  good (tr ++ [LEnds s err])
    (mkProcess (done p) (errCh p) (gs1 ++ (s, after_end s err) :: gs2) (result_ p)).
Proof.
  intros Hgood Hg He. pose proof Hgood as [Hroom Hd Hrep Hn Herr].
  assert (Hin : ∀ x, x ∈ tr → x ∈ tr ++ [LEnds s err]) by set_solver.
  assert (Hd' : done p = true → cancelled (tr ++ [LEnds s err]) (result_ p)).
  { intros H. exact (truthful_mono tr _ _ _ None Hin (λ _ H, H) (Hd H)). }
  apply good_later; [done| |done|].
  - rewrite Hg in Hroom. destruct (unfinished_step gs1 gs2 s Serving (after_end s err)) as [-> ?].
    repeat case_decide; try done; lia.
  - intros r [H|H]%(pending_phase p gs1 gs2 s Serving); [by left|right|done].
    unfold after_end in H. destruct (report s err) as [r'|] eqn:Er; [|done]. injection H as ->.
    destruct r as [e|]; [|by apply Hd', (ends_done cfg _ s err)].
    destruct err as [err|]; [|by destruct s]. exists s, err. split; [set_solver|done].
Qed.

Lemma good_sends_report tr p gs1 gs2 s r :
  good tr p → goroutines p = gs1 ++ (s, Sending r) :: gs2 →
  good (tr ++ [LSends s r])
    (mkProcess (done p) (errCh p ++ [r]) (gs1 ++ (s, Finished) :: gs2) (result_ p)).
Proof.
  intros Hgood Hg. pose proof Hgood as [Hroom Hd Hrep Hn Herr].
  assert (Hin : ∀ x, x ∈ tr → x ∈ tr ++ [LSends s r]) by set_solver.
  apply good_later; [done|..].
  - rewrite Hg in Hroom. destruct (unfinished_step gs1 gs2 s (Sending r) Finished) as [-> ?].
    rewrite length_app. cbn [length]. repeat case_decide; try done; lia.
  - intros H. exact (truthful_mono tr _ _ _ None Hin (λ _ H, H) (Hd H)).
  - intros r' [H|H]; left; cbn [errCh goroutines] in H.
    + apply elem_of_app in H as [H|H]; [by left|]. apply list_elem_of_singleton in H as ->.
      right. exists s. rewrite Hg. apply elem_of_app. right. by left.
    + destruct (pending_phase p gs1 gs2 s (Sending r) Finished (done p) (result_ p) r' Hg) as [|];
        [by right|done|done].
Qed.

Lemma good_step cfg tr l p p' : step cfg l p p' → good tr p → good (tr ++ [l]) p'.
Proof.
  intros Hs Hgood. pose proof Hgood as [Hroom Hd Hrep Hn Herr].
  assert (Hin : ∀ l x, x ∈ tr → x ∈ tr ++ [l : label]) by set_solver.
  destruct Hs as [p|p gs1 gs2 s err Hg He|p gs1 gs2 s r Hg Hlen|p Hnone Hdone|p r ch Hnone Hch].
  - apply good_later; [done|done|intros _; left; set_solver|by left].
  - by eapply good_ends_service.
  - by apply good_sends_report.
  - assert (LSignal ∈ tr) as Hsig.
    { destruct (Hd Hdone) as [|[e He]]; [done|congruence]. }
    split; cbn [errCh goroutines result_ done]; try done; try by intros; left; apply Hin.
    + intros r Hp. apply (truthful_mono tr _ (result_ p)); [apply Hin|by rewrite Hnone|by apply Hrep].
    + intros _. by apply Hin.
  - assert (Ht : truthful tr (result_ p) r) by (apply Hrep; left; rewrite Hch; by left).
    assert (Hres : ∀ e, result_ p = Some (Some e) → Some r = Some (Some e)) by (by rewrite Hnone).
    split; cbn [errCh goroutines result_ done].
    + rewrite Hch in Hroom. cbn [length] in Hroom. lia.
    + destruct r as [e|]; [intros _; right; by exists e|]. intros H.
      exact (truthful_mono tr _ _ _ None (Hin _) Hres (Hd H)).
    + intros r' Hp. apply (truthful_mono tr _ (result_ p)); [apply Hin|done|]. apply Hrep.
      destruct Hp as [Hp|Hp]; [left; rewrite Hch; by right|by right].
    + intros [= ->]. destruct Ht as [|[e He]]; [by apply Hin|congruence].
    + intros e [= ->].
      exact (truthful_mono tr _ _ (Some (Some e)) (Some e) (Hin _) Hres Ht).
Qed.

Lemma runs_good cfg tr p : runs cfg tr p → good tr p.
Proof.
  induction 1 as [|tr l p p' _ IH Hs]; [apply good_started|by eapply good_step].
Qed.

(** A goroutine that wants to send finds room. *)
Lemma good_sends tr p s r :
  good tr p → (s, Sending r) ∈ goroutines p → (length (errCh p) < capacity)%nat.
Proof.
  intros [Hroom _ _ _ _] (gs1 & gs2 & Hg)%list_elem_of_split. rewrite Hg in Hroom.
  unfold unfinished in Hroom. rewrite filter_app, filter_cons_True, length_app in Hroom by done.
  cbn [length] in Hroom. lia.
Qed.

(** A signal or a report on its way lets [run] end. *)
Lemma good_ends cfg tr p :
  good tr p → result_ p = None → done p = true ∨ (∃ r, pending p r) →
  ∃ p', leads cfg p p' ∧ is_Some (result_ p').
Proof.
  intros Hgood Hn [Hd|[r Hp]].
  - eexists. split; [apply rtc_once; eexists; by apply run_done|]. by eexists.
  - assert (∃ p1, leads cfg p p1 ∧ result_ p1 = None ∧ errCh p1 ≠ []) as (p1 & H1 & Hn1 & Hne).
    { destruct Hp as [Hin|[s Hin]].
      - exists p. split_and!; [done..|]. intros E. rewrite E in Hin. by apply elem_of_nil in Hin.
      - pose proof (good_sends tr p s r Hgood Hin) as Hroom.
        apply list_elem_of_split in Hin as (gs1 & gs2 & Hg).
        eexists. split; [apply rtc_once; eexists; by eapply sends|]. split; [done|]. cbn [errCh].
        intros E. by destruct (errCh p). }
    destruct (errCh p1) as [|r' ch] eqn:E; [done|].
    eexists. split; [eapply rtc_r; [exact H1|eexists; by eapply run_reported]|]. by eexists.
Qed.

(** ** The properties *)

(** C16: In every run of the process, for every interleaving of signals, services and
    [run]: a goroutine that has a report finds room in the channel, so none stays
    blocked after [run] has ended; [run] has returned nil only if there was a signal
    before, and an error only if a service ended with that error before, which is then
    the returned one with the name of the service; and once the context is done or a
    report is on its way, [run] can end. *)
Theorem process_ends_right (cfg : Config.t) (tr : list label) (p : process) :
  runs cfg tr p →
  (∀ s r, (s, Sending r) ∈ goroutines p → (length (errCh p) < capacity)%nat)
  ∧ (result_ p = Some None → LSignal ∈ tr)
  ∧ (∀ e, result_ p = Some (Some e) →
       ∃ s err, LEnds s (Some err) ∈ tr ∧ report s (Some err) = Some (Some e))
  ∧ (result_ p = None → done p = true ∨ (∃ r, pending p r) →
     ∃ p', leads cfg p p' ∧ is_Some (result_ p')).
Proof.
  intros H%runs_good. split_and!.
  - intros s r. by apply (good_sends tr).
  - apply (good_nil _ _ H).
  - apply (good_error _ _ H).
  - by apply (good_ends cfg tr).
Qed.

(** A transport that cannot listen. *)
Definition demo_failed : process :=
  let gs := (goroutines (started (Config.defaults "x"))) in
  mkProcess true [] (take (length gs - 1) gs ++ [(Transport, Finished)])
    (Some (Some "falló la escucha: in use")).

Definition demo_trace : list label :=
  let err := Some "falló la escucha: in use" in
  [LEnds Transport err; LSends Transport err; LReturns err].

Lemma demo_runs : runs (Config.defaults "x") demo_trace demo_failed.
Proof.
  set (gs := take (length (goroutines (started (Config.defaults "x"))) - 1)
               (goroutines (started (Config.defaults "x")))).
  unfold demo_trace. change [?a; ?b; ?c] with ((([] ++ [a]) ++ [b]) ++ [c]).
  eapply runs_step; [eapply runs_step; [eapply runs_step; [apply runs_start|]|]|].
  - eapply (service_ends _ _ gs [] Transport); [reflexivity|].
    eapply (transport_ends _ _ unit (Runtime.validator false (Config.defaults "x")) tt None
      Commands.commandRegistry (Ok tt) (Some "in use") []); [reflexivity|].
    by intros ?%elem_of_nil.
  - eapply sends; [reflexivity|]. cbn. unfold capacity. lia.
  - eapply run_reported; reflexivity.
Qed.

Lemma process_ends_right_witness :
  runs (Config.defaults "x") demo_trace demo_failed
  ∧ ∃ s err, LEnds s (Some err) ∈ demo_trace
             ∧ report s (Some err) = Some (Some "falló la escucha: in use").
Proof.
  split; [exact demo_runs|].
  apply (process_ends_right (Config.defaults "x") demo_trace demo_failed demo_runs). reflexivity.
Defined.

End Lifecycle.
