(* ===== verification/Program.v ===== *)
(** * The program from its first line ([cmd/server/main.go])

    [run] up to the start of the services: the configuration is loaded from the
    environment, then the logger, the telemetry, the metrics, the registries with their
    hooks, the authenticator and the transport are built from it; [main] turns the result
    of [run] into the exit code.  The machine is what the program finds: the environment,
    the files, the random source, the host.  The theorem composes the components: what
    the environment says decides what a connection of the running program can do. *)

From S2P Require Import Prelude GoStrings Secrets Auth RateLimiter Session Metrics Tunnels GoTime GoParse.
From S2P Require Import PathGuard Telemetry Validator Config Commands Conn TCPServer SSHServer Persistence Runtime.

Module Program.

(** ** The machine *)

Record machine := mkMachine {
  environ : GoParse.environ;
  readFile : string → option string;
  wd : result string string;
  rands : nat → Secrets.rand_read;
  host : result string string;
  resource_err : option string;
  exporters : Telemetry.exporter → option string;
  collectorNames : gset string;
  signer : result string unit;
  clock : Time;
  disk : Persistence.fs;
  saves : nat → list Persistence.outcome;
  rands_full n : Auth.reads_full (rands n);
}.

Definition authenticator : Type := {s : Auth.Service | Auth.default_users_wf s}.

(** What [run] has built when it starts the services. *)
Record program := mkProgram {
  cfg : Config.t;
  env : GoParse.environ;
  level : Telemetry.level;
  telemetry : Telemetry.state;
  shutdown : option Telemetry.Provider;
  metricServer : Metrics.MetricServer;
  service : authenticator;
  transport : result string (Runtime.transport authenticator * Conn.shared Tunnels.t);
  live : Runtime.live;
  logged : list string;
}.

(** ** The parts of [run] *)

(** The options given to [telemetry.Init]. *)
Definition telemetryConfig (cfg : Config.t) : Telemetry.Config :=
  Telemetry.mkConfig (Config.TelemetryEnabled cfg) (Config.AppName cfg) (Config.AppVersion cfg)
    (Config.Environment cfg) (Config.TelemetryExporter cfg) (Config.TelemetryEndpoint cfg)
    (Config.TelemetryInsecure cfg) (Config.TelemetrySampleRate cfg).

(** The provider that is shut down at the end: an error of [Init] is only a warning. *)
Definition shutdownOf (cfg : Config.t) (r : result string Telemetry.Provider)
    : option Telemetry.Provider :=
  match r with
  | Err _ => None
  | Ok p => if Config.TelemetryEnabled cfg then Some p else None
  end.

(** The hook of the session registry: a failing save is only a warning. *)
Definition onChange (m : machine) (cfg : Config.t) (now : Time) (items : list Session.Snapshot)
    (os : list Persistence.outcome) (σ : Persistence.fs) : Persistence.fs :=
  (Persistence.SaveSessions (wd m) (Some (Runtime.stateStore cfg)) now items os σ).2.

(** [auth.NewDefaultService]; the random source fills its buffers. *)
Definition NewDefaultService (m : machine) (env : GoParse.environ)
    : result string (authenticator * list string) :=
  match Auth.NewDefaultService env (rands m 1) (rands m 2) (rands m 3) (rands m 4) as r
        return (Auth.NewDefaultService env (rands m 1) (rands m 2) (rands m 3) (rands m 4) = r → _)
  with
  | Ok (s, logs) => λ E,
     Ok (exist _ s (Auth.NewDefaultService_wf _ _ _ _ _ _ _ (rands_full m 1) (rands_full m 2)
                      (rands_full m 3) (rands_full m 4) E), logs)
  | Err e => λ _, Err e
  end eq_refl.

(** [run] up to the services; an error is a panic. *)
Definition prepare (grpc : bool) (m : machine) : result string program :=
  let* '(cfg, env, logged1) := Config.Load (readFile m) (wd m) (rands m 0) (environ m) in
  let level := Telemetry.NewLogger (Config.LogLevel cfg) in
  let '(provider, tel) := Telemetry.Init (resource_err m) (exporters m) (host m)
                            (telemetryConfig cfg) Telemetry.initial in
  let* '(ms, _) := match Metrics.New (Config.MetricsAddr cfg) (collectorNames m) with
                   | Some r => Ok r
                   | None => Err "duplicate metrics collector registration attempted"
                   end in
  let σ := onChange m cfg (clock m) [] (saves m 0) (disk m) in
  let live := Runtime.initially (wd m) (Some (Runtime.stateStore cfg)) (clock m) (saves m 1) σ in
  let* '(service, logged2) := NewDefaultService m env in
  Ok (mkProgram cfg env level tel (shutdownOf cfg provider) ms service
        (Runtime.run grpc cfg service (signer m)) live (logged1 ++ logged2)).

(** [main]: the exit code and the text on standard error. *)
Definition main (result : option string) : Z * string :=
  match result with
  | Some err => (1%Z, "sentinelops: " +:+ err +:+ String (byte_of 10) "")
  | None => (0%Z, "")
  end.

(** ** Inversion *)

Lemma NewDefaultService_users m env a logs :
  NewDefaultService m env = Ok (a, logs) →
  Auth.NewDefaultService env (rands m 1) (rands m 2) (rands m 3) (rands m 4)
  = Ok (proj1_sig a, logs).
Proof.
  unfold NewDefaultService.
  assert (H : ∀ r (E : Auth.NewDefaultService env (rands m 1) (rands m 2) (rands m 3) (rands m 4) = r),
    match r as r return (_ = r → result string (authenticator * list string)) with
    | Ok (s, logs) => λ E,
       Ok (exist _ s (Auth.NewDefaultService_wf _ _ _ _ _ _ _ (rands_full m 1) (rands_full m 2)
                        (rands_full m 3) (rands_full m 4) E), logs)
    | Err e => λ _, Err e
    end E = Ok (a, logs) → r = Ok (proj1_sig a, logs)).
  { intros [[s l]|e] E; [|done]. by intros [= <- <-]. }
  apply H.
Qed.

Lemma prepare_inv grpc m b :
  prepare grpc m = Ok b →
  (∃ logs, Config.Load (readFile m) (wd m) (rands m 0) (environ m) = Ok (cfg b, env b, logs))
  ∧ (∃ logs, NewDefaultService m (env b) = Ok (service b, logs))
  ∧ transport b = Runtime.run grpc (cfg b) (service b) (signer m).
Proof.
  unfold prepare. destruct (Config.Load _ _ _ _) as [[[c e] l1]|]; [|done].
  destruct (Telemetry.Init _ _ _ _ _) as [provider tel].
  destruct (Metrics.New _ _) as [[ms reg]|]; [|done].
  destruct (NewDefaultService m e) as [[a l2]|] eqn:E; [|done].
  intros [= <-]. cbn [cfg env service transport]. split; [by eexists|]. split; [by eexists|done].
Qed.

Lemma run_tcp grpc cfg (a : authenticator) sg s lim shd :
  Runtime.run grpc cfg a sg = Ok (Runtime.TCP s lim, shd) →
  TCPServer.cfg s = cfg ∧ TCPServer.authenticator s = a.
Proof.
  unfold Runtime.run, Runtime.startTransport, TCPServer.NewTCPServer. cbv zeta.
  destruct (bool_decide _ || bool_decide _); [intros Hrun; by simplify_eq/=|].
  destruct (bool_decide _); [|done]. by destruct sg.
Qed.

Lemma Load_auth rf w r env0 c e l :
  Config.Load rf w r env0 = Ok (c, e, l) →
  Config.AuthEnabled c = Config.getBool e "APP_AUTH_ENABLED" true.
Proof.
  unfold Config.Load. destruct (if bool_decide _ then _ else _) as [[pw lg]|]; [|done].
  by intros [= <- <- _].
Qed.

(** ** The accounts *)

Definition accounts : list string := ["student"; "teacher"; "auditor"; "admin"].

(** The variable that sets the password of an account. *)
Definition lab_key (name : string) : string :=
  if bool_decide (name = "student") then "LAB_PASSWORD_STUDENT"
  else if bool_decide (name = "teacher") then "LAB_PASSWORD_TEACHER"
  else if bool_decide (name = "auditor") then "LAB_PASSWORD_AUDITOR"
  else "LAB_PASSWORD_ADMIN".

(** The variable that sets it when the first does not. *)
Definition app_key (name : string) : string :=
  if bool_decide (name = "student") then "APP_AUTH_STUDENT_PASSWORD"
  else if bool_decide (name = "teacher") then "APP_AUTH_TEACHER_PASSWORD"
  else if bool_decide (name = "auditor") then "APP_AUTH_AUDITOR_PASSWORD"
  else "APP_AUTH_ADMIN_PASSWORD".

(** The reading of the random source from which its password is generated. *)
Definition reading (name : string) : nat :=
  if bool_decide (name = "student") then 1
  else if bool_decide (name = "teacher") then 2
  else if bool_decide (name = "auditor") then 3
  else 4.

(** The value a variable gives to a password: the empty text gives none. *)
Definition setting (env : GoParse.environ) (key : string) : option string :=
  match env !! key with
  | Some v => if bool_decide (v = "") then None else Some v
  | None => None
  end.

(** The one password of an account: what the first variable sets, else what the second
    sets, else twenty characters generated from the reading of that account. *)
Definition account_password (m : machine) (env : GoParse.environ) (name p : string) : Prop :=
  match setting env (lab_key name), setting env (app_key name) with
  | Some v, _ => p = v
  | None, Some v => p = v
  | None, None => Secrets.GeneratePassword (rands m (reading name)) 20 = Ok p
  end.

Lemma newUserRecord_password env rand user role k1 k2 rec logs :
  Auth.newUserRecord env rand user role [k1; k2] = Ok (rec, logs) →
  match setting env k1, setting env k2 with
  | Some v, _ => Auth.password rec = v
  | None, Some v => Auth.password rec = v
  | None, None => Secrets.GeneratePassword rand 20 = Ok (Auth.password rec)
  end.
Proof.
  cbn [Auth.newUserRecord]. unfold setting.
  destruct (Secrets.GeneratePassword rand 20) as [g|];
    destruct (env !! k1) as [v1|]; [case_bool_decide|..|case_bool_decide|];
    destruct (env !! k2) as [v2|]; try case_bool_decide; cbn; intros E; by simplify_eq/=.
Qed.

Lemma default_passwords m env s logs name rec :
  Auth.NewDefaultService env (rands m 1) (rands m 2) (rands m 3) (rands m 4) = Ok (s, logs) →
  name ∈ accounts → Auth.users s !! name = Some rec →
  account_password m env name (Auth.password rec).
Proof.
  unfold Auth.NewDefaultService, accounts. intros H Hn Hu.
  destruct (Auth.newUserRecord env (rands m 1) _ _ _) as [[u1 l1]|] eqn:E1; [|discriminate H].
  destruct (Auth.newUserRecord env (rands m 2) _ _ _) as [[u2 l2]|] eqn:E2; [|discriminate H].
  destruct (Auth.newUserRecord env (rands m 3) _ _ _) as [[u3 l3]|] eqn:E3; [|discriminate H].
  destruct (Auth.newUserRecord env (rands m 4) _ _ _) as [[u4 l4]|] eqn:E4; [|discriminate H].
  injection H as <- _. cbn [Auth.users fst] in Hu.
  apply newUserRecord_password in E1, E2, E3, E4. rewrite !lookup_insert, lookup_empty in Hu.
  repeat (apply elem_of_cons in Hn as [->|Hn]; [cbn in Hu; injection Hu as <-; assumption|]).
  by apply elem_of_nil in Hn.
Qed.

(** ** The theorem *)

(** C3: from the environment to a command.  In the program as [run] builds it from the
    environment and its file, with the TCP transport: unless the environment switches
    the login off with a boolean that parses, a command runs on a connection only after
    the peer, on this connection and let through by the rate limiter, has named one of
    the four accounts and given its password: the one its first variable sets, else the
    one its second variable sets, else the one generated for it at the start; and the
    command runs with the name and the role of that account. *)
Theorem program_requires_login `{MR : MapRange} (grpc : bool) (m : machine) (b : program)
    (s : TCPServer.TCPServer authenticator) (lim : option RateLimiter.t)
    (shd : Conn.shared Tunnels.t) (ρ : Conn.env Tunnels.t) (sequence : Z) (remote : string)
    (sh0 : Conn.shared Tunnels.t) (ins : list Conn.read_event) (l1 l2 : list Conn.event)
    (cmd : Commands.Command) (args : list string) (sess : Session.t) (out : result string string) :
  prepare grpc m = Ok b → transport b = Ok (Runtime.TCP s lim, shd) →
  ¬ Config.says (env b) "APP_AUTH_ENABLED" false →
  Conn.log (TCPServer.handleConnection ρ s sequence remote sh0 ins).2
    = l1 ++ Conn.EvExecute cmd args sess out :: l2 →
  ∃ name u p la lb, name ∈ accounts
    ∧ l1 = la ++ Conn.EvAllow (RateLimiter.Key remote u) true
              :: Conn.EvAuthenticate u p (Ok (Auth.mkIdentity name name)) :: lb
    ∧ TrimSpace (ToLower u) = name ∧ p ≠ ""
    ∧ account_password m (env b) name p
    ∧ Session.Username sess = name ∧ Session.Role sess = name.
Proof.
  intros Hb Ht Hs Hlog. apply prepare_inv in Hb as ([logs Hload] & [logs' Hsvc] & Htr).
  rewrite Htr in Ht. apply run_tcp in Ht as [Hc Ha].
  assert (Hen : Config.AuthEnabled (TCPServer.cfg s) = true).
  { rewrite Hc, (Load_auth _ _ _ _ _ _ _ Hload).
    destruct (Config.getBool (env b) "APP_AUTH_ENABLED" true) eqn:E; [done|].
    destruct Hs. by apply Config.getBool_says in E. }
  destruct (TCPServer.execute_gated ρ s sequence remote sh0 ins l1 l2 cmd args sess out Hlog)
    as [_ Hg]. destruct (Hg Hen) as (la & lb & u & p & i & Hl & Hauth & Hu & Hr & _).
  rewrite Ha in Hauth. destruct (service b) as [svc Hwf] eqn:Es. cbn in Hauth.
  apply Auth.Authenticate_ok in Hauth as (rec & Hrec & Hp & Hne & Hi).
  destruct (proj1 Hwf _ _ Hrec) as (Hrole & _ & Hin). rewrite Hi in Hu, Hr, Hl.
  cbn [Auth.Username Auth.IRole] in Hu, Hr. rewrite Hrole in Hr, Hl.
  exists (TrimSpace (ToLower u)), u, p, la, lb. split_and!; try done.
  rewrite <-Hp. apply NewDefaultService_users in Hsvc. cbn [proj1_sig] in Hsvc.
  by eapply default_passwords.
Qed.

(** A machine with the password of one account set. *)
Definition demo_machine : machine.
Proof.
  refine (mkMachine {["LAB_PASSWORD_ADMIN" := "s3cret"; "EXTERNAL_VALIDATOR_ENABLED" := "false"]}
            (λ _, None) (Ok "/srv")
            (λ _, Auth.demo_rand) (Ok "lab") None (λ _, None) ∅ (Ok tt) 0%Z
            Persistence.demo_fs (λ _, []) _).
  intros _ n bs [= <-]. apply length_replicate.
Defined.

Definition is_execute (e : Conn.event) : bool :=
  match e with Conn.EvExecute _ _ _ _ => true | _ => false end.

Definition demo_lines : list Conn.read_event :=
  [Conn.Line "Admin"; Conn.Line "s3cret"; Conn.Line "whoami"].

(** The program is built, has the TCP transport, and runs a command for the admin. *)
Definition demo_runs (b : program) : bool :=
  bool_decide (env b !! "APP_AUTH_ENABLED" = None)
  && match transport b with
     | Ok (Runtime.TCP s _, shd) =>
        existsb is_execute
          (Conn.log (TCPServer.handleConnection TCPServer.demo_env s 0 "10.0.0.9:4000" shd demo_lines).2)
     | _ => false
     end.

Lemma demo_prepared :
  match prepare false demo_machine with Ok b => demo_runs b | Err _ => false end = true.
Proof. vm_compute. reflexivity. Qed.

Lemma program_requires_login_witness :
  ∃ b s lim shd l1 cmd args sess out l2,
    prepare false demo_machine = Ok b ∧ transport b = Ok (Runtime.TCP s lim, shd)
    ∧ Conn.log (TCPServer.handleConnection TCPServer.demo_env s 0 "10.0.0.9:4000" shd demo_lines).2
      = l1 ++ Conn.EvExecute cmd args sess out :: l2
    ∧ ∃ name p, name ∈ accounts ∧ account_password demo_machine (env b) name p
                ∧ Session.Role sess = name.
Proof.
  pose proof demo_prepared as H. destruct (prepare false demo_machine) as [b|e] eqn:Eb;
    [|discriminate H].
  apply andb_prop in H as [He H]. apply bool_decide_eq_true in He.
  destruct (transport b) as [[[s lim|s lim] shd]|e] eqn:Et; try discriminate H.
  apply existsb_exists in H as (ev & Hin & Hev). apply list_elem_of_In, list_elem_of_split in Hin.
  destruct Hin as (l1 & l2 & Hl). destruct ev as [| | | | | | | | |cmd args sess out| | | | | | | | | | |];
    try discriminate Hev.
  exists b, s, lim, shd, l1, cmd, args, sess, out, l2.
  split; [reflexivity|]. split; [exact Et|]. split; [exact Hl|].
  assert (Hs : ¬ Config.says (env b) "APP_AUTH_ENABLED" false).
  { intros (v & Hv & _). rewrite He in Hv. discriminate Hv. }
  destruct (program_requires_login false demo_machine b s lim shd TCPServer.demo_env 0 "10.0.0.9:4000"
    shd demo_lines l1 l2 cmd args sess out Eb Et Hs Hl) as (name & u & p & la & lb & Hn & _ & _ & _ & Hp & _ & Hr).
  exists name, p. split; [exact Hn|]. split; [exact Hp|exact Hr].
Defined.

End Program.
